(** * fb-group-scraper: the ledger, the classifier and the crawl loop

    A shallow embedding of the parts of [filterPosts.py], [run_filters.py]
    and [scrapePosts.py] that decide what is written to the outcome ledgers,
    how a URL is turned into an identity key, how a post is classified and
    when the crawl loop stops.

    Conventions.
    - A Python [str] is a list of Unicode code points ([N]).
    - A CSV file is the list of its records (each a list of fields), or
      [None] when the file does not exist; quoting is the business of the
      [csv] module and is not modelled.
    - External collaborators (the two scraping sub-processes, the browser)
      appear as the values they return. *)

From Stdlib Require Import List NArith Bool Lia String Ascii Arith.
Import ListNotations.

Set Implicit Arguments.
Local Open Scope N_scope.

(* ------------------------------------------------------------------ *)
(** ** Python strings *)

Module Py.

Definition char := N.
Definition str := list char.

Definition of_string (s : string) : str :=
  map N_of_ascii (list_ascii_of_string s).

Definition eqb (a b : str) : bool :=
  if list_eq_dec N.eq_dec a b then true else false.

(** Truthiness of a string: [bool(s)]. *)
Definition truthy (s : str) : bool :=
  match s with [] => false | _ => true end.

(** [a or b] on strings. *)
Definition or_ (a b : str) : str := if truthy a then a else b.

(** [x or ""] where [x] may be [None]. *)
Definition or_empty (x : option str) : str :=
  match x with Some s => s | None => [] end.

(** [str.isspace] on one code point; the same class is [\s] of [re] for
    [str] patterns. *)
Definition isspace (c : char) : bool :=
  ((9 <=? c) && (c <=? 13)) || ((28 <=? c) && (c <=? 32))
  || (c =? 0x85) || (c =? 0xA0) || (c =? 0x1680)
  || ((0x2000 <=? c) && (c <=? 0x200A))
  || (c =? 0x2028) || (c =? 0x2029) || (c =? 0x202F)
  || (c =? 0x205F) || (c =? 0x3000).
Global Arguments isspace : simpl never.

Fixpoint dropwhile (p : char -> bool) (s : str) : str :=
  match s with
  | [] => []
  | c :: t => if p c then dropwhile p t else s
  end.

Definition lstrip_by (p : char -> bool) (s : str) : str := dropwhile p s.
Definition rstrip_by (p : char -> bool) (s : str) : str :=
  rev (dropwhile p (rev s)).

(** [s.strip()] *)
Definition strip (s : str) : str := rstrip_by isspace (lstrip_by isspace s).

(** [s.rstrip("/")] *)
Definition rstrip_slash (s : str) : str := rstrip_by (N.eqb 47) s.

Fixpoint startswith (p s : str) : bool :=
  match p, s with
  | [], _ => true
  | a :: p', b :: s' => (a =? b) && startswith p' s'
  | _ :: _, [] => false
  end.

(** [needle in s] *)
Fixpoint contains (needle s : str) : bool :=
  startswith needle s ||
  match s with
  | [] => false
  | _ :: t => contains needle t
  end.

(** [s.replace(old, new)] for a non-empty [old]: occurrences are replaced
    from the left and do not overlap.  [skip] counts the characters of an
    occurrence still to be dropped. *)
Fixpoint replace_from (old new : str) (skip : nat) (s : str) : str :=
  match s with
  | [] => []
  | c :: t =>
      match skip with
      | S k => replace_from old new k t
      | O => if startswith old s
             then new ++ replace_from old new (List.length old - 1)%nat t
             else c :: replace_from old new 0 t
      end
  end.

Definition replace (old new s : str) : str := replace_from old new 0 s.

(** [s.split(sep, 1)[0]] for a one-character separator. *)
Fixpoint before (sep : char) (s : str) : str :=
  match s with
  | [] => []
  | c :: t => if c =? sep then [] else c :: before sep t
  end.

(** [s.lower()].  ASCII capitals are mapped to small letters.  Of the
    code points above 127 only U+0130 and U+212A have a lower-case form
    containing an ASCII character; they are mapped as Python maps them.
    Every other code point is left as it is: its lower-case form holds no
    ASCII character, so searches for ASCII needles are not affected. *)
Definition lower1 (c : char) : str :=
  if (65 <=? c) && (c <=? 90) then [c + 32]
  else if c =? 0x130 then [0x69; 0x307]
  else if c =? 0x212A then [0x6B]
  else [c].

Definition lower (s : str) : str := flat_map lower1 s.

(** Decimal rendering, [str(n)]. *)
Fixpoint digits_fuel (fuel : nat) (n : N) (acc : str) : str :=
  match fuel with
  | O => acc
  | S f =>
      let acc' := (48 + N.modulo n 10) :: acc in
      if n <? 10 then acc' else digits_fuel f (N.div n 10) acc'
  end.

Definition str_of_N (n : N) : str := digits_fuel (S (N.to_nat (N.log2 n))) n [].

(** [len(l) == 0] *)
Definition is_empty {A} (l : list A) : bool :=
  match l with [] => true | _ => false end.

(** [sep.join(parts)] *)
Fixpoint join (sep : str) (parts : list str) : str :=
  match parts with
  | [] => []
  | [p] => p
  | p :: rest => p ++ sep ++ join sep rest
  end.


(** [a < b] on strings: code point by code point, a proper prefix
    first. *)
Fixpoint str_ltb (a b : str) : bool :=
  match a, b with
  | _, [] => false
  | [], _ :: _ => true
  | x :: a', y :: b' => (x <? y) || ((x =? y) && str_ltb a' b')
  end.

(** A [set] of strings, kept as a list without duplicates; the order of
    the list stands for nothing. *)
Definition in_set (x : str) (s : list str) : bool := existsb (eqb x) s.

Definition set_add (x : str) (s : list str) : list str :=
  if in_set x s then s else s ++ [x].

Definition set_union (a b : list str) : list str :=
  fold_left (fun s x => set_add x s) b a.

Definition set_diff (a b : list str) : list str :=
  filter (fun x => negb (in_set x b)) a.

(** [sorted(s)] *)
Fixpoint insert_sorted (x : str) (l : list str) : list str :=
  match l with
  | [] => [x]
  | y :: t => if str_ltb y x then y :: insert_sorted x t else x :: l
  end.

Definition sorted (l : list str) : list str := fold_right insert_sorted [] l.

End Py.

Abbreviation py := Py.of_string.

(* ------------------------------------------------------------------ *)
(** ** A small regular-expression matcher

    Enough of [re] for the patterns of the source: literals, [\s],
    concatenation, alternation, [?], [*] and [+]; [search] semantics
    (a match anywhere); [re.I] on literals. *)

Module Re.

Import Py.

Inductive re : Type :=
| Eps : re
| Nul : re
| Lit : char -> re          (* a literal, matched as written *)
| LitI : char -> re         (* a literal under re.I *)
| Space : re                (* \s *)
| Cat : re -> re -> re
| Alt : re -> re -> re
| Star : re -> re.

Definition Opt (r : re) : re := Alt r Eps.
Definition Plus (r : re) : re := Cat r (Star r).

(** Case-insensitive comparison of a pattern letter (given in lower case)
    with a text character, as [re.I] does on [str] patterns: the two
    cases of the letter, and the extra code points the engine folds onto
    [i], [k] and [s]. *)
Definition ci_match (l c : char) : bool :=
  (c =? l)
  || ((97 <=? l) && (l <=? 122) && (c =? l - 32))
  || ((l =? 0x69) && ((c =? 0x130) || (c =? 0x131)))
  || ((l =? 0x6B) && (c =? 0x212A))
  || ((l =? 0x73) && (c =? 0x17F)).

Fixpoint nullable (r : re) : bool :=
  match r with
  | Eps => true
  | Nul => false
  | Lit _ | LitI _ | Space => false
  | Cat a b => nullable a && nullable b
  | Alt a b => nullable a || nullable b
  | Star _ => true
  end.

Fixpoint deriv (c : char) (r : re) : re :=
  match r with
  | Eps | Nul => Nul
  | Lit l => if c =? l then Eps else Nul
  | LitI l => if ci_match l c then Eps else Nul
  | Space => if isspace c then Eps else Nul
  | Cat a b =>
      if nullable a then Alt (Cat (deriv c a) b) (deriv c b)
      else Cat (deriv c a) b
  | Alt a b => Alt (deriv c a) (deriv c b)
  | Star a => Cat (deriv c a) (Star a)
  end.

(** Some prefix of [s] matches [r]. *)
Fixpoint match_prefix (r : re) (s : str) : bool :=
  nullable r ||
  match s with
  | [] => false
  | c :: t => match_prefix (deriv c r) t
  end.

(** [re.search(r, s) is not None] *)
Fixpoint search (r : re) (s : str) : bool :=
  match_prefix r s ||
  match s with
  | [] => false
  | _ :: t => search r t
  end.

(** A word of the pattern, every letter under [re.I]. *)
Definition wordI (w : str) : re := fold_right (fun c r => Cat (LitI c) r) Eps w.

Definition cat_all (rs : list re) : re := fold_right Cat Eps rs.
Definition alt_all (rs : list re) : re := fold_right Alt Nul rs.

End Re.

(* ------------------------------------------------------------------ *)
(** ** CSV files as the [csv] module presents them *)

Module Csv.

Import Py.

Definition row := list str.

(** A path holds a file (its records, header first) or nothing. *)
Definition file := option (list row).

(** A Python dict with string keys, in insertion order; assigning to a
    key that is present keeps its position. *)
Definition dict (V : Type) := list (str * V).

Fixpoint dict_set {V} (k : str) (v : V) (d : dict V) : dict V :=
  match d with
  | [] => [(k, v)]
  | (k', v') :: t => if eqb k' k then (k', v) :: t else (k', v') :: dict_set k v t
  end.

Fixpoint dict_get {V} (k : str) (d : dict V) : option V :=
  match d with
  | [] => None
  | (k', v) :: t => if eqb k' k then Some v else dict_get k t
  end.

Definition dict_has {V} (k : str) (d : dict V) : bool :=
  match dict_get k d with Some _ => true | None => false end.

(** [DictReader.fieldnames]: the first record, [None] for an empty file. *)
Definition fieldnames (rows : list row) : option (list str) :=
  match rows with
  | [] => None
  | h :: _ => Some h
  end.

(** One record as [DictReader.__next__] builds it:
    [dict(zip(fieldnames, row))], then [restval = None] under the field
    names the record is too short for.  (Surplus fields go under the key
    [None], which no string key can reach.) *)
Definition record (fns : list str) (r : row) : dict (option str) :=
  let d := fold_left (fun d kv => dict_set (fst kv) (Some (snd kv)) d)
                     (combine fns r) [] in
  fold_left (fun d k => dict_set k None d) (skipn (List.length r) fns) d.

(** [row.get(col)] *)
Definition get (col : str) (d : dict (option str)) : option str :=
  match dict_get col d with
  | Some v => v
  | None => None
  end.

Definition is_blank (r : row) : bool :=
  match r with [] => true | _ => false end.

(** The records a [DictReader] yields: those after the header, blank
    ones skipped. *)
Definition dictreader (rows : list row) : list (dict (option str)) :=
  match rows with
  | [] => []
  | h :: body => map (record h) (filter (fun r => negb (is_blank r)) body)
  end.

End Csv.

(* ------------------------------------------------------------------ *)
(** ** The files, and a monad for the scripts' side effects *)

Module Sys.

Import Py.

(** The files the scripts share. *)
Inductive path : Type :=
| CSV_ACCEPTED      (* output/filtered_post.csv *)
| CSV_NONADMIN      (* output/filtered_post_non_admin.csv *)
| CSV_REJECTED      (* output/rejected_post.csv *)
| CSV_LOG           (* log/filter_log.csv *)
| DONE_FILE         (* state/done_urls.csv *)
| OUT_CSV.          (* input/group_post_urls.csv, the pending work-list *)

Definition path_eqb (a b : path) : bool :=
  match a, b with
  | CSV_ACCEPTED, CSV_ACCEPTED | CSV_NONADMIN, CSV_NONADMIN
  | CSV_REJECTED, CSV_REJECTED | CSV_LOG, CSV_LOG
  | DONE_FILE, DONE_FILE | OUT_CSV, OUT_CSV => true
  | _, _ => false
  end.

Definition name (p : path) : str :=
  match p with
  | CSV_ACCEPTED => py "filtered_post.csv"
  | CSV_NONADMIN => py "filtered_post_non_admin.csv"
  | CSV_REJECTED => py "rejected_post.csv"
  | CSV_LOG => py "filter_log.csv"
  | DONE_FILE => py "done_urls.csv"
  | OUT_CSV => py "group_post_urls.csv"
  end.

(** The file system: what each of the paths holds. *)
Record FS : Type := mkFS {
  csv_accepted : Csv.file;
  csv_nonadmin : Csv.file;
  csv_rejected : Csv.file;
  csv_log : Csv.file;
  done_file : Csv.file;
  out_csv : Csv.file
}.

Definition fget (f : FS) (p : path) : Csv.file :=
  match p with
  | CSV_ACCEPTED => csv_accepted f
  | CSV_NONADMIN => csv_nonadmin f
  | CSV_REJECTED => csv_rejected f
  | CSV_LOG => csv_log f
  | DONE_FILE => done_file f
  | OUT_CSV => out_csv f
  end.

Coercion fget : FS >-> Funclass.

Definition fs_set (p : path) (x : Csv.file) (f : FS) : FS :=
  match p with
  | CSV_ACCEPTED => mkFS x (csv_nonadmin f) (csv_rejected f) (csv_log f) (done_file f) (out_csv f)
  | CSV_NONADMIN => mkFS (csv_accepted f) x (csv_rejected f) (csv_log f) (done_file f) (out_csv f)
  | CSV_REJECTED => mkFS (csv_accepted f) (csv_nonadmin f) x (csv_log f) (done_file f) (out_csv f)
  | CSV_LOG => mkFS (csv_accepted f) (csv_nonadmin f) (csv_rejected f) x (done_file f) (out_csv f)
  | DONE_FILE => mkFS (csv_accepted f) (csv_nonadmin f) (csv_rejected f) (csv_log f) x (out_csv f)
  | OUT_CSV => mkFS (csv_accepted f) (csv_nonadmin f) (csv_rejected f) (csv_log f) (done_file f) x
  end.

(** No file exists yet. *)
Definition no_files : FS := mkFS None None None None None None.

(** What a file object is asked to do, in order. *)
Inductive io : Type :=
| IoOpen (p : path) (append : bool)
| IoWrite (p : path) (rows : list Csv.row)
| IoFlush (p : path)
| IoFsync (p : path)
| IoClose (p : path).

(** The two scraping scripts run as sub-processes. *)
Inductive script : Type := POST_COMMENTS | POST_DETAILS.

Record World : Type := mkWorld {
  fs : FS;
  stdout : list str;              (* text printed so far, oldest first *)
  calls : list (script * str);    (* sub-processes started, oldest first *)
  trace : list io;                (* file operations, oldest first *)
  crash : option nat              (* durable sub-steps left before the
                                     process is killed; [None]: never *)
}.

(** How a computation ends: with a value, by [sys.exit], or killed. *)
Inductive ending (A : Type) : Type :=
| Ret (a : A)
| Exit (code : N)
| Killed.
Arguments Ret {A} a.
Arguments Exit {A} code.
Arguments Killed {A}.

Definition M (A : Type) : Type := World -> ending A * World.

Definition ret {A} (a : A) : M A := fun w => (Ret a, w).

Definition bind {A B} (m : M A) (k : A -> M B) : M B :=
  fun w =>
    match m w with
    | (Ret a, w') => k a w'
    | (Exit c, w') => (Exit c, w')
    | (Killed, w') => (Killed, w')
    end.

Definition sys_exit {A} (code : N) : M A := fun w => (Exit code, w).

(** [print(s)]: the text and the newline [print] adds. *)
Definition print (s : str) : M unit :=
  fun w => (Ret tt, mkWorld (fs w) (stdout w ++ [s ++ [10]]) (calls w) (trace w) (crash w)).

Definition started (sc : script) (url : str) : M unit :=
  fun w => (Ret tt, mkWorld (fs w) (stdout w) (calls w ++ [(sc, url)]) (trace w) (crash w)).

Definition read_file (p : path) : M Csv.file := fun w => (Ret (fs w p), w).

Definition emit (e : io) : M unit :=
  fun w => (Ret tt, mkWorld (fs w) (stdout w) (calls w) (trace w ++ [e]) (crash w)).

Definition put_file (p : path) (f : Csv.file) : M unit :=
  fun w => (Ret tt, mkWorld (fs_set p f (fs w)) (stdout w) (calls w) (trace w) (crash w)).

(** A point at which the process may be killed: before each sub-step
    that writes. *)
Definition substep : M unit :=
  fun w =>
    match crash w with
    | None => (Ret tt, w)
    | Some O => (Killed, w)
    | Some (S k) => (Ret tt, mkWorld (fs w) (stdout w) (calls w) (trace w) (Some k))
    end.

(** [open(p, "w")]: the file is created or truncated. *)
Definition open_w (p : path) : M unit :=
  bind (emit (IoOpen p false)) (fun _ => put_file p (Some [])).

(** [open(p, "a")]: the file is created when missing. *)
Definition open_a (p : path) : M unit :=
  bind (emit (IoOpen p true)) (fun _ =>
  bind (read_file p) (fun f =>
  match f with
  | None => put_file p (Some [])
  | Some _ => ret tt
  end)).

(** [writer.writerows(rows)] on an open file. *)
Definition write_rows (p : path) (rows : list Csv.row) : M unit :=
  bind (emit (IoWrite p rows)) (fun _ =>
  bind (read_file p) (fun f =>
  put_file p (Some (match f with Some old => old | None => [] end ++ rows)))).

Definition flush (p : path) : M unit := emit (IoFlush p).
Definition fsync (p : path) : M unit := emit (IoFsync p).
Definition close (p : path) : M unit := emit (IoClose p).

Definition run {A} (m : M A) (w : World) : World := snd (m w).

End Sys.

Notation "x <- m ;; k" := (Sys.bind m (fun x => k))
  (at level 61, m at next level, right associativity).
Notation "m ;;; k" := (Sys.bind m (fun _ => k))
  (at level 61, right associativity).

(* ------------------------------------------------------------------ *)
(** ** filterPosts.py *)

Module FilterPosts.

Import Py Re Sys.

(** *** Targets: common and scientific names *)

Definition ws_plus : re := Plus Space.      (* \s+ *)
Definition ws_star : re := Star Space.      (* \s* *)

Definition COMMON_NAMES : list re :=
  [ cat_all [wordI (py "philippine"); ws_plus; wordI (py "cobra")];
    cat_all [wordI (py "philippines"); ws_plus; wordI (py "cobra")];
    cat_all [wordI (py "phillipine"); ws_plus; wordI (py "cobra")];
    cat_all [wordI (py "ph"); ws_plus; wordI (py "cobra")];
    cat_all [wordI (py "samar"); ws_plus; wordI (py "cobra")];
    cat_all [wordI (py "king"); ws_plus; wordI (py "cobra")];
    cat_all [wordI (py "philippine"); ws_plus; wordI (py "spitting");
             ws_plus; wordI (py "cobra")] ].

Definition SCIENTIFIC_NAMES : list re :=
  [ cat_all [wordI (py "naja"); ws_plus; wordI (py "philippinensis")];
    cat_all [wordI (py "naja"); ws_plus; wordI (py "samarensis")];
    cat_all [wordI (py "ophiophagus"); ws_plus; wordI (py "hannah")];
    cat_all [Opt (Lit 40); ws_star; wordI (py "naja"); ws_star;
             wordI (py "sp"); Opt (Lit 46); ws_star; Opt (Lit 41)];
    cat_all [Opt (Lit 40); ws_star; wordI (py "naja"); ws_star;
             wordI (py "spp"); Opt (Lit 46); ws_star; Opt (Lit 41)] ].

Definition TARGET_PATTERNS : list re := COMMON_NAMES ++ SCIENTIFIC_NAMES.

(** *** Text utilities *)

(** The sans-serif italic capitals U+1D608.. and small letters U+1D622.. *)
Definition _SANS_ITALIC_UP : str := map (fun i => 0x1D608 + N.of_nat i) (seq 0 26).
Definition _ASCII_UP : str := py "ABCDEFGHIJKLMNOPQRSTUVWXYZ".
Definition _SANS_ITALIC_LO : str := map (fun i => 0x1D622 + N.of_nat i) (seq 0 26).
Definition _ASCII_LO : str := py "abcdefghijklmnopqrstuvwxyz".

Definition _SANSTRANS : list (char * char) :=
  combine _SANS_ITALIC_UP _ASCII_UP ++ combine _SANS_ITALIC_LO _ASCII_LO.

Fixpoint table_get (c : char) (t : list (char * char)) : option char :=
  match t with
  | [] => None
  | (k, v) :: t' => if c =? k then Some v else table_get c t'
  end.

(** [s.translate(table)] *)
Definition translate (t : list (char * char)) (s : str) : str :=
  map (fun c => match table_get c t with Some a => a | None => c end) s.

Definition normalize_fancy_letters (s : str) : str :=
  if negb (truthy s) then [] else translate _SANSTRANS s.

(** [re.sub(p+, " ", s)] for a character class [p]: every maximal run of
    class members becomes one space.  [in_run] tells that the run being
    read has already produced its space. *)
Fixpoint sub_runs (p : char -> bool) (in_run : bool) (s : str) : str :=
  match s with
  | [] => []
  | c :: t =>
      if p c then (if in_run then sub_runs p true t else 32 :: sub_runs p true t)
      else c :: sub_runs p false t
  end.

Definition is_crlftab (c : char) : bool := (c =? 13) || (c =? 10) || (c =? 9).

(** [re.sub(r"\s{2,}", " ", s)]: maximal whitespace runs of length two or
    more become one space; a whitespace character on its own stays. *)
Fixpoint sub_ws2 (in_run : bool) (s : str) : str :=
  match s with
  | [] => []
  | c :: t =>
      if isspace c then
        if in_run then sub_ws2 true t
        else match t with
             | d :: _ => if isspace d then 32 :: sub_ws2 true t
                         else c :: sub_ws2 false t
             | [] => [c]
             end
      else c :: sub_ws2 false t
  end.

Definition oneline (s : option str) : str :=
  match s with
  | None => []
  | Some s =>
      if negb (truthy s) then []
      else
        let s := normalize_fancy_letters s in
        let s := sub_runs is_crlftab false s in
        let s := sub_ws2 false s in
        strip s
  end.

Definition no_newline (s : str) : bool := forallb (fun c => negb (c =? 10)) s.

Definition only_final_newline (s : str) : bool :=
  match rev s with
  | c :: r => (c =? 10) && no_newline r
  | [] => false
  end.

(** [re.sub(r"[?#].*$", "", u)]: [.] stops at a newline and [$] holds at
    the end or before a final newline, so the cut is made at the first
    [?] or [#] that has no newline after it other than a final one. *)
Fixpoint sub_query_frag (s : str) : str :=
  match s with
  | [] => []
  | c :: t =>
      if (c =? 63) || (c =? 35) then
        if no_newline t then []
        else if only_final_newline t then [10]
        else c :: sub_query_frag t
      else c :: sub_query_frag t
  end.

Definition normalize_url (u : str) : str :=
  if negb (truthy u) then []
  else
    let u := strip u in
    let u := replace (py "://facebook.") (py "://www.facebook.")
               (replace (py "://m.facebook.") (py "://www.facebook.") u) in
    let u := sub_query_frag u in
    rstrip_slash u.

Definition text_matches_targets (text : option str) : bool :=
  match text with
  | None => false
  | Some text =>
      if negb (truthy text) then false
      else
        let t := oneline (Some text) in
        existsb (fun pat => search pat t) TARGET_PATTERNS
  end.

Definition has_admin_tag (text : option str) : bool :=
  match text with
  | None => false
  | Some text => truthy text && contains (py "#admin") (lower text)
  end.

(** *** Comments as the comments script returns them

    A missing key and [None] read the same through [c.get(k) or ""];
    flags are kept by their truth value. *)

Inductive badge : Type :=
| BadgeStr (label : str)
| BadgeDict (label name : str)
| BadgeOther.

Record StaffFlags : Type := mkFlags {
  f_group_staff : bool;
  f_is_admin : bool;
  f_is_moderator : bool
}.

Record Comment : Type := mkComment {
  commenter : str;
  text : str;
  flags : StaffFlags;
  role : str;
  badges : option (list badge);         (* [None]: not a list *)
  commenter_info : StaffFlags
}.

(** The staff file: its lines, or [None] when it does not exist. *)
Definition load_staff_names (staff_file : option (list str)) : list str :=
  match staff_file with
  | None => []
  | Some lines =>
      flat_map (fun line => let name := strip line in
                            if truthy name then [lower name] else []) lines
  end.

Definition in_list (x : str) (l : list str) : bool := existsb (eqb x) l.

Definition commenter_in_staff_list (c : Comment) (staff_names_lower : list str) : bool :=
  let name := oneline (Some (commenter c)) in
  if truthy name then in_list (lower name) staff_names_lower else false.

Definition badge_label (b : badge) : str :=
  match b with
  | BadgeStr l => l
  | BadgeDict l n => or_ l (or_ n [])
  | BadgeOther => []
  end.

Definition is_group_staff_comment (c : Comment) (staff_names_lower : list str) : bool :=
  if commenter_in_staff_list c staff_names_lower then true
  else if f_group_staff (flags c) || f_is_admin (flags c) || f_is_moderator (flags c) then true
  else
    let role := lower (strip (role c)) in
    if in_list role [py "admin"; py "moderator"; py "group admin"; py "group moderator"]
    then true
    else if match badges c with
            | Some bs =>
                existsb (fun b => let label := lower (badge_label b) in
                                  contains (py "admin") label
                                  || contains (py "moderator") label) bs
            | None => false
            end
    then true
    else f_is_admin (commenter_info c) || f_is_moderator (commenter_info c)
         || f_group_staff (commenter_info c).

Definition is_admin_like (c : Comment) (staff_names_lower : list str) : bool :=
  is_group_staff_comment c staff_names_lower || has_admin_tag (Some (text c)).

Definition choose_one_comment_pref_admin_tag (comments : list Comment) : option Comment :=
  match comments with
  | [] => None
  | c0 :: _ =>
      match find (fun c => has_admin_tag (Some (text c))) comments with
      | Some c => Some c
      | None => Some c0
      end
  end.

(** *** CSV helpers *)

Definition ensure_csv_with_header (csv_path : path) (headers : list str) : M unit :=
  substep ;;;
  f <- read_file csv_path ;;
  match f with
  | None => open_w csv_path ;;; write_rows csv_path [headers] ;;; close csv_path
  | Some _ => ret tt
  end.

Definition append_rows (csv_path : path) (rows : list Csv.row) : M unit :=
  match rows with
  | [] => ret tt
  | _ => substep ;;;
         open_a csv_path ;;; write_rows csv_path rows ;;; close csv_path
  end.

Definition _clean_fieldname (fn : option str) : option str :=
  match fn with
  | None => None
  | Some fn =>
      let fn := replace [0xFEFF] [] fn in
      let fn := sub_runs isspace false (strip fn) in
      Some (lower fn)
  end.

Definition _find_url_column (fieldnames : option (list str)) : option str :=
  match fieldnames with
  | None => None
  | Some [] => None
  | Some fns =>
      let cleaned_to_orig :=
        fold_left (fun d fn => match _clean_fieldname (Some fn) with
                               | Some k => Csv.dict_set k fn d
                               | None => d
                               end) fns [] in
      match find (fun wanted => Csv.dict_has wanted cleaned_to_orig)
                 [py "post url"; py "url"] with
      | Some wanted => Csv.dict_get wanted cleaned_to_orig
      | None =>
          match find (fun kv => truthy (fst kv) && contains (py "url") (fst kv))
                     cleaned_to_orig with
          | Some kv => Some (snd kv)
          | None => None
          end
      end
  end.

(** The test on the records of a file that exists. *)
Definition url_in_rows (rows : list Csv.row) (url_norm : str) : bool :=
  match _find_url_column (Csv.fieldnames rows) with
  | None => false
  | Some url_col =>
      if negb (truthy url_col) then false
      else existsb (fun d => let v := normalize_url (or_empty (Csv.get url_col d)) in
                             truthy v && eqb v url_norm)
                   (Csv.dictreader rows)
  end.

Definition url_in_csv (csv_path : path) (url_norm : str) : M bool :=
  f <- read_file csv_path ;;
  match f with
  | None => ret false
  | Some rows => ret (url_in_rows rows url_norm)
  end.

Definition already_processed (url_raw : str) : M (bool * list str) :=
  let url_norm := normalize_url url_raw in
  a <- url_in_csv CSV_ACCEPTED url_norm ;;
  n <- url_in_csv CSV_NONADMIN url_norm ;;
  r <- url_in_csv CSV_REJECTED url_norm ;;
  let hits := (if a then [name CSV_ACCEPTED] else [])
              ++ (if n then [name CSV_NONADMIN] else [])
              ++ (if r then [name CSV_REJECTED] else []) in
  ret (negb (is_empty hits), hits).

(** *** What the two sub-processes answer *)

Record PcData : Type := mkPc {
  pc_url : str;
  pc_comments : list Comment;
  pc_comments_filtered : list Comment;
  pc_scraped_total : N
}.

Record PdData : Type := mkPd {
  pd_url : str;
  pd_date_iso : str;
  pd_poster : str;
  pd_text : str
}.

(** Either a JSON object was found at the end of the output, or not. *)
Inductive reply (A : Type) : Type :=
| Json (data : A)
| NoJson (out : str).
Arguments Json {A} data.
Arguments NoJson {A} out.

Record Env : Type := mkEnv {
  HERE : str;
  staff_file : option (list str);
  post_comments : reply PcData;
  post_details : reply PdData
}.

Definition script_path (e : Env) (sc : script) : str :=
  HERE e ++ match sc with
            | POST_COMMENTS => py "/postComments.py"
            | POST_DETAILS => py "/postDetails.py"
            end.

Definition run_script_for_json {A} (e : Env) (sc : script) (r : reply A) (url : str) : M A :=
  started sc url ;;;
  match r with
  | Json data => ret data
  | NoJson out =>
      print (py "Could not find JSON in " ++ script_path e sc ++ py " output.") ;;;
      print out ;;;
      sys_exit 1
  end.

Definition CHECK : str := [0x2705].
Definition CROSS : str := [0x274C].

Definition print_status_block (scraped_total : N) (admin_found snake_found : bool) : M unit :=
  print [] ;;;
  print (py "Scraped total comments: " ++ str_of_N scraped_total ++ [10]) ;;;
  print (py "ADMIN comment found: " ++ if admin_found then CHECK else CROSS) ;;;
  print (py "SNAKE comment found: " ++ if snake_found then CHECK else CROSS) ;;;
  print [].

Definition log_outcome (url_norm : str) (scraped_total : N) (status : str) : M unit :=
  ensure_csv_with_header CSV_LOG [py "url"; py "comment scraped"; py "status"] ;;;
  append_rows CSV_LOG [[url_norm; str_of_N scraped_total; status]].

Definition headers_full : list str :=
  [py "post url"; py "date"; py "poster"; py "post text"; py "commenter"; py "comment text"].

Definition headers_rejected : list str :=
  [py "post url"; py "commenter"; py "comment text"].

Definition DASH : str := py "-".

(** The rows after the first of a saved post: [-] in the post columns,
    one row per distinct (commenter, text). *)
Fixpoint placeholder_rows (seen : list (str * str)) (cs : list Comment) : list Csv.row :=
  match cs with
  | [] => []
  | c :: t =>
      let commenter := oneline (Some (commenter c)) in
      let ctext := oneline (Some (text c)) in
      if existsb (fun p => eqb (fst p) commenter && eqb (snd p) ctext) seen
      then placeholder_rows seen t
      else [DASH; DASH; DASH; DASH; commenter; ctext]
             :: placeholder_rows ((commenter, ctext) :: seen) t
  end.

(** *** main *)

Definition SKIP_MARK : str := [0x23ED; 0xFE0F].
Definition GREEN : str := [0x1F7E2].
Definition RED : str := [0x1F534].
Definition ORANGE : str := [0x1F7E0].

(** The key a commit is made under:
    [normalize_url(pd_data.get("url") or pc_data.get("url") or post_url_norm)]. *)
Definition commit_url (pd : PdData) (pc : PcData) (post_url_norm : str) : str :=
  normalize_url (or_ (pd_url pd) (or_ (pc_url pc) post_url_norm)).

(** The four ways [main] ends for a post that is not skipped; each is
    one branch of the function, named here by the comment it carries. *)

(** [# ACCEPTED] *)
Definition accepted (e : Env) (pc_data : PcData) (post_url_input_raw post_url_norm : str)
  (scraped_total : N) (admin_snake_comments : list Comment) : M unit :=
  pd_data <- run_script_for_json e POST_DETAILS (post_details e) post_url_input_raw ;;
  let post_url := commit_url pd_data pc_data post_url_norm in
  let post_date := oneline (Some (pd_date_iso pd_data)) in
  let poster := oneline (Some (pd_poster pd_data)) in
  let post_text := oneline (Some (pd_text pd_data)) in
  (* De-dup before write (safety) *)
  present <- url_in_csv CSV_ACCEPTED post_url ;;
  (if negb present then
     match choose_one_comment_pref_admin_tag admin_snake_comments with
     | Some chosen_admin =>
         ensure_csv_with_header CSV_ACCEPTED headers_full ;;;
         append_rows CSV_ACCEPTED
           [[post_url; post_date; poster; post_text;
             oneline (Some (commenter chosen_admin));
             oneline (Some (text chosen_admin))]]
     | None => sys_exit 1      (* IndexError; the list is not empty here *)
     end
   else ret tt) ;;;
  print (GREEN ++ py "  ACCEPTED! Admin and Snake comment found!") ;;;
  log_outcome post_url scraped_total (py "Accepted") ;;;
  print [].

(** [# REJECTED — with admin (but no snake)] *)
Definition rejected_with_admin (post_url_norm : str) (scraped_total : N)
  (admin_comments : list Comment) : M unit :=
  present <- url_in_csv CSV_REJECTED post_url_norm ;;
  (if negb present then
     ensure_csv_with_header CSV_REJECTED headers_rejected ;;;
     match choose_one_comment_pref_admin_tag admin_comments with
     | Some chosen_admin_only =>
         append_rows CSV_REJECTED
           [[post_url_norm;
             oneline (Some (commenter chosen_admin_only));
             oneline (Some (text chosen_admin_only))]]
     | None => sys_exit 1      (* IndexError; the list is not empty here *)
     end
   else ret tt) ;;;
  print (RED ++ py "  REJECTED! Admin comment found but NOT our snake!") ;;;
  log_outcome post_url_norm scraped_total (py "Rejected - w/admin") ;;;
  print [].

(** [# SAVED — no admin, but snake mentioned by non-admin] *)
Definition saved_no_admin (e : Env) (pc_data : PcData)
  (post_url_input_raw post_url_norm : str) (scraped_total : N)
  (first : Comment) (others : list Comment) : M unit :=
  pd_data <- run_script_for_json e POST_DETAILS (post_details e) post_url_input_raw ;;
  let post_url := commit_url pd_data pc_data post_url_norm in
  let post_date := oneline (Some (pd_date_iso pd_data)) in
  let poster := oneline (Some (pd_poster pd_data)) in
  let post_text := oneline (Some (pd_text pd_data)) in
  present <- url_in_csv CSV_NONADMIN post_url ;;
  (if negb present then
     ensure_csv_with_header CSV_NONADMIN headers_full ;;;
     let row0 := [post_url; post_date; poster; post_text;
                  oneline (Some (commenter first));
                  oneline (Some (text first))] in
     (* Subsequent rows: '-' for post fields, dedup by (commenter, text) *)
     let seen := [(oneline (Some (commenter first)), oneline (Some (text first)))] in
     append_rows CSV_NONADMIN (row0 :: placeholder_rows seen others)
   else ret tt) ;;;
  print (ORANGE ++ py "  NON-ADMIN! Snake mentioned by Non-admin! ("
         ++ str_of_N (N.of_nat (List.length (first :: others))) ++ py ")") ;;;
  log_outcome post_url scraped_total (py "Saved - no admin") ;;;
  print [].

(** [# REJECTED — no admin and no snake] *)
Definition rejected_no_admin (post_url_norm : str) (scraped_total : N) : M unit :=
  present <- url_in_csv CSV_REJECTED post_url_norm ;;
  (if negb present then
     ensure_csv_with_header CSV_REJECTED headers_rejected ;;;
     append_rows CSV_REJECTED [[post_url_norm; DASH; DASH]]
   else ret tt) ;;;
  print (RED ++ py "  NO ADMIN and NO SNAKE!") ;;;
  log_outcome post_url_norm scraped_total (py "Rejected - no admin") ;;;
  print [].

Definition SKIPPED (where_ : list str) : str :=
  [10] ++ SKIP_MARK ++ py "  SKIPPED! Already processed in ["
  ++ join (py ", ") where_ ++ py "]!" ++ [10].

Definition main (e : Env) (argv1 : str) : M unit :=
  let post_url_input_raw := strip argv1 in
  let post_url_norm := normalize_url post_url_input_raw in
  (* Skip if already processed (do NOT log skipped) *)
  done <- already_processed post_url_norm ;;
  if fst done then print (SKIPPED (snd done))
  else
    let staff_names_lower := load_staff_names (staff_file e) in
    (* Get all comments from postComments.py *)
    pc_data <- run_script_for_json e POST_COMMENTS (post_comments e) post_url_input_raw ;;
    let comments :=
      match pc_comments pc_data with
      | [] => pc_comments_filtered pc_data
      | cs => cs
      end in
    let scraped_total :=
      if negb (pc_scraped_total pc_data =? 0) then pc_scraped_total pc_data
      else N.of_nat (List.length comments) in
    (* Partition by admin first *)
    let admin_comments := filter (fun c => is_admin_like c staff_names_lower) comments in
    let admin_found := negb (is_empty admin_comments) in
    if admin_found then
      (* Only check admin comments for snake mentions *)
      let admin_snake_comments :=
        filter (fun c => text_matches_targets (Some (text c))) admin_comments in
      let snake_found := negb (is_empty admin_snake_comments) in
      print_status_block scraped_total true snake_found ;;;
      if snake_found
      then accepted e pc_data post_url_input_raw post_url_norm scraped_total
             admin_snake_comments
      else rejected_with_admin post_url_norm scraped_total admin_comments
    else
      (* No admin comments at all: consider non-admin comments for snake *)
      let non_admin_snake_comments :=
        filter (fun c => text_matches_targets (Some (text c))) comments in
      let snake_found := negb (is_empty non_admin_snake_comments) in
      print_status_block scraped_total false snake_found ;;;
      match non_admin_snake_comments with
      | first :: others =>
          saved_no_admin e pc_data post_url_input_raw post_url_norm scraped_total
            first others
      | [] => rejected_no_admin post_url_norm scraped_total
      end.

End FilterPosts.

(* ------------------------------------------------------------------ *)
(** ** scrapePosts.py *)

Module ScrapePosts.

Import Py Re Sys.

Definition TARGET_NEW : N := 5000.
Definition PRE_SCROLL_ROUNDS : nat := 0.
Definition MAX_SCROLLS : N := 6000.
Definition STALL_LIMIT : nat := 8.
Definition NUDGE_TRIES : nat := 16.
Definition MAX_ARTICLES_BEFORE_RELOAD : N := 900.
Definition SOFT_RELOAD_EVERY_SCROLLS : nat := 1000.

(** *** URL normalisation *)

Definition _strip_query_frag (u : str) : str :=
  let u := before 35 u in
  let u := before 63 u in
  u.

(** [s] begins with [p] (given in lower case) under [re.I]. *)
Fixpoint startswith_ci (p s : str) : bool :=
  match p, s with
  | [], _ => true
  | a :: p', b :: s' => ci_match a b && startswith_ci p' s'
  | _ :: _, [] => false
  end.

(** [re.sub(r"^http://", "https://", u, flags=re.I)] *)
Definition sub_http (u : str) : str :=
  if startswith_ci (py "http://") u then py "https://" ++ skipn 7 u else u.

Definition canonicalize_url (u : str) : str :=
  if negb (truthy u) then []
  else
    let u := strip u in
    let u := if startswith (py "/") u then py "https://www.facebook.com" ++ u else u in
    let u := sub_http u in
    let u := replace (py "://facebook.") (py "://www.facebook.")
               (replace (py "://m.facebook.") (py "://www.facebook.") u) in
    let u := _strip_query_frag u in
    rstrip_slash u.

(** *** CSV helpers *)

Definition append_one (csv_path : path) (url_canonical : str) : M unit :=
  substep ;;;
  open_a csv_path ;;;
  write_rows csv_path [[url_canonical]] ;;;
  flush csv_path ;;;
  fsync csv_path ;;;
  close csv_path.

(** *** The collection loop

    What the browser shows in one round of the loop is given by the
    environment: the article count, the outcome of the snapshot
    ([collect_now]), whether the growth poll saw the added-item counter
    rise within the idle limit, and the counter after each nudge.  (A
    scroll that fails only replaces the driver; no counter depends on it.) *)

Inductive snapshot : Type :=
| Snap (added : N)            (* [collect_now] returned [added] *)
| SnapRestarted (added : N)   (* it raised; after a hard restart it returned *)
| SnapFailed.                 (* it raised again after the restart *)

Record Round : Type := mkRound {
  article_count : N;
  snap : snapshot;
  saw_new : bool;
  nudge_added : nat -> N
}.

Record LoopState : Type := mkLoop {
  i : nat;
  stalls : nat;
  newly_added : N;
  last_soft_reload : option nat;      (* [None]: the initial -SOFT_RELOAD_EVERY_SCROLLS *)
  soft_reloads : nat
}.

Inductive Stop : Type :=
| TargetReached      (* break: newly_added >= target_new *)
| EndOfFeed          (* break: stalls >= STALL_LIMIT *)
| ScrollCap          (* the while condition i < max_scrolls failed *)
| DriverLost.        (* an exception left the function *)

(** Some nudge, of at most [NUDGE_TRIES], saw the counter above zero. *)
Definition nudge_growth (r : Round) : bool :=
  existsb (fun j => 0 <? nudge_added r j) (seq 0 NUDGE_TRIES).

Definition reload_due (st : LoopState) (r : Round) : bool :=
  match last_soft_reload st with
  | None => SOFT_RELOAD_EVERY_SCROLLS <=? i st + SOFT_RELOAD_EVERY_SCROLLS
  | Some l => SOFT_RELOAD_EVERY_SCROLLS <=? i st - l
  end%nat
  || (MAX_ARTICLES_BEFORE_RELOAD <=? article_count r).

(** One pass through the body of [while i < max_scrolls].  The result is
    the state at the end of the pass and, when the pass left the loop,
    the way it did. *)
Definition round_body (target_new : N) (st : LoopState) (r : Round)
  : LoopState * option Stop :=
  (* proactive reload *)
  let st1 :=
    if reload_due st r
    then mkLoop (i st) (stalls st) (newly_added st) (Some (i st)) (S (soft_reloads st))
    else st in
  (* added = collect_now() *)
  match snap r with
  | SnapFailed => (st1, Some DriverLost)
  | Snap added | SnapRestarted added =>
      let st2 :=
        mkLoop (i st1) (stalls st1) (newly_added st1 + added)
               (match snap r with
                | SnapRestarted _ => Some (i st1)
                | _ => last_soft_reload st1
                end)
               (soft_reloads st1) in
      if negb (target_new =? 0) && (target_new <=? newly_added st2)
      then (st2, Some TargetReached)
      else
        (* scroll, poll for growth, nudge when none was seen *)
        let _nudged := if negb (saw_new r) then nudge_growth r else false in
        if (added =? 0) && negb (saw_new r) then
          let st3 := mkLoop (i st2) (S (stalls st2)) (newly_added st2)
                            (last_soft_reload st2) (soft_reloads st2) in
          if (STALL_LIMIT <=? stalls st3)%nat
          then (st3, Some EndOfFeed)
          else (mkLoop (S (i st3)) (stalls st3) (newly_added st3)
                       (last_soft_reload st3) (soft_reloads st3), None)
        else
          (mkLoop (S (i st2)) 0 (newly_added st2)
                  (last_soft_reload st2) (soft_reloads st2), None)
  end.

(** [while i < max_scrolls]: [remaining] is [max_scrolls - i]. *)
Fixpoint collect_loop (remaining : nat) (feed : nat -> Round) (target_new : N)
  (st : LoopState) : LoopState * Stop :=
  match remaining with
  | O => (st, ScrollCap)
  | S remaining' =>
      match round_body target_new st (feed (i st)) with
      | (st', Some how) => (st', how)
      | (st', None) => collect_loop remaining' feed target_new st'
      end
  end.

Definition initial : LoopState := mkLoop 0 0 0 None 0.

Definition collect_after_warmup (feed : nat -> Round) (target_new : N)
  (max_scrolls : nat) : LoopState * Stop :=
  collect_loop max_scrolls feed target_new initial.

(** The number of passes through the loop body that were started. *)
Definition rounds_run (res : LoopState * Stop) : nat :=
  match snd res with
  | ScrollCap => i (fst res)
  | _ => S (i (fst res))
  end.


(** *** Links *)

Definition USE_MOBILE : bool := true.

Definition to_mobile (url : str) : str :=
  replace (py "http://www.facebook.com") (py "https://m.facebook.com")
    (replace (py "https://www.facebook.com") (py "https://m.facebook.com") url).

Definition force_chronological (url : str) : str :=
  let sep := if contains [63] url then py "&" else py "?" in
  url ++ sep ++ py "sorting_setting=CHRONOLOGICAL".

Definition absolutize_href (href : str) : str :=
  if negb (truthy href) then []
  else if startswith (py "http://") href || startswith (py "https://") href then href
  else if startswith (py "/") href then
    (if USE_MOBILE then py "https://m.facebook.com" else py "https://www.facebook.com")
    ++ href
  else href.

(** [/posts/|/permalink/|/story\.php\?story_fbid=|/photo\.php] under
    [re.I] *)
Definition POST_PATTERNS : re :=
  alt_all [ wordI (py "/posts/"); wordI (py "/permalink/");
            wordI (py "/story.php?story_fbid="); wordI (py "/photo.php") ].

(** *** The two URL lists *)

(** [fieldnames[cleaned.index(want)]] for the first [want] that is in
    [cleaned], else the first field with ["url"] in its cleaned name, else
    the first field. *)
Definition detect_url_col (fieldnames : list str) : option str :=
  match fieldnames with
  | [] => None
  | fn0 :: _ =>
      let clean := fun fn => lower (strip fn) in
      match find (fun want => existsb (fun fn => eqb (clean fn) want) fieldnames)
                 [py "post url"; py "post_url"; py "url"; py "link"] with
      | Some want => find (fun fn => eqb (clean fn) want) fieldnames
      | None =>
          match find (fun fn => contains (py "url") (clean fn)) fieldnames with
          | Some fn => Some fn
          | None => Some fn0
          end
      end
  end.

(** The file is missing or has size zero. *)
Definition missing_or_empty (f : Csv.file) : bool :=
  match f with
  | None => true
  | Some rows => is_empty rows
  end.

Definition ensure_csv_header (csv_path : path) (header : str) : M unit :=
  f <- read_file csv_path ;;
  if missing_or_empty f then
    substep ;;;
    open_w csv_path ;;;
    write_rows csv_path [[header]] ;;;
    close csv_path
  else ret tt.

(** The URLs of a file, as a set of canonical URLs. *)
Definition urls_of_rows (rows : list Csv.row) : list str :=
  let fns := match Csv.fieldnames rows with
             | Some (fn :: fns) => fn :: fns
             | _ => [py "post_url"]
             end in
  match detect_url_col fns with
  | None => []
  | Some col =>
      fold_left (fun urls d =>
                   let raw := strip (or_empty (Csv.get col d)) in
                   if truthy raw then set_add (canonicalize_url raw) urls else urls)
                (Csv.dictreader rows) []
  end.

Definition load_existing_urls (csv_path : path) : M (list str) :=
  f <- read_file csv_path ;;
  if missing_or_empty f then ret []
  else ret (urls_of_rows (match f with Some rows => rows | None => [] end)).

(** *** Snapshots *)

(** [{canonicalize_url(absolutize_href(h)) for h in hrefs
      if h and POST_PATTERNS.search(h)}] *)
Definition discovered_in (hrefs : list str) : list str :=
  fold_left (fun s h =>
               if truthy h && search POST_PATTERNS h
               then set_add (canonicalize_url (absolutize_href h)) s
               else s)
            hrefs [].

(** The body of [for u in sorted(delta)]. *)
Fixpoint append_new (us : list str) (seen : list str) (newly_added : N)
  : M (list str * N) :=
  match us with
  | [] => ret (seen, newly_added)
  | u :: rest =>
      append_one OUT_CSV u ;;;
      append_new rest (set_add u seen) (newly_added + 1)
  end.

(** [collect_now()], a closure over [seen] and [newly_added]: the
    snapshot of the links on the page is given; the result is [len(delta)]
    with the two variables as the call leaves them. *)
Definition collect_now (target_new : N) (hrefs : list str)
  (seen : list str) (newly_added : N) : M (N * (list str * N)) :=
  let discovered := discovered_in hrefs in
  let delta := set_diff discovered seen in
  if negb (is_empty delta) then
    st <- append_new (sorted delta) seen newly_added ;;
    print ([0x2795] ++ py " Added " ++ str_of_N (N.of_nat (List.length delta))
           ++ py " new unique URLs (this run new=" ++ str_of_N (snd st)
           ++ py "/" ++ str_of_N target_new ++ py ")") ;;;
    ret (N.of_nat (List.length delta), st)
  else ret (N.of_nat (List.length delta), (seen, newly_added)).

(** The part of [collect_after_warmup] between the warm-up and the loop:
    the baseline snapshot, the two headers, and the set [seen] the loop
    starts from.  ([DONE_CSV] is the done-URLs file.) *)
Definition resume_seen (raw_baseline : list str) : M (list str) :=
  let baseline := discovered_in raw_baseline in
  print ([10] ++ [0x1F4F8] ++ py " Baseline after warm-up: "
         ++ str_of_N (N.of_nat (List.length baseline))
         ++ py " URLs (will be ignored)." ++ [10]) ;;;
  ensure_csv_header OUT_CSV (py "post_url") ;;;
  ensure_csv_header DONE_FILE (py "url") ;;;
  existing <- load_existing_urls OUT_CSV ;;
  done <- load_existing_urls DONE_FILE ;;
  let seen := set_union (set_union existing done) baseline in
  print ([0x1F9FE] ++ py " Resume state: " ++ str_of_N (N.of_nat (List.length existing))
         ++ py " in " ++ name OUT_CSV ++ py ", "
         ++ str_of_N (N.of_nat (List.length done)) ++ py " in " ++ name DONE_FILE) ;;;
  print ([0x2699; 0xFE0F] ++ py "  Duplicate-skip mode uses canonical URLs (m."
         ++ [0x2192] ++ py "www, no query, no trailing slash)." ++ [10]) ;;;
  ret seen.

End ScrapePosts.

(* ------------------------------------------------------------------ *)
(** ** run_filters.py *)

Module RunFilters.

Import Py Sys.

Definition normalize_url (u : str) : str :=
  if negb (truthy u) then []
  else
    let u := strip u in
    let u := replace (py "://facebook.") (py "://www.facebook.")
               (replace (py "://m.facebook.") (py "://www.facebook.") u) in
    let u := if contains [63] u then before 63 u else u in
    let u := if contains [35] u then before 35 u else u in
    rstrip_slash u.

(** *** CSV helpers for done_urls *)

(** [" ".join(fn.split())] *)
Definition join_split (s : str) : str :=
  FilterPosts.sub_runs isspace false (strip s).

Definition _clean_fieldname (fn : option str) : option str :=
  match fn with
  | None => None
  | Some fn =>
      let fn := replace [0xFEFF] [] fn in
      Some (lower (join_split fn))
  end.

Definition _find_url_column (fieldnames : option (list str)) : option str :=
  match fieldnames with
  | None => None
  | Some [] => None
  | Some fns =>
      let cleaned_to_orig :=
        fold_left (fun d fn => match _clean_fieldname (Some fn) with
                               | Some k => Csv.dict_set k fn d
                               | None => d
                               end) fns [] in
      match find (fun wanted => Csv.dict_has wanted cleaned_to_orig)
                 [py "post url"; py "url"; py "link"; py "post_url"] with
      | Some wanted => Csv.dict_get wanted cleaned_to_orig
      | None =>
          match find (fun kv => truthy (fst kv) && contains (py "url") (fst kv))
                     cleaned_to_orig with
          | Some kv => Some (snd kv)
          | None => hd_error fns
          end
      end
  end.

Definition file_is_empty (f : Csv.file) : bool :=
  match f with
  | None => true
  | Some rows => is_empty rows
  end.

Definition ensure_done_header : M unit :=
  f <- read_file DONE_FILE ;;
  if file_is_empty f then
    substep ;;;
    open_w DONE_FILE ;;;
    write_rows DONE_FILE [[py "url"]] ;;;
    flush DONE_FILE ;;;
    fsync DONE_FILE ;;;
    close DONE_FILE
  else ret tt.

Definition done_contains (url_norm : str) : M bool :=
  f <- read_file DONE_FILE ;;
  match f with
  | None => ret false
  | Some rows =>
      if is_empty rows then ret false
      else
        let col := match _find_url_column (Csv.fieldnames rows) with
                   | Some c => or_ c (py "url")
                   | None => py "url"
                   end in
        ret (existsb (fun d => let v := normalize_url (strip (or_empty (Csv.get col d))) in
                               truthy v && eqb v url_norm)
                     (Csv.dictreader rows))
  end.

Definition append_done_url_now (u : str) : M unit :=
  let norm := normalize_url u in
  if negb (truthy norm) then ret tt
  else
    ensure_done_header ;;;
    present <- done_contains norm ;;
    if present then ret tt
    else
      substep ;;;
      open_a DONE_FILE ;;;
      write_rows DONE_FILE [[norm]] ;;;
      flush DONE_FILE ;;;
      fsync DONE_FILE ;;;
      close DONE_FILE.

(** *** Result classification *)

Inductive kind : Type := accept | reject | saved | skip | unknown.

Definition kind_eqb (a b : kind) : bool :=
  match a, b with
  | accept, accept | reject, reject | saved, saved | skip, skip
  | unknown, unknown => true
  | _, _ => false
  end.

Definition classify_result_text (text : str) : kind :=
  let out := text in
  let low := lower out in
  if contains [0x23ED; 0xFE0F] out || contains (py "skipped") low
     || contains (py "already processed") low then skip
  else if contains [0x1F7E2] out || contains (py "accepted!") low
          || contains (py " accepted") low then accept
  else if contains [0x1F7E0] out || contains (py "non-admin") low
          || contains (py "saved - no admin") low then saved
  else if contains [0x1F534] out
          && (contains (py "rejected") low || contains (py "no admin and no snake") low)
       then reject
  else if contains (py "rejected - w/admin") low
          || contains (py "rejected - no admin") low then reject
  else if existsb (fun k => contains k low)
            [py " reject"; [0x2717] ++ py " rejected"; py "denied";
             py "blacklist"; py "filtered out"] then reject
  else unknown.

(** *** The input work-list *)

Definition Row := Csv.dict (option str).

(** The cell [r.get(h, "")] as the writer puts it out. *)
Definition cell (h : str) (r : Row) : str :=
  match Csv.dict_get h r with
  | Some v => or_empty v
  | None => []
  end.

(** Rewrite the work-list.  ([f.flush] is named but not called.) *)
Definition write_rows_now (csv_path : path) (has_header : bool)
  (headers : list str) (rows : list Row) : M unit :=
  substep ;;;
  open_w csv_path ;;;
  (if has_header then
     write_rows csv_path [headers] ;;;
     write_rows csv_path (map (fun r => map (fun h => cell h r) headers) rows)
   else
     write_rows csv_path (map (fun r => [cell (py "url") r]) rows)) ;;;
  fsync csv_path ;;;
  close csv_path.

(** *** The streaming runner *)

(** The loop state of [run_and_act_streaming]. *)
Record Stream : Type := mkStream {
  full_lines : list str;
  decided_kind : kind;
  acted : bool;
  remaining_rows : list Row
}.

Definition without (url_col norm : str) (rows : list Row) : list Row :=
  filter (fun r => negb (eqb (normalize_url (or_empty (Csv.get url_col r))) norm)) rows.

Definition remove_from_input (csv_path : path) (has_header : bool) (url_col : str)
  (headers : list str) (norm : str) (remaining_rows : list Row) : M (list Row) :=
  let new_remaining := without url_col norm remaining_rows in
  if negb (List.length new_remaining =? List.length remaining_rows)%nat then
    write_rows_now csv_path has_header headers new_remaining ;;;
    ret new_remaining
  else ret remaining_rows.

(** One line of the child's output.  The loop also echoes the line on its
    own standard output and appends it to the text log
    [log/run_filters.log]; the world holds the CSV files only, and neither
    effect is part of it. *)
Definition on_line (url : str) (csv_path : path) (has_header : bool) (url_col : str)
  (headers : list str) (st : Stream) (line : str) : M Stream :=
  let norm := normalize_url url in
  let full := full_lines st ++ [line] in
  let kind0 := classify_result_text line in
  let kind := if kind_eqb kind0 unknown then classify_result_text (List.concat full) else kind0 in
  if acted st || kind_eqb kind unknown then
    ret (mkStream full (decided_kind st) (acted st) (remaining_rows st))
  else
    match kind with
    | skip =>
        rows <- remove_from_input csv_path has_header url_col headers norm (remaining_rows st) ;;
        ret (mkStream full skip true rows)
    | accept | reject | saved =>
        append_done_url_now url ;;;
        rows <- remove_from_input csv_path has_header url_col headers norm (remaining_rows st) ;;
        ret (mkStream full kind true rows)
    | unknown => ret (mkStream full (decided_kind st) (acted st) (remaining_rows st))
    end.

Fixpoint on_lines (url : str) (csv_path : path) (has_header : bool) (url_col : str)
  (headers : list str) (st : Stream) (lines : list str) : M Stream :=
  match lines with
  | [] => ret st
  | line :: rest =>
      st' <- on_line url csv_path has_header url_col headers st line ;;
      on_lines url csv_path has_header url_col headers st' rest
  end.

(** Text read from the child in universal-newlines mode. *)
Fixpoint universal_newlines (s : str) : str :=
  match s with
  | [] => []
  | 13 :: t =>
      10 :: match t with
            | 10 :: t' => universal_newlines t'
            | _ => universal_newlines t
            end
  | c :: t => c :: universal_newlines t
  end.

(** The lines of a text, each with its newline. *)
Fixpoint lines_from (cur : str) (s : str) : list str :=
  match s with
  | [] => match cur with [] => [] | _ => [cur] end
  | c :: t => if c =? 10 then (cur ++ [c]) :: lines_from [] t
              else lines_from (cur ++ [c]) t
  end.

Definition child_lines (printed : list str) : list str :=
  lines_from [] (universal_newlines (List.concat printed)).

(** [run_and_act_streaming]: the child is [filterPosts.py] on [url]; its
    ledger writes touch other files than the parent's, so the child is
    run to its end first and its output is then read line by line.  The
    child may crash; the parent is not interrupted.  The text log
    [log/run_filters.log], to which the function appends a heading and
    every line, is not one of the files of the world, and the echo of the
    lines is left out with it: what follows speaks of the six CSV files. *)
Definition run_and_act_streaming (e : FilterPosts.Env) (url : str) (csv_path : path)
  (has_header : bool) (url_col : str) (headers : list str)
  (remaining_rows : list Row) : M (N * Stream) :=
  fun w =>
    let child := FilterPosts.main e url
                   (mkWorld (fs w) [] (calls w) (trace w) (crash w)) in
    let rc := match fst child with Ret _ => 0 | Exit code => code | Killed => 137 end in
    let w1 := mkWorld (fs (snd child)) (stdout w) (calls (snd child))
                      (trace (snd child)) None in
    (st <- on_lines url csv_path has_header url_col headers
             (mkStream [] unknown false remaining_rows)
             (child_lines (stdout (snd child))) ;;
     ret (rc, st)) w1.


(** *** Reading the work-list *)

Definition find_url_column (headers : list str) : option str :=
  match headers with
  | [] => None
  | h0 :: _ =>
      let preferred := [py "post_url"; py "post url"; py "url"; py "link"] in
      match find (fun h => truthy h && existsb (eqb (lower (strip h))) preferred) headers with
      | Some h => Some h
      | None =>
          match find (fun h => truthy h && contains (py "url") (lower (strip h))) headers with
          | Some h => Some h
          | None => Some h0
          end
      end
  end.

(** [{h: row.get(h, "") for h in headers}] *)
Definition project (headers : list str) (row : Row) : Row :=
  fold_left (fun d h => Csv.dict_set h (match Csv.dict_get h row with
                                        | Some v => v
                                        | None => Some []
                                        end) d)
            headers [].

(** [read_rows(csv_path)].  Whether the file has a header is what
    [csv.Sniffer] answers on its first 2048 characters; the answer is
    given.  A failure ([SystemExit] with a message, or the exception of a
    missing file) ends the process with status 1. *)
Definition read_rows (sniffed_header : bool) (csv_path : path)
  : M (bool * str * list Row * list str) :=
  f <- read_file csv_path ;;
  match f with
  | None => sys_exit 1
  | Some content =>
      if sniffed_header then
        let headers := match Csv.fieldnames content with
                       | Some h => h
                       | None => []
                       end in
        match find_url_column headers with
        | Some url_col =>
            if truthy url_col
            then ret (true, url_col, map (project headers) (Csv.dictreader content), headers)
            else sys_exit 1
        | None => sys_exit 1
        end
      else
        ret (false, py "url",
             flat_map (fun r => match r with
                                | [] => []
                                | c :: _ => [[(py "url", Some (strip c))]]
                                end) content,
             [py "url"])
  end.

End RunFilters.

(* ------------------------------------------------------------------ *)
(** * Properties *)

(** ** Strings: stripping *)

Section StringFacts.

Import Py.

Variable p : char -> bool.

Lemma dropwhile_idem (s : str) : dropwhile p (dropwhile p s) = dropwhile p s.
Proof.
  induction s as [|c t IH]; simpl; auto.
  destruct (p c) eqn:E; auto. simpl. now rewrite E.
Qed.

Lemma dropwhile_suffix (s : str) : exists h, s = h ++ dropwhile p s.
Proof.
  induction s as [|c t [h IH]]; simpl.
  - now exists [].
  - destruct (p c).
    + exists (c :: h). simpl. now f_equal.
    + now exists [].
Qed.

Lemma rstrip_by_prefix (s : str) : exists t, s = rstrip_by p s ++ t.
Proof.
  unfold rstrip_by. destruct (dropwhile_suffix (rev s)) as [h H].
  exists (rev h). rewrite <- rev_app_distr, <- H. now rewrite rev_involutive.
Qed.

Lemma dropwhile_fixed_head (s : str) :
  dropwhile p s = s <-> match s with [] => True | c :: _ => p c = false end.
Proof.
  destruct s as [|c t]; simpl; [tauto|].
  destruct (p c) eqn:E; split; auto; try discriminate.
  intros H. destruct (dropwhile_suffix t) as [h Hh].
  rewrite H in Hh. apply (f_equal (@List.length _)) in Hh.
  rewrite length_app in Hh. simpl in Hh. lia.
Qed.

Lemma lstrip_rstrip_fixed (s : str) :
  dropwhile p s = s -> dropwhile p (rstrip_by p s) = rstrip_by p s.
Proof.
  intros H. apply dropwhile_fixed_head in H. apply dropwhile_fixed_head.
  destruct (rstrip_by_prefix s) as [t Ht].
  destruct (rstrip_by p s) as [|c r]; auto.
  rewrite Ht in H. exact H.
Qed.

Lemma rstrip_by_idem (s : str) : rstrip_by p (rstrip_by p s) = rstrip_by p s.
Proof.
  unfold rstrip_by. now rewrite rev_involutive, dropwhile_idem.
Qed.

Lemma Forall_dropwhile (P : char -> Prop) (s : str) :
  Forall P s -> Forall P (dropwhile p s).
Proof.
  induction 1 as [|c t Hc Ht IH]; simpl; auto. destruct (p c); auto.
Qed.

Lemma Forall_rstrip_by (P : char -> Prop) (s : str) :
  Forall P s -> Forall P (rstrip_by p s).
Proof.
  intros H. unfold rstrip_by. apply Forall_rev, Forall_dropwhile, Forall_rev, H.
Qed.

End StringFacts.

Lemma strip_idem (s : Py.str) : Py.strip (Py.strip s) = Py.strip s.
Proof.
  unfold Py.strip, Py.lstrip_by.
  rewrite lstrip_rstrip_fixed by apply dropwhile_idem.
  apply rstrip_by_idem.
Qed.

Lemma Forall_strip (P : Py.char -> Prop) (s : Py.str) :
  Forall P s -> Forall P (Py.strip s).
Proof.
  intros H. apply Forall_rstrip_by, Forall_dropwhile, H.
Qed.

(** ** The text normaliser *)

Section Oneline.

Import Py FilterPosts.

(** No two whitespace characters next to each other. *)
Fixpoint nopair (s : str) : Prop :=
  match s with
  | a :: (b :: _) as t => (isspace a && isspace b = false) /\ nopair t
  | _ => True
  end.

Lemma nopair_app_l (a b : str) : nopair (a ++ b) -> nopair a.
Proof.
  induction a as [|x a IH]; simpl; auto.
  destruct a as [|y a]; [intros; exact I|].
  intros [H1 H2]. split; [exact H1|apply IH, H2].
Qed.

Lemma nopair_app_r (a b : str) : nopair (a ++ b) -> nopair b.
Proof.
  induction a as [|x a IH]; simpl; auto.
  destruct a as [|y a]; simpl in *.
  - destruct b; tauto.
  - intros [_ H]. auto.
Qed.

Lemma nopair_strip (s : str) : nopair s -> nopair (strip s).
Proof.
  intros H. unfold strip, lstrip_by.
  destruct (dropwhile_suffix isspace s) as [h Hh].
  rewrite Hh in H. apply nopair_app_r in H.
  destruct (rstrip_by_prefix isspace (dropwhile isspace s)) as [t Ht].
  rewrite Ht in H. now apply nopair_app_l in H.
Qed.

Lemma sub_ws2_shape (s : str) :
  forall b, nopair (sub_ws2 b s) /\
            (b = true -> match sub_ws2 b s with [] => True | c :: _ => isspace c = false end).
Proof.
  induction s as [|c t IH]; intros b; simpl; [tauto|].
  destruct (isspace c) eqn:Ec.
  - destruct b.
    + exact (IH true).
    + split; [|discriminate].
      destruct t as [|d t']; simpl; auto.
      destruct (isspace d) eqn:Ed.
      * destruct (IH true) as [H1 H2]. specialize (H2 eq_refl).
        simpl in H1, H2. rewrite Ed in H1, H2.
        destruct (sub_ws2 true t') as [|x r] eqn:Er; simpl; auto.
      * destruct (IH false) as [H1 _]. simpl in H1. rewrite Ed in H1.
        simpl. split; [rewrite Ed; apply andb_false_r|exact H1].
  - split.
    + destruct (IH false) as [H1 _].
      destruct (sub_ws2 false t) as [|x r]; simpl; auto. now rewrite Ec.
    + intros _. exact Ec.
Qed.

Lemma sub_ws2_fixed (s : str) : nopair s -> sub_ws2 false s = s.
Proof.
  induction s as [|c t IH]; simpl; auto.
  intros H. destruct (isspace c) eqn:Ec.
  - destruct t as [|d t']; auto. cbn [nopair] in H.
    destruct H as [H1 H2]. simpl in H1. rewrite H1.
    f_equal. apply IH, H2.
  - f_equal. apply IH. destruct t; tauto.
Qed.

Lemma Forall_sub_ws2 (P : char -> Prop) (s : str) :
  P 32 -> Forall P s -> forall b, Forall P (sub_ws2 b s).
Proof.
  intros H32 H. induction H as [|c t Hc Ht IH]; intros b; simpl; auto.
  destruct (isspace c); auto. destruct b; auto.
  destruct t as [|d t']; auto. destruct (isspace d); auto.
Qed.

Lemma Forall_sub_runs (P : char -> Prop) (q : char -> bool) (s : str) :
  P 32 -> Forall P s -> forall b, Forall P (sub_runs q b s).
Proof.
  intros H32 H. induction H as [|c t Hc Ht IH]; intros b; simpl; auto.
  destruct (q c); auto. destruct b; auto.
Qed.

Lemma sub_runs_clears (q : char -> bool) (s : str) :
  q 32 = false -> forall b, Forall (fun c => q c = false) (sub_runs q b s).
Proof.
  intros H32. induction s as [|c t IH]; intros b; simpl; auto.
  destruct (q c) eqn:E; auto. destruct b; auto.
Qed.

Lemma sub_runs_fixed (q : char -> bool) (s : str) :
  Forall (fun c => q c = false) s -> forall b, sub_runs q b s = s.
Proof.
  induction 1 as [|c t Hc Ht IH]; intros b; simpl; auto.
  rewrite Hc. f_equal. apply IH.
Qed.

(** A character the translation table leaves alone. *)
Definition plain (c : char) : Prop := table_get c _SANSTRANS = None.

Lemma table_get_In (t : list (char * char)) (c a : char) :
  table_get c t = Some a -> In (c, a) t.
Proof.
  induction t as [|[k v] t IH]; simpl; [discriminate|].
  destruct (c =? k) eqn:E.
  - intros [= <-]. apply N.eqb_eq in E. subst. now left.
  - intros H. right. auto.
Qed.

Lemma _SANSTRANS_range :
  forall k v, In (k, v) _SANSTRANS -> 0x1D608 <= k /\ v < 128.
Proof.
  assert (H : forallb (fun kv => (0x1D608 <=? fst kv) && (snd kv <? 128)) _SANSTRANS = true)
    by reflexivity.
  rewrite forallb_forall in H. intros k v Hin. specialize (H _ Hin). simpl in H.
  apply andb_true_iff in H. destruct H as [H1 H2].
  apply N.leb_le in H1. apply N.ltb_lt in H2. auto.
Qed.

Lemma translate_plain (s : str) : Forall plain (translate _SANSTRANS s).
Proof.
  unfold translate. apply Forall_forall. intros x Hx.
  apply in_map_iff in Hx. destruct Hx as [c [<- _]].
  unfold plain.
  destruct (table_get c _SANSTRANS) as [a|] eqn:E; auto.
  apply table_get_In, _SANSTRANS_range in E. destruct E as [_ Ha].
  destruct (table_get a _SANSTRANS) as [b|] eqn:E'; auto.
  apply table_get_In, _SANSTRANS_range in E'. lia.
Qed.

Lemma translate_fixed (s : str) : Forall plain s -> translate _SANSTRANS s = s.
Proof.
  unfold translate, plain. induction 1 as [|c t Hc Ht IH]; cbn [map]; auto.
  rewrite Hc. now f_equal.
Qed.

(** What [oneline] returns: plain letters only, no CR, LF or TAB, no two
    whitespace characters in a row, no whitespace at either end. *)
Record normal (r : str) : Prop := {
  normal_plain : Forall plain r;
  normal_lines : Forall (fun c => is_crlftab c = false) r;
  normal_pairs : nopair r;
  normal_ends : strip r = r
}.

Lemma oneline_normal (s : option str) : normal (oneline s).
Proof.
  destruct s as [s|]; simpl; [|now repeat constructor].
  destruct (truthy s) eqn:Es; simpl; [|now repeat constructor].
  unfold normalize_fancy_letters. rewrite Es. simpl.
  constructor.
  - apply Forall_strip, Forall_sub_ws2; [reflexivity|].
    apply Forall_sub_runs; [reflexivity|]. apply translate_plain.
  - apply Forall_strip, Forall_sub_ws2; [reflexivity|].
    apply sub_runs_clears. reflexivity.
  - apply nopair_strip, sub_ws2_shape.
  - apply strip_idem.
Qed.

Lemma oneline_fixed (r : str) : normal r -> oneline (Some r) = r.
Proof.
  intros [H1 H2 H3 H4]. simpl.
  destruct (truthy r) eqn:Er; simpl.
  - unfold normalize_fancy_letters. rewrite Er. simpl.
    rewrite translate_fixed by exact H1.
    rewrite sub_runs_fixed by exact H2.
    rewrite sub_ws2_fixed by exact H3. exact H4.
  - destruct r; [reflexivity|discriminate].
Qed.

End Oneline.

(** C8. [oneline] is a total function of its (possibly absent) argument,
    and applying it to its own result changes nothing: the result holds
    only plain letters for the stylised ones, no run of whitespace and no
    whitespace at the ends, and such a text is returned as it is. *)
Theorem oneline_idempotent :
  forall s : option Py.str,
    FilterPosts.oneline (Some (FilterPosts.oneline s)) = FilterPosts.oneline s
    /\ normal (FilterPosts.oneline s)
    /\ FilterPosts.oneline None = []
    /\ FilterPosts.oneline (Some []) = [].
Proof.
  intros s. split; [|split; [|split; reflexivity]].
  - apply oneline_fixed, oneline_normal.
  - apply oneline_normal.
Qed.

(** ** The collection loop *)

Section CollectLoop.

Import ScrapePosts.

(** What the snapshot step added in a round, when it returned. *)
Definition snap_added (r : Round) : option N :=
  match snap r with
  | Snap a | SnapRestarted a => Some a
  | SnapFailed => None
  end.

(** A round without growth: the snapshot found nothing new and the growth
    poll saw nothing. *)
Definition quiet (r : Round) : Prop :=
  (snap_added r = Some 0 \/ snap_added r = None) /\ saw_new r = false.

Variable feed : nat -> Round.
Variable target_new : N.

Lemma round_body_cases (st : LoopState) (r : Round) :
  match round_body target_new st r with
  | (st', None) =>
      i st' = S (i st) /\ (stalls st' < STALL_LIMIT)%nat
      /\ (quiet r -> stalls st' = S (stalls st))
  | (st', Some how) =>
      i st' = i st
      /\ match how with
         | TargetReached => target_new <> 0 /\ target_new <= newly_added st'
         | EndOfFeed => stalls st' = S (stalls st) /\ (STALL_LIMIT <= stalls st')%nat
         | DriverLost => snap r = SnapFailed
         | ScrollCap => False
         end
  end.
Proof.
  unfold round_body, quiet, snap_added.
  destruct (snap r) as [a|a|] eqn:Es.
  - destruct (reload_due st r); cbn [i stalls newly_added];
    (destruct (negb (target_new =? 0) && (target_new <=? _)) eqn:Et;
     [ apply andb_true_iff in Et; destruct Et as [E1 E2];
       apply negb_true_iff, N.eqb_neq in E1; apply N.leb_le in E2; auto
     | destruct ((a =? 0) && negb (saw_new r)) eqn:Eq; cbn [i stalls];
       [ destruct (STALL_LIMIT <=? S (stalls st))%nat eqn:El; cbn [i stalls];
         [ apply Nat.leb_le in El; auto
         | apply Nat.leb_gt in El; repeat split; auto ]
       | repeat split; [unfold STALL_LIMIT; lia|];
         intros [[H|H] Hs]; [|discriminate];
         injection H as ->; rewrite Hs in Eq; discriminate ] ]).
  - destruct (reload_due st r); cbn [i stalls newly_added];
    (destruct (negb (target_new =? 0) && (target_new <=? _)) eqn:Et;
     [ apply andb_true_iff in Et; destruct Et as [E1 E2];
       apply negb_true_iff, N.eqb_neq in E1; apply N.leb_le in E2; auto
     | destruct ((a =? 0) && negb (saw_new r)) eqn:Eq; cbn [i stalls];
       [ destruct (STALL_LIMIT <=? S (stalls st))%nat eqn:El; cbn [i stalls];
         [ apply Nat.leb_le in El; auto
         | apply Nat.leb_gt in El; repeat split; auto ]
       | repeat split; [unfold STALL_LIMIT; lia|];
         intros [[H|H] Hs]; [|discriminate];
         injection H as ->; rewrite Hs in Eq; discriminate ] ]).
  - destruct (reload_due st r); cbn [i]; auto.
Qed.

(** The loop never runs more passes than it was given. *)
Lemma collect_loop_cap (remaining : nat) :
  forall st, (rounds_run (collect_loop remaining feed target_new st) <= i st + remaining)%nat
             /\ (snd (collect_loop remaining feed target_new st) = ScrollCap ->
                 i (fst (collect_loop remaining feed target_new st)) = (i st + remaining)%nat).
Proof.
  induction remaining as [|n IH]; intros st; cbn [collect_loop].
  - unfold rounds_run; cbn. split; lia.
  - pose proof (round_body_cases st (feed (i st))) as H.
    destruct (round_body target_new st (feed (i st))) as [st' [how|]].
    + destruct H as [Hi Hh]. unfold rounds_run; cbn [fst snd].
      destruct how; try contradiction; split; try discriminate; lia.
    + destruct H as [Hi _]. destruct (IH st') as [H1 H2]. split.
      * lia.
      * intros E. rewrite (H2 E). lia.
Qed.

(** Why the loop stopped. *)
Definition stop_reason (res : LoopState * Stop) : Prop :=
  match snd res with
  | TargetReached => target_new <> 0 /\ target_new <= newly_added (fst res)
  | EndOfFeed => (STALL_LIMIT <= stalls (fst res))%nat
  | ScrollCap | DriverLost => True
  end.

Lemma collect_loop_reason (remaining : nat) :
  forall st, stop_reason (collect_loop remaining feed target_new st).
Proof.
  induction remaining as [|n IH]; intros st; cbn [collect_loop].
  - exact I.
  - pose proof (round_body_cases st (feed (i st))) as H.
    destruct (round_body target_new st (feed (i st))) as [st' [how|]]; [|apply IH].
    destruct H as [_ Hh]. unfold stop_reason; cbn [fst snd].
    destruct how; auto. tauto.
Qed.

(** From a point after which every round is quiet, the loop stops before
    the stall counter can pass the limit. *)
Lemma collect_loop_quiet (remaining : nat) :
  forall st,
    (stalls st < STALL_LIMIT)%nat ->
    (forall j, (i st <= j)%nat -> quiet (feed j)) ->
    (rounds_run (collect_loop remaining feed target_new st)
     <= i st + (STALL_LIMIT - stalls st))%nat.
Proof.
  induction remaining as [|n IH]; intros st Hs Hq; cbn [collect_loop].
  - unfold rounds_run; cbn. lia.
  - pose proof (round_body_cases st (feed (i st))) as H.
    destruct (round_body target_new st (feed (i st))) as [st' [how|]].
    + destruct H as [Hi Hh]. unfold rounds_run; cbn [fst snd].
      destruct how; try contradiction; lia.
    + destruct H as [Hi [Hl Hst]].
      specialize (Hst (Hq _ (Nat.le_refl _))).
      assert (Hq' : forall j, (i st' <= j)%nat -> quiet (feed j))
        by (intros j Hj; apply Hq; lia).
      specialize (IH st' Hl Hq'). lia.
Qed.

Lemma collect_loop_settles (k remaining : nat) :
  forall st,
    (stalls st < STALL_LIMIT)%nat ->
    (i st <= k)%nat ->
    (forall j, (k <= j)%nat -> quiet (feed j)) ->
    (rounds_run (collect_loop remaining feed target_new st) <= k + STALL_LIMIT)%nat.
Proof.
  induction remaining as [|n IH]; intros st Hs Hk Hq.
  - unfold rounds_run; cbn. lia.
  - destruct (Nat.eq_dec (i st) k) as [E|E].
    + pose proof (@collect_loop_quiet (S n) st Hs) as H.
      rewrite E in H. specialize (H Hq). lia.
    + cbn [collect_loop].
      pose proof (round_body_cases st (feed (i st))) as H.
      destruct (round_body target_new st (feed (i st))) as [st' [how|]].
      * destruct H as [Hi Hh]. unfold rounds_run; cbn [fst snd].
        destruct how; try contradiction; lia.
      * destruct H as [Hi [Hl _]]. apply IH; auto. lia.
Qed.

End CollectLoop.

(** C7. The collection loop ends after at most [max_scrolls] passes, in
    one of the ways the code provides: the target count of new URLs was
    reached, the stall counter reached [STALL_LIMIT], the pass cap was hit,
    or the driver could not be replaced.  When every round from index [k]
    on is without growth, at most [k + STALL_LIMIT] passes are run. *)
Theorem crawler_terminates :
  forall (feed : nat -> ScrapePosts.Round) (target_new : N) (max_scrolls : nat),
    let res := ScrapePosts.collect_after_warmup feed target_new max_scrolls in
    (ScrapePosts.rounds_run res <= max_scrolls)%nat
    /\ (snd res = ScrapePosts.ScrollCap -> ScrapePosts.i (fst res) = max_scrolls)
    /\ stop_reason target_new res
    /\ (forall k : nat,
          (forall j, (k <= j)%nat -> quiet (feed j)) ->
          (ScrapePosts.rounds_run res <= k + ScrapePosts.STALL_LIMIT)%nat).
Proof.
  intros feed target_new max_scrolls res. subst res.
  unfold ScrapePosts.collect_after_warmup.
  destruct (collect_loop_cap feed target_new max_scrolls ScrapePosts.initial) as [H1 H2].
  split; [exact H1|]. split; [exact H2|].
  split; [apply collect_loop_reason|].
  intros k Hq. apply collect_loop_settles; auto.
  - unfold ScrapePosts.initial, ScrapePosts.STALL_LIMIT; cbn. lia.
  - cbn. lia.
Qed.

(** A feed with three rounds of growth and nothing after. *)
Definition three_then_nothing (j : nat) : ScrapePosts.Round :=
  ScrapePosts.mkRound 10
    (ScrapePosts.Snap (if (j <? 3)%nat then 2 else 0))
    false (fun _ => 0).

Lemma three_then_nothing_quiet :
  forall j, (3 <= j)%nat -> quiet (three_then_nothing j).
Proof.
  intros j Hj. unfold quiet, snap_added, three_then_nothing.
  cbn [ScrapePosts.snap ScrapePosts.saw_new].
  destruct (j <? 3)%nat eqn:E; [apply Nat.ltb_lt in E; lia|].
  split; [left; reflexivity|reflexivity].
Defined.

Lemma crawler_terminates_witness :
  (forall j, (3 <= j)%nat -> quiet (three_then_nothing j))
  /\ (ScrapePosts.rounds_run
        (ScrapePosts.collect_after_warmup three_then_nothing ScrapePosts.TARGET_NEW 50)
      <= 3 + ScrapePosts.STALL_LIMIT)%nat.
Proof.
  split; [exact three_then_nothing_quiet|].
  exact (proj2 (proj2 (proj2
           (crawler_terminates three_then_nothing ScrapePosts.TARGET_NEW 50)))
           3%nat three_then_nothing_quiet).
Defined.

(** The claim with the nudges counted as growth: a round that completes
    raises the stall counter only if neither the snapshot nor the nudges
    showed growth, and resets it whenever any of the snapshot, the growth
    poll or the nudges did. *)
Definition stall_rule_with_nudges : Prop :=
  forall target_new st r st',
    ScrapePosts.round_body target_new st r = (st', None) ->
    (ScrapePosts.stalls st' = S (ScrapePosts.stalls st) ->
       snap_added r = Some 0 /\ ScrapePosts.nudge_growth r = false)
    /\ (ScrapePosts.nudge_growth r = true -> ScrapePosts.stalls st' = 0%nat).

(** A round in which the snapshot and the growth poll saw nothing and a
    nudge did. *)
Definition nudged_round : ScrapePosts.Round :=
  ScrapePosts.mkRound 10 (ScrapePosts.Snap 0) false (fun _ => 3).

(** C6, as stated, fails: growth seen by a nudge does not keep the stall
    counter from rising. *)
Lemma nudge_growth_still_stalls : ~ stall_rule_with_nudges.
Proof.
  intros H.
  destruct (H ScrapePosts.TARGET_NEW ScrapePosts.initial nudged_round
              (ScrapePosts.mkLoop 1 1 0 (Some 0%nat) 1) eq_refl) as [_ H2].
  specialize (H2 eq_refl). discriminate.
Qed.

(** C6, amended.  In a round whose snapshot returned [a] and did not reach
    the target, the stall counter rises by one exactly when [a] is zero
    and the growth poll saw nothing, and is reset to zero otherwise; what
    the nudges saw plays no part.  The loop is left for the end of the feed
    exactly when the raised counter has reached [STALL_LIMIT]. *)
Theorem stall_counter_rule :
  forall (target_new : N) (st : ScrapePosts.LoopState) (r : ScrapePosts.Round) (a : N),
    snap_added r = Some a ->
    negb (target_new =? 0) && (target_new <=? ScrapePosts.newly_added st + a) = false ->
    let res := ScrapePosts.round_body target_new st r in
    let stalled := (a =? 0) && negb (ScrapePosts.saw_new r) in
    ScrapePosts.stalls (fst res)
      = (if stalled then S (ScrapePosts.stalls st) else 0%nat)
    /\ snd res
       = (if stalled && (ScrapePosts.STALL_LIMIT <=? S (ScrapePosts.stalls st))%nat
          then Some ScrapePosts.EndOfFeed else None)
    /\ (forall nudges,
          ScrapePosts.round_body target_new st
            (ScrapePosts.mkRound (ScrapePosts.article_count r) (ScrapePosts.snap r)
               (ScrapePosts.saw_new r) nudges) = res).
Proof.
  intros target_new st r a Ha Ht res stalled. subst res stalled.
  unfold snap_added in Ha. unfold ScrapePosts.round_body, ScrapePosts.reload_due.
  cbn [ScrapePosts.snap ScrapePosts.saw_new ScrapePosts.article_count].
  destruct (ScrapePosts.snap r) as [x|x|]; try discriminate;
    injection Ha as ->;
    destruct (_ || _); cbn [ScrapePosts.newly_added ScrapePosts.stalls ScrapePosts.i];
    rewrite Ht;
    destruct ((a =? 0) && negb (ScrapePosts.saw_new r)); cbn [andb];
    cbn [ScrapePosts.stalls];
    try destruct (ScrapePosts.STALL_LIMIT <=? S (ScrapePosts.stalls st))%nat;
    cbn [fst snd ScrapePosts.stalls]; auto.
Qed.

Lemma stall_counter_rule_witness :
  snap_added nudged_round = Some 0
  /\ negb (ScrapePosts.TARGET_NEW =? 0)
     && (ScrapePosts.TARGET_NEW <=? ScrapePosts.newly_added ScrapePosts.initial + 0) = false
  /\ ScrapePosts.nudge_growth nudged_round = true
  /\ ScrapePosts.stalls (fst (ScrapePosts.round_body ScrapePosts.TARGET_NEW
                                ScrapePosts.initial nudged_round)) = 1%nat.
Proof.
  split; [reflexivity|]. split; [reflexivity|]. split; [reflexivity|].
  exact (proj1 (stall_counter_rule ScrapePosts.TARGET_NEW ScrapePosts.initial
                  nudged_round (a := 0) eq_refl eq_refl)).
Defined.

(** ** Running the scripts: the effect of each step *)

Section Exec.

Import Py Sys FilterPosts.

Lemma fget_set_same (p : path) (x : Csv.file) (f : FS) : fs_set p x f p = x.
Proof. destruct p; reflexivity. Qed.

Lemma fget_set_other (p q : path) (x : Csv.file) (f : FS) :
  p <> q -> fs_set p x f q = f q.
Proof. destruct p, q; intros H; try reflexivity; congruence. Qed.

Lemma fs_set_twice (p : path) (x y : Csv.file) (f : FS) :
  fs_set p x (fs_set p y f) = fs_set p x f.
Proof. destruct p; reflexivity. Qed.

Lemma fs_set_id (p : path) (f : FS) : fs_set p (f p) f = f.
Proof. destruct p, f; reflexivity. Qed.

(** The file system after [ensure_csv_with_header] and after
    [append_rows] have run to their end. *)
Definition ensure_fs (p : path) (headers : list str) (f : FS) : FS :=
  match f p with
  | None => fs_set p (Some [headers]) f
  | Some _ => f
  end.

Definition rows_of (x : Csv.file) : list Csv.row :=
  match x with Some rows => rows | None => [] end.

Definition append_fs (p : path) (rows : list Csv.row) (f : FS) : FS :=
  match rows with
  | [] => f
  | _ => fs_set p (Some (rows_of (f p) ++ rows)) f
  end.

Definition ensure_ops (p : path) (headers : list str) (f : FS) : list io :=
  match f p with
  | None => [IoOpen p false; IoWrite p [headers]; IoClose p]
  | Some _ => []
  end.

Definition append_ops (p : path) (rows : list Csv.row) : list io :=
  match rows with
  | [] => []
  | _ => [IoOpen p true; IoWrite p rows; IoClose p]
  end.

(** One durable sub-step against the crash budget: [None] when the
    process is killed before it, else the budget left. *)
Definition spend (cr : option nat) : option (option nat) :=
  match cr with
  | None => Some None
  | Some O => None
  | Some (S k) => Some (Some k)
  end.

Lemma ensure_csv_with_header_eq p h f o c t cr :
  ensure_csv_with_header p h (mkWorld f o c t cr)
  = match spend cr with
    | None => (Killed, mkWorld f o c t cr)
    | Some cr' => (Ret tt, mkWorld (ensure_fs p h f) o c (t ++ ensure_ops p h f) cr')
    end.
Proof.
  unfold ensure_fs, ensure_ops.
  destruct cr as [[|k]|];
    cbv beta iota zeta delta
      [ensure_csv_with_header bind substep read_file open_w write_rows close
       emit put_file ret crash fs stdout calls trace spend];
    try reflexivity;
    (destruct (fget f p) eqn:E;
     [now rewrite app_nil_r|
      rewrite fget_set_same, fs_set_twice, <- !app_assoc; reflexivity]).
Qed.

Lemma append_rows_eq p rows f o c t cr :
  append_rows p rows (mkWorld f o c t cr)
  = match rows with
    | [] => (Ret tt, mkWorld f o c t cr)
    | _ =>
        match spend cr with
        | None => (Killed, mkWorld f o c t cr)
        | Some cr' =>
            (Ret tt, mkWorld (append_fs p rows f) o c (t ++ append_ops p rows) cr')
        end
    end.
Proof.
  destruct rows as [|r rows]; [reflexivity|].
  unfold append_fs, append_ops, rows_of.
  destruct cr as [[|k]|];
    cbv beta iota zeta delta
      [append_rows bind substep read_file open_a write_rows close
       emit put_file ret crash fs stdout calls trace spend];
    try reflexivity;
    (destruct (fget f p) eqn:E;
     cbv beta iota zeta delta [crash fs stdout calls trace];
     [rewrite ?E, <- !app_assoc; reflexivity|
      rewrite fget_set_same, fs_set_twice, <- !app_assoc; reflexivity]).
Qed.

Lemma print_eq s f o c t cr :
  print s (mkWorld f o c t cr) = (Ret tt, mkWorld f (o ++ [s ++ [10]]) c t cr).
Proof. reflexivity. Qed.

(** The membership test on a path. *)
Definition in_file (x : Csv.file) (url_norm : str) : bool :=
  match x with
  | None => false
  | Some rows => url_in_rows rows url_norm
  end.

(** [already_processed(url_raw)]: the verdict and the files named. *)
Definition processed (f : FS) (url_raw : str) : bool :=
  in_file (f CSV_ACCEPTED) (normalize_url url_raw)
  || in_file (f CSV_NONADMIN) (normalize_url url_raw)
  || in_file (f CSV_REJECTED) (normalize_url url_raw).

Definition hits (f : FS) (url_raw : str) : list str :=
  (if in_file (f CSV_ACCEPTED) (normalize_url url_raw) then [name CSV_ACCEPTED] else [])
  ++ (if in_file (f CSV_NONADMIN) (normalize_url url_raw) then [name CSV_NONADMIN] else [])
  ++ (if in_file (f CSV_REJECTED) (normalize_url url_raw) then [name CSV_REJECTED] else []).

Lemma url_in_csv_eq (p : path) (u : str) (w : World) :
  url_in_csv p u w = (Ret (in_file (fs w p) u), w).
Proof.
  unfold url_in_csv, bind, read_file, in_file. destruct (fget (fs w) p); reflexivity.
Qed.

Lemma already_processed_eq (u : str) (w : World) :
  already_processed u w = (Ret (processed (fs w) u, hits (fs w) u), w).
Proof.
  unfold already_processed, bind. rewrite !url_in_csv_eq. unfold ret, processed, hits.
  destruct (in_file (fs w CSV_ACCEPTED) _), (in_file (fs w CSV_NONADMIN) _),
    (in_file (fs w CSV_REJECTED) _); reflexivity.
Qed.

Definition log_headers : list str := [py "url"; py "comment scraped"; py "status"].

Definition log_fs (row : Csv.row) (f : FS) : FS :=
  append_fs CSV_LOG [row] (ensure_fs CSV_LOG log_headers f).

Lemma log_outcome_eq url n status f o c t cr :
  log_outcome url n status (mkWorld f o c t cr)
  = match spend cr with
    | None => (Killed, mkWorld f o c t cr)
    | Some cr1 =>
        match spend cr1 with
        | None => (Killed, mkWorld (ensure_fs CSV_LOG log_headers f) o c
                             (t ++ ensure_ops CSV_LOG log_headers f) cr1)
        | Some cr2 =>
            (Ret tt, mkWorld (log_fs [url; str_of_N n; status] f) o c
                       ((t ++ ensure_ops CSV_LOG log_headers f)
                        ++ append_ops CSV_LOG [[url; str_of_N n; status]]) cr2)
        end
    end.
Proof.
  unfold log_outcome, bind. fold log_headers. rewrite ensure_csv_with_header_eq.
  destruct (spend cr) as [cr1|]; [|reflexivity].
  rewrite append_rows_eq. destruct (spend cr1); reflexivity.
Qed.

Definition status_block (n : N) (admin_found snake_found : bool) : list str :=
  [ [10];
    py "Scraped total comments: " ++ str_of_N n ++ [10] ++ [10];
    py "ADMIN comment found: " ++ (if admin_found then CHECK else CROSS) ++ [10];
    py "SNAKE comment found: " ++ (if snake_found then CHECK else CROSS) ++ [10];
    [10] ].

Lemma print_status_block_eq n a s f o c t cr :
  print_status_block n a s (mkWorld f o c t cr)
  = (Ret tt, mkWorld f (o ++ status_block n a s) c t cr).
Proof.
  unfold print_status_block, bind, print, status_block.
  cbn [fs stdout calls trace crash].
  rewrite <- !app_assoc. reflexivity.
Qed.

Definition comments_of (pc : PcData) : list Comment :=
  match pc_comments pc with
  | [] => pc_comments_filtered pc
  | cs => cs
  end.

Definition scraped_total_of (pc : PcData) : N :=
  if negb (pc_scraped_total pc =? 0) then pc_scraped_total pc
  else N.of_nat (List.length (comments_of pc)).

End Exec.

(** ** Durability of the appends *)

Section Durability.

Import Py Sys.

(** Where the data written to a file stands. *)
Inductive stage : Type := Clean | Buffered | Flushed | Synced.

Definition after (e : io) (p : path) (st : stage) : option stage :=
  match e with
  | IoOpen q _ => Some (if path_eqb q p then Clean else st)
  | IoWrite q _ => Some (if path_eqb q p then Buffered else st)
  | IoFlush q =>
      Some (if path_eqb q p then match st with Buffered => Flushed | s => s end else st)
  | IoFsync q =>
      Some (if path_eqb q p then match st with Flushed => Synced | s => s end else st)
  | IoClose q =>
      if path_eqb q p
      then match st with Clean | Synced => Some Clean | _ => None end
      else Some st
  end.

(** The discipline of the claim for the file [p]: whenever [p] is closed,
    everything written to it has been flushed and then synced. *)
Fixpoint disciplined_from (st : stage) (p : path) (t : list io) : bool :=
  match t with
  | [] => true
  | e :: t' =>
      match after e p st with
      | Some st' => disciplined_from st' p t'
      | None => false
      end
  end.

Definition disciplined (p : path) (t : list io) : bool := disciplined_from Clean p t.

Definition synced_append (p : path) (rows : list Csv.row) : list io :=
  [IoOpen p true; IoWrite p rows; IoFlush p; IoFsync p; IoClose p].

Definition synced_create (p : path) (rows : list Csv.row) : list io :=
  [IoOpen p false; IoWrite p rows; IoFlush p; IoFsync p; IoClose p].

Definition plain_append (p : path) (rows : list Csv.row) : list io :=
  append_ops p rows.

Definition quiet_world : World := mkWorld no_files [] [] [] None.

Lemma append_one_eq p url f o c t cr :
  ScrapePosts.append_one p url (mkWorld f o c t cr)
  = match spend cr with
    | None => (Killed, mkWorld f o c t cr)
    | Some cr' =>
        (Ret tt, mkWorld (append_fs p [[url]] f) o c (t ++ synced_append p [[url]]) cr')
    end.
Proof.
  unfold append_fs, synced_append, rows_of.
  destruct cr as [[|k]|];
    cbv beta iota zeta delta
      [ScrapePosts.append_one bind substep read_file open_a write_rows flush fsync
       close emit put_file ret crash fs stdout calls trace spend];
    try reflexivity;
    (destruct (fget f p) eqn:E;
     cbv beta iota zeta delta [crash fs stdout calls trace];
     [rewrite ?E, <- !app_assoc; reflexivity|
      rewrite fget_set_same, fs_set_twice, <- !app_assoc; reflexivity]).
Qed.

(** The file system after [ensure_done_header]. *)
Definition done_header_fs (f : FS) : FS :=
  if RunFilters.file_is_empty (f DONE_FILE)
  then fs_set DONE_FILE (Some [[py "url"]]) f else f.

Definition done_header_ops (f : FS) : list io :=
  if RunFilters.file_is_empty (f DONE_FILE)
  then synced_create DONE_FILE [[py "url"]] else [].

Lemma ensure_done_header_eq f o c t cr :
  RunFilters.ensure_done_header (mkWorld f o c t cr)
  = if RunFilters.file_is_empty (f DONE_FILE) then
      match spend cr with
      | None => (Killed, mkWorld f o c t cr)
      | Some cr' =>
          (Ret tt, mkWorld (done_header_fs f) o c (t ++ done_header_ops f) cr')
      end
    else (Ret tt, mkWorld f o c t cr).
Proof.
  unfold done_header_fs, done_header_ops, synced_create.
  cbv beta iota zeta delta [RunFilters.ensure_done_header bind read_file fs].
  destruct (RunFilters.file_is_empty (fget f DONE_FILE)) eqn:Ee; [|reflexivity].
  destruct cr as [[|k]|];
    cbv beta iota zeta delta
      [bind substep read_file open_w write_rows flush fsync
       close emit put_file ret crash fs stdout calls trace spend];
    try reflexivity;
    rewrite fget_set_same, fs_set_twice, <- !app_assoc; reflexivity.
Qed.

(** [done_contains], on what the path holds. *)
Definition done_has (x : Csv.file) (url_norm : str) : bool :=
  match x with
  | None => false
  | Some rows =>
      if is_empty rows then false
      else
        let col := match RunFilters._find_url_column (Csv.fieldnames rows) with
                   | Some c => or_ c (py "url")
                   | None => py "url"
                   end in
        existsb (fun d => let v := RunFilters.normalize_url
                                     (strip (or_empty (Csv.get col d))) in
                          truthy v && eqb v url_norm)
                (Csv.dictreader rows)
  end.

Lemma done_contains_eq (u : str) (w : World) :
  RunFilters.done_contains u w = (Ret (done_has (fs w DONE_FILE) u), w).
Proof.
  unfold RunFilters.done_contains, done_has, bind, read_file.
  destruct (fget (fs w) DONE_FILE) as [rows|]; [|reflexivity].
  destruct (is_empty rows); reflexivity.
Qed.

Lemma append_done_url_now_eq u f o c t :
  let norm := RunFilters.normalize_url u in
  let f1 := done_header_fs f in
  RunFilters.append_done_url_now u (mkWorld f o c t None)
  = if negb (truthy norm) then (Ret tt, mkWorld f o c t None)
    else if done_has (f1 DONE_FILE) norm
         then (Ret tt, mkWorld f1 o c (t ++ done_header_ops f) None)
         else (Ret tt, mkWorld (append_fs DONE_FILE [[norm]] f1) o c
                         ((t ++ done_header_ops f) ++ synced_append DONE_FILE [[norm]])
                         None).
Proof.
  cbv zeta. unfold RunFilters.append_done_url_now.
  destruct (truthy (RunFilters.normalize_url u)); cbn [negb]; [|reflexivity].
  unfold bind at 1. rewrite ensure_done_header_eq.
  assert (E : (if RunFilters.file_is_empty (f DONE_FILE)
               then (Ret tt, mkWorld (done_header_fs f) o c (t ++ done_header_ops f) None)
               else (@Ret unit tt, mkWorld f o c t None))
              = (Ret tt, mkWorld (done_header_fs f) o c (t ++ done_header_ops f) None)).
  { unfold done_header_fs, done_header_ops.
    destruct (RunFilters.file_is_empty (f DONE_FILE)); [reflexivity|].
    now rewrite app_nil_r. }
  cbn [spend]. rewrite E.
  unfold bind at 1. rewrite done_contains_eq. cbn [fs].
  destruct (done_has _ _); [reflexivity|].
  change (substep;;; open_a DONE_FILE;;; write_rows DONE_FILE [[RunFilters.normalize_url u]];;;
          flush DONE_FILE;;; fsync DONE_FILE;;; close DONE_FILE)
    with (ScrapePosts.append_one DONE_FILE (RunFilters.normalize_url u)).
  now rewrite append_one_eq.
Qed.

End Durability.

(** C3, as stated, fails for the outcome ledgers and the run log: the
    append of [filterPosts.py] opens, writes and closes, with no flush
    call and no sync. *)
Lemma outcome_append_not_synced :
  Sys.trace (Sys.run (FilterPosts.append_rows Sys.CSV_ACCEPTED
                        [[py "https://www.facebook.com/groups/1/posts/2"]])
                     quiet_world)
  = [Sys.IoOpen Sys.CSV_ACCEPTED true;
     Sys.IoWrite Sys.CSV_ACCEPTED [[py "https://www.facebook.com/groups/1/posts/2"]];
     Sys.IoClose Sys.CSV_ACCEPTED]
  /\ disciplined Sys.CSV_ACCEPTED
       (Sys.trace (Sys.run (FilterPosts.append_rows Sys.CSV_ACCEPTED
                              [[py "https://www.facebook.com/groups/1/posts/2"]])
                           quiet_world)) = false
  /\ disciplined Sys.CSV_LOG
       (Sys.trace (Sys.run (FilterPosts.log_outcome
                              (py "https://www.facebook.com/groups/1/posts/2") 3
                              (py "Accepted"))
                           quiet_world)) = false.
Proof. repeat split; reflexivity. Qed.

(** C3, amended.  The appends to the pending-candidates ledger
    ([append_one]) and to the done-URLs ledger ([append_done_url_now],
    with the header it may have to create first) open the file, write,
    flush, sync and close.  The append used for the outcome ledgers and the
    run log ([append_rows]) opens, writes and closes: the data is flushed
    by the close only, and never synced. *)
Theorem durability_of_appends :
  forall w : Sys.World,
    Sys.crash w = None ->
    (forall p url,
        Sys.trace (Sys.run (ScrapePosts.append_one p url) w)
        = Sys.trace w ++ synced_append p [[url]]
        /\ disciplined p (synced_append p [[url]]) = true)
    /\ (forall u,
          exists ops,
            Sys.trace (Sys.run (RunFilters.append_done_url_now u) w) = Sys.trace w ++ ops
            /\ disciplined Sys.DONE_FILE ops = true
            /\ (Py.truthy (RunFilters.normalize_url u) = true ->
                done_has (Sys.fget (done_header_fs (Sys.fs w)) Sys.DONE_FILE)
                         (RunFilters.normalize_url u) = false ->
                exists before,
                  ops = before ++ synced_append Sys.DONE_FILE [[RunFilters.normalize_url u]]))
    /\ (forall p r rows,
          Sys.trace (Sys.run (FilterPosts.append_rows p (r :: rows)) w)
          = Sys.trace w ++ plain_append p (r :: rows)
          /\ disciplined p (plain_append p (r :: rows)) = false).
Proof.
  intros [f o c t cr]. cbn [Sys.crash]. intros ->. split; [|split].
  - intros p url. unfold Sys.run. rewrite append_one_eq. cbn [spend snd Sys.trace].
    split; [reflexivity|]. destruct p; reflexivity.
  - intros u. unfold Sys.run. rewrite append_done_url_now_eq. cbn [Sys.trace].
    destruct (Py.truthy (RunFilters.normalize_url u)); cbn [negb].
    + destruct (done_has _ _) eqn:Ed; cbn [snd Sys.trace].
      * exists (done_header_ops f). split; [reflexivity|]. split.
        -- unfold done_header_ops. destruct (RunFilters.file_is_empty _); reflexivity.
        -- intros _ H. discriminate.
      * exists (done_header_ops f
                ++ synced_append Sys.DONE_FILE [[RunFilters.normalize_url u]]).
        split; [now rewrite app_assoc|]. split.
        -- unfold done_header_ops. destruct (RunFilters.file_is_empty _); reflexivity.
        -- intros _ _. now exists (done_header_ops f).
    + exists []. cbn [snd Sys.trace]. split; [now rewrite app_nil_r|].
      split; [reflexivity|]. intros H. discriminate.
  - intros p r rows. unfold Sys.run. rewrite append_rows_eq. cbn [spend snd Sys.trace].
    split; [reflexivity|]. destruct p; reflexivity.
Qed.

Lemma durability_of_appends_witness :
  Sys.crash quiet_world = None
  /\ Sys.trace (Sys.run (ScrapePosts.append_one Sys.OUT_CSV
                           (py "https://www.facebook.com/groups/1/posts/2"))
                        quiet_world)
     = Sys.trace quiet_world
       ++ synced_append Sys.OUT_CSV [[py "https://www.facebook.com/groups/1/posts/2"]].
Proof.
  split; [reflexivity|].
  exact (proj1 (proj1 (durability_of_appends quiet_world eq_refl) Sys.OUT_CSV
                  (py "https://www.facebook.com/groups/1/posts/2"))).
Defined.

(** ** The identity column of a ledger *)

Lemma eqb_eq (a b : Py.str) : Py.eqb a b = true <-> a = b.
Proof.
  unfold Py.eqb. destruct (list_eq_dec N.eq_dec a b); split; auto; discriminate.
Qed.

Lemma eqb_refl (a : Py.str) : Py.eqb a a = true.
Proof. now apply eqb_eq. Qed.

Lemma eqb_neq (a b : Py.str) : Py.eqb a b = false <-> a <> b.
Proof.
  unfold Py.eqb. destruct (list_eq_dec N.eq_dec a b); split; auto; try discriminate.
  intros H. contradiction.
Qed.

Section Dict.

Import Py Csv.

Context {V : Type}.

Lemma dict_get_In (k : str) (v : V) (d : dict V) :
  dict_get k d = Some v -> In (k, v) d.
Proof.
  induction d as [|[k' v'] d IH]; cbn [dict_get]; [discriminate|].
  destruct (eqb k' k) eqn:E.
  - apply eqb_eq in E. intros [= <-]. subst. now left.
  - intros H. right. auto.
Qed.

Lemma dict_get_None (k : str) (d : dict V) :
  dict_get k d = None -> forall v, ~ In (k, v) d.
Proof.
  induction d as [|[k' v'] d IH]; cbn [dict_get]; [intros _ v []|].
  destruct (eqb k' k) eqn:E; [discriminate|].
  intros H v [[= -> ->]|Hin].
  - rewrite eqb_refl in E. discriminate.
  - exact (IH H v Hin).
Qed.

Lemma dict_set_In (k : str) (v : V) (d : dict V) (k' : str) (v' : V) :
  In (k', v') (dict_set k v d) -> (k' = k /\ v' = v) \/ In (k', v') d.
Proof.
  induction d as [|[k0 v0] d IH]; cbn [dict_set].
  - intros [[= <- <-]|[]]. now left.
  - destruct (eqb k0 k) eqn:E.
    + apply eqb_eq in E. subst. intros [[= <- <-]|H]; [now left|right; now right].
    + intros [H|H]; [right; now left|].
      destruct (IH H) as [?|?]; [now left|right; now right].
Qed.

Lemma dict_set_has (k : str) (v : V) (d : dict V) : In (k, v) (dict_set k v d).
Proof.
  induction d as [|[k0 v0] d IH]; cbn [dict_set]; [now left|].
  destruct (eqb k0 k) eqn:E.
  - apply eqb_eq in E. subst. now left.
  - now right.
Qed.

Lemma dict_set_keeps (k : str) (v : V) (d : dict V) (k' : str) (v' : V) :
  In (k', v') d -> exists v'', In (k', v'') (dict_set k v d).
Proof.
  induction d as [|[k0 v0] d IH]; cbn [dict_set]; [intros []|].
  destruct (eqb k0 k) eqn:E.
  - apply eqb_eq in E. subst. intros [[= -> ->]|H].
    + exists v. now left.
    + exists v'. now right.
  - intros [H|H].
    + exists v'. now left.
    + destruct (IH H) as [v'' Hv]. exists v''. now right.
Qed.

End Dict.

Section UrlColumn.

Import Py Csv FilterPosts.

(** A header as [_clean_fieldname] leaves it. *)
Definition clean (fn : str) : str :=
  lower (sub_runs isspace false (strip (replace [0xFEFF] [] fn))).

Definition cleaned_to_orig (fns : list str) (d : dict str) : dict str :=
  fold_left (fun d fn => match _clean_fieldname (Some fn) with
                         | Some k => dict_set k fn d
                         | None => d
                         end) fns d.

Lemma cleaned_to_orig_entries (fns : list str) :
  forall d k v,
    In (k, v) (cleaned_to_orig fns d) -> (In v fns /\ clean v = k) \/ In (k, v) d.
Proof.
  induction fns as [|fn fns IH]; intros d k v; cbn [cleaned_to_orig fold_left].
  - now right.
  - intros H. apply IH in H. destruct H as [[H1 H2]|H].
    + left. split; [now right|exact H2].
    + cbn [_clean_fieldname] in H. apply dict_set_In in H.
      destruct H as [[-> ->]|H]; [left; split; [now left|reflexivity]|now right].
Qed.

Lemma cleaned_to_orig_keeps (fns : list str) :
  forall d k v, In (k, v) d -> exists v', In (k, v') (cleaned_to_orig fns d).
Proof.
  induction fns as [|fn fns IH]; intros d k v H; cbn [cleaned_to_orig fold_left].
  - now exists v.
  - cbn [_clean_fieldname].
    destruct (dict_set_keeps (clean fn) fn d k v H) as [v' Hv'].
    exact (IH _ _ _ Hv').
Qed.

Lemma cleaned_to_orig_keys (fns : list str) :
  forall d fn, In fn fns -> exists v, In (clean fn, v) (cleaned_to_orig fns d).
Proof.
  induction fns as [|fn0 fns IH]; intros d fn; [intros []|].
  cbn [cleaned_to_orig fold_left _clean_fieldname]. intros [->|H].
  - exact (cleaned_to_orig_keeps fns _ _ _ (dict_set_has (clean fn) fn d)).
  - exact (IH _ _ H).
Qed.

Definition has_header (fns : list str) (k : str) : Prop :=
  exists fn, In fn fns /\ clean fn = k.

Lemma dict_has_iff (fns : list str) (k : str) :
  dict_has k (cleaned_to_orig fns []) = true <-> has_header fns k.
Proof.
  unfold dict_has. split.
  - destruct (dict_get k _) as [v|] eqn:E; [|discriminate]. intros _.
    apply dict_get_In, cleaned_to_orig_entries in E.
    destruct E as [[H1 H2]|[]]. now exists v.
  - intros [fn [H1 H2]]. destruct (dict_get k _) as [v|] eqn:E; auto.
    destruct (cleaned_to_orig_keys fns [] fn H1) as [v Hv].
    rewrite H2 in Hv. destruct (dict_get_None _ _ E _ Hv).
Qed.

Lemma dict_get_header (fns : list str) (k : str) :
  has_header fns k ->
  exists o, dict_get k (cleaned_to_orig fns []) = Some o /\ In o fns /\ clean o = k.
Proof.
  intros H. apply dict_has_iff in H. unfold dict_has in H.
  destruct (dict_get k _) as [o|] eqn:E; [|discriminate].
  exists o. split; auto.
  apply dict_get_In, cleaned_to_orig_entries in E. destruct E as [E|[]]. exact E.
Qed.

Lemma contains_nonempty (n : char) (needle k : str) :
  contains (n :: needle) k = true -> truthy k = true.
Proof. destruct k; [discriminate|reflexivity]. Qed.

Lemma _find_url_column_unfold (fn : str) (fns : list str) :
  _find_url_column (Some (fn :: fns))
  = let d := cleaned_to_orig (fn :: fns) [] in
    if dict_has (py "post url") d then dict_get (py "post url") d
    else if dict_has (py "url") d then dict_get (py "url") d
    else match find (fun kv => truthy (fst kv) && contains (py "url") (fst kv)) d with
         | Some kv => Some (snd kv)
         | None => None
         end.
Proof.
  unfold _find_url_column. fold (cleaned_to_orig (fn :: fns) []).
  cbv zeta. cbn [find].
  destruct (dict_has (py "post url") _); [reflexivity|].
  destruct (dict_has (py "url") _); reflexivity.
Qed.

End UrlColumn.

(** A ledger whose header names no url-like column, holding the URL in
    its first column. *)
Definition link_ledger : list Csv.row :=
  [ [py "link"; py "name"];
    [py "https://www.facebook.com/groups/1/posts/2"; py "Ann"] ].

(** C9, as stated, fails in its last case: with no url-like header
    [_find_url_column] of [filterPosts.py] returns [None], not a default
    column, and [url_in_csv] then reports the URL absent. *)
Lemma no_default_column :
  FilterPosts._find_url_column (Csv.fieldnames link_ledger) = None
  /\ FilterPosts.url_in_rows link_ledger
       (py "https://www.facebook.com/groups/1/posts/2") = false
  /\ RunFilters._find_url_column (Csv.fieldnames link_ledger) = Some (py "link").
Proof. repeat split; reflexivity. Qed.

(** C9, amended.  On a header row, [_find_url_column] answers, in this
    order: a header whose cleaned form (byte-order mark removed, blanks
    trimmed and collapsed, lower case) is ["post url"]; else one whose
    cleaned form is ["url"]; else one whose cleaned form contains ["url"];
    else nothing, and then the membership test is false whatever the
    records hold. *)
Theorem find_url_column_precedence :
  forall fns : list Py.str,
    let res := FilterPosts._find_url_column (Some fns) in
    (has_header fns (py "post url") ->
       exists o, res = Some o /\ In o fns /\ clean o = py "post url")
    /\ (~ has_header fns (py "post url") -> has_header fns (py "url") ->
          exists o, res = Some o /\ In o fns /\ clean o = py "url")
    /\ (~ has_header fns (py "post url") -> ~ has_header fns (py "url") ->
        (exists fn, In fn fns /\ Py.contains (py "url") (clean fn) = true) ->
          exists o, res = Some o /\ In o fns /\ Py.contains (py "url") (clean o) = true)
    /\ ((forall fn, In fn fns -> Py.contains (py "url") (clean fn) = false) ->
          res = None
          /\ forall body u, FilterPosts.url_in_rows (fns :: body) u = false).
Proof.
  intros fns res. subst res.
  destruct fns as [|fn0 fns'].
  { split; [|split; [|split]].
    - intros [fn [[] _]].
    - intros _ [fn [[] _]].
    - intros _ _ [fn [[] _]].
    - intros _. split; reflexivity. }
  set (fns := fn0 :: fns').
  assert (Hnone : (forall fn, In fn fns -> Py.contains (py "url") (clean fn) = false) ->
                  FilterPosts._find_url_column (Some fns) = None).
  { intros Hno. unfold fns. rewrite _find_url_column_unfold. cbv zeta. fold fns.
    destruct (Csv.dict_has (py "post url") _) eqn:E1.
    { apply dict_has_iff in E1. destruct E1 as [fn [H1 H2]].
      specialize (Hno fn H1). rewrite H2 in Hno. discriminate. }
    destruct (Csv.dict_has (py "url") _) eqn:E2.
    { apply dict_has_iff in E2. destruct E2 as [fn [H1 H2]].
      specialize (Hno fn H1). rewrite H2 in Hno. discriminate. }
    destruct (find _ _) as [[k v]|] eqn:Ef; [|reflexivity].
    apply find_some in Ef. destruct Ef as [Hin Hp]. cbn [fst] in Hp.
    apply cleaned_to_orig_entries in Hin. destruct Hin as [[H1 H2]|[]].
    apply andb_true_iff in Hp. destruct Hp as [_ Hp].
    rewrite <- H2, (Hno v H1) in Hp. discriminate. }
  split; [|split; [|split]].
  - intros H. unfold fns. rewrite _find_url_column_unfold. cbv zeta. fold fns.
    rewrite (proj2 (dict_has_iff fns _) H). exact (dict_get_header H).
  - intros Hn H. unfold fns. rewrite _find_url_column_unfold. cbv zeta. fold fns.
    destruct (Csv.dict_has (py "post url") _) eqn:E1.
    { apply dict_has_iff in E1. contradiction. }
    rewrite (proj2 (dict_has_iff fns _) H). exact (dict_get_header H).
  - intros Hn1 Hn2 [fn [Hin Hc]].
    unfold fns. rewrite _find_url_column_unfold. cbv zeta. fold fns.
    destruct (Csv.dict_has (py "post url") _) eqn:E1.
    { apply dict_has_iff in E1. contradiction. }
    destruct (Csv.dict_has (py "url") _) eqn:E2.
    { apply dict_has_iff in E2. contradiction. }
    destruct (find _ _) as [[k v]|] eqn:Ef.
    + apply find_some in Ef. destruct Ef as [Hd Hp]. cbn [fst] in Hp.
      apply cleaned_to_orig_entries in Hd. destruct Hd as [[H1 H2]|[]].
      apply andb_true_iff in Hp. destruct Hp as [_ Hp].
      exists v. cbn [snd]. rewrite H2. auto.
    + destruct (cleaned_to_orig_keys fns [] fn Hin) as [v Hv].
      pose proof (find_none _ _ Ef _ Hv) as Hp. cbn [fst] in Hp.
      rewrite Hc, (contains_nonempty _ _ _ Hc) in Hp. discriminate.
  - intros Hno. split; [exact (Hnone Hno)|].
    intros body u. unfold FilterPosts.url_in_rows.
    change (Csv.fieldnames (fns :: body)) with (Some fns).
    now rewrite (Hnone Hno).
Qed.

Lemma find_url_column_precedence_witness :
  has_header [[0xFEFF] ++ py " Post   URL "; py "url"] (py "post url")
  /\ exists o,
       FilterPosts._find_url_column (Some [[0xFEFF] ++ py " Post   URL "; py "url"]) = Some o
       /\ In o [[0xFEFF] ++ py " Post   URL "; py "url"]
       /\ clean o = py "post url".
Proof.
  assert (H : has_header [[0xFEFF] ++ py " Post   URL "; py "url"] (py "post url")).
  { exists ([0xFEFF] ++ py " Post   URL "). split; [now left|reflexivity]. }
  split; [exact H|].
  exact (proj1 (find_url_column_precedence [[0xFEFF] ++ py " Post   URL "; py "url"]) H).
Defined.

(** ** URL normalisation *)

Section ReplaceFacts.

Import Py.

Lemma startswith_prefix (p s : str) :
  startswith p s = true <-> exists r, s = p ++ r.
Proof.
  revert s. induction p as [|a p IH]; intros s; cbn [startswith].
  - split; auto. intros _. now exists s.
  - destruct s as [|b s].
    + split; [discriminate|]. intros [r H]. discriminate.
    + rewrite andb_true_iff, N.eqb_eq, IH. split.
      * intros [-> [r ->]]. now exists r.
      * intros [r H]. injection H as -> ->. split; auto. now exists r.
Qed.

Lemma startswith_app_more (p s t : str) :
  startswith p s = true -> startswith p (s ++ t) = true.
Proof.
  rewrite !startswith_prefix. intros [r ->]. exists (r ++ t). now rewrite app_assoc.
Qed.

Lemma before_split (c : char) (s : str) : exists r, s = before c s ++ r.
Proof.
  induction s as [|x s [r IH]]; cbn [before].
  - now exists [].
  - destruct (x =? c).
    + now exists (x :: s).
    + exists r. cbn. now f_equal.
Qed.

Lemma before_app_clear (c : char) (a b : str) :
  Forall (fun x => x <> c) a -> before c (a ++ b) = a ++ before c b.
Proof.
  induction 1 as [|x a Hx Ha IH]; cbn [before app]; auto.
  apply N.eqb_neq in Hx. rewrite Hx. now f_equal.
Qed.

Lemma startswith_before (c : char) (p s : str) :
  Forall (fun x => x <> c) p ->
  startswith p s = true -> startswith p (before c s) = true.
Proof.
  intros Hp H. apply startswith_prefix in H. destruct H as [r ->].
  rewrite before_app_clear by exact Hp.
  apply startswith_prefix. now exists (before c r).
Qed.

Lemma startswith_of_before (c : char) (p s : str) :
  startswith p (before c s) = true -> startswith p s = true.
Proof.
  intros H. destruct (before_split c s) as [r Hr]. rewrite Hr.
  now apply startswith_app_more.
Qed.

Lemma In_last (l : str) (d : char) : l <> [] -> In (last l d) l.
Proof.
  induction l as [|x l IH]; [congruence|]. intros _.
  destruct l as [|y l]; [now left|]. right. apply IH. discriminate.
Qed.

(** The text to replace, which is not empty, and its replacement. *)
Variable o : char.
Variable old' : str.
Variable new : str.
Let old : str := o :: old'.

Lemma replace_from_clear (t : str) :
  Forall (fun x => x <> o) t -> replace_from old new 0 t = t.
Proof.
  induction 1 as [|x t Hx Ht IH]; [reflexivity|].
  cbn [replace_from]. unfold old at 1. cbn [startswith].
  assert (E : (o =? x) = false) by (apply N.eqb_neq; congruence).
  rewrite E. cbn [andb]. now f_equal.
Qed.

Lemma Forall_replace_from (P : char -> Prop) (s : str) :
  Forall P new -> Forall P s -> forall k, Forall P (replace_from old new k s).
Proof.
  intros Hn Hs. induction Hs as [|x s Hx Hs IH]; intros k; cbn [replace_from]; auto.
  destruct k; auto. destruct (startswith old (x :: s)); auto.
  apply Forall_app. split; auto.
Qed.

(** Cutting at a character that occurs in neither text can be done before
    or after the replacement. *)
Lemma before_replace_from (c : char) :
  Forall (fun x => x <> c) old ->
  Forall (fun x => x <> c) new ->
  forall s k,
    Forall (fun x => x <> c) (firstn k s) ->
    before c (replace_from old new k s) = replace_from old new k (before c s).
Proof.
  intros Hold Hnew. induction s as [|x s IH]; intros k Hk; [now destruct k|].
  destruct k as [|k].
  - cbn [replace_from]. destruct (startswith old (x :: s)) eqn:E.
    + pose proof E as E'. apply startswith_prefix in E'. destruct E' as [r Hr].
      unfold old in Hr. injection Hr as -> ->.
      assert (Hx : (o =? c) = false) by (apply N.eqb_neq; now inversion Hold).
      rewrite before_app_clear by exact Hnew.
      cbn [before]. rewrite Hx.
      assert (E2 : startswith old (o :: before c (old' ++ r)) = true).
      { change (o :: before c (old' ++ r))
          with (if false then [] else o :: before c (old' ++ r)).
        rewrite <- Hx. change (startswith old (before c (o :: old' ++ r)) = true).
        now apply startswith_before. }
      cbn [replace_from]. rewrite E2. f_equal. apply IH.
      unfold old. cbn [List.length].
      replace (S (List.length old') - 1)%nat with (List.length old') by lia.
      rewrite firstn_app, firstn_all, Nat.sub_diag. cbn [firstn].
      rewrite app_nil_r. now inversion Hold.
    + cbn [before]. destruct (x =? c) eqn:Ex; [reflexivity|].
      cbn [replace_from].
      assert (E2 : startswith old (x :: before c s) = false).
      { destruct (startswith old (x :: before c s)) eqn:E3; auto.
        assert (E4 : startswith old (before c (x :: s)) = true)
          by (cbn [before]; now rewrite Ex).
        apply startswith_of_before in E4. congruence. }
      rewrite E2. f_equal. apply IH. constructor.
  - cbn [firstn] in Hk. inversion Hk as [|? ? Hx Hk']; subst.
    apply N.eqb_neq in Hx. cbn [replace_from before]. rewrite Hx.
    cbn [replace_from]. now apply IH.
Qed.

Lemma before_replace (c : char) (s : str) :
  Forall (fun x => x <> c) old ->
  Forall (fun x => x <> c) new ->
  before c (replace old new s) = replace old new (before c s).
Proof.
  intros H1 H2. unfold replace. apply before_replace_from; auto.
Qed.

Lemma startswith_app_tail (t : str) :
  Forall (fun x => x <> last old 0) t ->
  forall a, startswith old (a ++ t) = startswith old a.
Proof.
  intros Ht. generalize (@eq_refl _ (last old 0)).
  generalize (last old 0) at 1 as l. unfold old at 1.
  assert (G : forall (p : str) (l : char),
             p <> [] -> l = last p 0 ->
             Forall (fun x => x <> l) t ->
             forall a, startswith p (a ++ t) = startswith p a).
  { induction p as [|y p IH]; [congruence|]. intros l _ Hl Hf a.
    destruct a as [|z a].
    - cbn [app]. destruct (startswith (y :: p) t) eqn:E; auto.
      apply startswith_prefix in E. destruct E as [r ->].
      rewrite Forall_forall in Hf. exfalso. apply (Hf l); auto.
      apply in_or_app. left. rewrite Hl. apply In_last. discriminate.
    - cbn [app startswith]. destruct p as [|y' p]; [reflexivity|].
      f_equal. apply (IH l); auto; discriminate. }
  intros l Hl a. apply (G old (last old 0)); auto. discriminate.
Qed.

(** A tail that holds neither the first nor the last character of [old]
    is left alone, and nothing before it is replaced differently. *)
Lemma replace_from_app_tail (t : str) :
  Forall (fun x => x <> o) t ->
  Forall (fun x => x <> last old 0) t ->
  forall a k, (k <= List.length a)%nat ->
    replace_from old new k (a ++ t) = replace_from old new k a ++ t.
Proof.
  intros H1 H2. induction a as [|x a IH]; intros k Hk.
  - cbn in Hk. assert (k = 0%nat) by lia. subst. cbn [app replace_from].
    now apply replace_from_clear.
  - destruct k as [|k]; cbn [app replace_from].
    + change (x :: a ++ t) with ((x :: a) ++ t).
      rewrite startswith_app_tail by exact H2.
      destruct (startswith old (x :: a)) eqn:E.
      * rewrite <- app_assoc. f_equal. apply IH.
        apply startswith_prefix in E. destruct E as [r Hr].
        apply (f_equal (@List.length _)) in Hr. rewrite length_app in Hr.
        unfold old in *. cbn [List.length] in *. lia.
      * cbn [app]. f_equal. apply IH. lia.
    + apply IH. cbn in Hk. lia.
Qed.

End ReplaceFacts.

Section StripFacts.

Import Py.

Lemma dropwhile_none (p : char -> bool) (s : str) :
  Forall (fun c => p c = false) s -> dropwhile p s = s.
Proof. destruct 1 as [|c s Hc Hs]; cbn [dropwhile]; auto. now rewrite Hc. Qed.

Lemma rstrip_by_none (p : char -> bool) (s : str) :
  Forall (fun c => p c = false) s -> rstrip_by p s = s.
Proof.
  intros H. unfold rstrip_by. rewrite dropwhile_none by now apply Forall_rev.
  apply rev_involutive.
Qed.

Lemma strip_none (s : str) :
  Forall (fun c => isspace c = false) s -> strip s = s.
Proof.
  intros H. unfold strip, lstrip_by. rewrite dropwhile_none by exact H.
  now apply rstrip_by_none.
Qed.

Lemma dropwhile_all_app (p : char -> bool) (a b : str) :
  Forall (fun c => p c = true) a -> dropwhile p (a ++ b) = dropwhile p b.
Proof. induction 1 as [|c a Hc Ha IH]; cbn [dropwhile app]; auto. now rewrite Hc. Qed.

Lemma rstrip_by_app_all (p : char -> bool) (s t : str) :
  Forall (fun c => p c = true) t -> rstrip_by p (s ++ t) = rstrip_by p s.
Proof.
  intros H. unfold rstrip_by. rewrite rev_app_distr.
  rewrite dropwhile_all_app by now apply Forall_rev. reflexivity.
Qed.

End StripFacts.

Section UrlVariants.

Import Py.

(** The ways of writing the URL of one post. *)
Inductive Scheme : Type := Https | Http | HttpCaps.
Inductive Host : Type := Www | Mobile | Bare.

Record Variant : Type := mkVariant {
  scheme : Scheme;
  host : Host;
  slashes : nat;                 (* trailing slashes *)
  query : option str;
  fragment : option str
}.

Definition scheme_text (s : Scheme) : str :=
  match s with
  | Https => py "https://"
  | Http => py "http://"
  | HttpCaps => py "HTTP://"
  end.

Definition host_text (h : Host) : str :=
  match h with
  | Www => py "www.facebook."
  | Mobile => py "m.facebook."
  | Bare => py "facebook."
  end.

Definition tail_text (v : Variant) : str :=
  repeat 47 (slashes v)
  ++ match query v with Some q => 63 :: q | None => [] end
  ++ match fragment v with Some f => 35 :: f | None => [] end.

(** [rest] is what follows ["facebook."]: the top-level domain and the
    path of the post. *)
Definition render (v : Variant) (rest : str) : str :=
  scheme_text (scheme v) ++ host_text (host v) ++ rest ++ tail_text v.

Definition nospace (s : str) : Prop := Forall (fun c => isspace c = false) s.

Definition path_like (rest : str) : Prop :=
  nospace rest /\ Forall (fun c => c <> 63) rest /\ Forall (fun c => c <> 35) rest.

Definition wellformed (v : Variant) : Prop :=
  nospace (or_empty (query v)) /\ nospace (or_empty (fragment v)).

Definition R1 : str -> str := replace (py "://m.facebook.") (py "://www.facebook.").
Definition R2 : str -> str := replace (py "://facebook.") (py "://www.facebook.").

Definition cut (u : str) : str := before 63 (before 35 u).

Definition canon_core (u : str) : str := rstrip_slash (cut (R2 (R1 u))).

Lemma Forall_of_forallb {A} (p : A -> bool) (l : list A) :
  forallb p l = true -> Forall (fun x => p x = true) l.
Proof. rewrite forallb_forall, Forall_forall. auto. Qed.

Lemma nospace_of_forallb (s : str) :
  forallb (fun c => negb (isspace c)) s = true -> nospace s.
Proof.
  intros H. apply Forall_of_forallb in H. unfold nospace.
  eapply Forall_impl; [|exact H]. intros c Hc. now apply negb_true_iff.
Qed.

Lemma differs_of_forallb (c : char) (s : str) :
  forallb (fun x => negb (x =? c)) s = true -> Forall (fun x => x <> c) s.
Proof.
  intros H. apply Forall_of_forallb in H.
  eapply Forall_impl; [|exact H]. intros x Hx. now apply N.eqb_neq, negb_true_iff.
Qed.

Lemma nospace_render (v : Variant) (rest : str) :
  path_like rest -> wellformed v -> nospace (render v rest).
Proof.
  intros [Hr _] [Hq Hf]. unfold render, tail_text, nospace.
  repeat (apply Forall_app; split).
  - destruct (scheme v); now apply nospace_of_forallb.
  - destruct (host v); now apply nospace_of_forallb.
  - exact Hr.
  - apply Forall_forall. intros x Hx. apply repeat_spec in Hx. now subst.
  - destruct (query v); [constructor; auto|constructor].
  - destruct (fragment v); [constructor; auto|constructor].
Qed.

Lemma cut_R (u : str) : cut (R2 (R1 u)) = R2 (R1 (cut u)).
Proof.
  unfold cut, R1, R2.
  change (py "://m.facebook.") with (58 :: py "//m.facebook.").
  change (py "://facebook.") with (58 :: py "//facebook.").
  rewrite !before_replace; try reflexivity; now apply differs_of_forallb.
Qed.

Lemma cut_tail (a : str) (v : Variant) :
  Forall (fun c => c <> 63) a -> Forall (fun c => c <> 35) a ->
  cut (a ++ tail_text v) = a ++ repeat 47 (slashes v).
Proof.
  intros H63 H35. unfold cut, tail_text.
  assert (S63 : Forall (fun c => c <> 63) (repeat 47 (slashes v))).
  { apply Forall_forall. intros x Hx. apply repeat_spec in Hx. now subst. }
  assert (S35 : Forall (fun c => c <> 35) (repeat 47 (slashes v))).
  { apply Forall_forall. intros x Hx. apply repeat_spec in Hx. now subst. }
  rewrite app_assoc.
  rewrite (before_app_clear (c := 35)) by (apply Forall_app; now split).
  rewrite (before_app_clear (c := 63)) by (apply Forall_app; now split).
  match goal with |- _ ++ ?x = _ => assert (E : x = []) end.
  { destruct (query v) as [q|]; [reflexivity|].
    destruct (fragment v) as [f|]; reflexivity. }
  rewrite E. apply app_nil_r.
Qed.

Lemma R_slashes (a : str) (n : nat) :
  R2 (R1 (a ++ repeat 47 n)) = R2 (R1 a) ++ repeat 47 n.
Proof.
  assert (T1 : Forall (fun x => x <> 58) (repeat 47 n)).
  { apply Forall_forall. intros x Hx. apply repeat_spec in Hx. now subst. }
  assert (T2 : Forall (fun x => x <> 46) (repeat 47 n)).
  { apply Forall_forall. intros x Hx. apply repeat_spec in Hx. now subst. }
  unfold R1, R2, replace.
  change (py "://m.facebook.") with (58 :: py "//m.facebook.").
  change (py "://facebook.") with (58 :: py "//facebook.").
  rewrite (replace_from_app_tail (o := 58)); [|exact T1|exact T2|lia].
  rewrite (replace_from_app_tail (o := 58)); [|exact T1|exact T2|lia].
  reflexivity.
Qed.

Lemma rstrip_slash_repeat (a : str) (n : nat) :
  rstrip_slash (a ++ repeat 47 n) = rstrip_slash a.
Proof.
  unfold rstrip_slash. apply rstrip_by_app_all.
  apply Forall_forall. intros x Hx. apply repeat_spec in Hx. now subst.
Qed.

(** The host aliases under each scheme. *)
Lemma R_host (s : Scheme) (h : Host) (u : str) :
  R2 (R1 (scheme_text s ++ host_text h ++ u))
  = scheme_text s ++ py "www.facebook." ++ R2 (R1 u).
Proof. destruct s, h; reflexivity. Qed.

Lemma canon_core_render (v : Variant) (rest : str) :
  path_like rest ->
  canon_core (render v rest)
  = rstrip_slash (scheme_text (scheme v) ++ py "www.facebook." ++ R2 (R1 rest)).
Proof.
  intros [_ [H63 H35]]. unfold canon_core, render.
  rewrite cut_R.
  rewrite 2!app_assoc, cut_tail.
  - rewrite R_slashes, rstrip_slash_repeat, <- app_assoc. now rewrite R_host.
  - repeat (apply Forall_app; split); auto.
    + destruct (scheme v); now apply differs_of_forallb.
    + destruct (host v); now apply differs_of_forallb.
  - repeat (apply Forall_app; split); auto.
    + destruct (scheme v); now apply differs_of_forallb.
    + destruct (host v); now apply differs_of_forallb.
Qed.

End UrlVariants.

Section CanonicalForms.

Import Py.

Lemma sub_query_frag_cut (s : str) :
  FilterPosts.no_newline s = true -> FilterPosts.sub_query_frag s = cut s.
Proof.
  unfold cut, FilterPosts.no_newline.
  induction s as [|c t IH]; [reflexivity|].
  cbn [forallb]. rewrite andb_true_iff. intros [_ Ht].
  cbn [FilterPosts.sub_query_frag before].
  destruct (c =? 35) eqn:E35.
  - apply N.eqb_eq in E35. subst. cbn. unfold FilterPosts.no_newline.
    now rewrite Ht.
  - cbn [before]. destruct (c =? 63) eqn:E63.
    + cbn [orb]. unfold FilterPosts.no_newline. now rewrite Ht.
    + cbn [orb]. f_equal. now apply IH.
Qed.

Lemma no_newline_of_nospace (s : str) :
  nospace s -> FilterPosts.no_newline s = true.
Proof.
  unfold FilterPosts.no_newline. induction 1 as [|c t Hc Ht IH]; [reflexivity|].
  cbn [forallb]. rewrite IH, andb_true_r. apply negb_true_iff, N.eqb_neq.
  intros ->. discriminate.
Qed.

Lemma nospace_R (s : str) : nospace s -> nospace (R2 (R1 s)).
Proof.
  intros H. unfold R1, R2, replace.
  change (py "://m.facebook.") with (58 :: py "//m.facebook.").
  change (py "://facebook.") with (58 :: py "//facebook.").
  apply Forall_replace_from; [now apply nospace_of_forallb|].
  apply Forall_replace_from; [now apply nospace_of_forallb|exact H].
Qed.

Lemma before_absent (c : char) (s : str) :
  contains [c] s = false -> before c s = s.
Proof.
  induction s as [|x s IH]; [reflexivity|].
  cbn [contains startswith before]. rewrite andb_true_r, N.eqb_sym.
  destruct (x =? c); [discriminate|]. cbn [orb]. intros H. f_equal. auto.
Qed.

Lemma before_comm (a b : char) (s : str) :
  before a (before b s) = before b (before a s).
Proof.
  induction s as [|x s IH]; [reflexivity|].
  cbn [before]. destruct (x =? b) eqn:Eb, (x =? a) eqn:Ea; cbn [before];
    rewrite ?Ea, ?Eb; auto. now f_equal.
Qed.

Lemma normalize_url_core (u : str) :
  nospace u -> FilterPosts.normalize_url u = canon_core u.
Proof.
  intros H. unfold FilterPosts.normalize_url, canon_core.
  destruct u as [|c u]; [reflexivity|]. cbn [truthy negb].
  rewrite strip_none by exact H. fold (R1 (c :: u)). fold (R2 (R1 (c :: u))).
  rewrite sub_query_frag_cut; [reflexivity|].
  now apply no_newline_of_nospace, nospace_R.
Qed.

Lemma run_filters_normalize_url_core (u : str) :
  nospace u -> RunFilters.normalize_url u = canon_core u.
Proof.
  intros H. unfold RunFilters.normalize_url, canon_core, cut.
  destruct u as [|c u]; [reflexivity|]. cbn [truthy negb].
  rewrite strip_none by exact H. fold (R1 (c :: u)). fold (R2 (R1 (c :: u))).
  set (x := R2 (R1 (c :: u))).
  assert (E1 : (if contains [63] x then before 63 x else x) = before 63 x).
  { destruct (contains [63] x) eqn:E; auto. symmetry. now apply before_absent. }
  rewrite E1. set (y := before 63 x).
  assert (E2 : (if contains [35] y then before 35 y else y) = before 35 y).
  { destruct (contains [35] y) eqn:E; auto. symmetry. now apply before_absent. }
  rewrite E2. unfold y. now rewrite before_comm.
Qed.

Lemma canonicalize_url_core (v : Variant) (rest : str) :
  path_like rest -> wellformed v ->
  ScrapePosts.canonicalize_url (render v rest)
  = canon_core (render (mkVariant Https (host v) (slashes v) (query v) (fragment v)) rest).
Proof.
  intros Hr Hv. unfold ScrapePosts.canonicalize_url.
  assert (Et : truthy (render v rest) = true) by (destruct v as [[] ? ? ? ?]; reflexivity).
  rewrite Et. cbn [negb].
  rewrite strip_none by now apply nospace_render.
  assert (Es : startswith (py "/") (render v rest) = false)
    by (destruct v as [[] ? ? ? ?]; reflexivity).
  rewrite Es.
  assert (Eh : ScrapePosts.sub_http (render v rest)
               = render (mkVariant Https (host v) (slashes v) (query v) (fragment v)) rest)
    by (destruct v as [[] ? ? ? ?]; reflexivity).
  rewrite Eh. reflexivity.
Qed.

End CanonicalForms.

(** C4, as stated, fails for the key of the ledgers: [normalize_url] of
    [filterPosts.py] keeps the scheme, so two URLs of one post that differ
    in it are two keys, and a ledger holding one does not contain the
    other. *)
Lemma scheme_variants_are_distinct_keys :
  FilterPosts.normalize_url (py "http://www.facebook.com/groups/1/posts/2")
  <> FilterPosts.normalize_url (py "https://www.facebook.com/groups/1/posts/2")
  /\ FilterPosts.url_in_rows
       [FilterPosts.headers_rejected;
        [py "https://www.facebook.com/groups/1/posts/2"; py "-"; py "-"]]
       (FilterPosts.normalize_url (py "http://www.facebook.com/groups/1/posts/2"))
     = false
  /\ ScrapePosts.canonicalize_url (py "http://www.facebook.com/groups/1/posts/2")
     = ScrapePosts.canonicalize_url (py "https://www.facebook.com/groups/1/posts/2").
Proof.
  split; [|split].
  - vm_compute. discriminate.
  - vm_compute. reflexivity.
  - vm_compute. reflexivity.
Qed.

(** C4, amended.  Take the part of a post URL after ["facebook."] (no
    blank, no [?], no [#]) and write it in two ways: with either scheme,
    any of the host aliases [www.], [m.] or none, any number of trailing
    slashes, any query string and any fragment (without blanks).  The
    crawler's [canonicalize_url] gives both the same string.  The
    [normalize_url] of the ledgers and the one of the runner do so when the
    two are written with the same scheme. *)
Theorem identity_stability :
  forall (rest : Py.str) (v1 v2 : Variant),
    path_like rest -> wellformed v1 -> wellformed v2 ->
    ScrapePosts.canonicalize_url (render v1 rest)
    = ScrapePosts.canonicalize_url (render v2 rest)
    /\ (scheme v1 = scheme v2 ->
        FilterPosts.normalize_url (render v1 rest)
        = FilterPosts.normalize_url (render v2 rest)
        /\ RunFilters.normalize_url (render v1 rest)
           = RunFilters.normalize_url (render v2 rest)).
Proof.
  intros rest v1 v2 Hr H1 H2. split.
  - rewrite !canonicalize_url_core by assumption.
    now rewrite !canon_core_render.
  - intros Hs.
    rewrite !normalize_url_core, !run_filters_normalize_url_core
      by now apply nospace_render.
    rewrite !canon_core_render by assumption. now rewrite Hs.
Qed.

Definition post_path : Py.str := py "com/groups/900072927547214/posts/123".

Definition mobile_link : Variant :=
  mkVariant Http Mobile 1 (Some (py "ref=share&x=1")) (Some (py "top")).

Definition plain_link : Variant := mkVariant Https Www 0 None None.

Lemma post_path_like : path_like post_path.
Proof.
  split; [|split].
  - now apply nospace_of_forallb.
  - now apply differs_of_forallb.
  - now apply differs_of_forallb.
Defined.

Lemma mobile_link_wellformed : wellformed mobile_link.
Proof. split; now apply nospace_of_forallb. Defined.

Lemma plain_link_wellformed : wellformed plain_link.
Proof. split; constructor. Defined.

Lemma identity_stability_witness :
  path_like post_path /\ wellformed mobile_link /\ wellformed plain_link
  /\ ScrapePosts.canonicalize_url (render mobile_link post_path)
     = ScrapePosts.canonicalize_url (render plain_link post_path).
Proof.
  split; [exact post_path_like|].
  split; [exact mobile_link_wellformed|].
  split; [exact plain_link_wellformed|].
  exact (proj1 (identity_stability post_path_like mobile_link_wellformed
                  plain_link_wellformed)).
Defined.

(** ** Rows of a ledger and the key they are filed under *)

Section LedgerRows.

Import Py Sys FilterPosts.

Lemma dict_get_set_other {V} (k k' : str) (v : V) (d : Csv.dict V) :
  k' <> k -> Csv.dict_get k (Csv.dict_set k' v d) = Csv.dict_get k d.
Proof.
  intros Hk. induction d as [|[k0 v0] d IH]; cbn [Csv.dict_set Csv.dict_get].
  - apply eqb_neq in Hk. now rewrite Hk.
  - destruct (eqb k0 k') eqn:E; cbn [Csv.dict_get].
    + apply eqb_eq in E. subst. apply eqb_neq in Hk. now rewrite Hk.
    + destruct (eqb k0 k); auto.
Qed.

Lemma dict_get_set_same {V} (k : str) (v : V) (d : Csv.dict V) :
  Csv.dict_get k (Csv.dict_set k v d) = Some v.
Proof.
  induction d as [|[k0 v0] d IH]; cbn [Csv.dict_set Csv.dict_get].
  - now rewrite eqb_refl.
  - destruct (eqb k0 k) eqn:E; cbn [Csv.dict_get]; now rewrite E.
Qed.

Lemma dict_get_fold_other {V A} (k : str) (key : A -> str) (val : A -> V) (l : list A) :
  (forall a, In a l -> key a <> k) ->
  forall d, Csv.dict_get k (fold_left (fun d a => Csv.dict_set (key a) (val a) d) l d)
            = Csv.dict_get k d.
Proof.
  induction l as [|a l IH]; intros H d; [reflexivity|].
  cbn [fold_left]. rewrite IH by (intros; apply H; now right).
  apply dict_get_set_other. apply H. now left.
Qed.

(** Under a header whose first name is [k] and is not repeated, the field
    [k] of a record is its first cell. *)
Lemma record_first (k : str) (hs : list str) (c : str) (rest : Csv.row) :
  ~ In k hs -> Csv.get k (Csv.record (k :: hs) (c :: rest)) = Some c.
Proof.
  intros Hk. unfold Csv.get, Csv.record. cbn [combine fold_left List.length skipn].
  rewrite (@dict_get_fold_other _ _ k (fun x => x) (fun _ : str => @None str)).
  - rewrite (@dict_get_fold_other _ _ k (@fst str str) (fun kv => Some (snd kv))).
    + now rewrite dict_get_set_same.
    + intros [a b] Hin. apply in_combine_l in Hin. cbn. congruence.
  - intros a Hin Ha. subst. apply Hk.
    clear - Hin. revert hs Hin. generalize (List.length rest).
    induction n as [|n IH]; intros hs Hin; [exact Hin|].
    destruct hs; [destruct Hin|]. right. now apply IH.
Qed.

(** The key a record of an outcome ledger is filed under: its first
    cell, normalised as [url_in_csv] does. *)
Definition row_key (r : Csv.row) : str :=
  match r with
  | [] => []
  | cell :: _ => normalize_url cell
  end.

Definition files_under (key : str) (r : Csv.row) : bool := eqb (row_key r) key.

(** The records of a file filed under [key]: those after the header. *)
Definition rows_in (key : str) (x : Csv.file) : nat :=
  match x with
  | Some (_ :: body) => List.length (filter (files_under key) body)
  | _ => O
  end.

(** The number of rows for [key] in the union of the outcome ledgers. *)
Definition rows_for (key : str) (f : FS) : nat :=
  (rows_in key (f CSV_ACCEPTED) + rows_in key (f CSV_NONADMIN)
   + rows_in key (f CSV_REJECTED))%nat.

(** The header each outcome ledger is created with. *)
Definition header_of (p : path) : list str :=
  match p with
  | CSV_REJECTED => headers_rejected
  | _ => headers_full
  end.

(** A ledger file is in order when it is absent or begins with its
    header. *)
Definition in_order (p : path) (x : Csv.file) : Prop :=
  x = None \/ exists body, x = Some (header_of p :: body).

Definition ledgers_in_order (f : FS) : Prop :=
  in_order CSV_ACCEPTED (f CSV_ACCEPTED)
  /\ in_order CSV_NONADMIN (f CSV_NONADMIN)
  /\ in_order CSV_REJECTED (f CSV_REJECTED).

Definition is_ledger (p : path) : Prop :=
  p = CSV_ACCEPTED \/ p = CSV_NONADMIN \/ p = CSV_REJECTED.

Lemma url_in_rows_header (p : path) (body : list Csv.row) (u : str) :
  url_in_rows (header_of p :: body) u
  = existsb (fun r => truthy (row_key r) && eqb (row_key r) u)
            (filter (fun r => negb (Csv.is_blank r)) body).
Proof.
  unfold url_in_rows.
  change (Csv.fieldnames (header_of p :: body)) with (Some (header_of p)).
  assert (E : _find_url_column (Some (header_of p)) = Some (py "post url"))
    by (destruct p; reflexivity).
  rewrite E.
  change (truthy (py "post url")) with true. cbn [negb Csv.dictreader].
  induction body as [|r body IH]; [reflexivity|].
  cbn [filter]. destruct r as [|c rest]; cbn [Csv.is_blank negb]; [exact IH|].
  cbn [map existsb]. rewrite IH. f_equal.
  assert (Eg : Csv.get (py "post url") (Csv.record (header_of p) (c :: rest)) = Some c).
  { destruct p; apply record_first; vm_compute;
      intros H; repeat (destruct H as [H|H]; [discriminate|]); exact H. }
  rewrite Eg. reflexivity.
Qed.

(** For a key that is not empty, the membership test on a ledger in
    order is false exactly when no row is filed under the key. *)
Lemma in_file_rows_in (p : path) (x : Csv.file) (key : str) :
  in_order p x -> key <> [] ->
  in_file x key = false -> rows_in key x = O.
Proof.
  intros [->|[body ->]] Hk; [reflexivity|].
  unfold in_file. rewrite url_in_rows_header. cbn [rows_in].
  induction body as [|r body IH]; [reflexivity|].
  cbn [filter]. unfold files_under at 1.
  destruct r as [|c rest].
  - cbn [Csv.is_blank negb row_key]. intros H.
    destruct (eqb [] key) eqn:E; [apply eqb_eq in E; congruence|]. auto.
  - cbn [Csv.is_blank negb existsb]. rewrite orb_false_iff, andb_false_iff.
    intros [[H|H] H2].
    + destruct (eqb (row_key (c :: rest)) key) eqn:E; auto.
      apply eqb_eq in E. rewrite E in H. destruct key; [congruence|discriminate].
    + rewrite H. auto.
Qed.

End LedgerRows.

(** ** What a run may leave in the outcome ledgers *)

Section Commit.

Import Py Sys FilterPosts.

Definition ledgers (f : FS) : Csv.file * Csv.file * Csv.file :=
  (f CSV_ACCEPTED, f CSV_NONADMIN, f CSV_REJECTED).

(** A computation that leaves the outcome ledgers as they are, however
    it ends. *)
Definition keeps_ledgers {A} (m : M A) : Prop :=
  forall w, ledgers (fs (snd (m w))) = ledgers (fs w).

Lemma keeps_bind {A B} (m : M A) (k : A -> M B) :
  keeps_ledgers m -> (forall a, keeps_ledgers (k a)) -> keeps_ledgers (bind m k).
Proof.
  intros Hm Hk w. unfold bind. specialize (Hm w).
  destruct (m w) as [[a| |] w']; cbn [snd] in *; auto.
  now rewrite Hk.
Qed.

Lemma keeps_ret {A} (a : A) : keeps_ledgers (ret a).
Proof. intros w. reflexivity. Qed.

Lemma keeps_exit {A} (n : N) : keeps_ledgers (@sys_exit A n).
Proof. intros w. reflexivity. Qed.

Lemma keeps_print (s : str) : keeps_ledgers (print s).
Proof. intros w. reflexivity. Qed.

Lemma keeps_started sc u : keeps_ledgers (started sc u).
Proof. intros w. reflexivity. Qed.

Lemma keeps_url_in_csv p u : keeps_ledgers (url_in_csv p u).
Proof. intros w. now rewrite url_in_csv_eq. Qed.

Lemma keeps_run_script {A} e sc (r : reply A) u : keeps_ledgers (run_script_for_json e sc r u).
Proof.
  unfold run_script_for_json. apply keeps_bind; [apply keeps_started|]. intros _.
  destruct r; [apply keeps_ret|].
  repeat (apply keeps_bind; [apply keeps_print|intros _]). apply keeps_exit.
Qed.

Lemma keeps_print_status_block n a s : keeps_ledgers (print_status_block n a s).
Proof. intros [f o c t cr]. now rewrite print_status_block_eq. Qed.

Lemma ledgers_ensure_log h f : ledgers (ensure_fs CSV_LOG h f) = ledgers f.
Proof. unfold ensure_fs. destruct (fget f CSV_LOG); reflexivity. Qed.

Lemma ledgers_append_log rows f : ledgers (append_fs CSV_LOG rows f) = ledgers f.
Proof. unfold append_fs. destruct rows; reflexivity. Qed.

Lemma keeps_log_outcome u n s : keeps_ledgers (log_outcome u n s).
Proof.
  intros [f o c t cr]. rewrite log_outcome_eq.
  destruct (spend cr) as [cr1|]; [|reflexivity].
  destruct (spend cr1) as [cr2|]; cbn [snd fs].
  - unfold log_fs. now rewrite ledgers_append_log, ledgers_ensure_log.
  - apply ledgers_ensure_log.
Qed.

(** The end of each branch: the verdict line, the run-log row, a blank
    line. *)
Lemma keeps_finish v u n s :
  keeps_ledgers (print v ;;; log_outcome u n s ;;; print []).
Proof.
  apply keeps_bind; [apply keeps_print|intros _].
  apply keeps_bind; [apply keeps_log_outcome|intros _]. apply keeps_print.
Qed.

(** A property of the file system that only looks at the outcome
    ledgers. *)
Definition on_ledgers (P : FS -> Prop) : Prop :=
  forall f g, ledgers f = ledgers g -> P f -> P g.

(** The write of a row block, whatever follows it and wherever the run
    is interrupted: the ledgers are as before, or hold the header, or hold
    the header and the rows. *)
Lemma commit_block (P : FS -> Prop) p h rows (rest : M unit) f o c t cr :
  on_ledgers P -> keeps_ledgers rest ->
  P f -> P (ensure_fs p h f) -> P (append_fs p rows (ensure_fs p h f)) ->
  P (fs (snd (((ensure_csv_with_header p h ;;; append_rows p rows) ;;; rest)
                (mkWorld f o c t cr)))).
Proof.
  intros HP Hrest H0 H1 H2. unfold bind.
  rewrite ensure_csv_with_header_eq. destruct (spend cr) as [cr1|]; [|exact H0].
  rewrite append_rows_eq. destruct rows as [|r rows].
  - match goal with |- P (fs (snd (rest ?w))) =>
      apply (HP (fs w)); [symmetry; apply Hrest|exact H1] end.
  - destruct (spend cr1) as [cr2|]; [|exact H1].
    match goal with |- P (fs (snd (rest ?w))) =>
      apply (HP (fs w)); [symmetry; apply Hrest|exact H2] end.
Qed.

Lemma no_commit (P : FS -> Prop) {A} (m : M A) w :
  on_ledgers P -> keeps_ledgers m -> P (fs w) -> P (fs (snd (m w))).
Proof. intros HP Hm H. apply (HP (fs w)); [symmetry; apply Hm|exact H]. Qed.

End Commit.

Section AtMostOnce.

Import Py Sys FilterPosts.

Variable key : str.
Hypothesis key_not_empty : key <> [].
Hypothesis key_not_dash : key <> DASH.

(** The outcome ledgers are in order and hold at most one row for [key]. *)
Definition at_most_one (f : FS) : Prop :=
  ledgers_in_order f /\ (rows_for key f <= 1)%nat.

Lemma at_most_one_on_ledgers : on_ledgers at_most_one.
Proof.
  intros f g E [H1 H2]. unfold ledgers in E. injection E as Ea En Er.
  unfold at_most_one, ledgers_in_order, rows_for in *. cbn [fget] in *.
  now rewrite <- Ea, <- En, <- Er.
Qed.

Definition filed (rows : list Csv.row) : nat :=
  List.length (filter (files_under key) rows).

Lemma commit_counts (p : path) (rows : list Csv.row) (f : FS) :
  is_ledger p -> ledgers_in_order f ->
  (ledgers_in_order (ensure_fs p (header_of p) f)
   /\ rows_for key (ensure_fs p (header_of p) f) = rows_for key f)
  /\ (ledgers_in_order (append_fs p rows (ensure_fs p (header_of p) f))
      /\ rows_for key (append_fs p rows (ensure_fs p (header_of p) f))
         = (rows_for key f + filed rows)%nat).
Proof.
  destruct f as [a n r l d g].
  unfold ledgers_in_order, rows_for, ensure_fs, append_fs, filed, rows_of.
  cbn [fget csv_accepted csv_nonadmin csv_rejected].
  intros [ -> | [ -> | -> ] ] [Ha [Hn Hr]];
    cbn [fget csv_accepted csv_nonadmin csv_rejected header_of];
    [ destruct Ha as [->|[body ->]] | destruct Hn as [->|[body ->]]
    | destruct Hr as [->|[body ->]] ];
    destruct rows as [|r0 rows];
    cbn [fget fs_set csv_accepted csv_nonadmin csv_rejected rows_in app];
    rewrite ?filter_app, ?length_app;
    (split; split;
     [repeat split; unfold in_order; eauto|cbn [filter List.length]; lia
     |repeat split; unfold in_order; eauto|cbn [filter List.length]; lia]).
Qed.

Lemma commit_safe (p : path) (rows : list Csv.row) (rest : M unit) f o c t cr :
  is_ledger p -> keeps_ledgers rest -> at_most_one f ->
  (rows_for key f + filed rows <= 1)%nat ->
  at_most_one
    (fs (snd (((ensure_csv_with_header p (header_of p) ;;; append_rows p rows) ;;; rest)
                (mkWorld f o c t cr)))).
Proof.
  intros Hp Hrest [Ho Hc] Hle.
  destruct (commit_counts rows Hp Ho) as [[E1 E2] [E3 E4]].
  apply commit_block; auto using at_most_one_on_ledgers.
  - now split.
  - split; [exact E1|]. rewrite E2. exact Hc.
  - split; [exact E3|]. rewrite E4. exact Hle.
Qed.

Lemma header_then_exit_safe (p : path) (rest : M unit) f o c t cr :
  is_ledger p -> at_most_one f ->
  at_most_one
    (fs (snd (((ensure_csv_with_header p (header_of p) ;;; @sys_exit unit 1) ;;; rest)
                (mkWorld f o c t cr)))).
Proof.
  intros Hp [Ho Hc].
  destruct (commit_counts [] Hp Ho) as [[E1 E2] _].
  unfold bind. rewrite ensure_csv_with_header_eq.
  destruct (spend cr) as [cr1|]; cbn [snd fs sys_exit].
  - split; [exact E1|]. rewrite E2. exact Hc.
  - now split.
Qed.

(** A candidate the skip test lets through has no row under its key. *)
Lemma unprocessed_has_no_row (f : FS) (u : str) :
  ledgers_in_order f -> normalize_url u = key ->
  processed f u = false -> rows_for key f = O.
Proof.
  intros [Ha [Hn Hr]] Hu Hp. unfold processed in Hp. rewrite Hu in Hp.
  apply orb_false_iff in Hp. destruct Hp as [Hp H3].
  apply orb_false_iff in Hp. destruct Hp as [H1 H2].
  unfold rows_for.
  rewrite (in_file_rows_in Ha key_not_empty H1),
          (in_file_rows_in Hn key_not_empty H2),
          (in_file_rows_in Hr key_not_empty H3).
  reflexivity.
Qed.

Lemma placeholder_rows_not_filed seen cs : filed (placeholder_rows seen cs) = O.
Proof.
  unfold filed. revert seen. induction cs as [|c cs IH]; intros seen; [reflexivity|].
  cbn [placeholder_rows]. destruct (existsb _ seen); [apply IH|].
  cbn [filter]. unfold files_under at 1. cbn [row_key].
  change (normalize_url DASH) with DASH.
  destruct (eqb DASH key) eqn:E; [apply eqb_eq in E; congruence|]. apply IH.
Qed.

Lemma filed_one (cell : str) (cells : Csv.row) (more : list Csv.row) :
  filed ((cell :: cells) :: more)
  = ((if eqb (normalize_url cell) key then 1 else 0) + filed more)%nat.
Proof.
  unfold filed. cbn [filter]. unfold files_under at 1. cbn [row_key].
  destruct (eqb (normalize_url cell) key); reflexivity.
Qed.

(** The key the skip test looks up for a command-line argument. *)
Definition candidate_key (argv1 : str) : str :=
  normalize_url (normalize_url (strip argv1)).

(** The key under which the row of an accepted or saved post is filed,
    when both sub-processes answer. *)
Definition commit_key (e : Env) (argv1 : str) : str :=
  match post_comments e, post_details e with
  | Json pc, Json pd =>
      normalize_url (commit_url pd pc (normalize_url (strip argv1)))
  | _, _ => candidate_key argv1
  end.

Lemma run_script_for_json_eq {A} e sc (r : reply A) u f o c t cr :
  run_script_for_json e sc r u (mkWorld f o c t cr)
  = match r with
    | Json d => (Ret d, mkWorld f o (c ++ [(sc, u)]) t cr)
    | NoJson out =>
        (Exit 1,
         mkWorld f
           ((o ++ [(py "Could not find JSON in " ++ script_path e sc ++ py " output.") ++ [10]])
            ++ [out ++ [10]])
           (c ++ [(sc, u)]) t cr)
    end.
Proof. destruct r; reflexivity. Qed.


Ltac step lem := unfold bind at 1; rewrite lem; cbv beta iota.

Lemma main_safe (e : Env) (argv1 : str) f o c t cr :
  at_most_one f ->
  candidate_key argv1 = key \/ commit_key e argv1 <> key ->
  at_most_one (fs (snd (main e argv1 (mkWorld f o c t cr)))).
Proof.
  intros HJ Hrun. pose proof HJ as [Ho Hc].
  assert (Hon := at_most_one_on_ledgers).
  (* rows under [key] written for this candidate, by branch *)
  assert (Hrej : forall cells,
             processed f (normalize_url (strip argv1)) = false ->
             (rows_for key f + filed [normalize_url (strip argv1) :: cells] <= 1)%nat).
  { intros cells Hp. rewrite filed_one. change (filed []) with O.
    destruct (eqb (normalize_url (normalize_url (strip argv1))) key) eqn:E; [|lia].
    apply eqb_eq in E. rewrite (unprocessed_has_no_row _ Ho E Hp). lia. }
  assert (Hacc : forall pc pd cells more,
             post_comments e = Json pc -> post_details e = Json pd ->
             processed f (normalize_url (strip argv1)) = false ->
             filed more = O ->
             (rows_for key f
              + filed ((commit_url pd pc (normalize_url (strip argv1)) :: cells) :: more)
              <= 1)%nat).
  { intros pc pd cells more Epc Epd Hp Hm. rewrite filed_one, Hm.
    destruct (eqb (normalize_url (commit_url pd pc (normalize_url (strip argv1)))) key)
      eqn:E; [|lia].
    apply eqb_eq in E.
    destruct Hrun as [Hk|Hk].
    - rewrite (unprocessed_has_no_row _ Ho Hk Hp). lia.
    - unfold commit_key in Hk. rewrite Epc, Epd in Hk. contradiction. }
  unfold main. cbv zeta.
  step already_processed_eq. cbn [fst snd fs].
  destruct (processed f (normalize_url (strip argv1))) eqn:Ep.
  { apply no_commit; auto using keeps_print. }
  step (@run_script_for_json_eq PcData).
  destruct (post_comments e) as [pc|out] eqn:Epc; [|exact HJ].
  fold (comments_of pc). fold (scraped_total_of pc).
  set (staff := load_staff_names (staff_file e)).
  set (admin := filter (fun c0 => is_admin_like c0 staff) (comments_of pc)).
  destruct (negb (is_empty admin)).
  - (* an admin-like comment is present *)
    step print_status_block_eq.
    set (snake := filter (fun c0 => text_matches_targets (Some (text c0))) admin).
    destruct (negb (is_empty snake)).
    + (* accepted *)
      unfold accepted.
      step (@run_script_for_json_eq PdData).
      destruct (post_details e) as [pd|out] eqn:Epd; [|exact HJ].
      cbv zeta. step url_in_csv_eq. cbn [fs].
      destruct (in_file (f CSV_ACCEPTED) _); cbn [negb].
      * apply no_commit; auto.
        apply keeps_bind; [apply keeps_ret|intros _; apply keeps_finish].
      * destruct (choose_one_comment_pref_admin_tag snake) as [chosen|].
        -- apply (@commit_safe CSV_ACCEPTED);
             [now left|apply keeps_finish|exact HJ|apply (Hacc pc pd); auto].
        -- exact HJ.
    + (* rejected, with admin *)
      unfold rejected_with_admin.
      step url_in_csv_eq. cbn [fs].
      destruct (in_file (f CSV_REJECTED) _); cbn [negb].
      * apply no_commit; auto.
        apply keeps_bind; [apply keeps_ret|intros _; apply keeps_finish].
      * destruct (choose_one_comment_pref_admin_tag admin) as [chosen|].
        -- apply (@commit_safe CSV_REJECTED);
             [right; now right|apply keeps_finish|exact HJ|apply Hrej; auto].
        -- apply (@header_then_exit_safe CSV_REJECTED); [right; now right|exact HJ].
  - (* no admin-like comment *)
    step print_status_block_eq.
    destruct (filter (fun c0 => text_matches_targets (Some (text c0))) (comments_of pc))
      as [|first others].
    + (* rejected, no admin *)
      unfold rejected_no_admin.
      step url_in_csv_eq. cbn [fs].
      destruct (in_file (f CSV_REJECTED) _); cbn [negb].
      * apply no_commit; auto.
        apply keeps_bind; [apply keeps_ret|intros _; apply keeps_finish].
      * apply (@commit_safe CSV_REJECTED);
          [right; now right|apply keeps_finish|exact HJ|apply Hrej; auto].
    + (* saved *)
      unfold saved_no_admin.
      step (@run_script_for_json_eq PdData).
      destruct (post_details e) as [pd|out] eqn:Epd; [|exact HJ].
      cbv zeta. step url_in_csv_eq. cbn [fs].
      destruct (in_file (f CSV_NONADMIN) _); cbn [negb].
      * apply no_commit; auto.
        apply keeps_bind; [apply keeps_ret|intros _; apply keeps_finish].
      * apply (@commit_safe CSV_NONADMIN);
          [right; now left|apply keeps_finish|exact HJ|].
        apply (Hacc pc pd); auto. apply placeholder_rows_not_filed.
Qed.

End AtMostOnce.

(** ** Sequences of runs *)

(** One run of [filterPosts.py]: what the sub-processes and the staff file
    give it, its argument, and the number of durable sub-steps after which
    it is killed, if it is. *)
Record Run : Type := mkRun {
  run_env : FilterPosts.Env;
  run_argv : Py.str;
  run_crash : option nat
}.

Definition after_run (f : Sys.FS) (r : Run) : Sys.FS :=
  Sys.fs (snd (FilterPosts.main (run_env r) (run_argv r)
                 (Sys.mkWorld f [] [] [] (run_crash r)))).

Definition after_runs (rs : list Run) (f : Sys.FS) : Sys.FS :=
  fold_left after_run rs f.

(** A run that concerns [key]: it is over a candidate with that key, or
    the URL its sub-processes report is filed under another key. *)
Definition own_or_foreign (key : Py.str) (r : Run) : Prop :=
  candidate_key (run_argv r) = key \/ commit_key (run_env r) (run_argv r) <> key.

Definition no_flags : FilterPosts.StaffFlags := FilterPosts.mkFlags false false false.

Definition comment (who what : string) : FilterPosts.Comment :=
  FilterPosts.mkComment (py who) (py what) no_flags [] None no_flags.

Definition post_2 : Py.str := py "https://www.facebook.com/groups/1/posts/2".
Definition permalink_2 : Py.str := py "https://www.facebook.com/groups/1/permalink/2/".

(** The post has no comment yet. *)
Definition run_without_comments : Run :=
  mkRun (FilterPosts.mkEnv (py "/app") (Some [])
           (FilterPosts.Json (FilterPosts.mkPc post_2 [] [] 0))
           (FilterPosts.Json (FilterPosts.mkPd post_2 (py "2024-05-01") (py "Ann") (py "What is this?"))))
        post_2 None.

(** The same post reached through its permalink, after a moderator has
    named the species, with a details reply that names the post's own URL
    instead of the argument.  [main] provides for such a reply
    ([pd_data.get("url") or ...]); [postDetails.py] as it stands repeats
    its argument (see [echoes] below). *)
Definition run_by_permalink : Run :=
  mkRun (FilterPosts.mkEnv (py "/app") (Some [])
           (FilterPosts.Json
              (FilterPosts.mkPc permalink_2
                 [comment "Mod" "#admin this is a Philippine cobra"] [] 0))
           (FilterPosts.Json (FilterPosts.mkPd post_2 (py "2024-05-01") (py "Ann") (py "What is this?"))))
        permalink_2 None.

(** The same candidate in an earlier run, when only a member had named the
    species. *)
Definition run_by_permalink_before : Run :=
  mkRun (FilterPosts.mkEnv (py "/app") (Some [])
           (FilterPosts.Json
              (FilterPosts.mkPc permalink_2
                 [comment "Bob" "looks like a king cobra"] [] 0))
           (FilterPosts.Json (FilterPosts.mkPd post_2 (py "2024-05-01") (py "Ann") (py "What is this?"))))
        permalink_2 None.

(** [postDetails.py] reports the post under the URL it was given:
    [scrape_post] sets ["url": url or ""] and does not assign the field
    again, the error path of its [main] prints ["url": url]; and [main] of
    [filterPosts.py] starts it on [sys.argv[1].strip()]. *)
Definition echoes (r : Run) : Prop :=
  forall pd, FilterPosts.post_details (run_env r) = FilterPosts.Json pd ->
             FilterPosts.pd_url pd = Py.strip (run_argv r).

(** With such a reply the rows of a run are filed under the key of its
    candidate, whatever page the comments script ended on. *)
Lemma echo_commit_key (r : Run) :
  echoes r -> Py.strip (run_argv r) <> [] ->
  commit_key (run_env r) (run_argv r) = candidate_key (run_argv r).
Proof.
  intros He Hn. unfold commit_key, candidate_key.
  destruct (FilterPosts.post_comments (run_env r)) as [pc|out]; [|reflexivity].
  destruct (FilterPosts.post_details (run_env r)) as [pd|out] eqn:Epd; [|reflexivity].
  unfold FilterPosts.commit_url. rewrite (He pd Epd). unfold Py.or_ at 1.
  destruct (Py.strip (run_argv r)); [congruence|reflexivity].
Qed.

Lemma echo_own_or_foreign (key : Py.str) (r : Run) :
  echoes r -> Py.strip (run_argv r) <> [] -> own_or_foreign key r.
Proof.
  intros He Hn. unfold own_or_foreign. rewrite (echo_commit_key He Hn).
  destruct (Py.eqb (candidate_key (run_argv r)) key) eqn:E.
  - left. now apply eqb_eq.
  - right. now apply eqb_neq.
Qed.

(** The candidate is a permalink; the comments script ends on the page of
    the post, and only a member has named the species. *)
Definition run_member_names_species : Run :=
  mkRun (FilterPosts.mkEnv (py "/app") (Some [])
           (FilterPosts.Json
              (FilterPosts.mkPc post_2
                 [comment "Bob" "looks like a king cobra"] [] 0))
           (FilterPosts.Json
              (FilterPosts.mkPd permalink_2 (py "2024-05-01") (py "Ann") (py "What is this?"))))
        permalink_2 None.

(** The same candidate later, after a moderator has named the species. *)
Definition run_moderator_names_species : Run :=
  mkRun (FilterPosts.mkEnv (py "/app") (Some [])
           (FilterPosts.Json
              (FilterPosts.mkPc post_2
                 [comment "Mod" "#admin this is a Philippine cobra"] [] 0))
           (FilterPosts.Json
              (FilterPosts.mkPd permalink_2 (py "2024-05-01") (py "Ann") (py "What is this?"))))
        permalink_2 None.

(** The bound for runs whose rows are filed under the key of their own
    candidate or under another key than the one counted. *)
Lemma at_most_once_commit :
  forall (key : Py.str) (rs : list Run) (f0 : Sys.FS),
    key <> [] -> key <> FilterPosts.DASH ->
    ledgers_in_order f0 -> (rows_for key f0 <= 1)%nat ->
    Forall (own_or_foreign key) rs ->
    ledgers_in_order (after_runs rs f0)
    /\ (rows_for key (after_runs rs f0) <= 1)%nat.
Proof.
  intros key rs f0 Hk Hd Ho Hc Hrs.
  change (at_most_one key (after_runs rs f0)).
  assert (H0 : at_most_one key f0) by now split.
  clear Ho Hc. revert f0 H0. induction Hrs as [|r rs Hr Hrs IH]; intros f0 H0.
  - exact H0.
  - cbn [after_runs fold_left]. apply IH. unfold after_run.
    now apply main_safe.
Qed.

(** C1.  At-most-once commit.  Take any sequence of runs of
    [filterPosts.py], each over a candidate that is not blank, each
    possibly killed between two of its writing sub-steps, and each with a
    details script that reports the post under the URL it was given, as
    [postDetails.py] does.  Take a key that is a URL: not empty and not the
    placeholder ["-"] of the rows without a comment.  If the outcome ledgers
    are in order (absent, as before the first run, or beginning with their
    header) and hold together at most one row for the key, then after the
    runs they are still in order and hold together at most one row for the
    key.  The key may be that of one of the candidates or any other: the
    runs need not be over the same candidate. *)
Theorem at_most_once_per_candidate :
  forall (key : Py.str) (rs : list Run) (f0 : Sys.FS),
    key <> [] -> key <> FilterPosts.DASH ->
    ledgers_in_order f0 -> (rows_for key f0 <= 1)%nat ->
    Forall (fun r => Py.strip (run_argv r) <> [] /\ echoes r) rs ->
    ledgers_in_order (after_runs rs f0)
    /\ (rows_for key (after_runs rs f0) <= 1)%nat.
Proof.
  intros key rs f0 Hk Hd Ho Hc Hrs.
  apply at_most_once_commit; auto.
  eapply Forall_impl; [|exact Hrs].
  intros r [Hn He]. now apply echo_own_or_foreign.
Qed.

(** Three runs over one permalink, from no file at all: the first saves
    the post on a member's comment, the second is killed after its first
    writing sub-step, the third finds the post in the saved ledger and is
    skipped, although a moderator has answered by then.  One row is filed
    under the key of the permalink. *)
Lemma at_most_once_per_candidate_witness :
  let key := candidate_key permalink_2 in
  let rs := [run_member_names_species;
             mkRun (run_env run_moderator_names_species) permalink_2 (Some 1%nat);
             run_moderator_names_species] in
  key <> [] /\ key <> FilterPosts.DASH
  /\ ledgers_in_order Sys.no_files
  /\ (rows_for key Sys.no_files <= 1)%nat
  /\ Forall (fun r => Py.strip (run_argv r) <> [] /\ echoes r) rs
  /\ (rows_for key (after_runs rs Sys.no_files) <= 1)%nat
  /\ rows_for key (after_runs rs Sys.no_files) = 1%nat.
Proof.
  cbv zeta.
  assert (H1 : candidate_key permalink_2 <> []) by (vm_compute; discriminate).
  assert (H2 : candidate_key permalink_2 <> FilterPosts.DASH) by (vm_compute; discriminate).
  assert (H3 : ledgers_in_order Sys.no_files) by (repeat split; now left).
  assert (H4 : (rows_for (candidate_key permalink_2) Sys.no_files <= 1)%nat)
    by (vm_compute; lia).
  assert (H5 : Forall (fun r => Py.strip (run_argv r) <> [] /\ echoes r)
                 [run_member_names_species;
                  mkRun (run_env run_moderator_names_species) permalink_2 (Some 1%nat);
                  run_moderator_names_species]).
  { repeat constructor; try (vm_compute; discriminate);
      intros pd E; injection E as <-; vm_compute; reflexivity. }
  repeat (split; [assumption|]).
  split.
  - exact (proj2 (at_most_once_per_candidate H1 H2 H3 H4 H5)).
  - vm_compute. reflexivity.
Defined.

(** ** Uninterrupted runs, branch by branch *)

Section Branches.

Import Py Sys FilterPosts.

Lemma ensure_fs_other p q h f : p <> q -> ensure_fs p h f q = f q.
Proof.
  intros H. unfold ensure_fs. destruct (fget f p); [reflexivity|].
  now apply fget_set_other.
Qed.

Lemma append_fs_other p q rows f : p <> q -> append_fs p rows f q = f q.
Proof.
  intros H. unfold append_fs. destruct rows; [reflexivity|].
  now apply fget_set_other.
Qed.

Lemma log_fs_other row q f : CSV_LOG <> q -> log_fs row f q = f q.
Proof.
  intros H. unfold log_fs. rewrite append_fs_other, ensure_fs_other; auto.
Qed.

(** The run log after a row has been added. *)
Lemma log_fs_log row f :
  log_fs row f CSV_LOG
  = Some (match f CSV_LOG with Some rows => rows | None => [log_headers] end ++ [row]).
Proof.
  unfold log_fs, append_fs, ensure_fs, rows_of. rewrite fget_set_same.
  destruct (fget f CSV_LOG) eqn:E.
  - now rewrite E.
  - now rewrite fget_set_same.
Qed.

Lemma finish_eq v u n s f o c t :
  (print v ;;; log_outcome u n s ;;; print []) (mkWorld f o c t None)
  = (Ret tt,
     mkWorld (log_fs [u; str_of_N n; s] f)
       ((o ++ [v ++ [10]]) ++ [[10]]) c
       ((t ++ ensure_ops CSV_LOG log_headers f)
        ++ append_ops CSV_LOG [[u; str_of_N n; s]]) None).
Proof.
  unfold bind at 1. rewrite print_eq. cbv beta iota.
  unfold bind at 1. rewrite log_outcome_eq. cbn [spend]. reflexivity.
Qed.

Lemma commit_eq p h rows f o c t :
  (ensure_csv_with_header p h ;;; append_rows p rows) (mkWorld f o c t None)
  = (Ret tt,
     mkWorld (append_fs p rows (ensure_fs p h f)) o c
       ((t ++ ensure_ops p h f) ++ append_ops p rows) None).
Proof.
  unfold bind. rewrite ensure_csv_with_header_eq. cbn [spend].
  rewrite append_rows_eq. destruct rows; [|reflexivity].
  cbn [append_fs append_ops]. now rewrite app_nil_r.
Qed.

Lemma filter_nonempty {A} (p : A -> bool) (l : list A) :
  (exists x, In x l /\ p x = true) -> is_empty (filter p l) = false.
Proof.
  intros [x [Hin Hp]]. destruct (filter p l) eqn:E; [|reflexivity].
  assert (H : In x (filter p l)) by (apply filter_In; auto).
  rewrite E in H. destruct H.
Qed.

Lemma filter_empty {A} (p : A -> bool) (l : list A) :
  (forall x, In x l -> p x = false) -> filter p l = [].
Proof.
  intros H. induction l as [|a l IH]; [reflexivity|]. cbn [filter].
  rewrite (H a) by now left. apply IH. intros x Hx. apply H. now right.
Qed.

Lemma choose_some (l : list Comment) :
  is_empty l = false ->
  exists c, choose_one_comment_pref_admin_tag l = Some c /\ In c l.
Proof.
  destruct l as [|c0 l]; [discriminate|]. intros _.
  unfold choose_one_comment_pref_admin_tag.
  destruct (find _ (c0 :: l)) as [c|] eqn:E.
  - exists c. split; auto. now apply find_some in E.
  - exists c0. split; auto. now left.
Qed.

Definition REJECTED_WITH_ADMIN : str :=
  RED ++ py "  REJECTED! Admin comment found but NOT our snake!".

(** The world after the rejected-with-admin branch. *)
Lemma rejected_with_admin_eq norm n admin f o c t :
  is_empty admin = false ->
  exists chosen,
    choose_one_comment_pref_admin_tag admin = Some chosen /\ In chosen admin
    /\ rejected_with_admin norm n admin (mkWorld f o c t None)
       = let f1 := if in_file (f CSV_REJECTED) norm then f
                   else append_fs CSV_REJECTED
                          [[norm; oneline (Some (commenter chosen));
                            oneline (Some (text chosen))]]
                          (ensure_fs CSV_REJECTED headers_rejected f) in
         let t1 := if in_file (f CSV_REJECTED) norm then t
                   else (t ++ ensure_ops CSV_REJECTED headers_rejected f)
                        ++ append_ops CSV_REJECTED
                             [[norm; oneline (Some (commenter chosen));
                               oneline (Some (text chosen))]] in
         (Ret tt,
          mkWorld (log_fs [norm; str_of_N n; py "Rejected - w/admin"] f1)
            ((o ++ [REJECTED_WITH_ADMIN ++ [10]]) ++ [[10]]) c
            ((t1 ++ ensure_ops CSV_LOG log_headers f1)
             ++ append_ops CSV_LOG [[norm; str_of_N n; py "Rejected - w/admin"]]) None).
Proof.
  intros Ha. destruct (choose_some admin Ha) as [chosen [Hc Hin]].
  exists chosen. split; [exact Hc|]. split; [exact Hin|].
  unfold rejected_with_admin. rewrite Hc.
  unfold bind at 1. rewrite url_in_csv_eq. cbv beta iota. cbn [fs].
  destruct (in_file (f CSV_REJECTED) norm); cbn [negb]; cbv zeta.
  - unfold bind at 1. unfold ret at 1. cbv beta iota.
    now rewrite finish_eq.
  - unfold bind at 1.
    rewrite commit_eq. cbv beta iota. now rewrite finish_eq.
Qed.

End Branches.

Section AdminPriority.

Import Py Sys FilterPosts.

(** The part of [main] up to the choice of a branch, for a post that is
    not skipped and whose comments were fetched. *)
Lemma main_eq e argv1 pc f o c t cr :
  post_comments e = Json pc ->
  processed f (normalize_url (strip argv1)) = false ->
  let raw := strip argv1 in
  let norm := normalize_url raw in
  let staff := load_staff_names (staff_file e) in
  let admin := filter (fun cm => is_admin_like cm staff) (comments_of pc) in
  let n := scraped_total_of pc in
  main e argv1 (mkWorld f o c t cr)
  = if negb (is_empty admin) then
      let snake := filter (fun cm => text_matches_targets (Some (text cm))) admin in
      (if negb (is_empty snake)
       then accepted e pc raw norm n snake
       else rejected_with_admin norm n admin)
        (mkWorld f (o ++ status_block n true (negb (is_empty snake)))
           (c ++ [(POST_COMMENTS, raw)]) t cr)
    else
      let snake := filter (fun cm => text_matches_targets (Some (text cm)))
                          (comments_of pc) in
      match snake with
      | first :: others => saved_no_admin e pc raw norm n first others
      | [] => rejected_no_admin norm n
      end (mkWorld f (o ++ status_block n false (negb (is_empty snake)))
             (c ++ [(POST_COMMENTS, raw)]) t cr).
Proof.
  intros Epc Ep. cbv zeta. unfold main. cbv zeta.
  unfold bind at 1. rewrite already_processed_eq. cbv beta iota. cbn [fst snd fs].
  rewrite Ep.
  unfold bind at 1. rewrite (@run_script_for_json_eq PcData). rewrite Epc. cbv beta iota.
  fold (comments_of pc). fold (scraped_total_of pc).
  destruct (negb (is_empty (filter _ (comments_of pc)))).
  - unfold bind at 1. rewrite print_status_block_eq. cbv beta iota.
    destruct (negb (is_empty (filter _ (filter _ (comments_of pc))))); reflexivity.
  - unfold bind at 1. rewrite print_status_block_eq. cbv beta iota.
    destruct (filter _ (comments_of pc)); reflexivity.
Qed.

End AdminPriority.

Import Sys.

(** C2.  Take a post that is not skipped, whose comments hold at least
    one admin-like comment, none of the admin-like comments matching a
    target pattern; the other comments are arbitrary.  The uninterrupted
    run rejects the post with admin: the run log receives the row with
    status ["Rejected - w/admin"], the rejected ledger receives (unless the
    URL is there) the row of an admin-like comment, the saved and accepted
    ledgers are untouched, and the details script is not started. *)
Theorem admin_priority :
  forall (e : FilterPosts.Env) (argv1 : Py.str) (w : World) (pc : FilterPosts.PcData),
    crash w = None ->
    FilterPosts.post_comments e = FilterPosts.Json pc ->
    processed (fs w) (FilterPosts.normalize_url (Py.strip argv1)) = false ->
    let staff := FilterPosts.load_staff_names (FilterPosts.staff_file e) in
    let norm := FilterPosts.normalize_url (Py.strip argv1) in
    (exists cm, In cm (comments_of pc) /\ FilterPosts.is_admin_like cm staff = true) ->
    (forall cm, In cm (comments_of pc) ->
                FilterPosts.is_admin_like cm staff = true ->
                FilterPosts.text_matches_targets (Some (FilterPosts.text cm)) = false) ->
    let w' := run (FilterPosts.main e argv1) w in
    fs w' CSV_NONADMIN = fs w CSV_NONADMIN
    /\ fs w' CSV_ACCEPTED = fs w CSV_ACCEPTED
    /\ fs w' CSV_LOG
       = Some (match fs w CSV_LOG with Some rows => rows | None => [log_headers] end
               ++ [[norm; Py.str_of_N (scraped_total_of pc); py "Rejected - w/admin"]])
    /\ calls w' = calls w ++ [(POST_COMMENTS, Py.strip argv1)]
    /\ In (REJECTED_WITH_ADMIN ++ [10]) (stdout w')
    /\ exists chosen,
         In chosen (comments_of pc)
         /\ FilterPosts.is_admin_like chosen staff = true
         /\ fs w' CSV_REJECTED
            = if in_file (fs w CSV_REJECTED) norm then fs w CSV_REJECTED
              else Some (match fs w CSV_REJECTED with
                         | Some rows => rows
                         | None => [FilterPosts.headers_rejected]
                         end
                         ++ [[norm;
                              FilterPosts.oneline (Some (FilterPosts.commenter chosen));
                              FilterPosts.oneline (Some (FilterPosts.text chosen))]]).
Proof.
  intros e argv1 [f o c t cr] pc Hcr Epc Ep staff norm Hex Hno w'.
  cbn [crash] in Hcr. subst cr. cbn [fs] in Ep. cbn [fs calls].
  subst w'. unfold run. rewrite (@main_eq e argv1 pc f o c t None Epc Ep). cbv zeta.
  fold staff. fold norm.
  set (admin := filter (fun cm => FilterPosts.is_admin_like cm staff) (comments_of pc)).
  assert (Ea : Py.is_empty admin = false) by now apply filter_nonempty.
  assert (Es : filter (fun cm => FilterPosts.text_matches_targets
                                   (Some (FilterPosts.text cm))) admin = []).
  { apply filter_empty. intros x Hx. apply filter_In in Hx. destruct Hx as [H1 H2].
    now apply Hno. }
  rewrite Ea, Es. cbn [Py.is_empty negb].
  destruct (@rejected_with_admin_eq norm (scraped_total_of pc) admin
              f (o ++ status_block (scraped_total_of pc) true false)
              (c ++ [(POST_COMMENTS, Py.strip argv1)]) t Ea)
    as [chosen [Hc [Hin E]]].
  rewrite E. cbv zeta. cbn [snd fs calls stdout].
  assert (Hch : In chosen (comments_of pc)
                /\ FilterPosts.is_admin_like chosen staff = true)
    by (apply filter_In in Hin; exact Hin).
  assert (D1 : CSV_LOG <> CSV_NONADMIN) by discriminate.
  assert (D2 : CSV_LOG <> CSV_ACCEPTED) by discriminate.
  assert (D3 : CSV_LOG <> CSV_REJECTED) by discriminate.
  assert (D4 : CSV_REJECTED <> CSV_NONADMIN) by discriminate.
  assert (D5 : CSV_REJECTED <> CSV_ACCEPTED) by discriminate.
  assert (D6 : CSV_REJECTED <> CSV_LOG) by discriminate.
  rewrite !log_fs_other by assumption. rewrite log_fs_log.
  split; [|split; [|split; [|split; [|split]]]].
  - destruct (in_file _ _); [reflexivity|].
    now rewrite append_fs_other, ensure_fs_other.
  - destruct (in_file _ _); [reflexivity|].
    now rewrite append_fs_other, ensure_fs_other.
  - destruct (in_file _ _); [reflexivity|].
    now rewrite append_fs_other, ensure_fs_other.
  - reflexivity.
  - apply in_or_app. left. apply in_or_app. right. now left.
  - exists chosen. split; [apply Hch|]. split; [apply Hch|].
    rewrite log_fs_other by assumption.
    destruct (in_file _ _); [reflexivity|].
    unfold append_fs, ensure_fs, rows_of. rewrite fget_set_same.
    destruct (fget f CSV_REJECTED) eqn:E'.
    + now rewrite E'.
    + now rewrite fget_set_same.
Qed.

Definition scenario_env : FilterPosts.Env :=
  FilterPosts.mkEnv (py "/app") (Some [])
    (FilterPosts.Json
       (FilterPosts.mkPc post_2
          [comment "Bob" "Look, a king cobra!";
           comment "Mod" "#admin noted, not relevant"] [] 0))
    (FilterPosts.Json (FilterPosts.mkPd post_2 (py "2024-05-01") (py "Ann") (py "What is this?"))).

Definition scenario_comments : FilterPosts.PcData :=
  FilterPosts.mkPc post_2
    [comment "Bob" "Look, a king cobra!";
     comment "Mod" "#admin noted, not relevant"] [] 0.

Lemma scenario_has_admin :
  exists cm, In cm (comments_of scenario_comments)
             /\ FilterPosts.is_admin_like cm
                  (FilterPosts.load_staff_names (FilterPosts.staff_file scenario_env)) = true.
Proof.
  exists (comment "Mod" "#admin noted, not relevant").
  split; [right; now left|reflexivity].
Defined.

Lemma scenario_admin_is_silent :
  forall cm, In cm (comments_of scenario_comments) ->
    FilterPosts.is_admin_like cm
      (FilterPosts.load_staff_names (FilterPosts.staff_file scenario_env)) = true ->
    FilterPosts.text_matches_targets (Some (FilterPosts.text cm)) = false.
Proof.
  intros cm [<-|[<-|[]]].
  - intros H. vm_compute in H. discriminate.
  - intros _. reflexivity.
Defined.

Lemma admin_priority_witness :
  crash quiet_world = None
  /\ FilterPosts.post_comments scenario_env = FilterPosts.Json scenario_comments
  /\ processed (fs quiet_world) (FilterPosts.normalize_url (Py.strip post_2)) = false
  /\ FilterPosts.text_matches_targets (Some (py "Look, a king cobra!")) = true
  /\ fs (run (FilterPosts.main scenario_env post_2) quiet_world) CSV_NONADMIN = None
  /\ fs (run (FilterPosts.main scenario_env post_2) quiet_world) CSV_LOG
     = Some [log_headers;
             [post_2; py "2"; py "Rejected - w/admin"]].
Proof.
  split; [reflexivity|]. split; [reflexivity|]. split; [reflexivity|].
  split; [reflexivity|].
  pose proof (admin_priority scenario_env post_2 quiet_world
                (pc := scenario_comments) eq_refl eq_refl eq_refl
                scenario_has_admin scenario_admin_is_silent) as H.
  split; [exact (proj1 H)|].
  exact (proj1 (proj2 (proj2 H))).
Defined.

Section Provenance.

Import Py FilterPosts.

Definition ACCEPTED : str := GREEN ++ py "  ACCEPTED! Admin and Snake comment found!".

Lemma accepted_eq e pc pd raw norm n snake f o c t :
  post_details e = Json pd ->
  is_empty snake = false ->
  let K := commit_url pd pc norm in
  exists chosen,
    In chosen snake
    /\ accepted e pc raw norm n snake (mkWorld f o c t None)
       = let row := [K; oneline (Some (pd_date_iso pd)); oneline (Some (pd_poster pd));
                     oneline (Some (pd_text pd)); oneline (Some (commenter chosen));
                     oneline (Some (text chosen))] in
         let f1 := if in_file (f CSV_ACCEPTED) K then f
                   else append_fs CSV_ACCEPTED [row]
                          (ensure_fs CSV_ACCEPTED headers_full f) in
         let t1 := if in_file (f CSV_ACCEPTED) K then t
                   else (t ++ ensure_ops CSV_ACCEPTED headers_full f)
                        ++ append_ops CSV_ACCEPTED [row] in
         (Ret tt,
          mkWorld (log_fs [K; str_of_N n; py "Accepted"] f1)
            ((o ++ [ACCEPTED ++ [10]]) ++ [[10]]) (c ++ [(POST_DETAILS, raw)])
            ((t1 ++ ensure_ops CSV_LOG log_headers f1)
             ++ append_ops CSV_LOG [[K; str_of_N n; py "Accepted"]]) None).
Proof.
  intros Epd Hs. cbv zeta. destruct (choose_some snake Hs) as [chosen [Hc Hin]].
  exists chosen. split; [exact Hin|].
  unfold accepted. rewrite Hc.
  unfold bind at 1. rewrite (@run_script_for_json_eq PdData), Epd. cbv beta iota zeta.
  unfold bind at 1. rewrite url_in_csv_eq. cbv beta iota. cbn [fs].
  destruct (in_file (f CSV_ACCEPTED) _); cbn [negb].
  - unfold bind at 1. unfold ret at 1. cbv beta iota. now rewrite finish_eq.
  - unfold bind at 1. rewrite commit_eq. cbv beta iota. now rewrite finish_eq.
Qed.

Definition SAVED (count : nat) : str :=
  ORANGE ++ py "  NON-ADMIN! Snake mentioned by Non-admin! ("
  ++ str_of_N (N.of_nat count) ++ py ")".

Lemma saved_no_admin_eq e pc pd raw norm n first others f o c t :
  post_details e = Json pd ->
  let K := commit_url pd pc norm in
  saved_no_admin e pc raw norm n first others (mkWorld f o c t None)
  = let rows :=
      [K; oneline (Some (pd_date_iso pd)); oneline (Some (pd_poster pd));
       oneline (Some (pd_text pd)); oneline (Some (commenter first));
       oneline (Some (text first))]
      :: placeholder_rows
           [(oneline (Some (commenter first)), oneline (Some (text first)))] others in
    let f1 := if in_file (f CSV_NONADMIN) K then f
              else append_fs CSV_NONADMIN rows (ensure_fs CSV_NONADMIN headers_full f) in
    let t1 := if in_file (f CSV_NONADMIN) K then t
              else (t ++ ensure_ops CSV_NONADMIN headers_full f)
                   ++ append_ops CSV_NONADMIN rows in
    (Ret tt,
     mkWorld (log_fs [K; str_of_N n; py "Saved - no admin"] f1)
       ((o ++ [SAVED (List.length (first :: others)) ++ [10]]) ++ [[10]])
       (c ++ [(POST_DETAILS, raw)])
       ((t1 ++ ensure_ops CSV_LOG log_headers f1)
        ++ append_ops CSV_LOG [[K; str_of_N n; py "Saved - no admin"]]) None).
Proof.
  intros Epd. cbv zeta. unfold saved_no_admin.
  unfold bind at 1. rewrite (@run_script_for_json_eq PdData), Epd. cbv beta iota zeta.
  unfold bind at 1. rewrite url_in_csv_eq. cbv beta iota. cbn [fs].
  destruct (in_file (f CSV_NONADMIN) _); cbn [negb].
  - unfold bind at 1. unfold ret at 1. cbv beta iota. now rewrite finish_eq.
  - unfold bind at 1. rewrite commit_eq. cbv beta iota. now rewrite finish_eq.
Qed.

(** What a ledger holds after a block of rows was added to it, the
    header first when the file was missing. *)
Definition with_rows (x : Csv.file) (headers : list str) (rows : list Csv.row) : Csv.file :=
  Some (match x with Some old => old | None => [headers] end ++ rows).

Lemma committed_rows p h r rows f :
  append_fs p (r :: rows) (ensure_fs p h f) p = with_rows (f p) h (r :: rows).
Proof.
  unfold append_fs, ensure_fs, with_rows, rows_of. rewrite fget_set_same.
  destruct (fget f p) eqn:E.
  - now rewrite E.
  - now rewrite fget_set_same.
Qed.

End Provenance.

(** C10.  For a post that is not skipped and is accepted or saved, the
    URL in the run-log row, the URL in the first cell of the ledger row and
    the URL looked up just before the append are all
    [normalize_url(pd.url or pc.url or post_url_norm)], the first non-empty
    of the URL reported by the details script, the one reported by the
    comments script, and the normalised argument.  The skip test was made
    on the normalised argument: after the run over a permalink whose
    details script reports the post's own URL, the row is filed under that
    URL and the skip test on the same argument still answers no. *)
Theorem commit_key_provenance :
  forall (e : FilterPosts.Env) (argv1 : Py.str) (w : World)
         (pc : FilterPosts.PcData) (pd : FilterPosts.PdData),
    crash w = None ->
    FilterPosts.post_comments e = FilterPosts.Json pc ->
    FilterPosts.post_details e = FilterPosts.Json pd ->
    processed (fs w) (FilterPosts.normalize_url (Py.strip argv1)) = false ->
    let staff := FilterPosts.load_staff_names (FilterPosts.staff_file e) in
    let norm := FilterPosts.normalize_url (Py.strip argv1) in
    let admin := filter (fun cm => FilterPosts.is_admin_like cm staff) (comments_of pc) in
    let matches := fun cm => FilterPosts.text_matches_targets (Some (FilterPosts.text cm)) in
    let K := FilterPosts.normalize_url
               (Py.or_ (FilterPosts.pd_url pd) (Py.or_ (FilterPosts.pc_url pc) norm)) in
    let n := Py.str_of_N (scraped_total_of pc) in
    let w' := run (FilterPosts.main e argv1) w in
    (Py.is_empty admin = false -> Py.is_empty (filter matches admin) = false ->
       fs w' CSV_LOG = with_rows (fs w CSV_LOG) log_headers [[K; n; py "Accepted"]]
       /\ if in_file (fs w CSV_ACCEPTED) K
          then fs w' CSV_ACCEPTED = fs w CSV_ACCEPTED
          else exists cells,
                 fs w' CSV_ACCEPTED
                 = with_rows (fs w CSV_ACCEPTED) FilterPosts.headers_full [K :: cells])
    /\ (Py.is_empty admin = true -> Py.is_empty (filter matches (comments_of pc)) = false ->
          fs w' CSV_LOG = with_rows (fs w CSV_LOG) log_headers [[K; n; py "Saved - no admin"]]
          /\ if in_file (fs w CSV_NONADMIN) K
             then fs w' CSV_NONADMIN = fs w CSV_NONADMIN
             else exists cells more,
                    fs w' CSV_NONADMIN
                    = with_rows (fs w CSV_NONADMIN) FilterPosts.headers_full
                        ((K :: cells) :: more))
    /\ (rows_in post_2 (after_run no_files run_by_permalink CSV_ACCEPTED) = 1%nat
        /\ processed (after_run no_files run_by_permalink)
             (FilterPosts.normalize_url (Py.strip permalink_2)) = false).
Proof.
  intros e argv1 [f o c t cr] pc pd Hcr Epc Epd Ep staff norm admin matches K n w'.
  cbn [crash] in Hcr. subst cr. cbn [fs] in Ep. cbn [fs].
  assert (D1 : CSV_LOG <> CSV_ACCEPTED) by discriminate.
  assert (D2 : CSV_LOG <> CSV_NONADMIN) by discriminate.
  subst w'. unfold run. rewrite (@main_eq e argv1 pc f o c t None Epc Ep). cbv zeta.
  fold staff. fold norm. fold admin. fold matches.
  split; [|split].
  - intros Ha Hs. rewrite Ha, Hs. cbn [negb].
    destruct (@accepted_eq e pc pd (Py.strip argv1) norm (scraped_total_of pc)
                (filter matches admin) f
                (o ++ status_block (scraped_total_of pc) true true)
                (c ++ [(POST_COMMENTS, Py.strip argv1)]) t Epd Hs)
      as [chosen [Hin E]].
    rewrite E. cbv zeta. cbn [snd fs].
    change (FilterPosts.commit_url pd pc norm) with K.
    rewrite log_fs_log, log_fs_other by assumption.
    destruct (in_file (f CSV_ACCEPTED) K).
    + split; reflexivity.
    + rewrite append_fs_other, ensure_fs_other by discriminate.
      split; [reflexivity|]. eexists. apply committed_rows.
  - intros Ha Hs. rewrite Ha. cbn [negb].
    destruct (filter matches (comments_of pc)) as [|first others]; [discriminate|].
    rewrite (@saved_no_admin_eq e pc pd (Py.strip argv1) norm (scraped_total_of pc)
               first others f _ _ t Epd).
    cbv zeta. cbn [snd fs].
    change (FilterPosts.commit_url pd pc norm) with K.
    rewrite log_fs_log, log_fs_other by assumption.
    destruct (in_file (f CSV_NONADMIN) K).
    + split; reflexivity.
    + rewrite append_fs_other, ensure_fs_other by discriminate.
      split; [reflexivity|]. eexists. eexists. apply committed_rows.
  - split; vm_compute; reflexivity.
Qed.

Lemma commit_key_provenance_witness :
  crash quiet_world = None
  /\ processed (fs quiet_world) (FilterPosts.normalize_url (Py.strip permalink_2)) = false
  /\ fs (run (FilterPosts.main (run_env run_by_permalink) permalink_2) quiet_world) CSV_LOG
     = with_rows None log_headers [[post_2; py "1"; py "Accepted"]].
Proof.
  split; [reflexivity|]. split; [reflexivity|].
  exact (proj1 (proj1 (commit_key_provenance (run_env run_by_permalink) permalink_2
                         quiet_world eq_refl eq_refl eq_refl eq_refl)
                  eq_refl eq_refl)).
Defined.

(** ** The skip path through the runner *)

Section SkipPath.

Import Py FilterPosts.

Lemma main_skip_eq e argv1 f o c t cr :
  processed f (normalize_url (strip argv1)) = true ->
  main e argv1 (mkWorld f o c t cr)
  = (Ret tt,
     mkWorld f (o ++ [SKIPPED (hits f (normalize_url (strip argv1))) ++ [10]]) c t cr).
Proof.
  intros Ep. unfold main. cbv zeta.
  unfold bind at 1. rewrite already_processed_eq. cbv beta iota. cbn [fst snd fs].
  now rewrite Ep.
Qed.

(** The line of the skip message that carries the marker. *)
Definition skipped_line (where_ : list str) : str :=
  SKIP_MARK ++ py "  SKIPPED! Already processed in ["
  ++ join (py ", ") where_ ++ py "]!" ++ [10].

Lemma skip_lines (f : FS) (u : str) :
  RunFilters.child_lines [SKIPPED (hits f u) ++ [10]]
  = [[10]; skipped_line (hits f u); [10]].
Proof.
  unfold hits.
  destruct (in_file (f CSV_ACCEPTED) _), (in_file (f CSV_NONADMIN) _),
    (in_file (f CSV_REJECTED) _); vm_compute; reflexivity.
Qed.

Lemma skipped_line_kind (where_ : list str) :
  RunFilters.classify_result_text (skipped_line where_) = RunFilters.skip.
Proof. reflexivity. Qed.

Lemma on_line_unknown url p hh col hs st line :
  RunFilters.classify_result_text line = RunFilters.unknown ->
  RunFilters.classify_result_text (List.concat (RunFilters.full_lines st ++ [line]))
  = RunFilters.unknown ->
  RunFilters.on_line url p hh col hs st line
  = ret (RunFilters.mkStream (RunFilters.full_lines st ++ [line])
           (RunFilters.decided_kind st) (RunFilters.acted st)
           (RunFilters.remaining_rows st)).
Proof.
  intros H1 H2. unfold RunFilters.on_line. rewrite H1. cbn [RunFilters.kind_eqb].
  rewrite H2. cbn [RunFilters.kind_eqb]. now rewrite orb_true_r.
Qed.

Lemma on_line_acted url p hh col hs st line :
  RunFilters.acted st = true ->
  RunFilters.on_line url p hh col hs st line
  = ret (RunFilters.mkStream (RunFilters.full_lines st ++ [line])
           (RunFilters.decided_kind st) (RunFilters.acted st)
           (RunFilters.remaining_rows st)).
Proof. intros H. unfold RunFilters.on_line. now rewrite H. Qed.

Lemma on_line_skip url p hh col hs st line :
  RunFilters.acted st = false ->
  RunFilters.classify_result_text line = RunFilters.skip ->
  RunFilters.on_line url p hh col hs st line
  = (rows <- RunFilters.remove_from_input p hh col hs (RunFilters.normalize_url url)
               (RunFilters.remaining_rows st) ;;
     ret (RunFilters.mkStream (RunFilters.full_lines st ++ [line])
            RunFilters.skip true rows)).
Proof.
  intros H1 H2. unfold RunFilters.on_line. rewrite H1, H2. reflexivity.
Qed.

(** What [write_rows_now] puts in the work-list file. *)
Definition written (has_header : bool) (headers : list str) (rows : list RunFilters.Row)
  : list Csv.row :=
  if has_header
  then headers :: map (fun r => map (fun h => RunFilters.cell h r) headers) rows
  else map (fun r => [RunFilters.cell (py "url") r]) rows.

Lemma write_rows_now_fs p has_header headers rows f o c t :
  fst (RunFilters.write_rows_now p has_header headers rows (mkWorld f o c t None)) = Ret tt
  /\ fs (snd (RunFilters.write_rows_now p has_header headers rows (mkWorld f o c t None)))
     = fs_set p (Some (written has_header headers rows)) f
  /\ calls (snd (RunFilters.write_rows_now p has_header headers rows (mkWorld f o c t None)))
     = c
  /\ crash (snd (RunFilters.write_rows_now p has_header headers rows (mkWorld f o c t None)))
     = None.
Proof.
  unfold written.
  destruct has_header;
    cbv beta iota zeta delta
      [RunFilters.write_rows_now bind substep read_file open_w write_rows fsync
       close emit put_file ret crash fs stdout calls trace fst snd];
    rewrite ?fget_set_same, ?fs_set_twice; cbn [app];
    rewrite ?fget_set_same, ?fs_set_twice; cbn [app]; auto.
Qed.

Lemma filter_same_length {A} (p : A -> bool) (l : list A) :
  List.length (filter p l) = List.length l -> filter p l = l.
Proof.
  induction l as [|a l IH]; [reflexivity|]. cbn [filter].
  destruct (p a); cbn [List.length]; intros H.
  - f_equal. apply IH. lia.
  - pose proof (filter_length_le p l). lia.
Qed.

Lemma run_and_act_streaming_skip e url has_header url_col headers remaining f o c t :
  processed f (normalize_url (strip url)) = true ->
  let kept := RunFilters.without url_col (RunFilters.normalize_url url) remaining in
  RunFilters.run_and_act_streaming e url OUT_CSV has_header url_col headers remaining
    (mkWorld f o c t None)
  = (Ret (0, RunFilters.mkStream
               [[10]; skipped_line (hits f (normalize_url (strip url))); [10]]
               RunFilters.skip true kept),
     if (List.length kept =? List.length remaining)%nat
     then mkWorld f o c t None
     else snd (RunFilters.write_rows_now OUT_CSV has_header headers kept
                 (mkWorld f o c t None))).
Proof.
  intros Ep kept.
  unfold RunFilters.run_and_act_streaming.
  cbn [fs stdout calls trace crash].
  rewrite (@main_skip_eq e url f [] c t None Ep). cbn [fst snd fs stdout calls trace].
  change ([] ++ [SKIPPED (hits f (normalize_url (strip url))) ++ [10]])
    with [SKIPPED (hits f (normalize_url (strip url))) ++ [10]].
  rewrite skip_lines.
  cbn [RunFilters.on_lines].
  set (st0 := RunFilters.mkStream [] RunFilters.unknown false remaining).
  (* the blank line before the message *)
  rewrite (@on_line_unknown url OUT_CSV has_header url_col headers st0 [10])
    by reflexivity.
  unfold bind at 2. unfold ret at 1. cbv beta iota.
  (* the message *)
  rewrite on_line_skip by (reflexivity || apply skipped_line_kind).
  cbn [RunFilters.full_lines RunFilters.acted RunFilters.remaining_rows
       RunFilters.decided_kind st0 app].
  unfold RunFilters.remove_from_input. fold kept.
  pose proof (@write_rows_now_fs OUT_CSV has_header headers kept f o c t) as Hw.
  destruct (List.length kept =? List.length remaining)%nat eqn:El; cbn [negb].
  - (* nothing to remove: the list and the file stay *)
    apply Nat.eqb_eq in El. apply filter_same_length in El. fold kept in El.
    unfold bind at 2. unfold bind at 2. unfold ret at 1. cbv beta iota.
    unfold ret at 1. cbv beta iota.
    rewrite on_line_acted by reflexivity.
    unfold bind, ret.
    cbn [RunFilters.full_lines RunFilters.acted RunFilters.remaining_rows
         RunFilters.decided_kind app].
    replace kept with remaining by (symmetry; exact El). reflexivity.
  - unfold bind. cbv beta.
    destruct (RunFilters.write_rows_now OUT_CSV has_header headers kept
                (mkWorld f o c t None)) as [r1 w1] eqn:Ew.
    cbn [fst snd] in Hw. destruct Hw as [H1 _]. subst r1.
    unfold ret at 1. cbv beta iota. unfold ret at 1. cbv beta iota.
    rewrite on_line_acted by reflexivity.
    unfold ret. reflexivity.
Qed.

End SkipPath.

(** C5.  When the candidate is already in an outcome ledger for the
    skip test of [filterPosts.py], the runner decides [skip]: neither
    script is started, every file but the work-list is as before (no
    outcome row, no run-log row, no done-URLs row), and the rows of the
    work-list whose URL normalises to the candidate's are removed, the file
    being rewritten when there was one to remove. *)
Theorem skip_path :
  forall (e : FilterPosts.Env) (url : Py.str) (w : World) (has_header : bool)
         (url_col : Py.str) (headers : list Py.str) (remaining : list RunFilters.Row),
    crash w = None ->
    processed (fs w) (FilterPosts.normalize_url (Py.strip url)) = true ->
    let res := RunFilters.run_and_act_streaming e url OUT_CSV has_header url_col
                 headers remaining w in
    let kept := RunFilters.without url_col (RunFilters.normalize_url url) remaining in
    (exists st,
        fst res = Ret (0, st)
        /\ RunFilters.decided_kind st = RunFilters.skip
        /\ RunFilters.acted st = true
        /\ RunFilters.remaining_rows st = kept)
    /\ calls (snd res) = calls w
    /\ (forall p, p <> OUT_CSV -> fs (snd res) p = fs w p)
    /\ fs (snd res) OUT_CSV
       = (if (List.length kept =? List.length remaining)%nat then fs w OUT_CSV
          else Some (written has_header headers kept)).
Proof.
  intros e url [f o c t cr] has_header url_col headers remaining Hcr Ep res kept.
  cbn [crash] in Hcr. subst cr. cbn [fs] in Ep. cbn [fs calls].
  subst res. rewrite run_and_act_streaming_skip by exact Ep. cbv zeta.
  fold kept. cbn [fst snd].
  pose proof (@write_rows_now_fs OUT_CSV has_header headers kept f o c t) as Hw.
  destruct Hw as [_ [H2 [H3 _]]].
  split; [|split; [|split]].
  - eexists. split; [reflexivity|]. repeat split.
  - destruct (_ =? _)%nat; [reflexivity|exact H3].
  - intros p Hp. destruct (_ =? _)%nat; [reflexivity|].
    rewrite H2. apply fget_set_other. congruence.
  - destruct (_ =? _)%nat; [reflexivity|].
    rewrite H2. apply fget_set_same.
Qed.

(** A work-list of two links, the first of which was filed as rejected by an
    earlier run; the runner is given that link with a query string. *)
Definition pending_links : list RunFilters.Row :=
  [ [(py "url", Some post_2)]; [(py "url", Some permalink_2)] ].

Definition filed_world : World :=
  mkWorld (fs_set OUT_CSV (Some [[py "url"]; [post_2]; [permalink_2]])
             (after_run no_files run_without_comments))
          [] [] [] None.

Lemma skip_path_witness :
  crash filed_world = None
  /\ processed (fs filed_world)
       (FilterPosts.normalize_url (Py.strip (post_2 ++ py "/?ref=share"))) = true
  /\ (let res := RunFilters.run_and_act_streaming (run_env run_without_comments)
                   (post_2 ++ py "/?ref=share") OUT_CSV true (py "url") [py "url"]
                   pending_links filed_world in
      calls (snd res) = []
      /\ fs (snd res) DONE_FILE = None
      /\ fs (snd res) CSV_LOG = fs filed_world CSV_LOG
      /\ fs (snd res) CSV_REJECTED = fs filed_world CSV_REJECTED
      /\ fs (snd res) OUT_CSV = Some [[py "url"]; [permalink_2]]).
Proof.
  assert (H1 : crash filed_world = None) by reflexivity.
  assert (H2 : processed (fs filed_world)
                 (FilterPosts.normalize_url (Py.strip (post_2 ++ py "/?ref=share"))) = true)
    by (vm_compute; reflexivity).
  split; [exact H1|]. split; [exact H2|].
  pose proof (skip_path (run_env run_without_comments) (post_2 ++ py "/?ref=share")
                filed_world true (py "url") [py "url"] pending_links H1 H2) as H.
  cbv zeta in H. destruct H as [_ [Hc [Hf Ho]]]. cbv zeta.
  split; [exact Hc|].
  split; [rewrite Hf by discriminate; reflexivity|].
  split; [apply Hf; discriminate|].
  split; [apply Hf; discriminate|].
  rewrite Ho. vm_compute. reflexivity.
Defined.

(* ------------------------------------------------------------------ *)
(** * Further properties of the three scripts *)

(** ** Worlds and runs the properties below are shown on *)

(** Two links are pending; no ledger exists yet. *)
Definition pending_world : World :=
  mkWorld (fs_set OUT_CSV (Some [[py "url"]; [post_2]; [permalink_2]]) no_files)
          [] [] [] None.

(** A line as the filter prints it for an accepted post. *)
Definition accepted_line : Py.str := py "  ACCEPTED! Admin and Snake comment found!".

(** The comments script fails: its output holds no JSON. *)
Definition silent_env : FilterPosts.Env :=
  FilterPosts.mkEnv (py "/app") (Some []) (FilterPosts.NoJson (py "Traceback"))
    (FilterPosts.Json (FilterPosts.mkPd post_2 (py "2024-05-01") (py "Ann") (py "What is this?"))).

(** The links of a snapshot: two posts, a permalink and a page of the group. *)
Definition snapshot_links : list Py.str :=
  [py "/groups/1/posts/3/?comment_id=7"; py "https://m.facebook.com/groups/1/posts/2";
   py "/groups/1/about"; py "/groups/1/permalink/4/"].

Definition permalink_4 : Py.str := py "https://www.facebook.com/groups/1/permalink/4".
Definition post_3 : Py.str := py "https://www.facebook.com/groups/1/posts/3".

(** The rejected ledger exists and is empty. *)
Definition touched_world : World :=
  mkWorld (fs_set CSV_REJECTED (Some []) no_files) [] [] [] None.

(** ** Substrings *)

Section Substrings.

Import Py.

Lemma startswith_app_l (p a b : str) :
  startswith p a = true -> startswith p (a ++ b) = true.
Proof.
  revert a. induction p as [|x p IH]; intros a; [reflexivity|].
  destruct a as [|y a]; cbn [startswith app]; [discriminate|].
  intros H. apply andb_true_iff in H. destruct H as [H1 H2].
  now rewrite H1, IH.
Qed.

Lemma contains_app_l (p a b : str) :
  contains p a = true -> contains p (a ++ b) = true.
Proof.
  induction a as [|y a IH]; cbn [contains app].
  - rewrite orb_false_r. intros H. destruct p; [|discriminate].
    destruct b; reflexivity.
  - intros H. apply orb_true_iff in H. destruct H as [H|H].
    + change (y :: a ++ b) with ((y :: a) ++ b).
      now rewrite (startswith_app_l _ _ b H).
    + now rewrite (IH H), orb_true_r.
Qed.

Lemma contains_app_r (p a b : str) :
  contains p b = true -> contains p (a ++ b) = true.
Proof.
  intros H. induction a as [|y a IH]; [exact H|].
  cbn [contains app]. now rewrite IH, orb_true_r.
Qed.

Lemma contains_mid (p x a y : str) :
  contains p a = true -> contains p (x ++ a ++ y) = true.
Proof. intros H. now apply contains_app_r, contains_app_l. Qed.

Lemma lower_app (a b : str) : lower (a ++ b) = lower a ++ lower b.
Proof. apply flat_map_app. Qed.

Lemma lower_mid (x a y : str) : lower (x ++ a ++ y) = lower x ++ lower a ++ lower y.
Proof. now rewrite !lower_app. Qed.

End Substrings.

(** ** The classification of the child's output *)

Section Classification.

Import Py RunFilters.

(** The order in which [classify_result_text] looks for its markers. *)
Definition rank (k : kind) : nat :=
  match k with
  | skip => 4
  | accept => 3
  | saved => 2
  | reject => 1
  | unknown => 0
  end.

Definition says_skip (t : str) : bool :=
  contains [0x23ED; 0xFE0F] t || contains (py "skipped") (lower t)
  || contains (py "already processed") (lower t).

Definition says_accept (t : str) : bool :=
  contains [0x1F7E2] t || contains (py "accepted!") (lower t)
  || contains (py " accepted") (lower t).

Definition says_saved (t : str) : bool :=
  contains [0x1F7E0] t || contains (py "non-admin") (lower t)
  || contains (py "saved - no admin") (lower t).

Definition says_reject (t : str) : bool :=
  (contains [0x1F534] t
   && (contains (py "rejected") (lower t) || contains (py "no admin and no snake") (lower t)))
  || (contains (py "rejected - w/admin") (lower t)
      || contains (py "rejected - no admin") (lower t))
  || existsb (fun k => contains k (lower t))
       [py " reject"; [0x2717] ++ py " rejected"; py "denied";
        py "blacklist"; py "filtered out"].

Lemma classify_result_text_cases (t : str) :
  classify_result_text t
  = if says_skip t then skip
    else if says_accept t then accept
    else if says_saved t then saved
    else if says_reject t then reject
    else unknown.
Proof.
  unfold classify_result_text, says_skip, says_accept, says_saved, says_reject.
  destruct (_ || _ || _); [reflexivity|].
  destruct (_ || _ || _); [reflexivity|].
  destruct (_ || _ || _); [reflexivity|].
  destruct (contains [0x1F534] t && _); [reflexivity|].
  cbn [orb]. destruct (_ || _); [reflexivity|]. cbn [orb].
  destruct (existsb _ _); reflexivity.
Qed.

Ltac grows :=
  repeat match goal with
    | H : _ || _ = true |- _ => apply orb_true_iff in H; destruct H as [H|H]
    | H : _ && _ = true |- _ => apply andb_true_iff in H; destruct H as [? H]
    end;
  repeat match goal with
    | H : contains ?p (lower ?a) = true |- context [lower (?x ++ ?a ++ ?y)] =>
        rewrite (lower_mid x a y);
        rewrite (contains_mid p (lower x) (lower a) (lower y) H)
    | H : contains ?p ?a = true |- context [contains ?p (?x ++ ?a ++ ?y)] =>
        rewrite (contains_mid p x a y H)
    end;
  rewrite ?orb_true_r; cbn [orb andb]; rewrite ?orb_true_r; try reflexivity.

Lemma says_skip_grows x a y : says_skip a = true -> says_skip (x ++ a ++ y) = true.
Proof. unfold says_skip. intros H. grows. Qed.

Lemma says_accept_grows x a y : says_accept a = true -> says_accept (x ++ a ++ y) = true.
Proof. unfold says_accept. intros H. grows. Qed.

Lemma says_saved_grows x a y : says_saved a = true -> says_saved (x ++ a ++ y) = true.
Proof. unfold says_saved. intros H. grows. Qed.

Lemma says_reject_grows x a y : says_reject a = true -> says_reject (x ++ a ++ y) = true.
Proof.
  unfold says_reject. intros H.
  apply orb_true_iff in H. destruct H as [H|H].
  - apply orb_true_iff in H. destruct H as [H|H].
    + apply andb_true_iff in H. destruct H as [H1 H2].
      rewrite (contains_mid _ x a y H1). rewrite lower_mid.
      apply orb_true_iff in H2. destruct H2 as [H2|H2];
        rewrite (contains_mid _ (lower x) (lower a) (lower y) H2);
        rewrite ?orb_true_r; reflexivity.
    + rewrite lower_mid.
      apply orb_true_iff in H. destruct H as [H|H];
        rewrite (contains_mid _ (lower x) (lower a) (lower y) H);
        rewrite ?orb_true_r; reflexivity.
  - apply orb_true_iff. right.
    apply existsb_exists in H. destruct H as [k [Hk Hc]].
    apply existsb_exists. exists k. split; [exact Hk|].
    rewrite lower_mid. now apply contains_mid.
Qed.

End Classification.

(** X1.  More text never lowers a classification: with the kinds ordered
    as the function tests for them (skip, accept, saved, reject, unknown),
    the kind of a text inside a longer one is at most the kind of the
    longer one.  So a skip marker anywhere wins, and a text that is
    classified stays classified when output is added before or after it. *)
Theorem classify_result_text_never_lowers :
  forall x a y : Py.str,
    (rank (RunFilters.classify_result_text a)
     <= rank (RunFilters.classify_result_text (x ++ a ++ y)))%nat
    /\ (RunFilters.classify_result_text a = RunFilters.skip ->
        RunFilters.classify_result_text (x ++ a ++ y) = RunFilters.skip)
    /\ (RunFilters.classify_result_text a <> RunFilters.unknown ->
        RunFilters.classify_result_text (x ++ a ++ y) <> RunFilters.unknown).
Proof.
  intros x a y.
  assert (H : (rank (RunFilters.classify_result_text a)
               <= rank (RunFilters.classify_result_text (x ++ a ++ y)))%nat).
  { rewrite !classify_result_text_cases.
    destruct (says_skip a) eqn:E1.
    { now rewrite (says_skip_grows x a y E1). }
    destruct (says_accept a) eqn:E2.
    { rewrite (says_accept_grows x a y E2).
      destruct (says_skip (x ++ a ++ y)); cbn; lia. }
    destruct (says_saved a) eqn:E3.
    { rewrite (says_saved_grows x a y E3).
      destruct (says_skip (x ++ a ++ y)), (says_accept (x ++ a ++ y)); cbn; lia. }
    destruct (says_reject a) eqn:E4.
    { rewrite (says_reject_grows x a y E4).
      destruct (says_skip (x ++ a ++ y)), (says_accept (x ++ a ++ y)),
        (says_saved (x ++ a ++ y)); cbn; lia. }
    cbn. lia. }
  split; [exact H|]. split.
  - intros E. rewrite E in H. cbn in H.
    destruct (RunFilters.classify_result_text (x ++ a ++ y)); cbn in H; try lia.
    reflexivity.
  - intros Ha Hb. rewrite Hb in H. cbn in H.
    destruct (RunFilters.classify_result_text a); cbn in H; try lia. now apply Ha.
Qed.

Lemma classify_result_text_never_lowers_witness :
  RunFilters.classify_result_text (py "Already processed") = RunFilters.skip
  /\ RunFilters.classify_result_text
       (py "filter: " ++ py "Already processed" ++ py " (Accepted!)") = RunFilters.skip.
Proof.
  assert (H : RunFilters.classify_result_text (py "Already processed") = RunFilters.skip)
    by (vm_compute; reflexivity).
  split; [exact H|].
  exact (proj1 (proj2 (classify_result_text_never_lowers
                         (py "filter: ") (py "Already processed") (py " (Accepted!)"))) H).
Defined.

(** ** Which files a computation may write *)

Section Writers.

Import Py FilterPosts.

(** [m] leaves every file outside [ps] as it is, however it ends. *)
Definition only_writes {A} (ps : list path) (m : M A) : Prop :=
  forall w q, ~ In q ps -> fs (snd (m w)) q = fs w q.

Lemma only_writes_bind {A B} ps (m : M A) (k : A -> M B) :
  only_writes ps m -> (forall a, only_writes ps (k a)) -> only_writes ps (bind m k).
Proof.
  intros Hm Hk w q Hq. unfold bind. specialize (Hm w q Hq).
  destruct (m w) as [[a| |] w1]; cbn [snd] in *; try exact Hm.
  rewrite <- Hm. now apply Hk.
Qed.

Lemma only_writes_more {A} ps qs (m : M A) :
  incl ps qs -> only_writes ps m -> only_writes qs m.
Proof. intros Hi Hm w q Hq. apply Hm. intros H. apply Hq, Hi, H. Qed.

Lemma only_writes_pure {A} ps (m : M A) :
  (forall w, fs (snd (m w)) = fs w) -> only_writes ps m.
Proof. intros H w q _. now rewrite H. Qed.

Lemma only_writes_ret {A} ps (a : A) : only_writes ps (ret a).
Proof. now apply only_writes_pure. Qed.

Lemma only_writes_exit {A} ps n : only_writes ps (@sys_exit A n).
Proof. now apply only_writes_pure. Qed.

Lemma only_writes_print ps s : only_writes ps (print s).
Proof. now apply only_writes_pure. Qed.

Lemma only_writes_started ps sc u : only_writes ps (started sc u).
Proof. now apply only_writes_pure. Qed.

Lemma only_writes_read ps p : only_writes ps (read_file p).
Proof. now apply only_writes_pure. Qed.

Lemma only_writes_emit ps e : only_writes ps (emit e).
Proof. now apply only_writes_pure. Qed.

Lemma only_writes_substep ps : only_writes ps substep.
Proof.
  apply only_writes_pure. intros w. unfold substep.
  destruct (crash w) as [[|k]|]; reflexivity.
Qed.

Lemma only_writes_put ps p x : In p ps -> only_writes ps (put_file p x).
Proof.
  intros Hp w q Hq. unfold put_file. cbn [snd fs].
  apply fget_set_other. intros ->. now apply Hq.
Qed.

Lemma only_writes_open_w ps p : In p ps -> only_writes ps (open_w p).
Proof.
  intros Hp. unfold open_w. apply only_writes_bind; [apply only_writes_emit|].
  intros _. now apply only_writes_put.
Qed.

Lemma only_writes_open_a ps p : In p ps -> only_writes ps (open_a p).
Proof.
  intros Hp. unfold open_a. apply only_writes_bind; [apply only_writes_emit|].
  intros _. apply only_writes_bind; [apply only_writes_read|].
  intros [x|]; [apply only_writes_ret|now apply only_writes_put].
Qed.

Lemma only_writes_write_rows ps p rows : In p ps -> only_writes ps (write_rows p rows).
Proof.
  intros Hp. unfold write_rows. apply only_writes_bind; [apply only_writes_emit|].
  intros _. apply only_writes_bind; [apply only_writes_read|].
  intros x. now apply only_writes_put.
Qed.

Lemma only_writes_ensure ps p h : In p ps -> only_writes ps (ensure_csv_with_header p h).
Proof.
  intros Hp. unfold ensure_csv_with_header.
  apply only_writes_bind; [apply only_writes_substep|]. intros _.
  apply only_writes_bind; [apply only_writes_read|]. intros [x|].
  - apply only_writes_ret.
  - apply only_writes_bind; [now apply only_writes_open_w|]. intros _.
    apply only_writes_bind; [now apply only_writes_write_rows|]. intros _.
    apply only_writes_emit.
Qed.

Lemma only_writes_append_rows ps p rows : In p ps -> only_writes ps (append_rows p rows).
Proof.
  intros Hp. unfold append_rows. destruct rows as [|r rows]; [apply only_writes_ret|].
  apply only_writes_bind; [apply only_writes_substep|]. intros _.
  apply only_writes_bind; [now apply only_writes_open_a|]. intros _.
  apply only_writes_bind; [now apply only_writes_write_rows|]. intros _.
  apply only_writes_emit.
Qed.

Lemma only_writes_url_in_csv ps p u : only_writes ps (url_in_csv p u).
Proof.
  unfold url_in_csv. apply only_writes_bind; [apply only_writes_read|].
  intros [x|]; apply only_writes_ret.
Qed.

Lemma only_writes_run_script {A} ps e sc (r : reply A) u :
  only_writes ps (run_script_for_json e sc r u).
Proof.
  unfold run_script_for_json. apply only_writes_bind; [apply only_writes_started|].
  intros _. destruct r; [apply only_writes_ret|].
  apply only_writes_bind; [apply only_writes_print|]. intros _.
  apply only_writes_bind; [apply only_writes_print|]. intros _.
  apply only_writes_exit.
Qed.

Lemma only_writes_log_outcome ps u n s :
  In CSV_LOG ps -> only_writes ps (log_outcome u n s).
Proof.
  intros H. unfold log_outcome.
  apply only_writes_bind; [now apply only_writes_ensure|]. intros _.
  now apply only_writes_append_rows.
Qed.

Lemma only_writes_status_block ps n a s : only_writes ps (print_status_block n a s).
Proof.
  apply only_writes_pure. intros w. destruct w.
  now rewrite print_status_block_eq.
Qed.

(** The files of [filterPosts.py]. *)
Definition filter_files : list path :=
  [CSV_ACCEPTED; CSV_NONADMIN; CSV_REJECTED; CSV_LOG].

Ltac ow :=
  repeat first
    [ apply only_writes_ret | apply only_writes_exit | apply only_writes_print
    | apply only_writes_url_in_csv | apply only_writes_run_script
    | apply only_writes_status_block
    | apply only_writes_log_outcome; cbn; tauto
    | apply only_writes_ensure; cbn; tauto
    | apply only_writes_append_rows; cbn; tauto
    | apply only_writes_bind; [|intros ?] ].

Lemma only_writes_main e argv1 : only_writes filter_files (main e argv1).
Proof.
  unfold main.
  apply only_writes_bind.
  { unfold already_processed. ow. }
  intros [d hs]. cbn [fst snd]. destruct d; [apply only_writes_print|].
  apply only_writes_bind; [apply only_writes_run_script|]. intros pc.
  destruct (negb (is_empty (filter _ _))).
  - apply only_writes_bind; [apply only_writes_status_block|]. intros _.
    destruct (negb (is_empty (filter _ (filter _ _)))).
    + unfold accepted. ow.
      destruct (negb _); [|apply only_writes_ret].
      destruct (choose_one_comment_pref_admin_tag _); ow.
    + unfold rejected_with_admin. ow.
      destruct (negb _); [|apply only_writes_ret]. ow.
      destruct (choose_one_comment_pref_admin_tag _); ow.
  - apply only_writes_bind; [apply only_writes_status_block|]. intros _.
    destruct (filter _ _) as [|first others].
    + unfold rejected_no_admin. ow. destruct (negb _); ow.
    + unfold saved_no_admin. ow. destruct (negb _); ow.
Qed.

Lemma main_writes_files_aux e argv1 w :
  fs (snd (main e argv1 w)) OUT_CSV = fs w OUT_CSV
  /\ fs (snd (main e argv1 w)) DONE_FILE = fs w DONE_FILE.
Proof.
  split; apply (only_writes_main e argv1 w); cbn; intuition discriminate.
Qed.

End Writers.

(** X2.  A run of [filterPosts.py], however it ends (also when
    it is killed between two writes), leaves the pending work-list and the
    done-URLs file as they are: it writes to the three outcome ledgers and
    to the run log only. *)
Theorem main_writes_its_own_files :
  forall (e : FilterPosts.Env) (argv1 : Py.str) (w : World),
    fs (snd (FilterPosts.main e argv1 w)) OUT_CSV = fs w OUT_CSV
    /\ fs (snd (FilterPosts.main e argv1 w)) DONE_FILE = fs w DONE_FILE.
Proof.
  intros e argv1 w. apply main_writes_files_aux.
Qed.

(** ** The runner *)

Section Runner.

Import Py RunFilters.

Lemma only_writes_ensure_done_header ps :
  In DONE_FILE ps -> only_writes ps ensure_done_header.
Proof.
  intros H. unfold ensure_done_header.
  apply only_writes_bind; [apply only_writes_read|]. intros x.
  destruct (file_is_empty x); [|apply only_writes_ret].
  apply only_writes_bind; [apply only_writes_substep|]. intros _.
  apply only_writes_bind; [now apply only_writes_open_w|]. intros _.
  apply only_writes_bind; [now apply only_writes_write_rows|]. intros _.
  repeat (apply only_writes_bind; [apply only_writes_emit|]; intros _).
  apply only_writes_emit.
Qed.

Lemma only_writes_done_contains ps u : only_writes ps (done_contains u).
Proof.
  unfold done_contains. apply only_writes_bind; [apply only_writes_read|].
  intros [rows|]; [|apply only_writes_ret].
  destruct (is_empty rows); apply only_writes_ret.
Qed.

Lemma only_writes_append_done ps u :
  In DONE_FILE ps -> only_writes ps (append_done_url_now u).
Proof.
  intros H. unfold append_done_url_now.
  destruct (negb _); [apply only_writes_ret|].
  apply only_writes_bind; [now apply only_writes_ensure_done_header|]. intros _.
  apply only_writes_bind; [apply only_writes_done_contains|]. intros present.
  destruct present; [apply only_writes_ret|].
  apply only_writes_bind; [apply only_writes_substep|]. intros _.
  apply only_writes_bind; [now apply only_writes_open_a|]. intros _.
  apply only_writes_bind; [now apply only_writes_write_rows|]. intros _.
  repeat (apply only_writes_bind; [apply only_writes_emit|]; intros _).
  apply only_writes_emit.
Qed.

Lemma only_writes_write_rows_now ps p hh hs rows :
  In p ps -> only_writes ps (write_rows_now p hh hs rows).
Proof.
  intros H. unfold write_rows_now.
  apply only_writes_bind; [apply only_writes_substep|]. intros _.
  apply only_writes_bind; [now apply only_writes_open_w|]. intros _.
  apply only_writes_bind.
  { destruct hh.
    - apply only_writes_bind; [now apply only_writes_write_rows|]. intros _.
      now apply only_writes_write_rows.
    - now apply only_writes_write_rows. }
  intros _. apply only_writes_bind; [apply only_writes_emit|]. intros _.
  apply only_writes_emit.
Qed.

Lemma only_writes_remove ps p hh col hs norm rows :
  In p ps -> only_writes ps (remove_from_input p hh col hs norm rows).
Proof.
  intros H. unfold remove_from_input. destruct (negb _); [|apply only_writes_ret].
  apply only_writes_bind; [now apply only_writes_write_rows_now|]. intros _.
  apply only_writes_ret.
Qed.

Lemma only_writes_on_line url p hh col hs st line :
  only_writes [DONE_FILE; p] (on_line url p hh col hs st line).
Proof.
  unfold on_line. destruct (_ || _); [apply only_writes_ret|].
  destruct (if kind_eqb _ _ then _ else _).
  1-3: (apply only_writes_bind;
        [apply only_writes_append_done; cbn; tauto|]; intros _;
        apply only_writes_bind;
        [apply only_writes_remove; cbn; tauto|]; intros ?; apply only_writes_ret).
  - apply only_writes_bind; [apply only_writes_remove; cbn; tauto|]. intros ?.
    apply only_writes_ret.
  - apply only_writes_ret.
Qed.

Lemma only_writes_on_lines url p hh col hs lines :
  forall st, only_writes [DONE_FILE; p] (on_lines url p hh col hs st lines).
Proof.
  induction lines as [|l lines IH]; intros st; cbn [on_lines].
  - apply only_writes_ret.
  - apply only_writes_bind; [apply only_writes_on_line|]. intros st'. apply IH.
Qed.

(** The child of [run_and_act_streaming]: [filterPosts.py] on [url]. *)
Definition child (e : FilterPosts.Env) (url : str) (w : World) : ending unit * World :=
  FilterPosts.main e url (mkWorld (fs w) [] (calls w) (trace w) (crash w)).

Lemma on_lines_app url p hh col hs (a b : list str) :
  forall st w,
    on_lines url p hh col hs st (a ++ b) w
    = match on_lines url p hh col hs st a w with
      | (Ret st1, w1) => on_lines url p hh col hs st1 b w1
      | (Exit n, w1) => (Exit n, w1)
      | (Killed, w1) => (Killed, w1)
      end.
Proof.
  induction a as [|l a IH]; intros st w; cbn [on_lines app].
  - reflexivity.
  - unfold bind. destruct (on_line url p hh col hs st l w) as [[st'| |] w']; auto.
Qed.

Lemma on_lines_acted url p hh col hs (lines : list str) :
  forall st w,
    acted st = true ->
    on_lines url p hh col hs st lines w
    = (Ret (mkStream (full_lines st ++ lines) (decided_kind st) true (remaining_rows st)), w).
Proof.
  induction lines as [|l lines IH]; intros st w Ha; cbn [on_lines].
  - rewrite app_nil_r. destruct st as [a b c d]. cbn in *. now subst.
  - unfold bind. rewrite on_line_acted by exact Ha. unfold ret.
    rewrite IH by (cbn; exact Ha). cbn [full_lines decided_kind remaining_rows].
    now rewrite <- app_assoc.
Qed.

Lemma concat_lines_from (s cur : str) : List.concat (lines_from cur s) = cur ++ s.
Proof.
  revert cur. induction s as [|c s IH]; intros cur; cbn [lines_from].
  - destruct cur; cbn; [reflexivity|]. now rewrite !app_nil_r.
  - destruct (c =? 10).
    + cbn [List.concat]. rewrite IH. cbn. now rewrite <- app_assoc.
    + rewrite IH. now rewrite <- app_assoc.
Qed.

Lemma concat_split {A} (ls : list (list A)) (l : list A) :
  In l ls -> exists x y, List.concat ls = x ++ l ++ y.
Proof.
  induction ls as [|h t IH]; [intros []|]. intros [->|H].
  - exists [], (List.concat t). reflexivity.
  - destruct (IH H) as [x [y E]]. exists (h ++ x), y. cbn. rewrite E.
    now rewrite <- app_assoc.
Qed.

Lemma unknown_inside (x a y : str) :
  classify_result_text (x ++ a ++ y) = unknown -> classify_result_text a = unknown.
Proof.
  intros H. rewrite classify_result_text_cases in *.
  destruct (says_skip a) eqn:E1.
  { rewrite (says_skip_grows x a y E1) in H. discriminate. }
  destruct (says_accept a) eqn:E2.
  { rewrite (says_accept_grows x a y E2) in H.
    destruct (says_skip _); discriminate. }
  destruct (says_saved a) eqn:E3.
  { rewrite (says_saved_grows x a y E3) in H.
    destruct (says_skip _), (says_accept _); discriminate. }
  destruct (says_reject a) eqn:E4.
  { rewrite (says_reject_grows x a y E4) in H.
    destruct (says_skip _), (says_accept _), (says_saved _); discriminate. }
  reflexivity.
Qed.

(** Lines none of which, alone or with those before it, carries a
    marker. *)
Lemma on_lines_unknown url p hh col hs (lines : list str) :
  forall st w,
    classify_result_text (List.concat (full_lines st ++ lines)) = unknown ->
    on_lines url p hh col hs st lines w
    = (Ret (mkStream (full_lines st ++ lines) (decided_kind st) (acted st)
              (remaining_rows st)), w).
Proof.
  induction lines as [|l lines IH]; intros st w H; cbn [on_lines].
  - rewrite app_nil_r. now destruct st.
  - unfold bind. rewrite on_line_unknown.
    + unfold ret. rewrite IH.
      * cbn [full_lines decided_kind acted remaining_rows]. now rewrite <- app_assoc.
      * cbn [full_lines]. now rewrite <- app_assoc.
    + destruct (@concat_split _ (full_lines st ++ l :: lines) l) as [x [y E]].
      { apply in_or_app. right. now left. }
      rewrite E in H. exact (unknown_inside _ _ _ H).
    + change (l :: lines) with ([l] ++ lines) in H.
      rewrite app_assoc, concat_app in H.
      apply (unknown_inside [] _ (List.concat lines)). exact H.
Qed.

End Runner.

(** X3.  [run_and_act_streaming] leaves the three outcome ledgers
    and the run log [filter_log.csv] of the filter alone: each of the four
    files is, after the call, as the child [filterPosts.py] left it.  (Of
    the CSV files it writes the done-URLs file and the work-list only; its
    own text log is not among the files modelled.) *)
Theorem runner_leaves_the_ledgers :
  forall (e : FilterPosts.Env) (url : Py.str) (has_header : bool) (url_col : Py.str)
         (headers : list Py.str) (remaining : list RunFilters.Row) (w : World),
    let after := fs (snd (RunFilters.run_and_act_streaming e url OUT_CSV has_header url_col
                            headers remaining w)) in
    let left := fs (snd (child e url w)) in
    after CSV_ACCEPTED = left CSV_ACCEPTED
    /\ after CSV_NONADMIN = left CSV_NONADMIN
    /\ after CSV_REJECTED = left CSV_REJECTED
    /\ after CSV_LOG = left CSV_LOG.
Proof.
  intros e url hh col hs remaining w. cbv zeta.
  assert (H : forall p, p <> DONE_FILE -> p <> OUT_CSV ->
                fs (snd (RunFilters.run_and_act_streaming e url OUT_CSV hh col hs
                           remaining w)) p
                = fs (snd (child e url w)) p).
  { intros p H1 H2.
    unfold RunFilters.run_and_act_streaming, child.
    set (c := FilterPosts.main e url _).
    unfold bind.
    pose proof (@only_writes_on_lines url OUT_CSV hh col hs
                  (RunFilters.child_lines (stdout (snd c)))
                  (RunFilters.mkStream [] RunFilters.unknown false remaining)
                  (mkWorld (fs (snd c)) (stdout w) (calls (snd c)) (trace (snd c)) None) p)
      as H.
    destruct (RunFilters.on_lines _ _ _ _ _ _ _ _) as [[st| |] w1]; cbn [snd fs] in *;
      apply H; cbn; intuition congruence. }
  repeat split; apply H; discriminate.
Qed.

(** X4.  The runner acts on the first decisive line and on no
    other: once the lines read so far have made it act, whatever the child
    prints afterwards is collected with the rest, and changes neither the
    decision, nor the rows kept, nor any of the six CSV files (the
    done-URLs file, the work-list, the ledgers and the run log of the
    filter). *)
Theorem runner_acts_once :
  forall (url : Py.str) (csv_path : path) (has_header : bool) (url_col : Py.str)
         (headers : list Py.str) (st st1 : RunFilters.Stream) (lines more : list Py.str)
         (w w1 : World),
    RunFilters.on_lines url csv_path has_header url_col headers st lines w = (Ret st1, w1) ->
    RunFilters.acted st1 = true ->
    let res := RunFilters.on_lines url csv_path has_header url_col headers st
                 (lines ++ more) w in
    fst res = Ret (RunFilters.mkStream (RunFilters.full_lines st1 ++ more)
                     (RunFilters.decided_kind st1) true (RunFilters.remaining_rows st1))
    /\ fs (snd res) = fs w1.
Proof.
  intros url p hh col hs st st1 lines more w w1 E Ha. cbv zeta.
  rewrite on_lines_app, E, on_lines_acted by exact Ha. now split.
Qed.

Lemma runner_acts_once_witness :
  let st1 := RunFilters.mkStream [accepted_line] RunFilters.accept true
               [[(py "url", Some permalink_2)]] in
  let w1 := snd (RunFilters.on_lines post_2 OUT_CSV true (py "url") [py "url"]
                   (RunFilters.mkStream [] RunFilters.unknown false pending_links)
                   [accepted_line] pending_world) in
  let res := RunFilters.on_lines post_2 OUT_CSV true (py "url") [py "url"]
               (RunFilters.mkStream [] RunFilters.unknown false pending_links)
               ([accepted_line] ++ [py "Rejected - no admin"]) pending_world in
  RunFilters.on_lines post_2 OUT_CSV true (py "url") [py "url"]
    (RunFilters.mkStream [] RunFilters.unknown false pending_links)
    [accepted_line] pending_world = (Ret st1, w1)
  /\ RunFilters.acted st1 = true
  /\ fs w1 DONE_FILE = Some [[py "url"]; [post_2]]
  /\ fst res = Ret (RunFilters.mkStream [accepted_line; py "Rejected - no admin"]
                      RunFilters.accept true [[(py "url", Some permalink_2)]])
  /\ fs (snd res) = fs w1.
Proof.
  cbv zeta.
  assert (E : RunFilters.on_lines post_2 OUT_CSV true (py "url") [py "url"]
                (RunFilters.mkStream [] RunFilters.unknown false pending_links)
                [accepted_line] pending_world
              = (Ret (RunFilters.mkStream [accepted_line] RunFilters.accept true
                        [[(py "url", Some permalink_2)]]),
                 snd (RunFilters.on_lines post_2 OUT_CSV true (py "url") [py "url"]
                        (RunFilters.mkStream [] RunFilters.unknown false pending_links)
                        [accepted_line] pending_world)))
    by (vm_compute; reflexivity).
  split; [exact E|]. split; [reflexivity|]. split; [vm_compute; reflexivity|].
  exact (@runner_acts_once post_2 OUT_CSV true (py "url") [py "url"] _ _ _
           [py "Rejected - no admin"] _ _ E eq_refl).
Defined.

(** X5.  When the output of the child, taken as a whole, carries
    no marker, the runner does not act: the decision stays [unknown], the
    rows are kept, the done-URLs file and the work-list are as they were
    before the call, and the six CSV files are as the child left them. *)
Theorem runner_without_verdict :
  forall (e : FilterPosts.Env) (url : Py.str) (has_header : bool) (url_col : Py.str)
         (headers : list Py.str) (remaining : list RunFilters.Row) (w : World),
    RunFilters.classify_result_text
      (RunFilters.universal_newlines (List.concat (stdout (snd (child e url w)))))
    = RunFilters.unknown ->
    let res := RunFilters.run_and_act_streaming e url OUT_CSV has_header url_col headers
                 remaining w in
    (exists rc lines,
        fst res = Ret (rc, RunFilters.mkStream lines RunFilters.unknown false remaining))
    /\ fs (snd res) = fs (snd (child e url w))
    /\ fs (snd res) DONE_FILE = fs w DONE_FILE
    /\ fs (snd res) OUT_CSV = fs w OUT_CSV.
Proof.
  intros e url hh col hs remaining w H res. subst res.
  unfold RunFilters.run_and_act_streaming. fold (child e url w).
  unfold child in *. 
  set (c := FilterPosts.main e url _) in *.
  unfold bind. rewrite on_lines_unknown.
  - cbn [fst snd fs RunFilters.full_lines RunFilters.decided_kind RunFilters.acted
         RunFilters.remaining_rows app]. unfold ret. cbn [fst snd fs].
    split; [eauto|]. split; [reflexivity|].
    destruct (main_writes_files_aux e url (mkWorld (fs w) [] (calls w) (trace w) (crash w)))
      as [Ha Hb]. fold c in Ha, Hb. cbn [fs] in Ha, Hb. now split.
  - cbn [RunFilters.full_lines app]. unfold RunFilters.child_lines.
    rewrite concat_lines_from. exact H.
Qed.

Lemma runner_without_verdict_witness :
  RunFilters.classify_result_text
    (RunFilters.universal_newlines (List.concat (stdout (snd (child silent_env post_2 pending_world)))))
  = RunFilters.unknown
  /\ fs (snd (RunFilters.run_and_act_streaming silent_env post_2 OUT_CSV true (py "url")
                [py "url"] pending_links pending_world)) DONE_FILE = None
  /\ fs (snd (RunFilters.run_and_act_streaming silent_env post_2 OUT_CSV true (py "url")
                [py "url"] pending_links pending_world)) OUT_CSV
     = Some [[py "url"]; [post_2]; [permalink_2]].
Proof.
  assert (H : RunFilters.classify_result_text
                (RunFilters.universal_newlines
                   (List.concat (stdout (snd (child silent_env post_2 pending_world)))))
              = RunFilters.unknown) by (vm_compute; reflexivity).
  split; [exact H|].
  pose proof (@runner_without_verdict silent_env post_2 true (py "url") [py "url"]
                pending_links pending_world H) as R.
  cbv zeta in R. destruct R as [_ [_ [Hd Ho]]].
  split; [exact Hd|exact Ho].
Defined.

(** ** Occurrences that a replacement leaves *)

Section Occurrences.

Import Py.

Lemma startswith_contains (p s : str) : startswith p s = true -> contains p s = true.
Proof. intros H. destruct s; cbn [contains]; now rewrite H. Qed.

Lemma free_suffix (p a b : str) : contains p (a ++ b) = false -> contains p b = false.
Proof.
  intros H. destruct (contains p b) eqn:E; [|reflexivity].
  now rewrite (contains_app_r p a b E) in H.
Qed.

Lemma free_prefix (p a b : str) : contains p (a ++ b) = false -> contains p a = false.
Proof.
  intros H. destruct (contains p a) eqn:E; [|reflexivity].
  now rewrite (contains_app_l p a b E) in H.
Qed.

Lemma free_tail (p : str) (c : char) (s : str) :
  contains p (c :: s) = false -> contains p s = false.
Proof. apply (free_suffix p [c] s). Qed.

Lemma free_head (p s : str) : contains p s = false -> startswith p s = false.
Proof.
  intros H. destruct (startswith p s) eqn:E; [|reflexivity].
  now rewrite (startswith_contains _ _ E) in H.
Qed.

(** A text without the old string is left as it is. *)
Lemma replace_free (old new s : str) :
  contains old s = false -> replace old new s = s.
Proof.
  unfold replace. induction s as [|c s IH]; [reflexivity|].
  intros H. cbn [replace_from]. rewrite (free_head _ _ H).
  now rewrite IH by exact (free_tail _ _ _ H).
Qed.

Variable c0 : char.
Variables old' new' pat' : str.

Let old := c0 :: old'.
Let new := c0 :: new'.
Let pat := c0 :: pat'.

Hypothesis pat_tail : Forall (fun x => x <> c0) pat'.
Hypothesis new_tail : Forall (fun x => x <> c0) new'.
Hypothesis new_differs : forall r, startswith pat (new ++ r) = false.

Lemma startswith_replace (p : str) :
  Forall (fun x => x <> c0) p ->
  forall t, startswith p (replace_from old new 0 t) = startswith p t.
Proof.
  induction 1 as [|x p Hx Hp IH]; intros t; [reflexivity|].
  destruct t as [|c t]; [reflexivity|].
  cbn [replace_from]. destruct (startswith old (c :: t)) eqn:E.
  - unfold old in E. cbn [startswith] in E. apply andb_true_iff in E.
    destruct E as [E _]. apply N.eqb_eq in E. subst c.
    unfold new. cbn [app startswith].
    replace (x =? c0) with false by (symmetry; now apply N.eqb_neq). reflexivity.
  - cbn [startswith]. now rewrite IH.
Qed.

Lemma free_after_tail (l r : str) :
  Forall (fun x => x <> c0) l ->
  contains pat r = false -> contains pat (l ++ r) = false.
Proof.
  intros Hl H. induction Hl as [|x l Hx Hl IH]; [exact H|].
  cbn [app contains]. rewrite IH, orb_false_r.
  unfold pat. cbn [startswith].
  destruct (c0 =? x) eqn:E; [|reflexivity].
  apply N.eqb_eq in E. congruence.
Qed.

Lemma free_after_new (r : str) :
  contains pat r = false -> contains pat (new ++ r) = false.
Proof.
  intros H. unfold new. cbn [app contains].
  change (c0 :: new' ++ r) with (new ++ r). rewrite new_differs. cbn [orb].
  now apply free_after_tail.
Qed.

(** The pattern is absent from the result when it is the old string, or
    was absent from the text. *)
Lemma free_replace_from (s : str) :
  (forall a b, s = a ++ b -> startswith old b = false -> startswith pat b = false) ->
  forall k, contains pat (replace_from old new k s) = false.
Proof.
  induction s as [|c s IH]; intros Hs k; [destruct k; reflexivity|].
  assert (Hs' : forall a b, s = a ++ b ->
                            startswith old b = false -> startswith pat b = false).
  { intros a b E. apply (Hs (c :: a) b). now rewrite E. }
  cbn [replace_from]. destruct k as [|k]; [|now apply IH].
  destruct (startswith old (c :: s)) eqn:E.
  - apply free_after_new. now apply IH.
  - cbn [contains]. rewrite (IH Hs' 0%nat), orb_false_r.
    specialize (Hs [] (c :: s) eq_refl E). unfold pat in *. cbn [startswith] in *.
    destruct (c0 =? c); [|reflexivity]. cbn [andb] in *.
    now rewrite startswith_replace.
Qed.

Lemma free_replace_keeps (s : str) :
  contains pat s = false -> contains pat (replace old new s) = false.
Proof.
  intros H. apply free_replace_from. intros a b -> _.
  apply free_head. exact (free_suffix _ _ _ H).
Qed.

End Occurrences.

Lemma free_replace_self (c0 : Py.char) (old' new' : Py.str) :
  Forall (fun x => x <> c0) old' ->
  Forall (fun x => x <> c0) new' ->
  (forall r, Py.startswith (c0 :: old') ((c0 :: new') ++ r) = false) ->
  forall s, Py.contains (c0 :: old') (Py.replace (c0 :: old') (c0 :: new') s) = false.
Proof.
  intros H1 H2 H3 s. apply free_replace_from; auto.
Qed.

(** ** Keys are stable *)

Section StableKeys.

Import Py.

Lemma free_m_R1 (u : str) : contains (py "://m.facebook.") (R1 u) = false.
Proof.
  apply (@free_replace_self 58 (py "//m.facebook.") (py "//www.facebook."));
    [now apply differs_of_forallb|now apply differs_of_forallb|reflexivity].
Qed.

Lemma free_bare_R2 (u : str) : contains (py "://facebook.") (R2 u) = false.
Proof.
  apply (@free_replace_self 58 (py "//facebook.") (py "//www.facebook."));
    [now apply differs_of_forallb|now apply differs_of_forallb|reflexivity].
Qed.

Lemma free_m_R2 (u : str) :
  contains (py "://m.facebook.") u = false ->
  contains (py "://m.facebook.") (R2 u) = false.
Proof.
  apply (@free_replace_keeps 58 (py "//facebook.") (py "//www.facebook.")
           (py "//m.facebook."));
    [now apply differs_of_forallb|now apply differs_of_forallb|reflexivity].
Qed.

Lemma Forall_before_self (c : char) (s : str) : Forall (fun x => x <> c) (before c s).
Proof.
  induction s as [|x s IH]; cbn [before]; [constructor|].
  destruct (x =? c) eqn:E; constructor; auto. now apply N.eqb_neq.
Qed.

Lemma Forall_before (P : char -> Prop) (c : char) (s : str) :
  Forall P s -> Forall P (before c s).
Proof.
  induction 1 as [|x s Hx Hs IH]; cbn [before]; [constructor|].
  destruct (x =? c); constructor; auto.
Qed.

Lemma before_none (c : char) (s : str) : Forall (fun x => x <> c) s -> before c s = s.
Proof.
  induction 1 as [|x s Hx Hs IH]; cbn [before]; [reflexivity|].
  replace (x =? c) with false by (symmetry; now apply N.eqb_neq). now f_equal.
Qed.

(** A core form is its own core form. *)
Lemma canon_core_fixed (u : str) : canon_core (canon_core u) = canon_core u.
Proof.
  unfold canon_core at 2 3. set (a := R2 (R1 u)). set (k := rstrip_slash (cut a)).
  assert (Hp : exists r, a = k ++ r).
  { unfold k, cut. destruct (rstrip_by_prefix (N.eqb 47) (before 63 (before 35 a))) as [r1 E1].
    destruct (before_split 63 (before 35 a)) as [r2 E2].
    destruct (before_split 35 a) as [r3 E3].
    exists (r1 ++ r2 ++ r3). unfold rstrip_slash.
    rewrite app_assoc, <- E1, app_assoc, <- E2. exact E3. }
  destruct Hp as [r Hr].
  assert (F1 : contains (py "://m.facebook.") k = false).
  { apply (free_prefix _ k r). rewrite <- Hr. apply free_m_R2, free_m_R1. }
  assert (F2 : contains (py "://facebook.") k = false).
  { apply (free_prefix _ k r). rewrite <- Hr. apply free_bare_R2. }
  assert (Q : Forall (fun x => x <> 63) k /\ Forall (fun x => x <> 35) k).
  { unfold k, rstrip_slash, cut. split; apply Forall_rstrip_by.
    - apply Forall_before_self.
    - apply Forall_before, Forall_before_self. }
  unfold canon_core, R1, R2.
  rewrite (replace_free _ _ _ F1), (replace_free _ _ _ F2). unfold cut.
  rewrite (before_none (proj2 Q)), (before_none (proj1 Q)).
  unfold k, rstrip_slash. apply rstrip_by_idem.
Qed.

Lemma nospace_canon_core (u : str) : nospace u -> nospace (canon_core u).
Proof.
  intros H. unfold canon_core, rstrip_slash, cut.
  apply Forall_rstrip_by, Forall_before, Forall_before. now apply nospace_R.
Qed.

Lemma canon_core_shape (u : str) :
  Forall (fun x => x <> 63) (canon_core u)
  /\ Forall (fun x => x <> 35) (canon_core u)
  /\ (forall d, last (canon_core u) d = 47 -> canon_core u = []).
Proof.
  unfold canon_core, rstrip_slash, cut. split; [|split].
  - apply Forall_rstrip_by, Forall_before_self.
  - apply Forall_rstrip_by, Forall_before, Forall_before_self.
  - intros d. set (x := before 63 (before 35 (R2 (R1 u)))).
    unfold rstrip_by. destruct (dropwhile (N.eqb 47) (rev x)) as [|c l] eqn:E;
      [reflexivity|].
    cbn [rev]. rewrite last_last. intros ->.
    assert (H : dropwhile (N.eqb 47) (dropwhile (N.eqb 47) (rev x))
                = dropwhile (N.eqb 47) (rev x)) by apply dropwhile_idem.
    rewrite E in H. cbn in H.
    apply (f_equal (@List.length _)) in H.
    destruct (dropwhile_suffix (N.eqb 47) l) as [h Hh].
    rewrite Hh in H at 2. cbn [List.length] in H. rewrite length_app in H. lia.
Qed.

End StableKeys.

(** X6.  On a URL without whitespace, [normalize_url] of
    [filterPosts.py] and [normalize_url] of [run_filters.py] give the same
    key, the key holds no [?] and no [#] and does not end with a slash, and
    normalising a key again gives the key: a key read back from a ledger
    compares equal to itself. *)
Theorem normalize_url_stable :
  forall u : Py.str,
    nospace u ->
    let k := FilterPosts.normalize_url u in
    RunFilters.normalize_url u = k
    /\ FilterPosts.normalize_url k = k
    /\ RunFilters.normalize_url k = k
    /\ Forall (fun x => x <> 63) k /\ Forall (fun x => x <> 35) k
    /\ (forall d, last k d = 47 -> k = []).
Proof.
  intros u H k. subst k.
  rewrite run_filters_normalize_url_core by exact H.
  rewrite (normalize_url_core H).
  rewrite normalize_url_core by now apply nospace_canon_core.
  rewrite run_filters_normalize_url_core by now apply nospace_canon_core.
  rewrite canon_core_fixed.
  split; [reflexivity|]. split; [reflexivity|]. split; [reflexivity|].
  apply canon_core_shape.
Qed.

(** A URL with a blank before its query: the key ends with the blank, and
    normalising the key removes it. *)
Lemma normalize_url_stable_witness :
  nospace (py "http://m.facebook.com/groups/1/posts/2/?ref=share")
  /\ FilterPosts.normalize_url
       (FilterPosts.normalize_url (py "http://m.facebook.com/groups/1/posts/2/?ref=share"))
     = py "http://www.facebook.com/groups/1/posts/2"
  /\ FilterPosts.normalize_url (FilterPosts.normalize_url (py "a ?x"))
     <> FilterPosts.normalize_url (py "a ?x").
Proof.
  assert (H : nospace (py "http://m.facebook.com/groups/1/posts/2/?ref=share"))
    by now apply nospace_of_forallb.
  split; [exact H|]. split.
  - rewrite (proj1 (proj2 (normalize_url_stable H))). vm_compute. reflexivity.
  - vm_compute. discriminate.
Defined.

(** ** The crawler's canonical form *)

Section Canonical.

Import Py ScrapePosts.

Lemma dropwhile_keep (p : char -> bool) (c : char) (x y : str) :
  p c = false -> dropwhile p (x ++ c :: y) = dropwhile p (x ++ [c]) ++ y.
Proof.
  intros Hc. induction x as [|d x IH]; cbn [app dropwhile].
  - now rewrite Hc.
  - destruct (p d); [exact IH|]. change ((d :: x ++ [c]) ++ y) with (d :: (x ++ [c]) ++ y).
    now rewrite <- app_assoc.
Qed.

Lemma rstrip_by_keep (p : char -> bool) (c : char) (a t : str) :
  p c = false -> rstrip_by p (a ++ c :: t) = a ++ rstrip_by p (c :: t).
Proof.
  intros Hc. unfold rstrip_by. rewrite rev_app_distr. cbn [rev].
  rewrite <- app_assoc. cbn [app].
  rewrite (@dropwhile_keep p c (rev t) (rev a) Hc).
  now rewrite rev_app_distr, rev_involutive.
Qed.

Lemma rstrip_by_head (p : char -> bool) (c : char) (t : str) :
  p c = false -> exists r, rstrip_by p (c :: t) = c :: r.
Proof.
  intros Hc. destruct (rstrip_by_prefix p (c :: t)) as [r Hr].
  destruct (rstrip_by p (c :: t)) as [|d l] eqn:E.
  - exfalso. unfold rstrip_by in E. cbn [rev] in E.
    apply (f_equal (@rev _)) in E. rewrite rev_involutive in E. cbn in E.
    clear Hr. induction (rev t) as [|x l IH]; cbn [app dropwhile] in E.
    + rewrite Hc in E. discriminate.
    + destruct (p x); [auto|discriminate].
  - cbn in Hr. injection Hr as -> _. now exists l.
Qed.

Lemma strip_keep_head (c : char) (t : str) :
  isspace c = false -> strip (c :: t) = rstrip_by isspace (c :: t).
Proof. intros H. unfold strip, lstrip_by. cbn [dropwhile]. now rewrite H. Qed.

Lemma strip_keep_mobile (c : char) (t : str) :
  isspace c = false ->
  strip (py "https://m.facebook.com" ++ c :: t)
  = py "https://m.facebook.com" ++ rstrip_by isspace (c :: t).
Proof.
  intros H. unfold strip, lstrip_by.
  replace (dropwhile isspace (py "https://m.facebook.com" ++ c :: t))
    with (py "https://m.facebook.com" ++ c :: t) by reflexivity.
  exact (@rstrip_by_keep isspace c (py "https://m.facebook.com") t H).
Qed.

(** The two rewritings of the host, on a link that begins with a known
    prefix. *)
Lemma R_mobile_prefix (u : str) :
  replace (py "://facebook.") (py "://www.facebook.")
    (replace (py "://m.facebook.") (py "://www.facebook.")
       (py "https://m.facebook.com" ++ u))
  = py "https://www.facebook.com"
    ++ replace (py "://facebook.") (py "://www.facebook.")
         (replace (py "://m.facebook.") (py "://www.facebook.") u).
Proof. reflexivity. Qed.

Lemma R_www_prefix (u : str) :
  replace (py "://facebook.") (py "://www.facebook.")
    (replace (py "://m.facebook.") (py "://www.facebook.")
       (py "https://www.facebook.com" ++ u))
  = py "https://www.facebook.com"
    ++ replace (py "://facebook.") (py "://www.facebook.")
         (replace (py "://m.facebook.") (py "://www.facebook.") u).
Proof. reflexivity. Qed.

Lemma canonicalize_absolutize_aux (h : str) :
  canonicalize_url (absolutize_href h) = canonicalize_url h.
Proof.
  unfold absolutize_href. destruct (truthy h) eqn:Eh; cbn [negb]; [|now destruct h].
  destruct (startswith (py "http://") h || startswith (py "https://") h); [reflexivity|].
  destruct (startswith (py "/") h) eqn:Es; [|reflexivity].
  destruct h as [|c t]; [discriminate|].
  change (startswith (py "/") (c :: t)) with ((47 =? c) && true) in Es.
  rewrite andb_true_r in Es. apply N.eqb_eq in Es.
  assert (Hc : isspace c = false) by now subst c.
  unfold USE_MOBILE, canonicalize_url. cbn [truthy negb app].
  rewrite (@strip_keep_head c t Hc), (@strip_keep_mobile c t Hc).
  destruct (@rstrip_by_head isspace c t Hc) as [r Hr]. rewrite Hr. subst c.
  change (startswith (py "/") (py "https://m.facebook.com" ++ 47 :: r)) with false.
  change (startswith (py "/") (47 :: r)) with true. cbv iota.
  change (sub_http (py "https://m.facebook.com" ++ 47 :: r))
    with (py "https://m.facebook.com" ++ 47 :: r).
  change (sub_http (py "https://www.facebook.com" ++ 47 :: r))
    with (py "https://www.facebook.com" ++ 47 :: r).
  change (truthy (py "https://m.facebook.com" ++ 47 :: t)) with true. cbv iota beta delta [negb].
  rewrite R_mobile_prefix, R_www_prefix. reflexivity.
Qed.

End Canonical.

(** X7.  Making a link absolute first changes nothing for the
    canonical form: [canonicalize_url(absolutize_href(h))] is
    [canonicalize_url(h)] for every link, relative or absolute. *)
Theorem canonicalize_after_absolutize :
  forall h : Py.str,
    ScrapePosts.canonicalize_url (ScrapePosts.absolutize_href h)
    = ScrapePosts.canonicalize_url h.
Proof. exact canonicalize_absolutize_aux. Qed.

Section CanonicalFixed.

Import Py Re ScrapePosts.

Lemma startswith_ci_app_l (p a b : str) :
  startswith_ci p a = true -> startswith_ci p (a ++ b) = true.
Proof.
  revert a. induction p as [|x p IH]; intros a; [reflexivity|].
  destruct a as [|y a]; cbn [startswith_ci app]; [discriminate|].
  intros H. apply andb_true_iff in H. destruct H as [H1 H2].
  now rewrite H1, IH.
Qed.

Lemma ci_match_refl (x : char) : ci_match x x = true.
Proof. unfold ci_match. now rewrite N.eqb_refl. Qed.

Lemma startswith_ci_self (p r : str) : startswith_ci p (p ++ r) = true.
Proof.
  induction p as [|x p IH]; [reflexivity|].
  cbn [app startswith_ci]. now rewrite ci_match_refl, IH.
Qed.

Variable c0 : char.
Variables q o2 n2 : str.

Let old := c0 :: q ++ o2.
Let new := c0 :: q ++ n2.

Lemma startswith_ci_replace (p : str) :
  Forall (fun x => ci_match x c0 = false) p ->
  forall t, startswith_ci p (replace_from old new 0 t) = startswith_ci p t.
Proof.
  induction 1 as [|x p Hx Hp IH]; intros t; [reflexivity|].
  destruct t as [|c t]; [reflexivity|].
  cbn [replace_from]. destruct (startswith old (c :: t)) eqn:E.
  - unfold old in E. cbn [startswith] in E. apply andb_true_iff in E.
    destruct E as [E _]. apply N.eqb_eq in E. subst c.
    unfold new. cbn [app startswith_ci]. now rewrite Hx.
  - cbn [startswith_ci]. now rewrite IH.
Qed.

Lemma startswith_ci_shared (z r : str) :
  startswith_ci (c0 :: q) ((c0 :: q ++ z) ++ r) = true.
Proof.
  rewrite <- app_comm_cons, <- app_assoc. apply (startswith_ci_self (c0 :: q)).
Qed.

(** A pattern that may end with the part the old and the new string
    share. *)
Lemma startswith_ci_replace_shared (p : str) :
  Forall (fun x => ci_match x c0 = false) p ->
  Forall (fun x => ci_match x c0 = false) q ->
  forall t, startswith_ci (p ++ c0 :: q) (replace_from old new 0 t)
            = startswith_ci (p ++ c0 :: q) t.
Proof.
  intros Hp Hq. induction Hp as [|x p Hx Hp IH]; intros t.
  - cbn [app]. destruct t as [|c t]; [reflexivity|].
    cbn [replace_from]. destruct (startswith old (c :: t)) eqn:E.
    + apply startswith_prefix in E. destruct E as [r Er]. rewrite Er.
      unfold old, new. now rewrite !startswith_ci_shared.
    + cbn [startswith_ci]. now rewrite (startswith_ci_replace Hq).
  - cbn [app]. destruct t as [|c t]; [reflexivity|].
    cbn [replace_from]. destruct (startswith old (c :: t)) eqn:E.
    + unfold old in E. cbn [startswith] in E. apply andb_true_iff in E.
      destruct E as [E _]. apply N.eqb_eq in E. subst c.
      unfold new. cbn [app startswith_ci]. now rewrite Hx.
    + cbn [startswith_ci]. now rewrite IH.
Qed.

End CanonicalFixed.

Section CanonicalIdempotent.

Import Py Re ScrapePosts.

Lemma Forall_false_of_forallb {A} (f : A -> bool) (l : list A) :
  forallb (fun x => negb (f x)) l = true -> Forall (fun x => f x = false) l.
Proof.
  rewrite forallb_forall, Forall_forall. intros H x Hx.
  apply negb_true_iff. now apply H.
Qed.

Lemma http_R (t : str) :
  startswith_ci (py "http://") (R2 (R1 t)) = startswith_ci (py "http://") t.
Proof.
  unfold R2, R1, replace.
  rewrite (@startswith_ci_replace_shared 58 (py "//") (py "facebook.") (py "www.facebook.")
             (py "http"));
    [|now apply Forall_false_of_forallb|now apply Forall_false_of_forallb].
  apply (@startswith_ci_replace_shared 58 (py "//") (py "m.facebook.") (py "www.facebook.")
           (py "http"));
    now apply Forall_false_of_forallb.
Qed.

Lemma slash_R (t : str) :
  startswith (py "/") (R2 (R1 t)) = startswith (py "/") t.
Proof.
  unfold R2, R1, replace.
  rewrite (@startswith_replace 58 (py "//facebook.") (py "//www.facebook.") (py "/"));
    [|now apply differs_of_forallb].
  apply (@startswith_replace 58 (py "//m.facebook.") (py "//www.facebook.") (py "/")).
  now apply differs_of_forallb.
Qed.

Lemma canon_core_prefix (u : str) : exists r, R2 (R1 u) = canon_core u ++ r.
Proof.
  unfold canon_core, cut. set (a := R2 (R1 u)).
  destruct (rstrip_by_prefix (N.eqb 47) (before 63 (before 35 a))) as [r1 E1].
  destruct (before_split 63 (before 35 a)) as [r2 E2].
  destruct (before_split 35 a) as [r3 E3].
  exists (r1 ++ r2 ++ r3). unfold rstrip_slash.
  rewrite app_assoc, <- E1, app_assoc, <- E2. exact E3.
Qed.

(** What [canonicalize_url] does before the host is rewritten. *)
Definition with_scheme (u : str) : str :=
  sub_http (if startswith (py "/") u then py "https://www.facebook.com" ++ u else u).

Lemma canonicalize_url_canon (u : str) :
  nospace u ->
  canonicalize_url u = if truthy u then canon_core (with_scheme u) else [].
Proof.
  intros H. unfold canonicalize_url. destruct (truthy u); [|reflexivity].
  cbn [negb]. now rewrite strip_none by exact H.
Qed.

Lemma nospace_with_scheme (u : str) : nospace u -> nospace (with_scheme u).
Proof.
  intros H. unfold with_scheme, sub_http.
  assert (Hw : nospace (if startswith (py "/") u
                        then py "https://www.facebook.com" ++ u else u)).
  { destruct (startswith (py "/") u); [|exact H].
    apply Forall_app. split; [now apply nospace_of_forallb|exact H]. }
  destruct (startswith_ci _ _); [|exact Hw].
  apply Forall_app. split; [now apply nospace_of_forallb|].
  unfold nospace in Hw. rewrite <- (firstn_skipn 7) in Hw.
  apply Forall_app in Hw. exact (proj2 Hw).
Qed.

Lemma with_scheme_head (u : str) :
  startswith (py "/") (with_scheme u) = false
  /\ startswith_ci (py "http://") (with_scheme u) = false.
Proof.
  unfold with_scheme.
  destruct (startswith (py "/") u) eqn:Es.
  - unfold sub_http.
    change (startswith_ci (py "http://") (py "https://www.facebook.com" ++ u)) with false.
    split; reflexivity.
  - unfold sub_http. destruct (startswith_ci (py "http://") u) eqn:Eh.
    + split; reflexivity.
    + now split.
Qed.

Lemma canonicalize_url_fixed (u : str) :
  nospace u -> canonicalize_url (canonicalize_url u) = canonicalize_url u.
Proof.
  intros H. rewrite (canonicalize_url_canon H).
  destruct (truthy u); [|reflexivity].
  set (v := with_scheme u). set (k := canon_core v).
  assert (Hk : nospace k) by now apply nospace_canon_core, nospace_with_scheme.
  rewrite (canonicalize_url_canon Hk). destruct (truthy k) eqn:Et; [|now destruct k].
  destruct (canon_core_prefix v) as [r Hr]. fold k in Hr.
  destruct (with_scheme_head u) as [H1 H2]. fold v in H1, H2.
  assert (E1 : startswith (py "/") k = false).
  { destruct (startswith (py "/") k) eqn:E; [|reflexivity].
    apply (startswith_app_l _ _ r) in E. rewrite <- Hr, slash_R in E. congruence. }
  assert (E2 : startswith_ci (py "http://") k = false).
  { destruct (startswith_ci (py "http://") k) eqn:E; [|reflexivity].
    apply (startswith_ci_app_l _ _ r) in E. rewrite <- Hr, http_R in E. congruence. }
  unfold with_scheme. rewrite E1. unfold sub_http. rewrite E2.
  apply canon_core_fixed.
Qed.

End CanonicalIdempotent.

(** X8.  On a link without whitespace, the crawler's
    [canonicalize_url] gives a fixed point: the canonical form of a
    canonical form is the same string, so a URL read back from the
    work-list or from the done-URLs file is recognised. *)
Theorem canonicalize_url_idempotent :
  forall u : Py.str,
    nospace u ->
    ScrapePosts.canonicalize_url (ScrapePosts.canonicalize_url u)
    = ScrapePosts.canonicalize_url u.
Proof. exact canonicalize_url_fixed. Qed.

Lemma canonicalize_url_idempotent_witness :
  nospace (py "/groups/1/posts/2/?ref=share")
  /\ ScrapePosts.canonicalize_url
       (ScrapePosts.canonicalize_url (py "/groups/1/posts/2/?ref=share"))
     = py "https://www.facebook.com/groups/1/posts/2".
Proof.
  assert (H : nospace (py "/groups/1/posts/2/?ref=share")) by now apply nospace_of_forallb.
  split; [exact H|].
  rewrite (canonicalize_url_idempotent H). vm_compute. reflexivity.
Defined.

(** ** Sets of URLs *)

Section Sets.

Import Py.

Lemma in_set_iff (x : str) (s : list str) : in_set x s = true <-> In x s.
Proof.
  unfold in_set. rewrite existsb_exists. split.
  - intros [y [Hy E]]. apply eqb_eq in E. now subst.
  - intros H. exists x. split; [exact H|apply eqb_refl].
Qed.

Lemma in_set_not (x : str) (s : list str) : in_set x s = false <-> ~ In x s.
Proof.
  rewrite <- in_set_iff. destruct (in_set x s); split; intros H; congruence.
Qed.

Lemma set_add_in (y x : str) (s : list str) : In y (set_add x s) <-> y = x \/ In y s.
Proof.
  unfold set_add. destruct (in_set x s) eqn:E.
  - apply in_set_iff in E. split; [now right|]. intros [->|H]; auto.
  - rewrite in_app_iff. cbn. intuition congruence.
Qed.

Lemma set_add_nodup (x : str) (s : list str) : NoDup s -> NoDup (set_add x s).
Proof.
  intros H. unfold set_add. destruct (in_set x s) eqn:E; [exact H|].
  apply in_set_not in E. apply NoDup_app; [exact H|constructor; [now intros []|constructor]|].
  intros y Hy [->|[]]. contradiction.
Qed.

Lemma fold_set_add_in {A} (f : A -> option str) (l : list A) :
  forall (s : list str) (y : str),
    In y (fold_left (fun s a => match f a with Some x => set_add x s | None => s end) l s)
    <-> In y s \/ exists a, In a l /\ f a = Some y.
Proof.
  induction l as [|a l IH]; intros s y; cbn [fold_left].
  - split; [now left|]. intros [H|[a [[] _]]]. exact H.
  - rewrite IH. split.
    + intros [H|[b [Hb Eb]]].
      * destruct (f a) as [x|] eqn:E; [|now left].
        apply set_add_in in H. destruct H as [->|H]; [|now left].
        right. exists a. split; [now left|exact E].
      * right. exists b. split; [now right|exact Eb].
    + intros [H|[b [[->|Hb] Eb]]].
      * left. destruct (f a); [apply set_add_in; now right|exact H].
      * left. rewrite Eb. apply set_add_in. now left.
      * right. now exists b.
Qed.

Lemma fold_set_add_nodup {A} (f : A -> option str) (l : list A) :
  forall s, NoDup s ->
    NoDup (fold_left (fun s a => match f a with Some x => set_add x s | None => s end) l s).
Proof.
  induction l as [|a l IH]; intros s H; cbn [fold_left]; [exact H|].
  apply IH. destruct (f a); [now apply set_add_nodup|exact H].
Qed.

Lemma set_union_in (x : str) (a b : list str) :
  In x (set_union a b) <-> In x a \/ In x b.
Proof.
  unfold set_union.
  rewrite (@fold_set_add_in str (fun u => Some u) b a x). split.
  - intros [H|[y [Hy E]]]; [now left|]. injection E as ->. now right.
  - intros [H|H]; [now left|]. right. now exists x.
Qed.

Lemma set_diff_in (x : str) (a b : list str) :
  In x (set_diff a b) <-> In x a /\ ~ In x b.
Proof.
  unfold set_diff. rewrite filter_In, negb_true_iff, in_set_not. tauto.
Qed.

Lemma set_diff_nodup (a b : list str) : NoDup a -> NoDup (set_diff a b).
Proof. apply NoDup_filter. Qed.

(** *** Order *)

Lemma str_ltb_irrefl (a : str) : str_ltb a a = false.
Proof.
  induction a as [|x a IH]; [reflexivity|].
  cbn [str_ltb]. now rewrite N.ltb_irrefl, N.eqb_refl, IH.
Qed.

Lemma str_ltb_total (a b : str) : str_ltb a b = false -> a <> b -> str_ltb b a = true.
Proof.
  revert b. induction a as [|x a IH]; intros [|y b]; cbn [str_ltb]; try easy.
  intros H Hne. apply orb_false_iff in H. destruct H as [H1 H2].
  apply N.ltb_ge in H1. destruct (N.eqb_spec x y) as [->|Hxy].
  - cbn [andb] in H2. rewrite N.ltb_irrefl, N.eqb_refl. cbn [orb andb].
    apply IH; [exact H2|congruence].
  - assert (y < x) by lia. apply orb_true_iff. left. now apply N.ltb_lt.
Qed.

Lemma str_ltb_trans (a b c : str) :
  str_ltb a b = true -> str_ltb b c = true -> str_ltb a c = true.
Proof.
  revert b c. induction a as [|x a IH]; intros [|y b] [|z c]; cbn [str_ltb]; try easy.
  intros H1 H2. apply orb_true_iff in H1, H2. apply orb_true_iff.
  destruct H1 as [H1|H1], H2 as [H2|H2].
  - left. apply N.ltb_lt in H1, H2. apply N.ltb_lt. lia.
  - apply andb_true_iff in H2. destruct H2 as [E _]. apply N.eqb_eq in E. subst. now left.
  - apply andb_true_iff in H1. destruct H1 as [E _]. apply N.eqb_eq in E. subst. now left.
  - apply andb_true_iff in H1, H2. destruct H1 as [E1 H1], H2 as [E2 H2].
    apply N.eqb_eq in E1, E2. subst. right. rewrite N.eqb_refl. cbn [andb].
    now apply (IH b c).
Qed.

(** Each element is below the next. *)
Fixpoint ascending (l : list str) : Prop :=
  match l with
  | a :: (b :: _) as t => str_ltb a b = true /\ ascending t
  | _ => True
  end.

Lemma insert_sorted_in (y x : str) (l : list str) :
  In y (insert_sorted x l) <-> y = x \/ In y l.
Proof.
  induction l as [|z l IH]; cbn [insert_sorted].
  - cbn. intuition congruence.
  - destruct (str_ltb z x); cbn [In]; [rewrite IH|]; intuition congruence.
Qed.

Lemma insert_sorted_length (x : str) (l : list str) :
  List.length (insert_sorted x l) = S (List.length l).
Proof.
  induction l as [|z l IH]; cbn [insert_sorted]; [reflexivity|].
  destruct (str_ltb z x); cbn [List.length]; [now rewrite IH|reflexivity].
Qed.

Lemma insert_sorted_nodup (x : str) (l : list str) :
  ~ In x l -> NoDup l -> NoDup (insert_sorted x l).
Proof.
  induction l as [|z l IH]; intros Hx Hl; cbn [insert_sorted].
  - constructor; [now intros []|constructor].
  - inversion Hl as [|? ? Hz Hl']; subst.
    destruct (str_ltb z x).
    + constructor.
      * rewrite insert_sorted_in. intros [->|H]; [apply Hx; now left|contradiction].
      * apply IH; [|exact Hl']. intros H. apply Hx. now right.
    + constructor; [exact Hx|exact Hl].
Qed.

Lemma insert_sorted_ascending (x : str) (l : list str) :
  ~ In x l -> ascending l -> ascending (insert_sorted x l).
Proof.
  induction l as [|z l IH]; intros Hx Hl; cbn [insert_sorted]; [exact I|].
  destruct (str_ltb z x) eqn:E.
  - assert (Hx' : ~ In x l) by (intros H; apply Hx; now right).
    assert (Hl' : ascending l) by (destruct l; [exact I|exact (proj2 Hl)]).
    specialize (IH Hx' Hl').
    destruct l as [|w l]; cbn [insert_sorted] in *.
    + now split.
    + destruct (str_ltb w x); (split; [|exact IH]); [exact (proj1 Hl)|exact E].
  - cbn [ascending]. split; [|exact Hl].
    apply str_ltb_total; [exact E|]. intros ->. apply Hx. now left.
Qed.

Lemma sorted_in (y : str) (l : list str) : In y (sorted l) <-> In y l.
Proof.
  induction l as [|x l IH]; [reflexivity|].
  cbn [sorted fold_right]. fold (sorted l). rewrite insert_sorted_in, IH. cbn. intuition.
Qed.

Lemma sorted_length (l : list str) : List.length (sorted l) = List.length l.
Proof.
  induction l as [|x l IH]; [reflexivity|].
  cbn [sorted fold_right]. fold (sorted l). now rewrite insert_sorted_length, IH.
Qed.

Lemma sorted_nodup (l : list str) : NoDup l -> NoDup (sorted l) /\ ascending (sorted l).
Proof.
  induction 1 as [|x l Hx Hl IH]; [split; [constructor|exact I]|].
  cbn [sorted fold_right]. fold (sorted l). destruct IH as [H1 H2].
  assert (Hx' : ~ In x (sorted l)) by now rewrite sorted_in.
  split; [now apply insert_sorted_nodup|now apply insert_sorted_ascending].
Qed.

End Sets.

(** ** The prefix of a snapshot that reaches the work-list *)

Section Collect.

Import Py ScrapePosts.

Definition one_per_row (us : list str) : list Csv.row := map (fun u => [u]) us.

(** What a budget of durable sub-steps lets through. *)
Definition within (cr : option nat) (us : list str) : list str :=
  match cr with
  | None => us
  | Some k => firstn k us
  end.

Lemma append_fs_nil p f : append_fs p [] f = f.
Proof. reflexivity. Qed.

Lemma append_fs_app p (a b : list Csv.row) f :
  append_fs p b (append_fs p a f) = append_fs p (a ++ b) f.
Proof.
  destruct a as [|r a]; [reflexivity|].
  destruct b as [|r' b]; [now rewrite app_nil_r|].
  unfold append_fs. cbn [app]. rewrite fget_set_same, fs_set_twice.
  cbn [rows_of]. now rewrite <- app_assoc.
Qed.

Lemma append_new_fs (us : list str) :
  forall seen n f o c t cr,
    fs (snd (append_new us seen n (mkWorld f o c t cr)))
    = append_fs OUT_CSV (one_per_row (within cr us)) f.
Proof.
  induction us as [|u us IH]; intros seen n f o c t cr; cbn [append_new].
  - destruct cr as [[|k]|]; reflexivity.
  - unfold bind. rewrite append_one_eq.
    destruct cr as [[|k]|]; cbn [spend within firstn].
    + reflexivity.
    + rewrite IH. cbn [within one_per_row map]. rewrite append_fs_app. reflexivity.
    + rewrite IH. cbn [within one_per_row map]. rewrite append_fs_app. reflexivity.
Qed.

Lemma append_new_ret (us : list str) :
  forall seen n f o c t,
    exists t',
      append_new us seen n (mkWorld f o c t None)
      = (Ret (fold_left (fun s u => set_add u s) us seen, n + N.of_nat (List.length us)),
         mkWorld (append_fs OUT_CSV (one_per_row us) f) o c t' None).
Proof.
  induction us as [|u us IH]; intros seen n f o c t; cbn [append_new].
  - exists t. unfold ret. cbn [fold_left List.length N.of_nat]. now rewrite N.add_0_r.
  - unfold bind. rewrite append_one_eq. cbn [spend].
    destruct (IH (set_add u seen) (n + 1) (append_fs OUT_CSV [[u]] f) o c
                 (t ++ synced_append OUT_CSV [[u]])) as [t' E].
    exists t'. rewrite E. cbn [fold_left one_per_row map List.length].
    rewrite append_fs_app. cbn [app]. do 3 f_equal. lia.
Qed.

(** The links of a snapshot that count. *)
Definition is_post_link (h : str) : bool := truthy h && Re.search POST_PATTERNS h.

Lemma discovered_in_spec (hrefs : list str) :
  NoDup (discovered_in hrefs)
  /\ forall u, In u (discovered_in hrefs)
               <-> exists h, In h hrefs /\ is_post_link h = true
                             /\ u = canonicalize_url (absolutize_href h).
Proof.
  unfold discovered_in.
  assert (E : forall l s,
             fold_left (fun s h => if truthy h && Re.search POST_PATTERNS h
                                   then set_add (canonicalize_url (absolutize_href h)) s
                                   else s) l s
             = fold_left (fun s h => match (if is_post_link h
                                            then Some (canonicalize_url (absolutize_href h))
                                            else None) with
                                     | Some x => set_add x s
                                     | None => s
                                     end) l s).
  { induction l as [|h l IH]; intros s; [reflexivity|]. cbn [fold_left].
    rewrite IH. unfold is_post_link. now destruct (truthy h && _). }
  rewrite E. split.
  - apply fold_set_add_nodup. constructor.
  - intros u. rewrite fold_set_add_in. split.
    + intros [[]|[h [Hh Eh]]]. exists h. split; [exact Hh|].
      destruct (is_post_link h); [|discriminate]. injection Eh as <-. now split.
    + intros [h [Hh [Hp ->]]]. right. exists h. split; [exact Hh|]. now rewrite Hp.
Qed.

End Collect.

(** X9.  One call of [collect_now]: the URLs it is to append are
    those discovered in the snapshot and not in [seen], each once, in
    ascending order, each the canonical form of a post link of the snapshot.
    The work-list receives them one per row, after what it held, as far as
    the process gets, and no other file changes.  When the call returns, it
    returns their number, [newly_added] has grown by it, and [seen] holds
    them too. *)
Theorem collect_now_appends :
  forall (target_new : N) (hrefs seen : list Py.str) (newly_added : N) (w : World),
    let delta := Py.sorted (Py.set_diff (ScrapePosts.discovered_in hrefs) seen) in
    let res := ScrapePosts.collect_now target_new hrefs seen newly_added w in
    NoDup delta /\ ascending delta
    /\ (forall u, In u delta ->
          ~ In u seen
          /\ exists h, In h hrefs /\ is_post_link h = true
                       /\ u = ScrapePosts.canonicalize_url (ScrapePosts.absolutize_href h))
    /\ fs (snd res) = append_fs OUT_CSV (one_per_row (within (crash w) delta)) (fs w)
    /\ (crash w = None ->
        exists seen',
          fst res = Ret (N.of_nat (List.length delta),
                         (seen', newly_added + N.of_nat (List.length delta)))
          /\ forall u, In u seen' <-> In u seen \/ In u delta).
Proof.
  intros target_new hrefs seen n w delta res.
  destruct (discovered_in_spec hrefs) as [Hn Hd].
  assert (Hdn : NoDup (Py.set_diff (ScrapePosts.discovered_in hrefs) seen))
    by now apply set_diff_nodup.
  destruct (sorted_nodup Hdn) as [H1 H2]. fold delta in H1, H2.
  split; [exact H1|]. split; [exact H2|]. split.
  { intros u Hu. unfold delta in Hu. rewrite sorted_in, set_diff_in in Hu.
    destruct Hu as [Hu Hs]. split; [exact Hs|]. now apply Hd. }
  assert (El : List.length delta
               = List.length (Py.set_diff (ScrapePosts.discovered_in hrefs) seen))
    by apply sorted_length.
  subst res. unfold ScrapePosts.collect_now. cbv zeta. destruct w as [f o c t cr].
  cbn [fs crash].
  destruct (Py.set_diff (ScrapePosts.discovered_in hrefs) seen) as [|d ds] eqn:Ed.
  - cbn [Py.is_empty negb]. unfold ret. cbn [fst snd fs].
    assert (E0 : delta = []) by reflexivity. rewrite E0.
    split; [now destruct cr as [[|k]|]|].
    intros _. exists seen. split; [cbn [List.length N.of_nat]; now rewrite N.add_0_r|].
    intros u. cbn. tauto.
  - cbn [Py.is_empty negb]. fold delta. rewrite <- El. split.
    + unfold bind. pose proof (append_new_fs delta seen n f o c t cr) as Hf.
      destruct (ScrapePosts.append_new delta seen n (mkWorld f o c t cr))
        as [[st| |] w1]; cbn [snd] in *; exact Hf.
    + intros ->. destruct (append_new_ret delta seen n f o c t) as [t' E].
      unfold bind. rewrite E. cbn [fst snd print ret stdout fs calls trace crash].
      eexists. split; [reflexivity|].
      intros u.
      rewrite (@fold_set_add_in Py.str (fun x => Some x) delta seen u). split.
      * intros [H|[y [Hy Ey]]]; [now left|]. injection Ey as ->. now right.
      * intros [H|H]; [now left|]. right. now exists u.
Qed.

Lemma collect_now_appends_witness :
  crash pending_world = None
  /\ Py.sorted (Py.set_diff (ScrapePosts.discovered_in snapshot_links) [post_2])
     = [permalink_4; post_3]
  /\ fs (snd (ScrapePosts.collect_now 0 snapshot_links [post_2] 0 pending_world)) OUT_CSV
     = Some [[py "url"]; [post_2]; [permalink_2]; [permalink_4]; [post_3]]
  /\ exists seen',
       fst (ScrapePosts.collect_now 0 snapshot_links [post_2] 0 pending_world)
       = Ret (2, (seen', 2)).
Proof.
  assert (H : crash pending_world = None) by reflexivity.
  assert (E : Py.sorted (Py.set_diff (ScrapePosts.discovered_in snapshot_links) [post_2])
              = [permalink_4; post_3]) by (vm_compute; reflexivity).
  split; [exact H|]. split; [exact E|].
  pose proof (collect_now_appends 0 snapshot_links [post_2] 0 pending_world) as R.
  cbv zeta in R. destruct R as [_ [_ [_ [Hf Hr]]]].
  split.
  - rewrite Hf, E. vm_compute. reflexivity.
  - destruct (Hr H) as [seen' [Hs _]]. exists seen'.
    rewrite Hs, E. reflexivity.
Defined.

Section Resume.

Import Py ScrapePosts.

Lemma append_new_returns (us : list str) :
  forall seen n w st w1,
    append_new us seen n w = (Ret st, w1) ->
    fst st = fold_left (fun s u => set_add u s) us seen.
Proof.
  induction us as [|u us IH]; intros seen n w st w1; cbn [append_new].
  - unfold ret. intros E. injection E as <- _. reflexivity.
  - unfold bind. destruct (append_one OUT_CSV u w) as [[[]| |] w']; try discriminate.
    intros E. cbn [fold_left]. exact (IH _ _ _ _ _ E).
Qed.

Lemma collect_now_seen target hrefs seen n w a seen1 n1 w1 :
  collect_now target hrefs seen n w = (Ret (a, (seen1, n1)), w1) ->
  forall u, In u (discovered_in hrefs) -> In u seen1.
Proof.
  unfold collect_now. cbv zeta.
  destruct (is_empty (set_diff (discovered_in hrefs) seen)) eqn:Ee; cbn [negb].
  - unfold ret. intros E u Hu. injection E as _ <- _ _.
    destruct (in_set u seen) eqn:Es; [now apply in_set_iff|].
    assert (H : In u (set_diff (discovered_in hrefs) seen)).
    { apply set_diff_in. split; [exact Hu|now apply in_set_not]. }
    destruct (set_diff (discovered_in hrefs) seen); [destruct H|discriminate].
  - unfold bind.
    destruct (append_new _ seen n w) as [[st| |] w'] eqn:Ea; try discriminate.
    unfold print, ret. intros E u Hu. injection E as _ E _.
    apply append_new_returns in Ea. rewrite E in Ea. cbn [fst] in Ea. subst seen1.
    apply (@fold_set_add_in str (fun x => Some x)).
    destruct (in_set u seen) eqn:Es; [left; now apply in_set_iff|].
    right. exists u. split; [|reflexivity].
    apply sorted_in, set_diff_in. split; [exact Hu|now apply in_set_not].
Qed.

Lemma collect_now_nothing target hrefs seen n w :
  (forall u, In u (discovered_in hrefs) -> In u seen) ->
  collect_now target hrefs seen n w = (Ret (0, (seen, n)), w).
Proof.
  intros H. unfold collect_now. cbv zeta.
  assert (E : set_diff (discovered_in hrefs) seen = []).
  { unfold set_diff. apply filter_empty. intros u Hu.
    apply negb_false_iff, in_set_iff. now apply H. }
  rewrite E. reflexivity.
Qed.

(** The file system after [ensure_csv_header]. *)
Definition header_fs (p : path) (h : str) (f : FS) : FS :=
  if missing_or_empty (f p) then fs_set p (Some [[h]]) f else f.

Definition header_ops (p : path) (h : str) (f : FS) : list io :=
  if missing_or_empty (f p) then [IoOpen p false; IoWrite p [[h]]; IoClose p] else [].

Lemma ensure_csv_header_eq p h f o c t :
  ensure_csv_header p h (mkWorld f o c t None)
  = (Ret tt, mkWorld (header_fs p h f) o c (t ++ header_ops p h f) None).
Proof.
  unfold header_fs, header_ops.
  cbv beta iota zeta delta [ensure_csv_header bind read_file fs].
  destruct (missing_or_empty (fget f p)) eqn:E; [|now rewrite app_nil_r].
  cbv beta iota zeta delta
    [bind substep read_file open_w write_rows close emit put_file ret
     crash fs stdout calls trace].
  rewrite fget_set_same, fs_set_twice, <- !app_assoc. reflexivity.
Qed.

(** [load_existing_urls], on what the path holds. *)
Definition urls_of (x : Csv.file) : list str :=
  if missing_or_empty x then []
  else urls_of_rows (match x with Some rows => rows | None => [] end).

Lemma load_existing_urls_eq p w : load_existing_urls p w = (Ret (urls_of (fs w p)), w).
Proof.
  unfold load_existing_urls, urls_of, bind, read_file.
  destruct (missing_or_empty (fget (fs w) p)); reflexivity.
Qed.

Lemma urls_of_header_only (h : str) : urls_of (Some [[h]]) = [].
Proof.
  unfold urls_of, urls_of_rows. cbn [missing_or_empty is_empty Csv.fieldnames].
  destruct (detect_url_col [h]); reflexivity.
Qed.

Lemma urls_of_empty (x : Csv.file) : missing_or_empty x = true -> urls_of x = [].
Proof. intros H. unfold urls_of. now rewrite H. Qed.

Lemma urls_of_header_fs (p : path) (h : str) (f : FS) (q : path) :
  urls_of (header_fs p h f q) = urls_of (f q).
Proof.
  unfold header_fs. destruct (missing_or_empty (f p)) eqn:E; [|reflexivity].
  destruct p, q; cbn [fs_set fget csv_accepted csv_nonadmin csv_rejected csv_log
                      done_file out_csv] in *;
    try reflexivity; now rewrite urls_of_header_only, urls_of_empty.
Qed.

(** The cell of a record from which [load_existing_urls] takes a URL. *)
Definition url_cell (hdr : list str) (col : str) (row : Csv.row) : str :=
  strip (or_empty (Csv.get col (Csv.record hdr row))).

Lemma urls_of_rows_in (hdr : list str) (body : list Csv.row) (col : str) (row : Csv.row) :
  hdr <> [] -> detect_url_col hdr = Some col ->
  In row body -> row <> [] -> url_cell hdr col row <> [] ->
  In (canonicalize_url (url_cell hdr col row)) (urls_of (Some (hdr :: body))).
Proof.
  intros Hh Hc Hr Hn Hu. unfold urls_of. cbn [missing_or_empty is_empty].
  unfold urls_of_rows. cbn [Csv.fieldnames].
  destruct hdr as [|fn fns]; [congruence|]. rewrite Hc.
  assert (E : forall l s,
             fold_left (fun urls d =>
                          let raw := strip (or_empty (Csv.get col d)) in
                          if truthy raw then set_add (canonicalize_url raw) urls else urls)
                       l s
             = fold_left (fun s d =>
                            match (if truthy (strip (or_empty (Csv.get col d)))
                                   then Some (canonicalize_url
                                                (strip (or_empty (Csv.get col d))))
                                   else None) with
                            | Some x => set_add x s
                            | None => s
                            end) l s).
  { induction l as [|d l IH]; intros s; [reflexivity|]. cbn [fold_left].
    rewrite IH. now destruct (truthy _). }
  rewrite E. apply fold_set_add_in. right.
  exists (Csv.record (fn :: fns) row). split.
  - unfold Csv.dictreader. apply in_map, filter_In. split; [exact Hr|].
    now destruct row.
  - fold (url_cell (fn :: fns) col row).
    destruct (url_cell (fn :: fns) col row); [congruence|reflexivity].
Qed.

Lemma resume_seen_eq raw (f : FS) o c t :
  exists o' t',
    resume_seen raw (mkWorld f o c t None)
    = (Ret (set_union (set_union (urls_of (f OUT_CSV)) (urls_of (f DONE_FILE)))
                      (discovered_in raw)),
       mkWorld (header_fs DONE_FILE (py "url") (header_fs OUT_CSV (py "post_url") f))
               o' c t' None).
Proof.
  unfold resume_seen. cbv zeta.
  unfold bind at 1. unfold print at 1. cbn [fs stdout calls trace crash].
  unfold bind at 1. rewrite ensure_csv_header_eq.
  unfold bind at 1. rewrite ensure_csv_header_eq.
  unfold bind at 1. rewrite load_existing_urls_eq.
  unfold bind at 1. rewrite load_existing_urls_eq. cbn [fs].
  rewrite !urls_of_header_fs.
  unfold bind, print, ret. cbn [fs stdout calls trace crash].
  eexists. eexists. reflexivity.
Qed.

End Resume.

(** X10.  A snapshot taken again brings nothing: after a call of
    [collect_now] that returned, a second call on the same links, with
    [seen] and [newly_added] as the first left them, returns 0, appends no
    row and prints nothing. *)
Theorem collect_now_again :
  forall (target_new : N) (hrefs seen seen1 : list Py.str) (n n1 a : N) (w w1 : World),
    ScrapePosts.collect_now target_new hrefs seen n w = (Ret (a, (seen1, n1)), w1) ->
    ScrapePosts.collect_now target_new hrefs seen1 n1 w1 = (Ret (0, (seen1, n1)), w1).
Proof.
  intros target_new hrefs seen seen1 n n1 a w w1 E.
  apply collect_now_nothing. exact (collect_now_seen _ _ _ _ _ E).
Qed.

Lemma collect_now_again_witness :
  let w1 := snd (ScrapePosts.collect_now 0 snapshot_links [post_2] 0 pending_world) in
  ScrapePosts.collect_now 0 snapshot_links [post_2] 0 pending_world
  = (Ret (2, ([post_2; permalink_4; post_3], 2)), w1)
  /\ ScrapePosts.collect_now 0 snapshot_links [post_2; permalink_4; post_3] 2 w1
     = (Ret (0, ([post_2; permalink_4; post_3], 2)), w1).
Proof.
  cbv zeta.
  assert (E : ScrapePosts.collect_now 0 snapshot_links [post_2] 0 pending_world
              = (Ret (2, ([post_2; permalink_4; post_3], 2)),
                 snd (ScrapePosts.collect_now 0 snapshot_links [post_2] 0 pending_world)))
    by (vm_compute; reflexivity).
  split; [exact E|].
  exact (@collect_now_again 0 snapshot_links [post_2] _ 0 _ _ pending_world _ E).
Defined.

(** X11.  A crawl that starts from the two files: [seen] is made of
    the canonical URLs of the work-list, of the done-URLs file and of the
    baseline snapshot, and the first snapshot can only append URLs that are
    none of these.  So the canonical form of no URL cell of either file, and
    no URL visible after the warm-up, is appended. *)
Theorem crawler_skips_known_urls :
  forall (raw_baseline hrefs : list Py.str) (target_new : N) (w : World),
    crash w = None ->
    exists seen w1,
      ScrapePosts.resume_seen raw_baseline w = (Ret seen, w1)
      /\ crash w1 = None
      /\ let delta := Py.sorted (Py.set_diff (ScrapePosts.discovered_in hrefs) seen) in
         fs (snd (ScrapePosts.collect_now target_new hrefs seen 0 w1))
         = append_fs OUT_CSV (one_per_row delta) (fs w1)
         /\ forall u, In u delta ->
              ~ In u (ScrapePosts.discovered_in raw_baseline)
              /\ forall p hdr body col row,
                   p = OUT_CSV \/ p = DONE_FILE ->
                   fs w p = Some (hdr :: body) -> hdr <> [] ->
                   ScrapePosts.detect_url_col hdr = Some col ->
                   In row body -> row <> [] -> url_cell hdr col row <> [] ->
                   ScrapePosts.canonicalize_url (url_cell hdr col row) <> u.
Proof.
  intros raw hrefs target [f o c t cr] Hc. cbn [crash] in Hc. subst cr.
  destruct (resume_seen_eq raw f o c t) as [o' [t' E]].
  eexists. eexists. split; [exact E|]. split; [reflexivity|].
  cbv zeta. cbn [fs]. split.
  - unfold ScrapePosts.collect_now. cbv zeta.
    destruct (Py.is_empty (Py.set_diff (ScrapePosts.discovered_in hrefs) _)) eqn:Ee;
      cbn [negb].
    + destruct (Py.set_diff (ScrapePosts.discovered_in hrefs) _); [reflexivity|discriminate].
    + unfold bind.
      match goal with |- context [ScrapePosts.append_new ?us ?s ?n ?w] =>
        pose proof (append_new_fs us s n
                      (header_fs DONE_FILE (py "url") (header_fs OUT_CSV (py "post_url") f))
                      o' c t' None) as Hf;
        destruct (ScrapePosts.append_new us s n w) as [[st| |] w2]
      end; cbn [snd within] in *; exact Hf.
  - intros u Hu. apply sorted_in, set_diff_in in Hu. destruct Hu as [_ Hs].
    split.
    + intros H. apply Hs, set_union_in. now right.
    + intros p hdr body col row Hp Ef Hh Hd Hr Hn Hcell Eu. apply Hs.
      apply set_union_in. left. apply set_union_in. rewrite <- Eu.
      destruct Hp as [->| ->]; [left|right]; cbn [fs] in Ef; rewrite Ef;
        now apply urls_of_rows_in.
Qed.

Lemma crawler_skips_known_urls_witness :
  crash pending_world = None
  /\ exists seen w1,
       ScrapePosts.resume_seen [py "/groups/1/posts/3"] pending_world = (Ret seen, w1)
       /\ fs (snd (ScrapePosts.collect_now 0 snapshot_links seen 0 w1)) OUT_CSV
          = Some [[py "url"]; [post_2]; [permalink_2]; [permalink_4]].
Proof.
  assert (H : crash pending_world = None) by reflexivity.
  split; [exact H|].
  destruct (@crawler_skips_known_urls [py "/groups/1/posts/3"] snapshot_links 0 pending_world H)
    as [seen [w1 [E [_ R]]]].
  exists seen, w1. split; [exact E|].
  cbv zeta in R. destruct R as [Hf _]. rewrite Hf.
  vm_compute in E. injection E as <- <-.
  vm_compute. reflexivity.
Defined.

(** ** Comments *)

Section Comments.

Import Py FilterPosts.

Definition tagged (c : Comment) : bool := has_admin_tag (Some (text c)).

Lemma find_first {A} (p : A -> bool) (l : list A) (x : A) :
  find p l = Some x ->
  exists pre post, l = pre ++ x :: post /\ Forall (fun y => p y = false) pre /\ p x = true.
Proof.
  induction l as [|a l IH]; cbn [find]; [discriminate|].
  destruct (p a) eqn:E.
  - intros [= ->]. exists [], l. repeat split; [constructor|exact E].
  - intros H. destruct (IH H) as [pre [post [-> [H1 H2]]]].
    exists (a :: pre), post. repeat split; [constructor; assumption|exact H2].
Qed.

Lemma find_none_all {A} (p : A -> bool) (l : list A) :
  find p l = None -> Forall (fun y => p y = false) l.
Proof.
  intros H. apply Forall_forall. intros x Hx. exact (find_none p l H x Hx).
Qed.

(** The key by which the rows of a saved post are told apart. *)
Definition said (c : Comment) : str * str :=
  (oneline (Some (commenter c)), oneline (Some (text c))).

Definition said_in (r : Csv.row) : str * str := (nth 4 r [], nth 5 r []).

Lemma seen_iff (a b : str) (seen : list (str * str)) :
  existsb (fun p => eqb (fst p) a && eqb (snd p) b) seen = true <-> In (a, b) seen.
Proof.
  rewrite existsb_exists. split.
  - intros [[x y] [H E]]. cbn in E. apply andb_true_iff in E. destruct E as [E1 E2].
    apply eqb_eq in E1, E2. now subst.
  - intros H. exists (a, b). split; [exact H|]. cbn. now rewrite !eqb_refl.
Qed.

Lemma placeholder_rows_spec (cs : list Comment) :
  forall seen,
    let rows := placeholder_rows seen cs in
    NoDup (map said_in rows)
    /\ (forall r, In r rows ->
          ~ In (said_in r) seen
          /\ exists c, In c cs
                       /\ r = [DASH; DASH; DASH; DASH;
                               oneline (Some (commenter c)); oneline (Some (text c))])
    /\ (forall c, In c cs -> In (said c) seen \/ In (said c) (map said_in rows)).
Proof.
  induction cs as [|c cs IH]; intros seen; cbn [placeholder_rows].
  - cbv zeta. split; [constructor|]. split; [intros r []|intros c []].
  - cbv zeta.
    destruct (existsb _ seen) eqn:E.
    + apply seen_iff in E. destruct (IH seen) as [H1 [H2 H3]].
      split; [exact H1|]. split.
      * intros r Hr. destruct (H2 r Hr) as [Ha [c' [Hc' Er]]].
        split; [exact Ha|]. exists c'. split; [now right|exact Er].
      * intros c' [<-|Hc']; [now left|now apply H3].
    + assert (Hn : ~ In (said c) seen).
      { intros H. apply seen_iff in H. unfold said in H. cbn [fst snd] in *. congruence. }
      destruct (IH (said c :: seen)) as [H1 [H2 H3]]. fold (said c).
      split; [|split].
      * cbn [map]. constructor; [|exact H1].
        change (said_in [DASH; DASH; DASH; DASH; oneline (Some (commenter c));
                         oneline (Some (text c))]) with (said c).
        intros H. apply in_map_iff in H. destruct H as [r [Er Hr]].
        destruct (H2 r Hr) as [Ha _]. apply Ha. rewrite Er. now left.
      * intros r [<-|Hr].
        -- split; [exact Hn|]. exists c. split; [now left|reflexivity].
        -- destruct (H2 r Hr) as [Ha [c' [Hc' Er]]]. split.
           ++ intros H. apply Ha. now right.
           ++ exists c'. split; [now right|exact Er].
      * intros c' [<-|Hc'].
        -- right. now left.
        -- destruct (H3 c' Hc') as [[H|H]|H].
           ++ right. left. exact H.
           ++ now left.
           ++ right. now right.
Qed.

(** The sans-serif italic letter for an ASCII letter. *)
Definition stylise (c : char) : char :=
  if (65 <=? c) && (c <=? 90) then 0x1D608 + (c - 65)
  else if (97 <=? c) && (c <=? 122) then 0x1D622 + (c - 97)
  else c.

Lemma table_get_stylise (c : char) :
  plain c ->
  match table_get (stylise c) _SANSTRANS with Some a => a | None => stylise c end = c.
Proof.
  intros Hp. unfold stylise.
  assert (Hup : forall i, (i < 26)%nat ->
                table_get (0x1D608 + N.of_nat i) _SANSTRANS = Some (65 + N.of_nat i)).
  { intros i Hi. do 26 (destruct i as [|i]; [reflexivity|]). lia. }
  assert (Hlo : forall i, (i < 26)%nat ->
                table_get (0x1D622 + N.of_nat i) _SANSTRANS = Some (97 + N.of_nat i)).
  { intros i Hi. do 26 (destruct i as [|i]; [reflexivity|]). lia. }
  destruct ((65 <=? c) && (c <=? 90)) eqn:E1.
  - apply andb_true_iff in E1. destruct E1 as [A B].
    apply N.leb_le in A, B.
    replace (c - 65) with (N.of_nat (N.to_nat (c - 65))) by apply N2Nat.id.
    rewrite Hup by lia. rewrite N2Nat.id. lia.
  - destruct ((97 <=? c) && (c <=? 122)) eqn:E2.
    + apply andb_true_iff in E2. destruct E2 as [A B].
      apply N.leb_le in A, B.
      replace (c - 97) with (N.of_nat (N.to_nat (c - 97))) by apply N2Nat.id.
      rewrite Hlo by lia. rewrite N2Nat.id. lia.
    + unfold plain in Hp. now rewrite Hp.
Qed.

Lemma translate_stylise (s : str) :
  Forall plain s -> translate _SANSTRANS (map stylise s) = s.
Proof.
  unfold translate. induction 1 as [|c s Hc Hs IH]; cbn [map]; [reflexivity|].
  now rewrite (table_get_stylise Hc), IH.
Qed.

Lemma oneline_stylise (s : str) :
  Forall plain s -> oneline (@Some str (map stylise s)) = oneline (Some s).
Proof.
  intros H. unfold oneline, normalize_fancy_letters.
  destruct s as [|c s]; [reflexivity|].
  cbn [map truthy negb]. change (stylise c :: map stylise s) with (map stylise (c :: s)).
  rewrite (translate_stylise H), (translate_fixed H). reflexivity.
Qed.

Lemma text_matches_targets_stylise (s : str) :
  Forall plain s ->
  text_matches_targets (Some (map stylise s)) = text_matches_targets (Some s).
Proof.
  intros H. unfold text_matches_targets. cbv zeta.
  rewrite (oneline_stylise H). now destruct s.
Qed.

Lemma normalize_fancy_letters_stylise (s : str) :
  Forall plain s -> normalize_fancy_letters (map stylise s) = s.
Proof.
  intros H. unfold normalize_fancy_letters.
  destruct s as [|c s]; [reflexivity|]. cbn [map truthy negb].
  exact (translate_stylise H).
Qed.

Lemma no_target_in_nothing :
  existsb (fun pat => Re.search pat []) TARGET_PATTERNS = false.
Proof. reflexivity. Qed.

Lemma text_matches_targets_oneline (t : option str) :
  text_matches_targets (Some (oneline t)) = text_matches_targets t.
Proof.
  assert (E : forall s, text_matches_targets (Some s)
                        = existsb (fun pat => Re.search pat (oneline (Some s)))
                                  TARGET_PATTERNS).
  { intros s. unfold text_matches_targets. destruct s as [|c s]; [|reflexivity].
    cbn [truthy negb]. symmetry. exact no_target_in_nothing. }
  rewrite E, (oneline_fixed (oneline_normal t)).
  destruct t as [s|]; [now rewrite E|].
  cbn [oneline text_matches_targets]. exact no_target_in_nothing.
Qed.

End Comments.

(** X12.  [choose_one_comment_pref_admin_tag] answers [None] for the
    empty list only; otherwise it answers a comment of the list: the first
    one whose text carries [#admin], or the first comment when none does. *)
Theorem choose_one_comment_pref_admin_tag_spec :
  forall cs : list FilterPosts.Comment,
    match FilterPosts.choose_one_comment_pref_admin_tag cs with
    | None => cs = []
    | Some c =>
        exists pre post,
          cs = pre ++ c :: post
          /\ Forall (fun x => tagged x = false) pre
          /\ (tagged c = true \/ (pre = [] /\ Forall (fun x => tagged x = false) post))
    end.
Proof.
  intros cs. unfold FilterPosts.choose_one_comment_pref_admin_tag.
  destruct cs as [|c0 cs]; [reflexivity|].
  destruct (find _ (c0 :: cs)) as [c|] eqn:E.
  - destruct (find_first _ _ E) as [pre [post [E1 [H1 H2]]]].
    exists pre, post. split; [exact E1|]. split; [exact H1|]. now left.
  - apply find_none_all in E. inversion E as [|? ? H0 Hs]; subst.
    exists [], cs. split; [reflexivity|]. split; [constructor|]. right. now split.
Qed.

(** X13.  The verdict can be taken again from what the ledgers
    store: the text of a comment is written as [oneline] gives it, and
    [text_matches_targets] answers on the stored text what it answered on
    the text. *)
Theorem text_matches_targets_on_stored_text :
  forall t : option Py.str,
    FilterPosts.text_matches_targets (Some (FilterPosts.oneline t))
    = FilterPosts.text_matches_targets t.
Proof. exact text_matches_targets_oneline. Qed.

(** X14.  A text written in the sans-serif italic letters is read as
    the same text in ASCII letters: for a text without such letters,
    [normalize_fancy_letters] undoes the styling, and [oneline] and
    [text_matches_targets] answer on the styled text what they answer on
    the plain one. *)
Theorem styled_text_is_read_plain :
  forall s : Py.str,
    Forall plain s ->
    FilterPosts.normalize_fancy_letters (map stylise s) = s
    /\ FilterPosts.oneline (Some (map stylise s)) = FilterPosts.oneline (Some s)
    /\ FilterPosts.text_matches_targets (Some (map stylise s))
       = FilterPosts.text_matches_targets (Some s).
Proof.
  intros s H. split; [|split].
  - exact (normalize_fancy_letters_stylise H).
  - exact (oneline_stylise H).
  - exact (text_matches_targets_stylise H).
Qed.

Lemma styled_text_is_read_plain_witness :
  Forall plain (py "King Cobra")
  /\ map stylise (py "King Cobra")
     = [0x1D612; 0x1D62A; 0x1D62F; 0x1D628; 32; 0x1D60A; 0x1D630; 0x1D623; 0x1D633; 0x1D622]
  /\ FilterPosts.text_matches_targets (Some (map stylise (py "King Cobra"))) = true.
Proof.
  assert (H : Forall plain (py "King Cobra")) by (repeat constructor).
  split; [exact H|]. split; [reflexivity|].
  rewrite (proj2 (proj2 (styled_text_is_read_plain H))). reflexivity.
Defined.

(** X15.  The rows written for a saved post: the first carries
    the URL and the post, each following row has [-] in the four post
    columns, no two rows have the same commenter and comment text, and every
    comment that names a target is in one of them. *)
Theorem saved_rows_are_distinct :
  forall (K date poster post_text : Py.str) (first : FilterPosts.Comment)
         (others : list FilterPosts.Comment),
    let row0 := [K; date; poster; post_text;
                 FilterPosts.oneline (Some (FilterPosts.commenter first));
                 FilterPosts.oneline (Some (FilterPosts.text first))] in
    let more := FilterPosts.placeholder_rows [said first] others in
    NoDup (map said_in (row0 :: more))
    /\ (forall c, In c (first :: others) -> In (said c) (map said_in (row0 :: more)))
    /\ (forall r, In r more ->
          exists c, In c others
                    /\ r = [FilterPosts.DASH; FilterPosts.DASH; FilterPosts.DASH;
                            FilterPosts.DASH;
                            FilterPosts.oneline (Some (FilterPosts.commenter c));
                            FilterPosts.oneline (Some (FilterPosts.text c))]).
Proof.
  intros K date poster post_text first others row0 more.
  destruct (placeholder_rows_spec others [said first]) as [H1 [H2 H3]].
  fold more in H1, H2, H3. split; [|split].
  - cbn [map]. constructor; [|exact H1].
    change (said_in row0) with (said first). intros H.
    apply in_map_iff in H. destruct H as [r [Er Hr]].
    destruct (H2 r Hr) as [Ha _]. apply Ha. rewrite Er. now left.
  - intros c [<-|Hc]; [now left|].
    destruct (H3 c Hc) as [[H|[]]|H]; [left; exact H|now right].
  - intros r Hr. exact (proj2 (H2 r Hr)).
Qed.

(** ** What a run of the classifier leaves behind *)

Section AppendOnly.

Import Py FilterPosts.

(** The second file holds the records of the first, and maybe more after
    them. *)
Definition extends (x y : Csv.file) : Prop :=
  match x with
  | None => True
  | Some rows => exists more, y = Some (rows ++ more)
  end.

Lemma extends_refl (x : Csv.file) : extends x x.
Proof. destruct x as [rows|]; [|exact I]. exists []. now rewrite app_nil_r. Qed.

Lemma extends_trans (x y z : Csv.file) : extends x y -> extends y z -> extends x z.
Proof.
  destruct x as [rows|]; [|now intros]. intros [m1 ->] [m2 ->].
  exists (m1 ++ m2). now rewrite app_assoc.
Qed.

Definition grows {A} (m : M A) : Prop :=
  forall w p, extends (fs w p) (fs (snd (m w)) p).

Lemma grows_bind {A B} (m : M A) (k : A -> M B) :
  grows m -> (forall a, grows (k a)) -> grows (bind m k).
Proof.
  intros Hm Hk w p. unfold bind. specialize (Hm w p).
  destruct (m w) as [[a| |] w1]; cbn [snd] in *; try exact Hm.
  exact (extends_trans _ _ _ Hm (Hk a w1 p)).
Qed.

Lemma grows_pure {A} (m : M A) : (forall w, fs (snd (m w)) = fs w) -> grows m.
Proof. intros H w p. rewrite H. apply extends_refl. Qed.

Lemma extends_ensure_fs p h (f : FS) q : extends (f q) (ensure_fs p h f q).
Proof.
  unfold ensure_fs. destruct (f p) eqn:E; [apply extends_refl|].
  destruct (f q) as [rows|] eqn:Eq; [|exact I].
  assert (p <> q) by (intros ->; congruence).
  rewrite fget_set_other by assumption. rewrite Eq. apply extends_refl.
Qed.

Lemma extends_append_fs p rows (f : FS) q : extends (f q) (append_fs p rows f q).
Proof.
  unfold append_fs. destruct rows as [|r rows]; [apply extends_refl|].
  destruct (f q) as [old|] eqn:Eq; [|exact I].
  assert (D : p = q \/ p <> q) by (destruct p, q; auto; right; discriminate).
  destruct D as [->|D].
  - rewrite fget_set_same, Eq. cbn [rows_of]. now exists (r :: rows).
  - rewrite fget_set_other by assumption. rewrite Eq. apply extends_refl.
Qed.

Lemma grows_ensure p h : grows (ensure_csv_with_header p h).
Proof.
  intros [f o c t cr] q. rewrite ensure_csv_with_header_eq.
  destruct (spend cr); cbn [snd fs]; [apply extends_ensure_fs|apply extends_refl].
Qed.

Lemma grows_append_rows p rows : grows (append_rows p rows).
Proof.
  intros [f o c t cr] q. rewrite append_rows_eq.
  destruct rows as [|r rows]; [apply extends_refl|].
  destruct (spend cr); cbn [snd fs]; [apply extends_append_fs|apply extends_refl].
Qed.

Lemma grows_log_outcome u n s : grows (log_outcome u n s).
Proof.
  unfold log_outcome. apply grows_bind; [apply grows_ensure|].
  intros _. apply grows_append_rows.
Qed.

Lemma grows_url_in_csv p u : grows (url_in_csv p u).
Proof. apply grows_pure. intros w. now rewrite url_in_csv_eq. Qed.

Lemma grows_run_script {A} e sc (r : reply A) u : grows (run_script_for_json e sc r u).
Proof.
  apply grows_pure. intros [f o c t cr]. rewrite run_script_for_json_eq.
  now destruct r.
Qed.

Lemma grows_status_block n a s : grows (print_status_block n a s).
Proof. apply grows_pure. intros [f o c t cr]. now rewrite print_status_block_eq. Qed.

Ltac gr :=
  repeat first
    [ apply grows_url_in_csv | apply grows_run_script | apply grows_status_block
    | apply grows_log_outcome | apply grows_ensure | apply grows_append_rows
    | apply grows_pure; reflexivity
    | apply grows_bind; [|intros ?] ].

Lemma grows_main e argv1 : grows (main e argv1).
Proof.
  unfold main.
  apply grows_bind.
  { apply grows_pure. intros w. now rewrite already_processed_eq. }
  intros [d hs]. cbn [fst snd]. destruct d; [now apply grows_pure|].
  apply grows_bind; [apply grows_run_script|]. intros pc.
  destruct (negb (is_empty (filter _ _))).
  - apply grows_bind; [apply grows_status_block|]. intros _.
    destruct (negb (is_empty (filter _ (filter _ _)))).
    + unfold accepted. gr.
      destruct (negb _); [|now apply grows_pure].
      destruct (choose_one_comment_pref_admin_tag _); gr.
    + unfold rejected_with_admin. gr.
      destruct (negb _); [|now apply grows_pure]. gr.
      destruct (choose_one_comment_pref_admin_tag _); gr.
  - apply grows_bind; [apply grows_status_block|]. intros _.
    destruct (filter _ _) as [|first others].
    + unfold rejected_no_admin. gr. destruct (negb _); gr.
    + unfold saved_no_admin. gr. destruct (negb _); gr.
Qed.

Lemma existsb_app_l {A} (p : A -> bool) (a b : list A) :
  existsb p a = true -> existsb p (a ++ b) = true.
Proof. intros H. rewrite existsb_app, H. reflexivity. Qed.

Lemma in_file_extends (x y : Csv.file) (k : str) :
  extends x y -> in_file x k = true -> in_file y k = true.
Proof.
  destruct x as [rows|]; [|discriminate]. intros [more ->]. unfold in_file.
  destruct rows as [|h body]; [discriminate|].
  unfold url_in_rows. cbn [app Csv.fieldnames].
  destruct (_find_url_column (Some h)) as [col|]; [|discriminate].
  destruct (negb (truthy col)); [discriminate|].
  unfold Csv.dictreader. rewrite filter_app, map_app. apply existsb_app_l.
Qed.

Lemma processed_extends (f g : FS) (u : str) :
  (forall p, extends (f p) (g p)) -> processed f u = true -> processed g u = true.
Proof.
  intros H. unfold processed. intros Hp.
  apply orb_true_iff in Hp. destruct Hp as [Hp|Hp].
  - apply orb_true_iff in Hp. destruct Hp as [Hp|Hp].
    + now rewrite (in_file_extends _ _ _ (H CSV_ACCEPTED) Hp).
    + rewrite (in_file_extends _ _ _ (H CSV_NONADMIN) Hp). now rewrite orb_true_r.
  - rewrite (in_file_extends _ _ _ (H CSV_REJECTED) Hp). now rewrite !orb_true_r.
Qed.

End AppendOnly.

(** X16.  [filterPosts.py] only ever appends: whatever a file
    held before a run, it holds after it, followed by zero or more new
    records; this is so for every file and however the run ends. *)
Theorem main_only_appends :
  forall (e : FilterPosts.Env) (argv1 : Py.str) (w : World) (p : path) (rows : list Csv.row),
    fs w p = Some rows ->
    exists more, fs (snd (FilterPosts.main e argv1 w)) p = Some (rows ++ more).
Proof.
  intros e argv1 w p rows E. pose proof (grows_main e argv1 w p) as H.
  rewrite E in H. exact H.
Qed.

Lemma main_only_appends_witness :
  fs filed_world CSV_LOG = Some [log_headers; [post_2; py "0"; py "Rejected - no admin"]]
  /\ exists more,
       fs (snd (FilterPosts.main (run_env run_by_permalink) permalink_2 filed_world)) CSV_LOG
       = Some ([log_headers; [post_2; py "0"; py "Rejected - no admin"]] ++ more).
Proof.
  assert (H : fs filed_world CSV_LOG
              = Some [log_headers; [post_2; py "0"; py "Rejected - no admin"]])
    by (vm_compute; reflexivity).
  split; [exact H|].
  exact (@main_only_appends (run_env run_by_permalink) permalink_2 filed_world CSV_LOG _ H).
Defined.

(** X17.  A post that the skip test recognises is
    recognised after any further runs, over any candidates, complete or
    killed: no run makes a processed post unprocessed. *)
Theorem processed_stays_processed :
  forall (rs : list Run) (f : FS) (u : Py.str),
    processed f u = true -> processed (after_runs rs f) u = true.
Proof.
  induction rs as [|r rs IH]; intros f u H; [exact H|].
  cbn [after_runs fold_left]. apply IH.
  apply (processed_extends f); [|exact H].
  intros p. unfold after_run.
  exact (grows_main (run_env r) (run_argv r) (mkWorld f [] [] [] (run_crash r)) p).
Qed.

Lemma processed_stays_processed_witness :
  processed (fs filed_world) post_2 = true
  /\ processed (after_runs [run_by_permalink; run_by_permalink_before] (fs filed_world)) post_2
     = true.
Proof.
  assert (H : processed (fs filed_world) post_2 = true) by (vm_compute; reflexivity).
  split; [exact H|].
  exact (@processed_stays_processed [run_by_permalink; run_by_permalink_before]
           (fs filed_world) post_2 H).
Defined.

(** ** The verdict of a run *)

Section Verdict.

Import Py FilterPosts.

(** Where a run that is not skipped files the post, under which key and
    with which status in the run log; [None] when a script gave no JSON. *)
Definition verdict (e : Env) (argv1 : str) : option (path * str * str) :=
  match post_comments e with
  | NoJson _ => None
  | Json pc =>
      let norm := normalize_url (strip argv1) in
      let staff := load_staff_names (staff_file e) in
      let admin := filter (fun c => is_admin_like c staff) (comments_of pc) in
      let matches := fun c => text_matches_targets (Some (text c)) in
      if negb (is_empty admin) then
        if negb (is_empty (filter matches admin)) then
          match post_details e with
          | Json pd => Some (CSV_ACCEPTED, commit_url pd pc norm, py "Accepted")
          | NoJson _ => None
          end
        else Some (CSV_REJECTED, norm, py "Rejected - w/admin")
      else
        if negb (is_empty (filter matches (comments_of pc))) then
          match post_details e with
          | Json pd => Some (CSV_NONADMIN, commit_url pd pc norm, py "Saved - no admin")
          | NoJson _ => None
          end
        else Some (CSV_REJECTED, norm, py "Rejected - no admin")
  end.

(** The number of comments the run log records. *)
Definition scraped (e : Env) : N :=
  match post_comments e with
  | Json pc => scraped_total_of pc
  | NoJson _ => 0
  end.

Definition NO_ADMIN_NO_SNAKE : str := RED ++ py "  NO ADMIN and NO SNAKE!".

Lemma rejected_no_admin_eq norm n f o c t :
  rejected_no_admin norm n (mkWorld f o c t None)
  = let f1 := if in_file (f CSV_REJECTED) norm then f
              else append_fs CSV_REJECTED [[norm; DASH; DASH]]
                     (ensure_fs CSV_REJECTED headers_rejected f) in
    let t1 := if in_file (f CSV_REJECTED) norm then t
              else (t ++ ensure_ops CSV_REJECTED headers_rejected f)
                   ++ append_ops CSV_REJECTED [[norm; DASH; DASH]] in
    (Ret tt,
     mkWorld (log_fs [norm; str_of_N n; py "Rejected - no admin"] f1)
       ((o ++ [NO_ADMIN_NO_SNAKE ++ [10]]) ++ [[10]]) c
       ((t1 ++ ensure_ops CSV_LOG log_headers f1)
        ++ append_ops CSV_LOG [[norm; str_of_N n; py "Rejected - no admin"]]) None).
Proof.
  unfold rejected_no_admin.
  unfold bind at 1. rewrite url_in_csv_eq. cbv beta iota. cbn [fs].
  destruct (in_file (f CSV_REJECTED) norm); cbn [negb]; cbv zeta.
  - unfold bind at 1. unfold ret at 1. cbv beta iota. now rewrite finish_eq.
  - unfold bind at 1. rewrite commit_eq. cbv beta iota. now rewrite finish_eq.
Qed.

(** The file system after a run that filed its verdict. *)
Lemma main_verdict_fs e argv1 f o c t p K status :
  processed f (normalize_url (strip argv1)) = false ->
  verdict e argv1 = Some (p, K, status) ->
  exists cells more,
    fst (main e argv1 (mkWorld f o c t None)) = Ret tt
    /\ fs (snd (main e argv1 (mkWorld f o c t None)))
       = log_fs [K; str_of_N (scraped e); status]
           (if in_file (f p) K then f
            else append_fs p ((K :: cells) :: more) (ensure_fs p (header_of p) f)).
Proof.
  intros Ep Hv. unfold verdict, scraped in *.
  destruct (post_comments e) as [pc|out] eqn:Epc; [|discriminate].
  rewrite (@main_eq e argv1 pc f o c t None Epc Ep). cbv zeta in *.
  set (staff := load_staff_names (staff_file e)) in *.
  set (norm := normalize_url (strip argv1)) in *.
  set (admin := filter (fun cm => is_admin_like cm staff) (comments_of pc)) in *.
  destruct (is_empty admin) eqn:Ea; cbn [negb] in *.
  - destruct (filter (fun cm => text_matches_targets (Some (text cm))) (comments_of pc))
      as [|first others] eqn:Es; cbn [is_empty negb] in Hv.
    + injection Hv as <- <- <-. rewrite rejected_no_admin_eq. cbv zeta.
      exists [DASH; DASH], []. split; [reflexivity|]. cbn [snd fs header_of].
      now destruct (in_file _ _).
    + destruct (post_details e) as [pd|out] eqn:Epd; [|discriminate].
      injection Hv as <- <- <-.
      rewrite (@saved_no_admin_eq e pc pd (strip argv1) norm (scraped_total_of pc)
                 first others f _ _ t Epd). cbv zeta.
      eexists. eexists. split; [reflexivity|]. cbn [snd fs header_of].
      destruct (in_file _ _); reflexivity.
  - set (snake := filter (fun cm => text_matches_targets (Some (text cm))) admin) in *.
    destruct (is_empty snake) eqn:Es; cbn [negb] in *.
    + injection Hv as <- <- <-.
      destruct (@rejected_with_admin_eq norm (scraped_total_of pc) admin f
                  (o ++ status_block (scraped_total_of pc) true false)
                  (c ++ [(POST_COMMENTS, strip argv1)]) t Ea)
        as [chosen [_ [_ E]]].
      rewrite E. cbv zeta. eexists. exists []. split; [reflexivity|].
      cbn [snd fs header_of]. destruct (in_file _ _); reflexivity.
    + destruct (post_details e) as [pd|out] eqn:Epd; [|discriminate].
      injection Hv as <- <- <-.
      destruct (@accepted_eq e pc pd (strip argv1) norm (scraped_total_of pc) snake f
                  (o ++ status_block (scraped_total_of pc) true true)
                  (c ++ [(POST_COMMENTS, strip argv1)]) t Epd Es)
        as [chosen [_ E]].
      rewrite E. cbv zeta. eexists. exists []. split; [reflexivity|].
      cbn [snd fs header_of]. destruct (in_file _ _); reflexivity.
Qed.

Lemma verdict_ledger e argv1 p K status :
  verdict e argv1 = Some (p, K, status) ->
  is_ledger p
  /\ In status [py "Accepted"; py "Saved - no admin"; py "Rejected - w/admin";
                py "Rejected - no admin"].
Proof.
  unfold verdict, is_ledger. destruct (post_comments e); [|discriminate]. cbv zeta.
  destruct (negb (is_empty _)).
  - destruct (negb (is_empty _)).
    + destruct (post_details e); [|discriminate]. intros [= <- _ <-]. cbn; auto.
    + intros [= <- _ <-]. cbn; auto 6.
  - destruct (negb (is_empty _)).
    + destruct (post_details e); [|discriminate]. intros [= <- _ <-]. cbn; auto.
    + intros [= <- _ <-]. cbn; auto 6.
Qed.

Lemma in_file_with_rows (p : path) (x : Csv.file) (K : str) cells more :
  in_order p x -> normalize_url K = K -> K <> [] ->
  in_file (with_rows x (header_of p) ((K :: cells) :: more)) K = true.
Proof.
  intros Ho Hk Hn. unfold with_rows, in_file.
  assert (E : exists body, match x with Some old => old | None => [header_of p] end
                           = header_of p :: body).
  { destruct Ho as [->|[body ->]]; eauto. }
  destruct E as [body ->]. cbn [app]. rewrite url_in_rows_header.
  rewrite filter_app, existsb_app. cbn [filter Csv.is_blank negb existsb row_key].
  rewrite Hk, eqb_refl. destruct K; [congruence|]. cbn. now rewrite orb_true_r.
Qed.

Lemma main_nojson e argv1 w :
  processed (fs w) (normalize_url (strip argv1)) = false ->
  verdict e argv1 = None ->
  fst (main e argv1 w) = Exit 1 /\ fs (snd (main e argv1 w)) = fs w.
Proof.
  destruct w as [f o c t cr]. cbn [fs]. intros Ep Hv.
  assert (H : exists o' c', main e argv1 (mkWorld f o c t cr)
                            = (Exit 1, mkWorld f o' c' t cr)).
  { unfold verdict in Hv.
    destruct (post_comments e) as [pc|out] eqn:Epc.
    - rewrite (@main_eq e argv1 pc f o c t cr Epc Ep). cbv zeta in *.
      destruct (negb (is_empty (filter _ (comments_of pc)))).
      + destruct (negb (is_empty (filter _ (filter _ (comments_of pc))))); [|discriminate].
        destruct (post_details e) as [pd|out] eqn:Epd; [discriminate|].
        unfold accepted. unfold bind at 1.
        rewrite (@run_script_for_json_eq PdData), Epd. eauto.
      + destruct (filter _ (comments_of pc)) as [|first others]; [discriminate|].
        cbn [is_empty negb] in Hv.
        destruct (post_details e) as [pd|out] eqn:Epd; [discriminate|].
        unfold saved_no_admin. unfold bind at 1.
        rewrite (@run_script_for_json_eq PdData), Epd. eauto.
    - unfold main. cbv zeta.
      unfold bind at 1. rewrite already_processed_eq. cbv beta iota. cbn [fst snd fs].
      rewrite Ep.
      unfold bind at 1. rewrite (@run_script_for_json_eq PcData), Epc. eauto. }
  destruct H as [o' [c' ->]]. now split.
Qed.

End Verdict.

(** X18.  A run that is not skipped and gets its JSON files its
    verdict: it ends normally; the run log receives one row, with the key,
    the number of comments and one of the four statuses; the ledger of the
    verdict is left as it is when the key is found in it and otherwise
    receives a block of rows whose first cell is the key (after the header,
    when the file was missing); no other file changes.  If that ledger was
    in order and the key is not empty and is its own normal form, the skip
    test finds the key afterwards. *)
Theorem main_files_the_verdict :
  forall (e : FilterPosts.Env) (argv1 : Py.str) (w : World)
         (p : path) (K status : Py.str),
    crash w = None ->
    processed (fs w) (FilterPosts.normalize_url (Py.strip argv1)) = false ->
    verdict e argv1 = Some (p, K, status) ->
    let res := FilterPosts.main e argv1 w in
    fst res = Ret tt
    /\ is_ledger p
    /\ In status [py "Accepted"; py "Saved - no admin"; py "Rejected - w/admin";
                  py "Rejected - no admin"]
    /\ fs (snd res) CSV_LOG
       = with_rows (fs w CSV_LOG) log_headers [[K; Py.str_of_N (scraped e); status]]
    /\ (forall q, q <> p -> q <> CSV_LOG -> fs (snd res) q = fs w q)
    /\ (if in_file (fs w p) K then fs (snd res) p = fs w p
        else exists cells more,
               fs (snd res) p = with_rows (fs w p) (header_of p) ((K :: cells) :: more))
    /\ (in_order p (fs w p) -> FilterPosts.normalize_url K = K -> K <> [] ->
        processed (fs (snd res)) K = true).
Proof.
  intros e argv1 [f o c t cr] p K status Hc Ep Hv res. cbn [crash fs] in *. subst cr.
  destruct (verdict_ledger _ _ Hv) as [Hl Hs].
  destruct (@main_verdict_fs e argv1 f o c t p K status Ep Hv) as [cells [more [E1 E2]]].
  subst res. rewrite E1, E2. clear E1 E2.
  assert (Hpl : p <> CSV_LOG) by (destruct Hl as [ -> | [ -> | -> ] ]; discriminate).
  set (f1 := if in_file (f p) K then f
             else append_fs p ((K :: cells) :: more) (ensure_fs p (header_of p) f)).
  assert (Ep1 : f1 p = if in_file (f p) K then f p
                       else with_rows (f p) (header_of p) ((K :: cells) :: more)).
  { unfold f1. destruct (in_file (f p) K); [reflexivity|apply committed_rows]. }
  assert (Eo : forall q, q <> p -> f1 q = f q).
  { intros q Hq. unfold f1. destruct (in_file (f p) K); [reflexivity|].
    rewrite append_fs_other by congruence. apply ensure_fs_other. congruence. }
  split; [reflexivity|]. split; [exact Hl|]. split; [exact Hs|].
  split; [|split; [|split]].
  - rewrite log_fs_log. unfold with_rows. rewrite (Eo CSV_LOG) by congruence. reflexivity.
  - intros q Hq1 Hq2. rewrite log_fs_other by congruence. now apply Eo.
  - rewrite log_fs_other by congruence. rewrite Ep1.
    destruct (in_file (f p) K); [reflexivity|eauto].
  - intros Ho Hk Hn.
    assert (Hin : in_file (f1 p) K = true).
    { rewrite Ep1. destruct (in_file (f p) K) eqn:Ei; [exact Ei|].
      now apply in_file_with_rows. }
    unfold processed. rewrite Hk.
    destruct Hl as [ -> | [ -> | -> ] ];
      rewrite !log_fs_other by discriminate; rewrite Hin;
      rewrite ?orb_true_r; reflexivity.
Qed.

Lemma main_files_the_verdict_witness :
  crash quiet_world = None
  /\ processed (fs quiet_world) (FilterPosts.normalize_url (Py.strip post_2)) = false
  /\ verdict scenario_env post_2 = Some (CSV_REJECTED, post_2, py "Rejected - w/admin")
  /\ fst (FilterPosts.main scenario_env post_2 quiet_world) = Ret tt
  /\ fs (snd (FilterPosts.main scenario_env post_2 quiet_world)) CSV_LOG
     = Some [log_headers; [post_2; py "2"; py "Rejected - w/admin"]]
  /\ fs (snd (FilterPosts.main scenario_env post_2 quiet_world)) CSV_ACCEPTED = None
  /\ processed (fs (snd (FilterPosts.main scenario_env post_2 quiet_world))) post_2 = true.
Proof.
  assert (H1 : crash quiet_world = None) by reflexivity.
  assert (H2 : processed (fs quiet_world) (FilterPosts.normalize_url (Py.strip post_2)) = false)
    by (vm_compute; reflexivity).
  assert (H3 : verdict scenario_env post_2
               = Some (CSV_REJECTED, post_2, py "Rejected - w/admin"))
    by (vm_compute; reflexivity).
  split; [exact H1|]. split; [exact H2|]. split; [exact H3|].
  pose proof (@main_files_the_verdict scenario_env post_2 quiet_world _ _ _ H1 H2 H3) as R.
  cbv zeta in R. destruct R as [Hr [_ [_ [Hl [Ho [_ Hp]]]]]].
  split; [exact Hr|].
  split; [rewrite Hl; vm_compute; reflexivity|].
  split; [rewrite Ho by discriminate; reflexivity|].
  apply Hp; [vm_compute; auto | vm_compute; reflexivity | discriminate].
Defined.

(** X19.  When a script the run needs gives no JSON, the run ends
    with exit status 1 and has written nothing: no ledger row, no run-log
    row, even if the status block was printed already. *)
Theorem main_fails_without_json :
  forall (e : FilterPosts.Env) (argv1 : Py.str) (w : World),
    processed (fs w) (FilterPosts.normalize_url (Py.strip argv1)) = false ->
    verdict e argv1 = None ->
    fst (FilterPosts.main e argv1 w) = Exit 1
    /\ fs (snd (FilterPosts.main e argv1 w)) = fs w.
Proof. exact main_nojson. Qed.

Lemma main_fails_without_json_witness :
  processed (fs quiet_world) (FilterPosts.normalize_url (Py.strip post_2)) = false
  /\ verdict silent_env post_2 = None
  /\ fst (FilterPosts.main silent_env post_2 quiet_world) = Exit 1
  /\ fs (snd (FilterPosts.main silent_env post_2 quiet_world)) = no_files.
Proof.
  assert (H1 : processed (fs quiet_world) (FilterPosts.normalize_url (Py.strip post_2)) = false)
    by (vm_compute; reflexivity).
  assert (H2 : verdict silent_env post_2 = None) by reflexivity.
  split; [exact H1|]. split; [exact H2|].
  exact (@main_fails_without_json silent_env post_2 quiet_world H1 H2).
Defined.

(** ** Numbers in the child's output *)

Section Digits.

Import Py.

Definition isdigit (c : char) : bool := (48 <=? c) && (c <=? 57).

Lemma digits_fuel_digits (fuel : nat) :
  forall n acc,
    Forall (fun c => isdigit c = true) acc ->
    Forall (fun c => isdigit c = true) (digits_fuel fuel n acc).
Proof.
  induction fuel as [|fuel IH]; intros n acc Ha; cbn [digits_fuel]; [exact Ha|].
  assert (Hd : isdigit (48 + n mod 10) = true).
  { unfold isdigit. assert (H : n mod 10 < 10) by (apply N.mod_upper_bound; discriminate).
    generalize dependent (n mod 10). intros m Hm.
    apply andb_true_iff. split; apply N.leb_le; lia. }
  destruct (n <? 10); [now constructor|]. apply IH. now constructor.
Qed.

Lemma digits_fuel_nonempty (fuel : nat) :
  forall n acc, acc <> [] -> digits_fuel fuel n acc <> [].
Proof.
  induction fuel as [|fuel IH]; intros n acc Ha; cbn [digits_fuel]; [exact Ha|].
  destruct (n <? 10); [discriminate|]. apply IH. discriminate.
Qed.

Lemma str_of_N_digits (n : N) :
  Forall (fun c => isdigit c = true) (str_of_N n) /\ str_of_N n <> [].
Proof.
  unfold str_of_N. split.
  - apply digits_fuel_digits. constructor.
  - cbn [digits_fuel]. destruct (n <? 10); [discriminate|].
    apply digits_fuel_nonempty. discriminate.
Qed.

Lemma lower_of_digits (l : str) : Forall (fun c => isdigit c = true) l -> lower l = l.
Proof.
  unfold lower. induction 1 as [|z l Hz Hl IH]; [reflexivity|].
  cbn [flat_map]. rewrite IH. unfold lower1, isdigit in *.
  apply andb_true_iff in Hz. destruct Hz as [A B]. apply N.leb_le in A, B.
  replace (65 <=? z) with false by (symmetry; apply N.leb_gt; lia). cbn [andb].
  replace (z =? 0x130) with false by (symmetry; apply N.eqb_neq; lia).
  replace (z =? 0x212A) with false by (symmetry; apply N.eqb_neq; lia).
  reflexivity.
Qed.

Variable d : str.
Hypothesis d_digits : Forall (fun c => isdigit c = true) d.
Hypothesis d_nonempty : d <> [].

Lemma startswith_digits (p : str) :
  Forall (fun c => isdigit c = false) p ->
  forall a b, startswith p (a ++ d ++ b) = startswith p a.
Proof.
  induction 1 as [|x p Hx Hp IH]; intros a b; [reflexivity|].
  destruct a as [|y a]; cbn [app startswith].
  - destruct d as [|z d'] eqn:Ed; [congruence|]. cbn [app startswith].
    inversion d_digits as [|? ? Hz _]; subst.
    destruct (N.eqb_spec x z) as [->|]; [congruence|reflexivity].
  - now rewrite IH.
Qed.

Lemma contains_digits_tail (p : str) :
  p <> [] -> Forall (fun c => isdigit c = false) p ->
  forall d' b, Forall (fun c => isdigit c = true) d' ->
    contains p (d' ++ b) = contains p b.
Proof.
  intros Hn Hp d' b Hd. induction Hd as [|z d' Hz Hd IH]; [reflexivity|].
  cbn [app contains]. rewrite IH.
  destruct p as [|x p]; [congruence|]. cbn [startswith].
  inversion Hp as [|? ? Hx _]; subst.
  destruct (N.eqb_spec x z) as [->|]; [congruence|reflexivity].
Qed.

Lemma contains_digits (p : str) :
  p <> [] -> Forall (fun c => isdigit c = false) p ->
  forall a b, contains p (a ++ d ++ b) = contains p a || contains p b.
Proof.
  intros Hn Hp a b. induction a as [|y a IH].
  - cbn [app]. rewrite (contains_digits_tail Hn Hp b d_digits).
    destruct p; [congruence|]. reflexivity.
  - cbn [app contains].
    change (y :: a ++ d ++ b) with ((y :: a) ++ d ++ b).
    rewrite (startswith_digits Hp), IH. now rewrite orb_assoc.
Qed.

Lemma lower_digits : lower d = d.
Proof. exact (lower_of_digits d_digits). Qed.

Lemma lower_around_digits (a b : str) : lower (a ++ d ++ b) = lower a ++ d ++ lower b.
Proof. now rewrite lower_mid, lower_digits. Qed.

End Digits.

(** ** The runner on a verdict of the filter *)

Section Report.

Import Py RunFilters.

Ltac marker_ok :=
  first [ (let Hx := fresh in intros Hx; vm_compute in Hx; discriminate Hx)
        | (apply Forall_false_of_forallb; vm_compute; reflexivity) ].

(** The classification does not look at numbers: one run of digits can
    be replaced by another. *)
Lemma classify_any_number (a b d d' : str) :
  Forall (fun c => isdigit c = true) d -> d <> [] ->
  Forall (fun c => isdigit c = true) d' -> d' <> [] ->
  classify_result_text (a ++ d ++ b) = classify_result_text (a ++ d' ++ b).
Proof.
  intros Hd Hn Hd' Hn'. unfold classify_result_text. cbv zeta.
  rewrite (lower_around_digits Hd), (lower_around_digits Hd').
  cbn [existsb].
  repeat rewrite (@contains_digits d Hd Hn) by marker_ok.
  repeat rewrite (@contains_digits d' Hd' Hn') by marker_ok.
  reflexivity.
Qed.

Lemma classify_number (a b : str) (n : N) :
  classify_result_text (a ++ str_of_N n ++ b) = classify_result_text (a ++ py "0" ++ b).
Proof.
  destruct (str_of_N_digits n) as [Hd Hn].
  apply classify_any_number; auto.
  - repeat constructor.
  - discriminate.
Qed.

(** *** Lines *)

Definition no_newline (b : str) : Prop := Forall (fun c => c <> 10 /\ c <> 13) b.

Lemma universal_newlines_id (s : str) :
  Forall (fun c => c <> 13) s -> universal_newlines s = s.
Proof.
  induction 1 as [|c s Hc Hs IH]; [reflexivity|].
  cbn [universal_newlines]. rewrite IH.
  destruct c as [|p]; [reflexivity|].
  do 4 (destruct p as [p|p|]; try reflexivity). congruence.
Qed.

Lemma lines_from_line (b rest : str) :
  Forall (fun c => c <> 10) b ->
  forall cur, lines_from cur (b ++ 10 :: rest) = (cur ++ b ++ [10]) :: lines_from [] rest.
Proof.
  induction 1 as [|c b Hc Hb IH]; intros cur; cbn [app lines_from].
  - reflexivity.
  - destruct (N.eqb_spec c 10) as [->|_]; [congruence|].
    rewrite IH. now rewrite <- app_assoc.
Qed.

Lemma lines_from_lines (bs : list str) :
  Forall no_newline bs ->
  lines_from [] (List.concat (map (fun b => b ++ [10]) bs)) = map (fun b => b ++ [10]) bs.
Proof.
  induction 1 as [|b bs Hb Hbs IH]; [reflexivity|].
  cbn [map List.concat]. rewrite <- app_assoc. cbn [app].
  rewrite lines_from_line.
  - now rewrite IH.
  - eapply Forall_impl; [|exact Hb]. now intros c [H _].
Qed.

Lemma child_lines_lines (printed bs : list str) :
  List.concat printed = List.concat (map (fun b => b ++ [10]) bs) ->
  Forall no_newline bs ->
  child_lines printed = map (fun b => b ++ [10]) bs.
Proof.
  intros E Hb. unfold child_lines. rewrite E, universal_newlines_id.
  - now apply lines_from_lines.
  - apply Forall_concat. apply Forall_map.
    eapply Forall_impl; [|exact Hb]. intros b H.
    apply Forall_app. split.
    + eapply Forall_impl; [|exact H]. now intros c [_ H1].
    + repeat constructor. discriminate.
Qed.

Lemma digits_no_newline (d : str) : Forall (fun c => isdigit c = true) d -> no_newline d.
Proof.
  intros H. eapply Forall_impl; [|exact H]. intros c Hc. unfold isdigit in Hc.
  apply andb_true_iff in Hc. destruct Hc as [A _]. apply N.leb_le in A. split; lia.
Qed.

Lemma no_newline_of_forallb (s : str) :
  forallb (fun c => negb (c =? 10) && negb (c =? 13)) s = true -> no_newline s.
Proof.
  intros H. apply Forall_forall. intros c Hc.
  rewrite forallb_forall in H. specialize (H c Hc).
  apply andb_true_iff in H. destruct H as [A B].
  apply negb_true_iff in A, B. apply N.eqb_neq in A, B. now split.
Qed.

End Report.

Section Announce.

Import Py RunFilters.

(** The kind of verdict a ledger stands for. *)
Definition kind_of (p : path) : kind :=
  match p with
  | CSV_ACCEPTED => accept
  | CSV_NONADMIN => saved
  | CSV_REJECTED => reject
  | _ => unknown
  end.

(** The line that announces a verdict filed in [p]. *)
Definition announces (p : path) (line : str) : Prop :=
  match p with
  | CSV_ACCEPTED => line = ACCEPTED
  | CSV_NONADMIN => exists count, line = SAVED count
  | CSV_REJECTED => line = REJECTED_WITH_ADMIN \/ line = NO_ADMIN_NO_SNAKE
  | _ => False
  end.

(** What a run that files its verdict prints. *)
Lemma main_verdict_stdout e argv1 f o c t p K status :
  processed f (FilterPosts.normalize_url (strip argv1)) = false ->
  verdict e argv1 = Some (p, K, status) ->
  exists a s line,
    announces p line
    /\ stdout (snd (FilterPosts.main e argv1 (mkWorld f o c t None)))
       = ((o ++ status_block (scraped e) a s) ++ [line ++ [10]]) ++ [[10]].
Proof.
  intros Ep Hv. unfold verdict, scraped in *.
  destruct (FilterPosts.post_comments e) as [pc|out] eqn:Epc; [|discriminate].
  rewrite (@main_eq e argv1 pc f o c t None Epc Ep). cbv zeta in *.
  set (staff := FilterPosts.load_staff_names (FilterPosts.staff_file e)) in *.
  set (norm := FilterPosts.normalize_url (strip argv1)) in *.
  set (admin := filter (fun cm => FilterPosts.is_admin_like cm staff) (comments_of pc)) in *.
  destruct (is_empty admin) eqn:Ea; cbn [negb] in *.
  - destruct (filter (fun cm => FilterPosts.text_matches_targets (Some (FilterPosts.text cm)))
                (comments_of pc))
      as [|first others] eqn:Es; cbn [is_empty negb] in Hv.
    + injection Hv as <- <- <-. rewrite rejected_no_admin_eq. cbv zeta.
      exists false, false, NO_ADMIN_NO_SNAKE. split; [now right|reflexivity].
    + destruct (FilterPosts.post_details e) as [pd|out] eqn:Epd; [|discriminate].
      injection Hv as <- <- <-.
      rewrite (@saved_no_admin_eq e pc pd (strip argv1) norm (scraped_total_of pc)
                 first others f _ _ t Epd). cbv zeta.
      exists false, true, (SAVED (List.length (first :: others))).
      split; [now eexists|reflexivity].
  - set (snake := filter (fun cm => FilterPosts.text_matches_targets
                                      (Some (FilterPosts.text cm))) admin) in *.
    destruct (is_empty snake) eqn:Es; cbn [negb] in *.
    + injection Hv as <- <- <-.
      destruct (@rejected_with_admin_eq norm (scraped_total_of pc) admin f
                  (o ++ status_block (scraped_total_of pc) true false)
                  (c ++ [(POST_COMMENTS, strip argv1)]) t Ea)
        as [chosen [_ [_ E]]].
      rewrite E. cbv zeta.
      exists true, false, REJECTED_WITH_ADMIN. split; [now left|reflexivity].
    + destruct (FilterPosts.post_details e) as [pd|out] eqn:Epd; [|discriminate].
      injection Hv as <- <- <-.
      destruct (@accepted_eq e pc pd (strip argv1) norm (scraped_total_of pc) snake f
                  (o ++ status_block (scraped_total_of pc) true true)
                  (c ++ [(POST_COMMENTS, strip argv1)]) t Epd Es)
        as [chosen [_ E]].
      rewrite E. cbv zeta.
      exists true, true, ACCEPTED. split; [reflexivity|reflexivity].
Qed.

(** The announcing line is recognised, whatever the number in it. *)
Lemma announced_kind (p : path) (line : str) :
  announces p line ->
  classify_result_text (line ++ [10]) = kind_of p
  /\ kind_of p <> unknown /\ kind_of p <> skip /\ no_newline line.
Proof.
  destruct p; cbn [announces kind_of]; try contradiction.
  - intros ->. repeat split; try discriminate.
    apply no_newline_of_forallb. vm_compute. reflexivity.
  - intros [count ->]. unfold SAVED.
    destruct (str_of_N_digits (N.of_nat count)) as [Hd Hn].
    repeat split; try discriminate.
    + rewrite <- !app_assoc.
      change (FilterPosts.ORANGE ++ py "  NON-ADMIN! Snake mentioned by Non-admin! ("
              ++ str_of_N (N.of_nat count) ++ py ")" ++ [10])
        with ((FilterPosts.ORANGE ++ py "  NON-ADMIN! Snake mentioned by Non-admin! (")
              ++ str_of_N (N.of_nat count) ++ (py ")" ++ [10])).
      rewrite classify_number. vm_compute. reflexivity.
    + apply Forall_app. split; [apply no_newline_of_forallb; vm_compute; reflexivity|].
      apply Forall_app. split; [apply no_newline_of_forallb; vm_compute; reflexivity|].
      apply Forall_app. split; [now apply digits_no_newline|].
      apply no_newline_of_forallb. vm_compute. reflexivity.
  - intros [->| ->]; repeat split; try discriminate;
      apply no_newline_of_forallb; vm_compute; reflexivity.
Qed.

(** The lines of the report. *)
Definition report_lines (n : N) (a s : bool) (line : str) : list str :=
  [ []; py "Scraped total comments: " ++ str_of_N n; [];
    py "ADMIN comment found: " ++ (if a then FilterPosts.CHECK else FilterPosts.CROSS);
    py "SNAKE comment found: " ++ (if s then FilterPosts.CHECK else FilterPosts.CROSS);
    []; line; [] ].

Lemma child_lines_report (n : N) (a s : bool) (line : str) :
  no_newline line ->
  child_lines ((([] ++ status_block n a s) ++ [line ++ [10]]) ++ [[10]])
  = map (fun b => b ++ [10]) (report_lines n a s line).
Proof.
  intros Hl. apply child_lines_lines.
  - unfold status_block, report_lines. cbn [map List.concat app].
    rewrite <- ?app_assoc. cbn [app]. rewrite <- ?app_assoc. reflexivity.
  - unfold report_lines. destruct (str_of_N_digits n) as [Hd _].
    assert (H0 : no_newline []) by constructor.
    apply Forall_cons; [exact H0|].
    apply Forall_cons.
    { apply Forall_app. split; [apply no_newline_of_forallb; vm_compute; reflexivity|].
      now apply digits_no_newline. }
    apply Forall_cons; [exact H0|].
    apply Forall_cons; [destruct a; apply no_newline_of_forallb; vm_compute; reflexivity|].
    apply Forall_cons; [destruct s; apply no_newline_of_forallb; vm_compute; reflexivity|].
    apply Forall_cons; [exact H0|].
    apply Forall_cons; [exact Hl|].
    apply Forall_cons; [exact H0|]. constructor.
Qed.

(** The status block carries no marker. *)
Lemma status_lines_unknown (n : N) (a s : bool) (line : str) :
  classify_result_text
    (List.concat (firstn 6 (map (fun b => b ++ [10]) (report_lines n a s line))))
  = unknown.
Proof.
  set (before_number := 10 :: py "Scraped total comments: ").
  set (after_number :=
         10 :: 10
         :: (py "ADMIN comment found: "
             ++ (if a then FilterPosts.CHECK else FilterPosts.CROSS)) ++ 10
         :: (py "SNAKE comment found: "
             ++ (if s then FilterPosts.CHECK else FilterPosts.CROSS)) ++ [10; 10]).
  transitivity (classify_result_text (before_number ++ str_of_N n ++ after_number)).
  - f_equal. unfold report_lines, before_number, after_number.
    cbn [map firstn List.concat app]. rewrite <- ?app_assoc. cbn [app].
    rewrite <- ?app_assoc. reflexivity.
  - etransitivity; [exact (classify_number before_number after_number n)|].
    unfold before_number, after_number. destruct a, s; vm_compute; reflexivity.
Qed.

End Announce.

Section Follow.

Import Py RunFilters.

(** The file system after [append_done_url_now] in a process that is not
    killed. *)
Definition done_after (u : str) (f : FS) : FS :=
  let norm := normalize_url u in
  let f1 := done_header_fs f in
  if negb (truthy norm) then f
  else if done_has (f1 DONE_FILE) norm then f1
       else append_fs DONE_FILE [[norm]] f1.

Lemma append_done_url_now_fs (u : str) (w : World) :
  crash w = None ->
  fst (append_done_url_now u w) = Ret tt
  /\ fs (snd (append_done_url_now u w)) = done_after u (fs w)
  /\ crash (snd (append_done_url_now u w)) = None.
Proof.
  destruct w as [f o c t cr]. cbn [crash fs]. intros ->.
  rewrite append_done_url_now_eq. unfold done_after. cbv zeta.
  destruct (negb (truthy (normalize_url u))); [auto|].
  destruct (done_has _ _); auto.
Qed.

Lemma done_after_other (u : str) (f : FS) (q : path) :
  q <> DONE_FILE -> done_after u f q = f q.
Proof.
  intros H. unfold done_after, done_header_fs. cbv zeta.
  destruct (negb _); [reflexivity|].
  destruct (file_is_empty (f DONE_FILE)).
  - destruct (done_has _ _).
    + apply fget_set_other. congruence.
    + rewrite append_fs_other by congruence. apply fget_set_other. congruence.
  - destruct (done_has _ _); [reflexivity|]. apply append_fs_other. congruence.
Qed.

Lemma done_after_done (u : str) (f g : FS) :
  f DONE_FILE = g DONE_FILE -> done_after u f DONE_FILE = done_after u g DONE_FILE.
Proof.
  intros H. unfold done_after, done_header_fs, append_fs, rows_of. cbv zeta. rewrite <- H.
  destruct (negb _); [exact H|].
  destruct (file_is_empty (f DONE_FILE)).
  - rewrite !fget_set_same. destruct (done_has _ _); now rewrite !fget_set_same.
  - rewrite <- H. destruct (done_has _ _); [exact H|]. now rewrite !fget_set_same.
Qed.

Lemma remove_from_input_fs p hh col hs norm rows (w : World) :
  crash w = None ->
  let kept := without col norm rows in
  let res := remove_from_input p hh col hs norm rows w in
  fst res = Ret kept
  /\ fs (snd res) = (if (List.length kept =? List.length rows)%nat then fs w
                     else fs_set p (Some (written hh hs kept)) (fs w))
  /\ crash (snd res) = None.
Proof.
  destruct w as [f o c t cr]. cbn [crash fs]. intros ->. cbv zeta.
  unfold remove_from_input.
  pose proof (@write_rows_now_fs p hh hs (without col norm rows) f o c t) as Hw.
  destruct (List.length (without col norm rows) =? List.length rows)%nat eqn:El; cbn [negb].
  - apply Nat.eqb_eq in El.
    assert (E : without col norm rows = rows) by (apply filter_same_length; exact El).
    rewrite E. unfold ret. cbn [fst snd fs crash]. auto.
  - unfold bind.
    destruct (write_rows_now p hh hs (without col norm rows) (mkWorld f o c t None))
      as [r1 w1] eqn:Ew.
    cbn [fst snd] in Hw. destruct Hw as [H1 [H2 [_ H3]]]. subst r1.
    unfold ret. cbn [fst snd]. auto.
Qed.

Lemma bind_returns {A B} (m : M A) (k : A -> M B) (w w1 : World) (a : A) :
  m w = (Ret a, w1) -> bind m k w = k a w1.
Proof. intros H. unfold bind. now rewrite H. Qed.

(** The line on which the runner acts. *)
Lemma on_line_decides url p hh col hs st line (k : kind) (w : World) :
  acted st = false ->
  classify_result_text line = k -> k <> unknown -> k <> skip ->
  crash w = None ->
  let kept := without col (normalize_url url) (remaining_rows st) in
  let res := on_line url p hh col hs st line w in
  fst res = Ret (mkStream (full_lines st ++ [line]) k true kept)
  /\ fs (snd res)
     = (if (List.length kept =? List.length (remaining_rows st))%nat
        then done_after url (fs w)
        else fs_set p (Some (written hh hs kept)) (done_after url (fs w)))
  /\ crash (snd res) = None.
Proof.
  intros Ha Hk Hu Hs Hc. cbv zeta. unfold on_line. cbv zeta. rewrite Ha, Hk.
  destruct (@append_done_url_now_fs url w Hc) as [A1 [A2 A3]].
  assert (E : forall w1,
             crash w1 = None ->
             fs w1 = done_after url (fs w) ->
             let res := (rows <- remove_from_input p hh col hs (normalize_url url)
                                  (remaining_rows st) ;;
                         ret (mkStream (full_lines st ++ [line]) k true rows)) w1 in
             fst res = Ret (mkStream (full_lines st ++ [line]) k true
                              (without col (normalize_url url) (remaining_rows st)))
             /\ fs (snd res)
                = (if (List.length (without col (normalize_url url) (remaining_rows st))
                       =? List.length (remaining_rows st))%nat
                   then done_after url (fs w)
                   else fs_set p (Some (written hh hs
                                          (without col (normalize_url url) (remaining_rows st))))
                          (done_after url (fs w)))
             /\ crash (snd res) = None).
  { intros w1 Hc1 Hf1. cbv zeta. unfold bind.
    destruct (@remove_from_input_fs p hh col hs (normalize_url url) (remaining_rows st) w1 Hc1)
      as [R1' [R2' R3']].
    destruct (remove_from_input p hh col hs (normalize_url url) (remaining_rows st) w1)
      as [r w2]. cbn [fst snd] in *. subst r. unfold ret. cbn [fst snd].
    rewrite R2', Hf1. auto. }
  destruct (append_done_url_now url w) as [r0 w1] eqn:Ed. cbn [fst snd] in *. subst r0.
  destruct k; try congruence; cbn [kind_eqb orb]; rewrite (@bind_returns _ _ _ _ _ _ _ Ed);
    exact (E w1 A3 A2).
Qed.

End Follow.

(** X20.  The runner follows every verdict of the filter.  When the
    child [filterPosts.py] is not skipped and files its verdict, whatever
    the number of comments it reports, [run_and_act_streaming] returns exit
    status 0 and the kind of that verdict (accept, saved or reject), has
    acted, and keeps the rows whose URL has another key than the
    candidate's.  The done-URLs file is what [append_done_url_now] makes of
    it, the work-list is rewritten with the rows kept when a row was
    dropped and left alone otherwise, and the other files are as the child
    left them. *)
Theorem runner_follows_the_verdict :
  forall (e : FilterPosts.Env) (url : Py.str) (has_header : bool) (url_col : Py.str)
         (headers : list Py.str) (remaining : list RunFilters.Row) (w : World)
         (p : path) (K status : Py.str),
    crash w = None ->
    processed (fs w) (FilterPosts.normalize_url (Py.strip url)) = false ->
    verdict e url = Some (p, K, status) ->
    let res := RunFilters.run_and_act_streaming e url OUT_CSV has_header url_col headers
                 remaining w in
    let kept := RunFilters.without url_col (RunFilters.normalize_url url) remaining in
    (exists lines, fst res = Ret (0, RunFilters.mkStream lines (kind_of p) true kept))
    /\ In (kind_of p) [RunFilters.accept; RunFilters.saved; RunFilters.reject]
    /\ fs (snd res) DONE_FILE = done_after url (fs w) DONE_FILE
    /\ fs (snd res) OUT_CSV
       = (if (List.length kept =? List.length remaining)%nat then fs w OUT_CSV
          else Some (written has_header headers kept))
    /\ (forall q, q <> DONE_FILE -> q <> OUT_CSV ->
          fs (snd res) q = fs (snd (child e url w)) q).
Proof.
  intros e url hh col hs remaining w p K status Hc Ep Hv.
  destruct w as [f o c t cr]. cbn [crash fs] in Hc, Ep. subst cr.
  cbv zeta.
  destruct (@main_verdict_fs e url f [] c t p K status Ep Hv) as [cells [more [Hr _]]].
  destruct (@main_verdict_stdout e url f [] c t p K status Ep Hv)
    as [a [s [line [Han Ho]]]].
  destruct (@announced_kind p line Han) as [Hk [Hu [Hs Hnl]]].
  destruct (main_writes_files_aux e url (mkWorld f [] c t None)) as [Wo Wd].
  cbn [fs] in Wo, Wd.
  unfold child. cbn [fs stdout calls trace crash].
  set (kept := RunFilters.without col (RunFilters.normalize_url url) remaining).
  assert (E : exists lines w2,
             RunFilters.run_and_act_streaming e url OUT_CSV hh col hs remaining
               (mkWorld f o c t None)
             = (Ret (0, RunFilters.mkStream lines (kind_of p) true kept), w2)
             /\ fs w2
                = (if (List.length kept =? List.length remaining)%nat
                   then done_after url
                          (fs (snd (FilterPosts.main e url (mkWorld f [] c t None))))
                   else fs_set OUT_CSV (Some (written hh hs kept))
                          (done_after url
                             (fs (snd (FilterPosts.main e url (mkWorld f [] c t None))))))).
  { unfold RunFilters.run_and_act_streaming. cbn [fs stdout calls trace crash].
    set (ch := FilterPosts.main e url (mkWorld f [] c t None)) in *.
    rewrite Hr, Ho, (@child_lines_report (scraped e) a s line Hnl).
    rewrite <- (firstn_skipn 6 (map (fun b => b ++ [10])
                                   (report_lines (scraped e) a s line))).
    unfold bind at 1. rewrite on_lines_app.
    rewrite on_lines_unknown
      by (cbn [RunFilters.full_lines app]; apply status_lines_unknown).
    cbn [RunFilters.full_lines RunFilters.decided_kind RunFilters.acted
         RunFilters.remaining_rows app].
    set (st1 := RunFilters.mkStream _ RunFilters.unknown false remaining).
    set (w1 := mkWorld (fs (snd ch)) o (calls (snd ch)) (trace (snd ch)) None).
    change (skipn 6 (map (fun b => b ++ [10]) (report_lines (scraped e) a s line)))
      with [line ++ [10]; [] ++ [10]].
    cbn [RunFilters.on_lines]. unfold bind at 1.
    destruct (@on_line_decides url OUT_CSV hh col hs st1 (line ++ [10]) (kind_of p) w1
                eq_refl Hk Hu Hs eq_refl) as [D1 [D2 D3]].
    destruct (RunFilters.on_line url OUT_CSV hh col hs st1 (line ++ [10]) w1) as [r w2].
    cbn [fst snd] in D1, D2, D3. subst r.
    unfold bind at 1. rewrite on_line_acted by reflexivity. unfold ret.
    cbn [RunFilters.full_lines RunFilters.decided_kind RunFilters.acted
         RunFilters.remaining_rows st1].
    eexists. exists w2. split; [reflexivity|]. exact D2. }
  destruct E as [lines [w2 [E D2]]]. rewrite E. cbn [fst snd].
  set (ch := FilterPosts.main e url (mkWorld f [] c t None)) in *.
  split; [eauto|].
  split.
  { destruct p; cbn [kind_of] in *; try congruence; cbn; auto. }
  rewrite D2.
  destruct (List.length kept =? List.length remaining)%nat.
  - split; [apply done_after_done; exact Wd|].
    split; [rewrite done_after_other by discriminate; exact Wo|].
    intros q Q1 Q2. now apply done_after_other.
  - split.
    { rewrite fget_set_other by discriminate. apply done_after_done; exact Wd. }
    split; [now rewrite fget_set_same|].
    intros q Q1 Q2. rewrite fget_set_other by congruence. now apply done_after_other.
Qed.

Lemma runner_follows_the_verdict_witness :
  crash pending_world = None
  /\ processed (fs pending_world) (FilterPosts.normalize_url (Py.strip post_2)) = false
  /\ verdict scenario_env post_2 = Some (CSV_REJECTED, post_2, py "Rejected - w/admin")
  /\ (let res := RunFilters.run_and_act_streaming scenario_env post_2 OUT_CSV true (py "url")
                   [py "url"] pending_links pending_world in
      (exists lines,
          fst res = Ret (0, RunFilters.mkStream lines RunFilters.reject true
                              [[(py "url", Some permalink_2)]]))
      /\ fs (snd res) DONE_FILE = Some [[py "url"]; [post_2]]
      /\ fs (snd res) OUT_CSV = Some [[py "url"]; [permalink_2]]).
Proof.
  assert (H1 : crash pending_world = None) by reflexivity.
  assert (H2 : processed (fs pending_world) (FilterPosts.normalize_url (Py.strip post_2))
               = false) by (vm_compute; reflexivity).
  assert (H3 : verdict scenario_env post_2
               = Some (CSV_REJECTED, post_2, py "Rejected - w/admin"))
    by (vm_compute; reflexivity).
  split; [exact H1|]. split; [exact H2|]. split; [exact H3|].
  pose proof (@runner_follows_the_verdict scenario_env post_2 true (py "url") [py "url"]
                pending_links pending_world _ _ _ H1 H2 H3) as R.
  cbv zeta in R. destruct R as [[lines Hl] [_ [Hd [Ho _]]]]. cbv zeta.
  split; [exists lines; exact Hl|].
  split; [rewrite Hd; vm_compute; reflexivity|].
  rewrite Ho. vm_compute. reflexivity.
Defined.

(** ** The done-URLs file *)

Section DoneFile.

Import Py RunFilters.

(** The done-URLs file is in order when it is absent, empty, or begins
    with the header [ensure_done_header] writes. *)
Definition done_in_order (x : Csv.file) : Prop :=
  x = None \/ x = Some [] \/ exists body, x = Some ([py "url"] :: body).

Definition done_key (r : Csv.row) : str :=
  match r with
  | [] => []
  | c :: _ => normalize_url (strip c)
  end.

Lemma done_has_header (body : list Csv.row) (u : str) :
  done_has (Some ([py "url"] :: body)) u
  = existsb (fun r => truthy (done_key r) && eqb (done_key r) u)
            (filter (fun r => negb (Csv.is_blank r)) body).
Proof.
  unfold done_has. cbn [is_empty].
  set (col := match _find_url_column _ with Some c => _ | None => _ end).
  assert (Ec : col = py "url") by reflexivity.
  rewrite Ec. clear col Ec. cbn [Csv.dictreader].
  induction body as [|r body IH]; [reflexivity|].
  cbn [filter]. destruct r as [|c rest]; cbn [Csv.is_blank negb]; [exact IH|].
  cbn [map existsb]. rewrite IH. f_equal.
  assert (Eg : Csv.get (py "url") (Csv.record [py "url"] (c :: rest)) = Some c).
  { apply record_first. intros []. }
  rewrite Eg. reflexivity.
Qed.

Lemma key_of_key (u : str) :
  nospace u -> normalize_url (strip (normalize_url u)) = normalize_url u.
Proof.
  intros H. rewrite (run_filters_normalize_url_core H).
  rewrite strip_none by (apply nospace_canon_core; exact H).
  rewrite run_filters_normalize_url_core by (apply nospace_canon_core; exact H).
  apply canon_core_fixed.
Qed.

Lemma done_has_appended (body : list Csv.row) (u : str) :
  nospace u -> normalize_url u <> [] ->
  done_has (Some (([py "url"] :: body) ++ [[normalize_url u]])) (normalize_url u) = true.
Proof.
  intros H Hn. cbn [app]. rewrite done_has_header, filter_app, existsb_app.
  cbn [filter Csv.is_blank negb existsb done_key].
  rewrite (key_of_key H), eqb_refl.
  destruct (normalize_url u); [congruence|]. cbn. now rewrite orb_true_r.
Qed.

(** After [append_done_url_now], the file holds the header and the key
    is found. *)
Lemma done_after_has (u : str) (f : FS) :
  nospace u -> normalize_url u <> [] -> done_in_order (f DONE_FILE) ->
  (exists body, done_after u f DONE_FILE = Some ([py "url"] :: body))
  /\ done_has (done_after u f DONE_FILE) (normalize_url u) = true.
Proof.
  intros H Hn Ho. unfold done_after, done_header_fs. cbv zeta.
  assert (Et : negb (truthy (normalize_url u)) = false)
    by (destruct (normalize_url u); [congruence|reflexivity]).
  rewrite Et.
  assert (E : exists body,
             (if file_is_empty (f DONE_FILE)
              then fs_set DONE_FILE (Some [[py "url"]]) f else f) DONE_FILE
             = Some ([py "url"] :: body)).
  { destruct Ho as [E|[E|[body E]]]; rewrite E; cbn [file_is_empty is_empty].
    - rewrite fget_set_same. now exists [].
    - rewrite fget_set_same. now exists [].
    - eauto. }
  destruct E as [body E].
  set (f1 := if file_is_empty (f DONE_FILE)
             then fs_set DONE_FILE (Some [[py "url"]]) f else f) in *.
  destruct (done_has (f1 DONE_FILE) (normalize_url u)) eqn:Eh.
  - split; [eauto|exact Eh].
  - unfold append_fs, rows_of. rewrite fget_set_same, E.
    split; [cbn [app]; eauto|]. now apply done_has_appended.
Qed.

Lemma done_after_again (u : str) (f : FS) :
  (exists body, f DONE_FILE = Some ([py "url"] :: body)) ->
  done_has (f DONE_FILE) (normalize_url u) = true ->
  done_after u f = f.
Proof.
  intros [body E] Hh. unfold done_after, done_header_fs. cbv zeta.
  destruct (negb _); [reflexivity|].
  assert (Ee : file_is_empty (f DONE_FILE) = false) by (rewrite E; reflexivity).
  rewrite Ee, Hh. reflexivity.
Qed.

End DoneFile.

(** X21.  A URL put in the done-URLs file is found there again.
    For a URL without whitespace whose key is not empty, and a done-URLs
    file that is absent, empty or begins with the header [url]: after
    [append_done_url_now], [done_contains] answers [True] for the key, a
    second [append_done_url_now] changes no file, the file begins with the
    header, and no other file was written. *)
Theorem done_url_is_found_again :
  forall (u : Py.str) (w : World),
    crash w = None ->
    nospace u -> RunFilters.normalize_url u <> [] ->
    done_in_order (fs w DONE_FILE) ->
    let w1 := snd (RunFilters.append_done_url_now u w) in
    fst (RunFilters.done_contains (RunFilters.normalize_url u) w1) = Ret true
    /\ fs (snd (RunFilters.append_done_url_now u w1)) = fs w1
    /\ done_in_order (fs w1 DONE_FILE)
    /\ (forall q, q <> DONE_FILE -> fs w1 q = fs w q).
Proof.
  intros u w Hc Hs Hn Ho. cbv zeta.
  destruct (@append_done_url_now_fs u w Hc) as [_ [A2 A3]].
  destruct (@done_after_has u (fs w) Hs Hn Ho) as [Hb Hh].
  set (w1 := snd (RunFilters.append_done_url_now u w)) in *.
  rewrite done_contains_eq. cbn [fst]. rewrite A2.
  split; [now rewrite Hh|].
  destruct (@append_done_url_now_fs u w1 A3) as [_ [B2 _]].
  rewrite B2, A2.
  split; [apply done_after_again; assumption|].
  split; [right; right; exact Hb|].
  intros q Hq. now apply done_after_other.
Qed.

Lemma done_url_is_found_again_witness :
  crash quiet_world = None
  /\ nospace (post_2 ++ py "/?ref=share")
  /\ RunFilters.normalize_url (post_2 ++ py "/?ref=share") <> []
  /\ done_in_order (fs quiet_world DONE_FILE)
  /\ (let w1 := snd (RunFilters.append_done_url_now (post_2 ++ py "/?ref=share") quiet_world) in
      fs w1 DONE_FILE = Some [[py "url"]; [post_2]]
      /\ fst (RunFilters.done_contains
                (RunFilters.normalize_url (post_2 ++ py "/?ref=share")) w1) = Ret true
      /\ fs (snd (RunFilters.append_done_url_now (post_2 ++ py "/?ref=share") w1)) = fs w1).
Proof.
  assert (H1 : crash quiet_world = None) by reflexivity.
  assert (H2 : nospace (post_2 ++ py "/?ref=share"))
    by (apply nospace_of_forallb; vm_compute; reflexivity).
  assert (H3 : RunFilters.normalize_url (post_2 ++ py "/?ref=share") <> [])
    by (vm_compute; discriminate).
  assert (H4 : done_in_order (fs quiet_world DONE_FILE)) by (left; reflexivity).
  split; [exact H1|]. split; [exact H2|]. split; [exact H3|]. split; [exact H4|].
  pose proof (@done_url_is_found_again (post_2 ++ py "/?ref=share") quiet_world
                H1 H2 H3 H4) as R.
  cbv zeta in R. destruct R as [R1' [R2' _]]. cbv zeta.
  split; [vm_compute; reflexivity|]. split; [exact R1'|exact R2'].
Defined.

(** ** A ledger that exists and is empty *)

Section EmptyLedger.

Import Py FilterPosts.

(** A file of one record holds a header and nothing else. *)
Lemma url_in_rows_single (r : Csv.row) (u : str) : url_in_rows [r] u = false.
Proof.
  unfold url_in_rows. destruct (_find_url_column _); [|reflexivity].
  destruct (negb _); reflexivity.
Qed.

(** The file system after a run whose verdict is filed as one row. *)
Lemma main_single_row_fs e argv1 f o c t p K status :
  processed f (normalize_url (strip argv1)) = false ->
  verdict e argv1 = Some (p, K, status) ->
  p <> CSV_NONADMIN ->
  exists cells,
    fs (snd (main e argv1 (mkWorld f o c t None)))
    = log_fs [K; str_of_N (scraped e); status]
        (if in_file (f p) K then f
         else append_fs p [K :: cells] (ensure_fs p (header_of p) f)).
Proof.
  intros Ep Hv Hp. unfold verdict, scraped in *.
  destruct (post_comments e) as [pc|out] eqn:Epc; [|discriminate].
  rewrite (@main_eq e argv1 pc f o c t None Epc Ep). cbv zeta in *.
  set (staff := load_staff_names (staff_file e)) in *.
  set (norm := normalize_url (strip argv1)) in *.
  set (admin := filter (fun cm => is_admin_like cm staff) (comments_of pc)) in *.
  destruct (is_empty admin) eqn:Ea; cbn [negb] in *.
  - destruct (filter (fun cm => text_matches_targets (Some (text cm))) (comments_of pc))
      as [|first others] eqn:Es; cbn [is_empty negb] in Hv.
    + injection Hv as <- <- <-. rewrite rejected_no_admin_eq. cbv zeta.
      exists [DASH; DASH]. cbn [snd fs header_of].
      now destruct (in_file _ _).
    + destruct (post_details e) as [pd|out] eqn:Epd; [|discriminate].
      injection Hv as <- <- <-. congruence.
  - set (snake := filter (fun cm => text_matches_targets (Some (text cm))) admin) in *.
    destruct (is_empty snake) eqn:Es; cbn [negb] in *.
    + injection Hv as <- <- <-.
      destruct (@rejected_with_admin_eq norm (scraped_total_of pc) admin f
                  (o ++ status_block (scraped_total_of pc) true false)
                  (c ++ [(POST_COMMENTS, strip argv1)]) t Ea)
        as [chosen [_ [_ E]]].
      rewrite E. cbv zeta. eexists.
      cbn [snd fs header_of]. destruct (in_file _ _); reflexivity.
    + destruct (post_details e) as [pd|out] eqn:Epd; [|discriminate].
      injection Hv as <- <- <-.
      destruct (@accepted_eq e pc pd (strip argv1) norm (scraped_total_of pc) snake f
                  (o ++ status_block (scraped_total_of pc) true true)
                  (c ++ [(POST_COMMENTS, strip argv1)]) t Epd Es)
        as [chosen [_ E]].
      rewrite E. cbv zeta. eexists.
      cbn [snd fs header_of]. destruct (in_file _ _); reflexivity.
Qed.

End EmptyLedger.

(** X22.  [ensure_csv_with_header] writes the header into a
    missing file only.  When the ledger of an accepted or rejected post
    exists and is empty, the row of the post becomes the first record of
    the file, where a reader takes it for the header: the membership test
    of [url_in_csv] on that ledger does not find the post afterwards. *)
Theorem empty_ledger_hides_the_post :
  forall (e : FilterPosts.Env) (argv1 : Py.str) (w : World)
         (p : path) (K status : Py.str),
    crash w = None ->
    processed (fs w) (FilterPosts.normalize_url (Py.strip argv1)) = false ->
    verdict e argv1 = Some (p, K, status) ->
    p <> CSV_NONADMIN ->
    fs w p = Some [] ->
    let f' := fs (snd (FilterPosts.main e argv1 w)) in
    (exists cells, f' p = Some [K :: cells])
    /\ in_file (f' p) K = false.
Proof.
  intros e argv1 w p K status Hc Ep Hv Hp He. cbv zeta.
  destruct w as [f o c t cr]. cbn [crash fs] in *. subst cr.
  destruct (@main_single_row_fs e argv1 f o c t p K status Ep Hv Hp) as [cells E].
  destruct (@verdict_ledger e argv1 p K status Hv) as [Hl _].
  rewrite E.
  assert (Hq : CSV_LOG <> p) by (destruct Hl as [->|[->| ->]]; discriminate).
  rewrite (log_fs_other _ _ Hq).
  rewrite He. cbn [in_file]. change (FilterPosts.url_in_rows [] K) with false.
  cbv iota. unfold append_fs, ensure_fs, rows_of. rewrite He.
  rewrite fget_set_same, He. cbn [app].
  split; [eauto|]. cbn [in_file]. apply url_in_rows_single.
Qed.

Lemma empty_ledger_hides_the_post_witness :
  crash touched_world = None
  /\ processed (fs touched_world) (FilterPosts.normalize_url (Py.strip post_2)) = false
  /\ verdict scenario_env post_2 = Some (CSV_REJECTED, post_2, py "Rejected - w/admin")
  /\ CSV_REJECTED <> CSV_NONADMIN
  /\ fs touched_world CSV_REJECTED = Some []
  /\ fs (snd (FilterPosts.main scenario_env post_2 touched_world)) CSV_REJECTED
     = Some [[post_2; py "Mod"; py "#admin noted, not relevant"]]
  /\ in_file (fs (snd (FilterPosts.main scenario_env post_2 touched_world)) CSV_REJECTED)
       post_2 = false.
Proof.
  assert (H1 : crash touched_world = None) by reflexivity.
  assert (H2 : processed (fs touched_world) (FilterPosts.normalize_url (Py.strip post_2))
               = false) by (vm_compute; reflexivity).
  assert (H3 : verdict scenario_env post_2
               = Some (CSV_REJECTED, post_2, py "Rejected - w/admin"))
    by (vm_compute; reflexivity).
  assert (H4 : CSV_REJECTED <> CSV_NONADMIN) by discriminate.
  assert (H5 : fs touched_world CSV_REJECTED = Some []) by reflexivity.
  split; [exact H1|]. split; [exact H2|]. split; [exact H3|]. split; [exact H4|].
  split; [exact H5|].
  pose proof (@empty_ledger_hides_the_post scenario_env post_2 touched_world _ _ _
                H1 H2 H3 H4 H5) as R.
  cbv zeta in R. destruct R as [_ R2']. split; [vm_compute; reflexivity|exact R2'].
Defined.

(** ** Reading and rewriting the work-list *)

Section WorkList.

Import Py RunFilters.

(** A row brought to [n] cells: cut, or filled up with empty cells. *)
Fixpoint fit (n : nat) (r : Csv.row) : Csv.row :=
  match n with
  | O => []
  | S n' => or_empty (hd_error r) :: fit n' (tl r)
  end.

(** The cell of [r] under the first header equal to [h]. *)
Fixpoint cell_at (h : str) (hs : list str) (r : Csv.row) : option str :=
  match hs with
  | [] => None
  | h0 :: hs' => if eqb h0 h then hd_error r else cell_at h hs' (tl r)
  end.

Lemma str_in_dec (h : str) (l : list str) : {In h l} + {~ In h l}.
Proof. apply in_dec. apply list_eq_dec. apply N.eq_dec. Qed.

Lemma in_skipn_in {A} (n : nat) (l : list A) (a : A) : In a (skipn n l) -> In a l.
Proof.
  revert l. induction n as [|n IH]; intros l H; [exact H|].
  destruct l as [|b l]; [exact H|]. right. now apply IH.
Qed.

Lemma fold_set_get {V} (val : str -> V) (h : str) (l : list str) :
  In h l ->
  forall d, Csv.dict_get h (fold_left (fun d a => Csv.dict_set a (val a) d) l d)
            = Some (val h).
Proof.
  induction l as [|a l IH]; intros Hin d; [destruct Hin|].
  cbn [fold_left]. destruct (str_in_dec h l) as [Hl|Hl]; [now apply IH|].
  destruct Hin as [->|Hin]; [|contradiction].
  rewrite (@dict_get_fold_other V str h (fun a => a) val l).
  - apply dict_get_set_same.
  - intros a Ha ->. contradiction.
Qed.

Lemma cell_at_nil (h : str) (hs : list str) : cell_at h hs [] = None.
Proof. induction hs as [|h0 hs IH]; cbn; [reflexivity|]. now destruct (eqb h0 h). Qed.

Lemma record_get (hs : list str) :
  NoDup hs ->
  forall (r : Csv.row) (d : Csv.dict (option str)) (h : str),
    In h hs ->
    Csv.dict_get h
      (fold_left (fun d k => Csv.dict_set k None d) (skipn (List.length r) hs)
         (fold_left (fun d kv => Csv.dict_set (fst kv) (Some (snd kv)) d) (combine hs r) d))
    = Some (cell_at h hs r).
Proof.
  induction 1 as [|h0 hs Hh0 Hnd IH]; intros r d h Hin; [destruct Hin|].
  destruct r as [|c r].
  - cbn [combine List.length skipn fold_left]. rewrite cell_at_nil.
    apply (@fold_set_get (option str) (fun _ => None) h (h0 :: hs) Hin).
  - cbn [combine List.length skipn fold_left cell_at hd_error tl fst snd].
    destruct (eqb h0 h) eqn:E.
    + apply eqb_eq in E. subst h.
      rewrite (@dict_get_fold_other _ _ h0 (fun x => x) (fun _ : str => @None str)).
      * rewrite (@dict_get_fold_other _ _ h0 (@fst str str) (fun kv => Some (snd kv))).
        -- apply dict_get_set_same.
        -- intros [a b] Ha. apply in_combine_l in Ha. cbn. congruence.
      * intros a Ha ->. apply Hh0. exact (in_skipn_in _ _ _ Ha).
    + apply IH. destruct Hin as [->|Hin]; [|exact Hin].
      rewrite eqb_refl in E. discriminate.
Qed.

Lemma cell_project_record (hs : list str) (r : Csv.row) (h : str) :
  NoDup hs -> In h hs ->
  cell h (project hs (Csv.record hs r)) = or_empty (cell_at h hs r).
Proof.
  intros Hnd Hin. unfold cell, project.
  rewrite (@fold_set_get (option str)
             (fun h => match Csv.dict_get h (Csv.record hs r) with
                       | Some v => v
                       | None => Some []
                       end) h hs Hin).
  unfold Csv.record. now rewrite (record_get Hnd r [] h Hin).
Qed.

Lemma cells_fit (hs : list str) :
  NoDup hs ->
  forall r, map (fun h => or_empty (cell_at h hs r)) hs = fit (List.length hs) r.
Proof.
  induction 1 as [|h0 hs Hh0 Hnd IH]; intros r; [reflexivity|].
  cbn [map List.length fit cell_at]. rewrite eqb_refl. f_equal.
  rewrite <- IH. apply map_ext_in. intros h Hin.
  destruct (eqb h0 h) eqn:E; [|reflexivity].
  apply eqb_eq in E. subst. contradiction.
Qed.

Lemma fit_same (r : Csv.row) : fit (List.length r) r = r.
Proof. induction r as [|c r IH]; cbn; [reflexivity|]. now rewrite IH. Qed.

(** What [write_rows_now] writes for the rows [read_rows] made of a
    file with a header. *)
Lemma written_of_read (hs : list str) (body : list Csv.row) :
  NoDup hs ->
  written true hs (map (project hs) (Csv.dictreader (hs :: body)))
  = hs :: map (fit (List.length hs)) (filter (fun r => negb (Csv.is_blank r)) body).
Proof.
  intros Hnd. unfold written. cbn [Csv.dictreader]. f_equal.
  rewrite !map_map. apply map_ext. intros r.
  rewrite <- (cells_fit Hnd). apply map_ext_in. intros h Hin.
  now apply cell_project_record.
Qed.

Lemma find_url_column_in (hs : list str) (c : str) :
  find_url_column hs = Some c -> In c hs.
Proof.
  unfold find_url_column. destruct hs as [|h0 hs]; [discriminate|].
  destruct (find _ (h0 :: hs)) eqn:E1.
  { intros [= <-]. now apply find_some in E1. }
  clear E1. destruct (find _ (h0 :: hs)) eqn:E2.
  { intros [= <-]. now apply find_some in E2. }
  intros [= <-]. now left.
Qed.

End WorkList.

(** X23.  Reading the work-list and writing it back.  For a file
    with a header of distinct, non-empty names, [read_rows] returns a URL
    column that is one of the names, and [write_rows_now] on the rows it
    returns writes the header followed by the records that are not blank,
    each cut or filled up with empty cells to the width of the header.  When
    every record has the width of the header, the file is written back as
    it was. *)
Theorem worklist_read_then_rewritten :
  forall (p : path) (headers : list Py.str) (body : list Csv.row) (w : World),
    crash w = None ->
    fs w p = Some (headers :: body) ->
    NoDup headers -> headers <> [] -> Forall (fun h => h <> []) headers ->
    exists col rows,
      In col headers
      /\ RunFilters.read_rows true p w = (Ret (true, col, rows, headers), w)
      /\ fs (snd (RunFilters.write_rows_now p true headers rows w)) p
         = Some (headers :: map (fit (List.length headers))
                              (filter (fun r => negb (Csv.is_blank r)) body))
      /\ (Forall (fun r => List.length r = List.length headers) body ->
          fs (snd (RunFilters.write_rows_now p true headers rows w)) = fs w).
Proof.
  intros p hs body w Hc Hf Hnd Hne Hh.
  destruct (RunFilters.find_url_column hs) as [col|] eqn:Ecol.
  2:{ unfold RunFilters.find_url_column in Ecol. destruct hs; [congruence|].
      destruct (find _ _); [discriminate|]. destruct (find _ _); discriminate. }
  pose proof (find_url_column_in _ Ecol) as Hin.
  assert (Ht : Py.truthy col = true).
  { rewrite Forall_forall in Hh. specialize (Hh col Hin). now destruct col. }
  exists col, (map (RunFilters.project hs) (Csv.dictreader (hs :: body))).
  split; [exact Hin|].
  split.
  { unfold RunFilters.read_rows, bind, read_file. rewrite Hf.
    cbn [Csv.fieldnames]. now rewrite Ecol, Ht. }
  destruct w as [f o c t cr]. cbn [crash fs] in *. subst cr.
  destruct (@write_rows_now_fs p true hs
              (map (RunFilters.project hs) (Csv.dictreader (hs :: body))) f o c t)
    as [_ [Hw _]].
  rewrite Hw, fget_set_same, (written_of_read body Hnd).
  split; [reflexivity|].
  intros Hb.
  assert (E : map (fit (List.length hs)) (filter (fun r => negb (Csv.is_blank r)) body)
              = body).
  { clear - Hb Hne. induction Hb as [|r body Hr Hb IH]; [reflexivity|].
    cbn [filter]. destruct r as [|c r].
    - destruct hs; [congruence|discriminate].
    - cbn [Csv.is_blank negb map]. rewrite IH. f_equal.
      rewrite <- Hr. apply fit_same. }
  rewrite E. transitivity (fs_set p (f p) f); [now rewrite Hf|apply fs_set_id].
Qed.

Lemma worklist_read_then_rewritten_witness :
  crash pending_world = None
  /\ fs pending_world OUT_CSV = Some ([py "url"] :: [[post_2]; [permalink_2]])
  /\ NoDup [py "url"] /\ [py "url"] <> [] /\ Forall (fun h => h <> []) [py "url"]
  /\ exists col rows,
       RunFilters.read_rows true OUT_CSV pending_world
       = (Ret (true, col, rows, [py "url"]), pending_world)
       /\ fs (snd (RunFilters.write_rows_now OUT_CSV true [py "url"] rows pending_world))
          = fs pending_world.
Proof.
  assert (H1 : crash pending_world = None) by reflexivity.
  assert (H2 : fs pending_world OUT_CSV = Some ([py "url"] :: [[post_2]; [permalink_2]]))
    by reflexivity.
  assert (H3 : NoDup [py "url"]) by (constructor; [intros []|constructor]).
  assert (H4 : [py "url"] <> []) by discriminate.
  assert (H5 : Forall (fun h : Py.str => h <> []) [py "url"])
    by (constructor; [discriminate|constructor]).
  split; [exact H1|]. split; [exact H2|]. split; [exact H3|]. split; [exact H4|].
  split; [exact H5|].
  destruct (@worklist_read_then_rewritten OUT_CSV [py "url"] [[post_2]; [permalink_2]]
              pending_world H1 H2 H3 H4 H5) as [col [rows [_ [Hr [_ Hw]]]]].
  exists col, rows. split; [exact Hr|]. apply Hw.
  repeat constructor.
Defined.

(** X24.  A work-list read without a header keeps first cells
    only: [read_rows] names the column [url], and [write_rows_now] on the
    rows it returns writes, for each record that is not blank, its first
    cell with the surrounding whitespace removed, and nothing else. *)
Theorem headerless_worklist_keeps_first_cells :
  forall (p : path) (content : list Csv.row) (w : World),
    crash w = None ->
    fs w p = Some content ->
    exists rows,
      RunFilters.read_rows false p w = (Ret (false, py "url", rows, [py "url"]), w)
      /\ fs (snd (RunFilters.write_rows_now p false [py "url"] rows w)) p
         = Some (map (fun r => [Py.strip (hd [] r)])
                     (filter (fun r => negb (Csv.is_blank r)) content)).
Proof.
  intros p content w Hc Hf.
  eexists. split.
  { unfold RunFilters.read_rows, bind, read_file. rewrite Hf. reflexivity. }
  destruct w as [f o c t cr]. cbn [crash fs] in *. subst cr.
  match goal with
  | |- context [RunFilters.write_rows_now p false [py "url"] ?rows _] =>
      destruct (@write_rows_now_fs p false [py "url"] rows f o c t) as [_ [Hw _]]
  end.
  rewrite Hw, fget_set_same. f_equal. unfold written. clear.
  induction content as [|r content IH]; [reflexivity|].
  destruct r as [|c r]; cbn [flat_map filter Csv.is_blank negb app map hd]; [exact IH|].
  now rewrite IH.
Qed.

Lemma headerless_worklist_keeps_first_cells_witness :
  crash pending_world = None
  /\ fs pending_world OUT_CSV = Some [[py "url"]; [post_2]; [permalink_2]]
  /\ exists rows,
       RunFilters.read_rows false OUT_CSV pending_world
       = (Ret (false, py "url", rows, [py "url"]), pending_world)
       /\ fs (snd (RunFilters.write_rows_now OUT_CSV false [py "url"] rows pending_world))
            OUT_CSV
          = Some [[py "url"]; [post_2]; [permalink_2]].
Proof.
  assert (H1 : crash pending_world = None) by reflexivity.
  assert (H2 : fs pending_world OUT_CSV = Some [[py "url"]; [post_2]; [permalink_2]])
    by reflexivity.
  split; [exact H1|]. split; [exact H2|].
  destruct (@headerless_worklist_keeps_first_cells OUT_CSV _ pending_world H1 H2)
    as [rows [Hr Hw]].
  exists rows. split; [exact Hr|]. rewrite Hw. vm_compute. reflexivity.
Defined.

(** ** A run without a decision *)

Section Undecided.

Import Py RunFilters.

(** What holds of the loop state of [run_and_act_streaming] after any
    number of lines. *)
Definition settled (st0 st : Stream) (w0 w : World) : Prop :=
  if acted st then decided_kind st <> unknown
  else decided_kind st = unknown
       /\ classify_result_text (List.concat (full_lines st)) = unknown
       /\ remaining_rows st = remaining_rows st0 /\ w = w0.

Lemma on_line_settled url p hh col hs st0 st line (w0 w w' : World) (st' : Stream) :
  settled st0 st w0 w ->
  on_line url p hh col hs st line w = (Ret st', w') ->
  settled st0 st' w0 w'.
Proof.
  unfold settled, on_line. cbv zeta.
  destruct (acted st) eqn:Ea; cbn [orb].
  - intros H [= <- <-]. cbn [acted decided_kind]. exact H.
  - intros [H1 [H2 [H3 H4]]].
    set (k := if kind_eqb (classify_result_text line) unknown
              then classify_result_text (List.concat (full_lines st ++ [line]))
              else classify_result_text line).
    assert (Hk : kind_eqb k unknown = true ->
                 classify_result_text (List.concat (full_lines st ++ [line])) = unknown).
    { unfold k. destruct (classify_result_text line) eqn:E1; cbn [kind_eqb]; try discriminate.
      now destruct (classify_result_text (List.concat (full_lines st ++ [line]))). }
    destruct (kind_eqb k unknown) eqn:Ek.
    + intros [= <- <-]. cbn [acted decided_kind full_lines remaining_rows].
      auto.
    + destruct k; try discriminate; unfold bind;
        repeat match goal with
               | |- context [match ?m ?x with pair _ _ => _ end] =>
                   destruct (m x) as [[?| |] ?]
               end;
        try discriminate; unfold ret; intros [= <- <-]; cbn [acted decided_kind];
        discriminate.
Qed.

Lemma on_lines_settled url p hh col hs st0 (lines : list str) :
  forall st (w0 w w' : World) (st' : Stream),
    settled st0 st w0 w ->
    on_lines url p hh col hs st lines w = (Ret st', w') ->
    settled st0 st' w0 w'.
Proof.
  induction lines as [|l lines IH]; intros st w0 w w' st' H; cbn [on_lines].
  - now intros [= <- <-].
  - unfold bind. destruct (on_line url p hh col hs st l w) as [[st1| |] w1] eqn:E;
      try discriminate.
    intros E2. eapply IH; [eapply on_line_settled; [exact H|exact E]|exact E2].
Qed.

End Undecided.

(** X25.  When [run_and_act_streaming] returns the kind
    [unknown], the whole output it returns carries no marker either:
    [classify_result_text] on the joined lines is [unknown].  The runner has
    not acted, it returns the rows it was given, and it has written none of
    the six CSV files: the done-URLs file, the work-list, the ledgers and
    the run log of the filter are as the child left them. *)
Theorem runner_undecided_means_no_marker :
  forall (e : FilterPosts.Env) (url : Py.str) (has_header : bool) (url_col : Py.str)
         (headers : list Py.str) (remaining : list RunFilters.Row) (w w' : World)
         (rc : N) (st : RunFilters.Stream),
    RunFilters.run_and_act_streaming e url OUT_CSV has_header url_col headers remaining w
    = (Ret (rc, st), w') ->
    RunFilters.decided_kind st = RunFilters.unknown ->
    RunFilters.classify_result_text (List.concat (RunFilters.full_lines st))
    = RunFilters.unknown
    /\ RunFilters.acted st = false
    /\ RunFilters.remaining_rows st = remaining
    /\ fs w' = fs (snd (child e url w)).
Proof.
  intros e url hh col hs remaining w w' rc st E Hk.
  unfold RunFilters.run_and_act_streaming, child in *.
  set (ch := FilterPosts.main e url _) in *.
  unfold bind in E.
  set (w1 := mkWorld (fs (snd ch)) (stdout w) (calls (snd ch)) (trace (snd ch)) None) in *.
  destruct (RunFilters.on_lines url OUT_CSV hh col hs
              (RunFilters.mkStream [] RunFilters.unknown false remaining)
              (RunFilters.child_lines (stdout (snd ch))) w1)
    as [[st1| |] w2] eqn:El; try discriminate.
  unfold ret in E. injection E as <- <- <-.
  assert (H0 : settled (RunFilters.mkStream [] RunFilters.unknown false remaining)
                 (RunFilters.mkStream [] RunFilters.unknown false remaining) w1 w1).
  { unfold settled. cbn. auto. }
  assert (H : settled (RunFilters.mkStream [] RunFilters.unknown false remaining)
                st1 w1 w2) by (eapply on_lines_settled; [exact H0|exact El]).
  unfold settled in H.
  destruct (RunFilters.acted st1); [congruence|].
  destruct H as [_ [H2 [H3 H4]]]. subst w2. auto.
Qed.

Lemma runner_undecided_means_no_marker_witness :
  let st := RunFilters.mkStream
              [py "Could not find JSON in /app/postComments.py output." ++ [10];
               py "Traceback" ++ [10]]
              RunFilters.unknown false pending_links in
  let w' := snd (RunFilters.run_and_act_streaming silent_env post_2 OUT_CSV true (py "url")
                   [py "url"] pending_links pending_world) in
  RunFilters.run_and_act_streaming silent_env post_2 OUT_CSV true (py "url") [py "url"]
    pending_links pending_world = (Ret (1, st), w')
  /\ RunFilters.decided_kind st = RunFilters.unknown
  /\ RunFilters.classify_result_text (List.concat (RunFilters.full_lines st))
     = RunFilters.unknown
  /\ fs w' = fs pending_world.
Proof.
  cbv zeta.
  assert (E : RunFilters.run_and_act_streaming silent_env post_2 OUT_CSV true (py "url")
                [py "url"] pending_links pending_world
              = (Ret (1, RunFilters.mkStream
                           [py "Could not find JSON in /app/postComments.py output." ++ [10];
                            py "Traceback" ++ [10]]
                           RunFilters.unknown false pending_links),
                 snd (RunFilters.run_and_act_streaming silent_env post_2 OUT_CSV true
                        (py "url") [py "url"] pending_links pending_world)))
    by (vm_compute; reflexivity).
  split; [exact E|]. split; [reflexivity|].
  destruct (@runner_undecided_means_no_marker silent_env post_2 true (py "url") [py "url"]
              pending_links pending_world _ _ _ E eq_refl) as [Hk [_ [_ Hf]]].
  split; [exact Hk|]. rewrite Hf. vm_compute. reflexivity.
Defined.

(** ** The page the crawler opens *)

Section StartUrl.

Import Py Re ScrapePosts.

Definition stop (c : char) : bool := (c =? 35) || (c =? 63).

Lemma cut_cons (c : char) (s : str) : cut (c :: s) = if stop c then [] else c :: cut s.
Proof.
  unfold cut, stop. cbn [before].
  destruct (c =? 35) eqn:E1; cbn [orb before].
  - reflexivity.
  - now destruct (c =? 63).
Qed.

Lemma cut_app (a t : str) : cut (a ++ t) = if existsb stop a then cut a else a ++ cut t.
Proof.
  induction a as [|c a IH]; [reflexivity|].
  cbn [app existsb]. rewrite !cut_cons, IH.
  destruct (stop c); cbn [orb]; [reflexivity|]. now destruct (existsb stop a).
Qed.

Lemma cut_none (a : str) : existsb stop a = false -> cut a = a.
Proof.
  induction a as [|c a IH]; [reflexivity|]. cbn [existsb]. rewrite cut_cons.
  destruct (stop c); [discriminate|]. cbn [orb]. intros H. now rewrite IH.
Qed.

(** What follows a [?] or [&] that comes after a [?] is cut. *)
Lemma cut_query (a s : str) (sep : char) :
  sep = 63 \/ existsb stop a = true ->
  stop sep = true \/ existsb stop a = true ->
  cut (a ++ sep :: s) = cut a.
Proof.
  intros _ H. rewrite cut_app. destruct (existsb stop a) eqn:E; [reflexivity|].
  destruct H as [H|H]; [|discriminate].
  rewrite cut_cons, H, app_nil_r. symmetry. now apply cut_none.
Qed.

Lemma startswith_ci_stop (p : str) (c : char) (s : str) :
  Forall (fun x => ci_match x c = false) p -> p <> [] ->
  forall y, startswith_ci p (y ++ c :: s) = startswith_ci p y.
Proof.
  induction 1 as [|x p Hx Hp IH]; [congruence|]. intros _ y.
  destruct y as [|b y]; cbn [app startswith_ci].
  - now rewrite Hx.
  - destruct p as [|x' p]; [reflexivity|]. f_equal. apply IH. discriminate.
Qed.

Lemma skipn_matched (p : str) (t : str) :
  forall y, startswith_ci p y = true ->
            skipn (List.length p) (y ++ t) = skipn (List.length p) y ++ t.
Proof.
  induction p as [|x p IH]; intros y H; [reflexivity|].
  destruct y as [|b y]; [discriminate|]. cbn [startswith_ci] in H.
  apply andb_true_iff in H. cbn [List.length skipn app]. apply IH. tauto.
Qed.

Lemma stop_matched (p : str) :
  Forall (fun x => forall c, ci_match x c = true -> stop c = false) p ->
  forall y, startswith_ci p y = true ->
            existsb stop (skipn (List.length p) y) = existsb stop y.
Proof.
  induction 1 as [|x p Hx Hp IH]; intros y H; [reflexivity|].
  destruct y as [|b y]; [discriminate|]. cbn [startswith_ci] in H.
  apply andb_true_iff in H. destruct H as [H1 H2].
  cbn [List.length skipn existsb]. rewrite (Hx b H1). cbn [orb]. now apply IH.
Qed.

Lemma contains_stop (u : str) : contains [63] u = true -> existsb stop u = true.
Proof.
  induction u as [|c u IH]; [discriminate|].
  cbn [contains startswith existsb]. rewrite andb_true_r. unfold stop at 1.
  rewrite (N.eqb_sym 63 c). destruct (c =? 63); [now rewrite orb_true_r|].
  cbn [orb]. rewrite orb_false_r. intros H. rewrite IH by exact H. apply orb_true_r.
Qed.

Lemma sub_http_app (y s : str) (sep : char) :
  sep = 63 \/ sep = 38 -> sub_http (y ++ sep :: s) = sub_http y ++ sep :: s.
Proof.
  intros Hsep. unfold sub_http.
  rewrite (@startswith_ci_stop (py "http://") sep s);
    [|destruct Hsep as [->| ->]; apply Forall_false_of_forallb; vm_compute; reflexivity
     |discriminate].
  destruct (startswith_ci (py "http://") y) eqn:Ey; [|reflexivity].
  pose proof (@skipn_matched (py "http://") (sep :: s) y Ey) as E7.
  change (List.length (py "http://")) with 7%nat in E7.
  rewrite E7. now rewrite <- app_assoc.
Qed.

Lemma with_scheme_app (u s : str) (sep : char) :
  u <> [] -> sep = 63 \/ sep = 38 ->
  with_scheme (u ++ sep :: s) = with_scheme u ++ sep :: s.
Proof.
  intros Hu Hsep. unfold with_scheme.
  set (y := if startswith (py "/") u then py "https://www.facebook.com" ++ u else u).
  assert (E : sub_http (if startswith (py "/") (u ++ sep :: s)
                        then py "https://www.facebook.com" ++ u ++ sep :: s
                        else u ++ sep :: s)
              = sub_http (y ++ sep :: s)).
  { f_equal. unfold y. destruct u as [|c u]; [congruence|].
    assert (E0 : startswith (py "/") ((c :: u) ++ sep :: s) = startswith (py "/") (c :: u))
      by reflexivity.
    rewrite E0. destruct (startswith (py "/") (c :: u)); [now rewrite app_assoc|reflexivity]. }
  rewrite E. exact (sub_http_app y s Hsep).
Qed.

Lemma stop_sub_http (y : str) : existsb stop y = true -> existsb stop (sub_http y) = true.
Proof.
  intros Hy. unfold sub_http.
  destruct (startswith_ci (py "http://") y) eqn:Ey; [|exact Hy].
  rewrite existsb_app.
  assert (Hp : Forall (fun x => forall c, ci_match x c = true -> stop c = false)
                 (py "http://")).
  { repeat (apply Forall_cons;
            [intros c Hc; unfold stop;
             destruct (c =? 35) eqn:E1;
             [apply N.eqb_eq in E1; subst c; vm_compute in Hc; discriminate|];
             destruct (c =? 63) eqn:E2;
             [apply N.eqb_eq in E2; subst c; vm_compute in Hc; discriminate|];
             reflexivity|]).
    constructor. }
  pose proof (@stop_matched (py "http://") Hp y Ey) as E7.
  change (List.length (py "http://")) with 7%nat in E7.
  rewrite E7, Hy. apply orb_true_r.
Qed.

Lemma stop_with_scheme (u : str) :
  existsb stop u = true -> existsb stop (with_scheme u) = true.
Proof.
  intros H. unfold with_scheme. apply stop_sub_http.
  destruct (startswith (py "/") u); [|exact H].
  rewrite existsb_app, H. apply orb_true_r.
Qed.

Lemma canonicalize_query (u s : str) (sep : char) :
  nospace u -> u <> [] -> nospace (sep :: s) ->
  sep = 63 \/ (sep = 38 /\ contains [63] u = true) ->
  canonicalize_url (u ++ sep :: s) = canonicalize_url u.
Proof.
  intros H Hu Hs Hsep.
  assert (Hx : nospace (u ++ sep :: s)) by (apply Forall_app; now split).
  rewrite (canonicalize_url_canon Hx), (canonicalize_url_canon H).
  destruct u as [|c u]; [congruence|].
  change (truthy (c :: u)) with true. cbv iota.
  change (truthy ((c :: u) ++ sep :: s)) with true. cbv iota.
  unfold canon_core. rewrite !cut_R. do 3 f_equal.
  rewrite with_scheme_app by (try discriminate; tauto).
  rewrite cut_app.
  destruct (existsb stop (with_scheme (c :: u))) eqn:Es; [reflexivity|].
  rewrite cut_cons.
  assert (Hstop : stop sep = true).
  { destruct Hsep as [->|[_ Ec]]; [reflexivity|].
    rewrite (@stop_with_scheme (c :: u) (@contains_stop (c :: u) Ec)) in Es. discriminate. }
  rewrite Hstop, app_nil_r. symmetry. now apply cut_none.
Qed.

Lemma canonicalize_force_chronological (u : str) :
  nospace u -> canonicalize_url (force_chronological u) = canonicalize_url u.
Proof.
  intros H. destruct u as [|c u]; [reflexivity|].
  unfold force_chronological. cbv zeta.
  destruct (contains [63] (c :: u)) eqn:Ec.
  - apply (@canonicalize_query (c :: u) (py "sorting_setting=CHRONOLOGICAL") 38 H);
      [discriminate|apply nospace_of_forallb; vm_compute; reflexivity|auto].
  - apply (@canonicalize_query (c :: u) (py "sorting_setting=CHRONOLOGICAL") 63 H);
      [discriminate|apply nospace_of_forallb; vm_compute; reflexivity|auto].
Qed.

End StartUrl.

Section Mobile.

Import Py Re ScrapePosts.

Lemma contains_colon (p : str) (s : str) :
  In 58 p -> Forall (fun c => c <> 58) s -> contains p s = false.
Proof.
  intros Hp Hs. destruct (contains p s) eqn:E; [|reflexivity]. exfalso.
  induction Hs as [|c s Hc Hs IH].
  - destruct p; [destruct Hp|discriminate].
  - cbn [contains] in E. apply orb_true_iff in E. destruct E as [E|E]; [|auto].
    apply startswith_prefix in E. destruct E as [r E].
    assert (Hin : In 58 (c :: s)) by (rewrite E; apply in_or_app; now left).
    destruct Hin as [->|Hin]; [congruence|].
    rewrite Forall_forall in Hs. exact (Hs 58 Hin eq_refl).
Qed.

Lemma replace_colon (old new s : str) :
  In 58 old -> Forall (fun c => c <> 58) s -> replace old new s = s.
Proof. intros Ho Hs. apply replace_free. now apply contains_colon. Qed.

Definition WWW : str := py "https://www.facebook.com".
Definition WWW_PLAIN : str := py "http://www.facebook.com".
Definition MOBILE : str := py "https://m.facebook.com".

Lemma to_mobile_www (rest : str) :
  Forall (fun c => c <> 58) rest -> to_mobile (WWW ++ rest) = MOBILE ++ rest.
Proof.
  intros H. unfold to_mobile.
  assert (E1 : replace (py "https://www.facebook.com") (py "https://m.facebook.com")
                 (WWW ++ rest)
               = MOBILE ++ replace (py "https://www.facebook.com")
                             (py "https://m.facebook.com") rest) by reflexivity.
  rewrite E1, (@replace_colon _ _ rest) by (try exact H; vm_compute; tauto).
  apply replace_free.
  assert (E2 : contains (py "http://www.facebook.com") (MOBILE ++ rest)
               = contains (py "http://www.facebook.com") rest) by reflexivity.
  rewrite E2. apply contains_colon; [vm_compute; tauto|exact H].
Qed.

Lemma to_mobile_plain (rest : str) :
  Forall (fun c => c <> 58) rest -> to_mobile (WWW_PLAIN ++ rest) = MOBILE ++ rest.
Proof.
  intros H. unfold to_mobile.
  assert (E1 : contains (py "https://www.facebook.com") (WWW_PLAIN ++ rest)
               = contains (py "https://www.facebook.com") rest) by reflexivity.
  rewrite (@replace_free (py "https://www.facebook.com"))
    by (rewrite E1; apply contains_colon; [vm_compute; tauto|exact H]).
  assert (E2 : replace (py "http://www.facebook.com") (py "https://m.facebook.com")
                 (WWW_PLAIN ++ rest)
               = MOBILE ++ replace (py "http://www.facebook.com")
                             (py "https://m.facebook.com") rest) by reflexivity.
  rewrite E2, (@replace_colon _ _ rest) by (try exact H; vm_compute; tauto).
  reflexivity.
Qed.

Lemma R1_mobile (rest : str) :
  Forall (fun c => c <> 58) rest -> R1 (MOBILE ++ rest) = WWW ++ rest.
Proof.
  intros H. unfold R1.
  assert (E : replace (py "://m.facebook.") (py "://www.facebook.") (MOBILE ++ rest)
              = WWW ++ replace (py "://m.facebook.") (py "://www.facebook.") rest)
    by reflexivity.
  rewrite E, (@replace_colon _ _ rest) by (try exact H; vm_compute; tauto).
  reflexivity.
Qed.

Lemma R1_www (rest : str) :
  Forall (fun c => c <> 58) rest -> R1 (WWW ++ rest) = WWW ++ rest.
Proof.
  intros H. unfold R1.
  assert (E : replace (py "://m.facebook.") (py "://www.facebook.") (WWW ++ rest)
              = WWW ++ replace (py "://m.facebook.") (py "://www.facebook.") rest)
    by reflexivity.
  rewrite E, (@replace_colon _ _ rest) by (try exact H; vm_compute; tauto).
  reflexivity.
Qed.

Lemma canonicalize_mobile (rest : str) :
  nospace rest -> Forall (fun c => c <> 58) rest ->
  canonicalize_url (MOBILE ++ rest) = canonicalize_url (WWW ++ rest)
  /\ canonicalize_url (WWW_PLAIN ++ rest) = canonicalize_url (WWW ++ rest).
Proof.
  intros Hs Hc.
  assert (N1 : nospace (MOBILE ++ rest))
    by (apply Forall_app; split; [apply nospace_of_forallb; vm_compute; reflexivity|exact Hs]).
  assert (N2 : nospace (WWW ++ rest))
    by (apply Forall_app; split; [apply nospace_of_forallb; vm_compute; reflexivity|exact Hs]).
  assert (N3 : nospace (WWW_PLAIN ++ rest))
    by (apply Forall_app; split; [apply nospace_of_forallb; vm_compute; reflexivity|exact Hs]).
  rewrite (canonicalize_url_canon N1), (canonicalize_url_canon N2),
    (canonicalize_url_canon N3).
  change (truthy (MOBILE ++ rest)) with true.
  change (truthy (WWW ++ rest)) with true.
  change (truthy (WWW_PLAIN ++ rest)) with true. cbv iota.
  assert (W1 : with_scheme (MOBILE ++ rest) = MOBILE ++ rest) by reflexivity.
  assert (W2 : with_scheme (WWW ++ rest) = WWW ++ rest) by reflexivity.
  assert (W3 : with_scheme (WWW_PLAIN ++ rest) = WWW ++ rest) by reflexivity.
  rewrite W1, W2, W3. split; [|reflexivity].
  unfold canon_core. now rewrite (R1_mobile Hc), (R1_www Hc).
Qed.

End Mobile.

(** X26.  The sort parameter does not change what a URL stands
    for: for a URL without whitespace, [canonicalize_url] of
    [force_chronological(url)] is [canonicalize_url(url)], whether the URL
    had a query already or not. *)
Theorem sort_parameter_keeps_the_canonical_url :
  forall u : Py.str,
    nospace u ->
    ScrapePosts.canonicalize_url (ScrapePosts.force_chronological u)
    = ScrapePosts.canonicalize_url u.
Proof. exact canonicalize_force_chronological. Qed.

Lemma sort_parameter_keeps_the_canonical_url_witness :
  nospace (py "https://m.facebook.com/groups/1?ref=x")
  /\ ScrapePosts.force_chronological (py "https://m.facebook.com/groups/1?ref=x")
     = py "https://m.facebook.com/groups/1?ref=x&sorting_setting=CHRONOLOGICAL"
  /\ ScrapePosts.canonicalize_url
       (ScrapePosts.force_chronological (py "https://m.facebook.com/groups/1?ref=x"))
     = ScrapePosts.canonicalize_url (py "https://m.facebook.com/groups/1?ref=x").
Proof.
  assert (H : nospace (py "https://m.facebook.com/groups/1?ref=x"))
    by (apply nospace_of_forallb; vm_compute; reflexivity).
  split; [exact H|]. split; [vm_compute; reflexivity|].
  exact (@sort_parameter_keeps_the_canonical_url _ H).
Defined.

(** X27.  The page the crawler opens is the group's.  For a group
    URL on [www.facebook.com], with [http] or [https], whose path holds no
    colon and no whitespace, [to_mobile] gives the same path on
    [https://m.facebook.com], and the start URL
    [force_chronological(to_mobile(group_url))] has the canonical form of the
    group URL. *)
Theorem start_url_is_the_group :
  forall (plain : bool) (rest : Py.str),
    nospace rest -> Forall (fun c => c <> 58) rest ->
    let group_url := (if plain then WWW_PLAIN else WWW) ++ rest in
    ScrapePosts.to_mobile group_url = MOBILE ++ rest
    /\ ScrapePosts.canonicalize_url
         (ScrapePosts.force_chronological (ScrapePosts.to_mobile group_url))
       = ScrapePosts.canonicalize_url group_url.
Proof.
  intros plain rest Hs Hc. cbv zeta.
  assert (E : ScrapePosts.to_mobile ((if plain then WWW_PLAIN else WWW) ++ rest)
              = MOBILE ++ rest).
  { destruct plain; [now apply to_mobile_plain|now apply to_mobile_www]. }
  split; [exact E|]. rewrite E.
  assert (N1 : nospace (MOBILE ++ rest))
    by (apply Forall_app; split; [apply nospace_of_forallb; vm_compute; reflexivity|exact Hs]).
  rewrite (canonicalize_force_chronological N1).
  destruct (canonicalize_mobile Hs Hc) as [A B].
  rewrite A. destruct plain; [now rewrite B|reflexivity].
Qed.

Lemma start_url_is_the_group_witness :
  nospace (py "/groups/900072927547214/")
  /\ Forall (fun c => c <> 58) (py "/groups/900072927547214/")
  /\ ScrapePosts.to_mobile (py "https://www.facebook.com/groups/900072927547214/")
     = py "https://m.facebook.com/groups/900072927547214/"
  /\ ScrapePosts.canonicalize_url
       (ScrapePosts.force_chronological
          (ScrapePosts.to_mobile (py "https://www.facebook.com/groups/900072927547214/")))
     = ScrapePosts.canonicalize_url (py "https://www.facebook.com/groups/900072927547214/").
Proof.
  assert (H1 : nospace (py "/groups/900072927547214/"))
    by (apply nospace_of_forallb; vm_compute; reflexivity).
  assert (H2 : Forall (fun c => c <> 58) (py "/groups/900072927547214/"))
    by (apply differs_of_forallb; vm_compute; reflexivity).
  split; [exact H1|]. split; [exact H2|].
  exact (@start_url_is_the_group false (py "/groups/900072927547214/") H1 H2).
Defined.
